(** * Fantasy ranking engine (src/lib/fantasy-ranking.ts, src/lib/fantasy-ranking-cache.ts)

    A shallow embedding of the ranking engine of the fantasy basketball
    application: the date normalizer, the week calendar, the ownership
    interval reconstructor, the weekly points aggregator, the ranking
    calculator and the ranking cache, followed by the properties of the
    specification that concern them.  Around the engine it also embeds the
    game log fetcher, the endpoints that serve the leaderboard and a
    player's recent points, the in-memory cache (lib/cache.ts), the team
    helpers (lib/fantasy.ts) and the line-up endpoints (move-player,
    swap-players).

    Modelling conventions.
    - A JavaScript [Date] is its time value: [Some ms] (milliseconds since
      the epoch) or [None] for an Invalid Date (time value NaN).
    - A JavaScript number that only ever holds an integer or NaN (week
      numbers, parsed years, months and days, points) is [option Z] when NaN
      can arise and [Z] otherwise; arithmetic on them is exact (the rounding
      of doubles beyond 2^53 is not modelled).
    - A JavaScript string is a [string] whose characters stand for code
      units below 256.
    - The host time zone is a [Zone]: the offset from UTC (milliseconds
      east) in force at each instant and the offset that the host applies to
      each local time, which differ around a change of offset.  A host that
      keeps one offset is [fixedZone offset]; an offset written where a zone
      is expected stands for that host.  The host's parser behind
      [new Date(string)] and the host's collation behind [localeCompare] are
      parameters.
    - A call that may throw returns an [option], [None] standing for the
      exception; where the code catches it, the model returns what the
      handler returns.
    - A [Map] is an association list in insertion order.
    - The answers of the store and of the stats provider are inputs; an
      endpoint returns its response together with the writes it sends, in
      order.  What the store does with a write (row security, triggers) is
      not modelled. *)

From Stdlib Require Import ZArith List String Ascii Bool Lia.
From Stdlib Require Import Permutation Sorted.
From Stdlib Require Import Numbers.DecimalString.
From Stdlib Require Import Structures.OrderedTypeEx.
Import ListNotations.
Local Open Scope Z_scope.
Local Open Scope list_scope.

(* ================================================================== *)
(** * ECMAScript numbers that may be NaN *)

Definition Num := option Z.

Definition num_sub (a b : Num) : Num :=
  match a, b with Some x, Some y => Some (x - y) | _, _ => None end.

Definition num_add (a b : Num) : Num :=
  match a, b with Some x, Some y => Some (x + y) | _, _ => None end.

(** [Math.floor(a / k)] for a positive integer constant [k]. *)
Definition num_floor_div (a : Num) (k : Z) : Num :=
  match a with Some x => Some (x / k) | None => None end.

(** [Math.max(1, a)]: NaN when [a] is NaN. *)
Definition num_max1 (a : Num) : Num :=
  match a with Some x => Some (Z.max 1 x) | None => None end.

(** The relational operators of JavaScript on numbers: false on NaN. *)
Definition num_ge (a b : Num) : bool :=
  match a, b with Some x, Some y => y <=? x | _, _ => false end.

Definition num_lt (a b : Num) : bool :=
  match a, b with Some x, Some y => x <? y | _, _ => false end.

Definition num_eq_dec : forall a b : Num, {a = b} + {a <> b}.
Proof. decide equality. apply Z.eq_dec. Defined.

(* ================================================================== *)
(** * ECMAScript time values and dates (ECMA-262, Date objects) *)

Definition JSDate := option Z.

Definition msPerDay : Z := 86400000.
Definition maxTimeValue : Z := 8640000000000000.

Definition TimeClip (t : Z) : JSDate :=
  if Z.abs t <=? maxTimeValue then Some t else None.

Definition Day (t : Z) : Z := t / msPerDay.
Definition TimeWithinDay (t : Z) : Z := t mod msPerDay.

Definition DayFromYear (y : Z) : Z :=
  365 * (y - 1970) + (y - 1969) / 4 - (y - 1901) / 100 + (y - 1601) / 400.

Definition isLeapYear (y : Z) : bool :=
  ((y mod 4 =? 0) && negb (y mod 100 =? 0)) || (y mod 400 =? 0).

Definition leapDays (y : Z) : Z := if isLeapYear y then 1 else 0.

(** The year [y] with [DayFromYear y <= d < DayFromYear (y + 1)], found from
    the mean year length and one correction step. *)
Definition YearFromDay (d : Z) : Z :=
  let y := 1970 + (400 * d) / 146097 in
  if d <? DayFromYear y then y - 1
  else if DayFromYear (y + 1) <=? d then y + 1
  else y.

Definition YearFromTime (t : Z) : Z := YearFromDay (Day t).
Definition InLeapYear (t : Z) : Z := leapDays (YearFromTime t).
Definition DayWithinYear (t : Z) : Z := Day t - DayFromYear (YearFromTime t).

(** Day within the year on which month [m] (0 = January) starts. *)
Definition monthStart (leap m : Z) : Z :=
  if m =? 0 then 0 else if m =? 1 then 31
  else if m =? 2 then 59 + leap else if m =? 3 then 90 + leap
  else if m =? 4 then 120 + leap else if m =? 5 then 151 + leap
  else if m =? 6 then 181 + leap else if m =? 7 then 212 + leap
  else if m =? 8 then 243 + leap else if m =? 9 then 273 + leap
  else if m =? 10 then 304 + leap else 334 + leap.

Definition monthOfDayWithinYear (leap dwy : Z) : Z :=
  if dwy <? 31 then 0 else if dwy <? 59 + leap then 1
  else if dwy <? 90 + leap then 2 else if dwy <? 120 + leap then 3
  else if dwy <? 151 + leap then 4 else if dwy <? 181 + leap then 5
  else if dwy <? 212 + leap then 6 else if dwy <? 243 + leap then 7
  else if dwy <? 273 + leap then 8 else if dwy <? 304 + leap then 9
  else if dwy <? 334 + leap then 10 else 11.

Definition MonthFromTime (t : Z) : Z :=
  monthOfDayWithinYear (InLeapYear t) (DayWithinYear t).

Definition DateFromTime (t : Z) : Z :=
  DayWithinYear t - monthStart (InLeapYear t) (MonthFromTime t) + 1.

(** 0 = Sunday; 1 January 1970 was a Thursday. *)
Definition WeekDay (t : Z) : Z := (Day t + 4) mod 7.

Definition HourFromTime (t : Z) : Z := (t / 3600000) mod 24.
Definition MinFromTime (t : Z) : Z := (t / 60000) mod 60.
Definition SecFromTime (t : Z) : Z := (t / 1000) mod 60.
Definition msFromTime (t : Z) : Z := t mod 1000.

Definition MakeTime (h m s ms : Z) : Z :=
  h * 3600000 + m * 60000 + s * 1000 + ms.

Definition MakeDay (year month date : Z) : Z :=
  let ym := year + month / 12 in
  let mn := month mod 12 in
  DayFromYear ym + monthStart (leapDays ym) mn + date - 1.

Definition MakeDate (day time : Z) : Z := day * msPerDay + time.

(** Two-digit years are read as 19xx by [Date.UTC] and by the
    multi-argument [Date] constructor. *)
Definition MakeFullYear (y : Z) : Z :=
  if (0 <=? y) && (y <=? 99) then 1900 + y else y.

(** [Date.UTC(y, m, d)] followed by [new Date(...)]. *)
Definition Date_UTC (y m d : Num) : JSDate :=
  match y, m, d with
  | Some y, Some m, Some d =>
      TimeClip (MakeDate (MakeDay (MakeFullYear y) m d) (MakeTime 0 0 0 0))
  | _, _, _ => None
  end.

(** The host's time zone (ECMA-262, LocalTime and UTC).  [localOffset t] is
    the offset of local time from UTC, in milliseconds, in force at the
    instant [t]; [utcOffset t] is the offset the host applies to the local
    time [t] (where a change of offset makes a local time occur twice or not
    at all, the host chooses).  Both are constant on a host that keeps one
    offset all year. *)
Record Zone : Type := mkZone {
  localOffset : Z -> Z;
  utcOffset : Z -> Z
}.

(** A zone that keeps one offset; an offset stands for it wherever a zone is
    expected. *)
Definition fixedZone (offset : Z) : Zone :=
  mkZone (fun _ => offset) (fun _ => offset).

Coercion fixedZone : Z >-> Zone.

Section HostTimeZone.

Variable tz : Zone.

Definition LocalTime (t : Z) : Z := t + localOffset tz t.
Definition UTC (t : Z) : Z := t - utcOffset tz t.

(** [new Date(year, month, day)]: local midnight of that calendar day. *)
Definition Date_local (y m d : Num) : JSDate :=
  match y, m, d with
  | Some y, Some m, Some d =>
      TimeClip (UTC (MakeDate (MakeDay (MakeFullYear y) m d) (MakeTime 0 0 0 0)))
  | _, _, _ => None
  end.

Definition getTime (d : JSDate) : Num := d.

Definition getFullYear (d : JSDate) : Num :=
  option_map (fun t => YearFromTime (LocalTime t)) d.

Definition getMonth (d : JSDate) : Num :=
  option_map (fun t => MonthFromTime (LocalTime t)) d.

Definition getDate (d : JSDate) : Num :=
  option_map (fun t => DateFromTime (LocalTime t)) d.

Definition getDay (d : JSDate) : Num :=
  option_map (fun t => WeekDay (LocalTime t)) d.

(** [d.setDate(dt)], returning the updated date. *)
Definition setDate (d : JSDate) (dt : Num) : JSDate :=
  match d, dt with
  | Some t, Some dt =>
      let lt := LocalTime t in
      TimeClip (UTC (MakeDate (MakeDay (YearFromTime lt) (MonthFromTime lt) dt)
                              (TimeWithinDay lt)))
  | _, _ => None
  end.

(** [d.setHours(h, m, s, ms)], returning the updated date. *)
Definition setHours (d : JSDate) (h m s ms : Z) : JSDate :=
  match d with
  | Some t => TimeClip (UTC (MakeDate (Day (LocalTime t)) (MakeTime h m s ms)))
  | None => None
  end.

Definition getMinutes (d : JSDate) : Num :=
  option_map (fun t => MinFromTime (LocalTime t)) d.

(** [d.setMinutes(m)], returning the updated date. *)
Definition setMinutes (d : JSDate) (m : Num) : JSDate :=
  match d, m with
  | Some t, Some m =>
      let lt := LocalTime t in
      TimeClip (UTC (MakeDate (Day lt)
                              (MakeTime (HourFromTime lt) m (SecFromTime lt)
                                        (msFromTime lt))))
  | _, _ => None
  end.

End HostTimeZone.

(** The relational operators on [Date] objects compare time values. *)
Definition date_ge (a b : JSDate) : bool := num_ge a b.
Definition date_lt (a b : JSDate) : bool := num_lt a b.

(* ================================================================== *)
(** * Strings: the character classes, [parseInt] and the string methods
      used by the date normalizer *)

Definition code (c : ascii) : Z := Z.of_N (N_of_ascii c).

(** [\d] *)
Definition isDigit (c : ascii) : bool := (48 <=? code c) && (code c <=? 57).

(** [[A-Za-z]] *)
Definition isAsciiLetter (c : ascii) : bool :=
  ((65 <=? code c) && (code c <=? 90)) || ((97 <=? code c) && (code c <=? 122)).

(** [\s], and the white space skipped by [parseInt] *)
Definition isWhiteSpace (c : ascii) : bool :=
  let n := code c in
  (n =? 9) || (n =? 10) || (n =? 11) || (n =? 12) || (n =? 13) || (n =? 32)
  || (n =? 160).

(** Longest prefix whose characters satisfy [p], and the rest. *)
Fixpoint span (p : ascii -> bool) (s : string) : string * string :=
  match s with
  | EmptyString => (EmptyString, EmptyString)
  | String c r =>
      if p c then let (a, b) := span p r in (String c a, b)
      else (EmptyString, s)
  end.

Definition strlen (s : string) : Z := Z.of_nat (String.length s).

Definition isEmpty (s : string) : bool :=
  match s with EmptyString => true | _ => false end.

(** Value of a digit in radix [radix], if it is one. *)
Definition digitValue (radix : Z) (c : ascii) : option Z :=
  let n := code c in
  let v := if (48 <=? n) && (n <=? 57) then n - 48
           else if (97 <=? n) && (n <=? 122) then n - 87
           else if (65 <=? n) && (n <=? 90) then n - 55
           else radix in
  if v <? radix then Some v else None.

(** Reads the longest prefix of digits; [None] when there is no digit. *)
Fixpoint parseDigits (radix : Z) (acc : option Z) (s : string) : option Z :=
  match s with
  | EmptyString => acc
  | String c r =>
      match digitValue radix c with
      | Some v =>
          parseDigits radix
            (Some (match acc with Some a => a * radix + v | None => v end)) r
      | None => acc
      end
  end.

(** [parseInt(s)] with no radix argument. *)
Definition parseInt (s : string) : Num :=
  let s1 := snd (span isWhiteSpace s) in
  let '(sign, s2) :=
    match s1 with
    | String c r =>
        if Ascii.eqb c "-" then (-1, r)
        else if Ascii.eqb c "+" then (1, r)
        else (1, s1)
    | EmptyString => (1, s1)
    end in
  let '(radix, s3) :=
    match s2 with
    | String c0 (String c1 r) =>
        if Ascii.eqb c0 "0" && (Ascii.eqb c1 "x" || Ascii.eqb c1 "X")
        then (16, r)
        else (10, s2)
    | _ => (10, s2)
    end in
  option_map (Z.mul sign) (parseDigits radix None s3).

(** [s.includes(c)] for a one-character needle. *)
Fixpoint includesChar (c : ascii) (s : string) : bool :=
  match s with
  | EmptyString => false
  | String x r => Ascii.eqb x c || includesChar c r
  end.

(** [s.split(c)] for a one-character separator; the current piece is
    accumulated in reverse. *)
Fixpoint splitAux (c : ascii) (cur : string) (s : string) : list string :=
  match s with
  | EmptyString => [cur]
  | String x r =>
      if Ascii.eqb x c then cur :: splitAux c EmptyString r
      else splitAux c (cur ++ String x EmptyString)%string r
  end.

Definition split (c : ascii) (s : string) : list string :=
  splitAux c EmptyString s.

(** [s.substring(a, b)] for [0 <= a <= b]. *)
Definition substring (a b : nat) (s : string) : string :=
  String.substring a (b - a) s.

Fixpoint allChars (p : ascii -> bool) (s : string) : bool :=
  match s with
  | EmptyString => true
  | String c r => p c && allChars p r
  end.

(** [/^\d{8}$/.test(s)] *)
Definition isEightDigits (s : string) : bool :=
  allChars isDigit s && (strlen s =? 8).

(** [s.match(/^([A-Za-z]{3})\s+(\d{1,2}),\s+(\d{4})$/)]: the three groups.
    The classes that meet at each boundary are disjoint, so the greedy
    reading is the only one. *)
Definition matchMmmDdYyyy (s : string) : option (string * string * string) :=
  match s with
  | String a (String b (String c r)) =>
      if isAsciiLetter a && isAsciiLetter b && isAsciiLetter c then
        let (ws1, r1) := span isWhiteSpace r in
        if isEmpty ws1 then None else
        let (ds, r2) := span isDigit r1 in
        if (1 <=? strlen ds) && (strlen ds <=? 2) then
          match r2 with
          | String comma r3 =>
              if Ascii.eqb comma "," then
                let (ws2, r4) := span isWhiteSpace r3 in
                if isEmpty ws2 then None else
                let (ys, r5) := span isDigit r4 in
                if (strlen ys =? 4) && isEmpty r5
                then Some (String a (String b (String c EmptyString)), ds, ys)
                else None
              else None
          | EmptyString => None
          end
        else None
      else None
  | _ => None
  end.

(** [names.indexOf(x)]: -1 when absent. *)
Fixpoint indexOfFrom (i : Z) (x : string) (names : list string) : Z :=
  match names with
  | [] => -1
  | n :: rest => if String.eqb n x then i else indexOfFrom (i + 1) x rest
  end.

Definition indexOf (x : string) (names : list string) : Z := indexOfFrom 0 x names.

(* ================================================================== *)
(** * Date normalizer and week calendar (fantasy-ranking.ts, 95-193) *)

(** The argument of [normalizeDate]: [Date | string]. *)
Inductive DateInput : Type :=
| FromDate (d : JSDate)
| FromString (s : string).

(** What [console.warn] is given. *)
Inductive Warning : Type :=
| InvalidDateDetected (original : DateInput).

Definition monthNames : list string :=
  ["Jan"; "Feb"; "Mar"; "Apr"; "May"; "Jun";
   "Jul"; "Aug"; "Sep"; "Oct"; "Nov"; "Dec"]%string.

Section Host.

Variable tz : Zone.

(** [new Date(s)] for a string: the host's date parser. *)
Variable dateParse : string -> JSDate.

(** The date [d] that [normalizeDate] obtains from its argument before
    validating it. *)
Definition parsedDate (date : DateInput) : JSDate :=
  match date with
  | FromString date =>
      match matchMmmDdYyyy date with
      | Some (mmm, dd, yyyy) =>
          let month := indexOf mmm monthNames in
          let day := parseInt dd in
          let year := parseInt yyyy in
          if negb (month =? -1) then Date_local tz year (Some month) day
          else dateParse date
      | None =>
          if includesChar "/" date then
            match split "/" date with
            | [p0; p1; p2] =>
                Date_local tz (parseInt p2) (num_sub (parseInt p0) (Some 1))
                           (parseInt p1)
            | _ => dateParse date
            end
          else if isEightDigits date then
            let year := parseInt (substring 0 4 date) in
            let month := num_sub (parseInt (substring 4 6 date)) (Some 1) in
            let day := parseInt (substring 6 8 date) in
            Date_local tz year month day
          else dateParse date
      end
  | FromDate date => date
  end.

(** [normalizeDate] together with the warnings it writes. *)
Definition normalizeDateLog (date : DateInput) : JSDate * list Warning :=
  let d := parsedDate date in
  match getTime d with
  | None =>
      (Date_UTC (Some 1970) (Some 0) (Some 1), [InvalidDateDetected date])
  | Some _ =>
      (Date_UTC (getFullYear tz d) (getMonth tz d) (getDate tz d), [])
  end.

Definition normalizeDate (date : DateInput) : JSDate :=
  fst (normalizeDateLog date).

(** The default of the [seasonStartDate] parameters. *)
Definition defaultSeasonStart : JSDate := dateParse "2024-10-22".

Definition getWeekNumber (date seasonStartDate : JSDate) : Num :=
  let normalizedDate := normalizeDate (FromDate date) in
  let normalizedStart := normalizeDate (FromDate seasonStartDate) in
  let diffTime := num_sub (getTime normalizedDate) (getTime normalizedStart) in
  let diffDays := num_floor_div diffTime (1000 * 60 * 60 * 24) in
  let weekNumber := num_add (num_floor_div diffDays 7) (Some 1) in
  num_max1 weekNumber.

Record WeekDates : Type := mkWeekDates { wd_start : JSDate; wd_end : JSDate }.

Definition getWeekDates (weekNumber : Num) (seasonStartDate : JSDate) : WeekDates :=
  let startDays := option_map (fun w => (w - 1) * 7) weekNumber in
  let start := seasonStartDate in
  let start := setDate tz start (num_add (getDate tz start) startDays) in
  let dayOfWeek := getDay tz start in
  let diffToMonday :=
    option_map (fun dow => if dow =? 0 then -6 else 1 - dow) dayOfWeek in
  let start := setDate tz start (num_add (getDate tz start) diffToMonday) in
  let start := setHours tz start 0 0 0 0 in
  let end_ := start in
  let end_ := setDate tz end_ (num_add (getDate tz end_) (Some 6)) in
  let end_ := setHours tz end_ 23 59 59 999 in
  {| wd_start := start; wd_end := end_ |}.

End Host.

(** Number of days of month [m] (0 = January). *)
Definition daysInMonth (leap m : Z) : Z :=
  if m =? 1 then 28 + leap
  else if (m =? 3) || (m =? 5) || (m =? 8) || (m =? 10) then 30
  else 31.

(** A host parser that reads exactly the date-only ISO form [YYYY-MM-DD] (as
    UTC midnight, ECMA-262 Date Time String Format) and rejects every other
    string; used to run the engine on concrete inputs. *)
Definition isoDateParse (s : string) : JSDate :=
  match split "-" s with
  | [y; m; d] =>
      if allChars isDigit y && (strlen y =? 4) && allChars isDigit m
         && (strlen m =? 2) && allChars isDigit d && (strlen d =? 2) then
        match parseInt y, parseInt m, parseInt d with
        | Some yy, Some mm, Some dd =>
            if (1 <=? mm) && (mm <=? 12) && (1 <=? dd)
               && (dd <=? daysInMonth (leapDays yy) (mm - 1))
            then TimeClip (MakeDate (MakeDay yy (mm - 1) dd) 0)
            else None
        | _, _, _ => None
        end
      else None
  | _ => None
  end.

(* ================================================================== *)
(** * [Map] objects and [Array.prototype.sort] *)

Section JSMap.

Context {K V : Type}.
Variable keq : K -> K -> bool.

Definition JSMap : Type := list (K * V).

(** [m.get(k)] *)
Fixpoint map_get (k : K) (m : JSMap) : option V :=
  match m with
  | [] => None
  | (k', v) :: rest => if keq k' k then Some v else map_get k rest
  end.

(** [m.has(k)] *)
Definition map_has (k : K) (m : JSMap) : bool :=
  match map_get k m with Some _ => true | None => false end.

(** [m.set(k, v)]: an existing key keeps its place, a new key goes last. *)
Fixpoint map_set (k : K) (v : V) (m : JSMap) : JSMap :=
  match m with
  | [] => [(k, v)]
  | (k', v') :: rest =>
      if keq k' k then (k', v) :: rest else (k', v') :: map_set k v rest
  end.

Definition map_keys (m : JSMap) : list K := map fst m.

(** [Array.from(m.values())] *)
Definition map_values (m : JSMap) : list V := map snd m.

End JSMap.

Arguments JSMap : clear implicits.

Definition num_eqb (a b : Num) : bool :=
  match a, b with
  | Some x, Some y => x =? y
  | None, None => true
  | _, _ => false
  end.

Section JSSort.

Context {A : Type}.

(** The comparator; a NaN result is read as 0, as [sort] does. *)
Variable cmp : A -> A -> Num.

Definition goesAfter (x y : A) : bool :=
  match cmp x y with Some v => 0 <? v | None => false end.

Fixpoint insertSorted (x : A) (l : list A) : list A :=
  match l with
  | [] => [x]
  | y :: rest => if goesAfter x y then y :: insertSorted x rest else x :: l
  end.

(** [l.sort(cmp)]: the stable sort.  ECMA-262 requires stability, so for a
    consistent comparator the result does not depend on the algorithm.  For
    a comparator that is not consistent (one that yields NaN for some pairs
    only) the standard leaves the order to the engine; the result is still
    a permutation of the array, and only that is claimed of such a sort. *)
Definition jsSort (l : list A) : list A := fold_right insertSorted [] l.

End JSSort.

(* ================================================================== *)
(** * Data model (fantasy-ranking.ts, 8-27 and 507-513) and query rows *)

Record PlayerGameLog : Type := mkGameLog {
  gl_date : string;
  gl_points : Z
}.

Record PlayerOwnershipPeriod : Type := mkPeriod {
  userId : string;
  teamId : string;
  playerId : Z;
  playerName : string;
  purchaseDate : JSDate;
  saleDate : option JSDate   (* [None] is [null]: still owned *)
}.

Record WeeklyPoints : Type := mkWeeklyPoints {
  weekNumber : Num;
  weekStartDate : JSDate;
  weekEndDate : JSDate;
  wp_points : Z
}.

Record TeamRanking : Type := mkRanking {
  r_userId : string;
  r_teamId : string;
  r_teamName : string;
  totalPoints : Z;
  weeklyBreakdown : JSMap Num Z
}.

(** What a query of the store hands back: [{ data, error }]. *)
Inductive QueryResult (A : Type) : Type :=
| QueryOk (data : list A)
| QueryError.

Arguments QueryOk {A} data.
Arguments QueryError {A}.

(** A row of [user_teams]: [id, user_id, team_name]. *)
Record TeamRow : Type := mkTeam {
  team_id : string;
  team_user_id : string;
  team_name : string
}.

(** A row of [players_on_team] with its joined team.  The timestamp columns
    are held as the [Date] that [new Date(column)] yields; [pot_purchased_at]
    is [None] when the column is null; [pot_user_id] is [team?.user_id]. *)
Record PlayerOnTeamRow : Type := mkPlayerOnTeam {
  pot_team_id : string;
  pot_player_id : Z;
  pot_player_name : string;
  pot_purchased_at : option JSDate;
  pot_created_at : JSDate;
  pot_user_id : option string
}.

(** A row of [transactions] of type purchase with its two joined teams. *)
Record TransactionRow : Type := mkTransaction {
  tx_id : string;
  tx_buyer_team_id : string;
  tx_seller_team_id : string;
  tx_player_id : Z;
  tx_player_name : string;
  tx_created_at : JSDate;
  tx_buyer_user_id : option string;
  tx_seller_user_id : option string
}.

(** A string read through [!s] or [s || ...]: absent and empty are falsy. *)
Definition truthy (o : option string) : option string :=
  match o with
  | Some s => if isEmpty s then None else Some s
  | None => None
  end.

(* ================================================================== *)
(** * Ownership interval reconstructor (fantasy-ranking.ts, 198-417) *)

(** An element of a player's history array. *)
Record HistoryPeriod : Type := mkHistory {
  h_userId : string;
  h_teamId : string;
  h_purchaseDate : JSDate;
  h_saleDate : option JSDate
}.

Definition PlayerHistoryMap : Type := JSMap Z (list HistoryPeriod).

(** The predicate of both [history.find] calls. *)
Definition isOpenPeriodOf (user team : string) (p : HistoryPeriod) : bool :=
  String.eqb (h_userId p) user && String.eqb (h_teamId p) team
  && match h_saleDate p with None => true | Some _ => false end.

(** [history.find(...)] followed by [previousPeriod.saleDate = transactionDate]
    on the element found: the first match is updated in place. *)
Fixpoint closeFirstOpen (user team : string) (transactionDate : JSDate)
    (history : list HistoryPeriod) : list HistoryPeriod :=
  match history with
  | [] => []
  | p :: rest =>
      if isOpenPeriodOf user team p
      then mkHistory (h_userId p) (h_teamId p) (h_purchaseDate p)
                     (Some transactionDate) :: rest
      else p :: closeFirstOpen user team transactionDate rest
  end.

Definition historyOf (playerId : Z) (m : PlayerHistoryMap) : list HistoryPeriod :=
  match map_get Z.eqb playerId m with Some h => h | None => [] end.

(** Step 1, the body of [transactions.forEach]. *)
Definition processTransaction (m : PlayerHistoryMap) (transaction : TransactionRow)
    : PlayerHistoryMap :=
  match truthy (tx_buyer_user_id transaction),
        truthy (tx_seller_user_id transaction) with
  | Some buyerUserId, Some sellerUserId =>
      let playerId := tx_player_id transaction in
      let transactionDate := tx_created_at transaction in
      let m := if map_has Z.eqb playerId m then m
               else map_set Z.eqb playerId [] m in
      let history := historyOf playerId m in
      let history :=
        closeFirstOpen sellerUserId (tx_seller_team_id transaction)
                       transactionDate history in
      let history :=
        history ++ [mkHistory buyerUserId (tx_buyer_team_id transaction)
                              transactionDate None] in
      map_set Z.eqb playerId history m
  | _, _ => m
  end.

Definition buildHistory (transactions : list TransactionRow) : PlayerHistoryMap :=
  fold_left processTransaction transactions [].

(** Step 2, the body of the loop over [playersOnTeam]. *)
Definition processRosterRow (m : PlayerHistoryMap)
    (periods : list PlayerOwnershipPeriod) (player : PlayerOnTeamRow)
    : list PlayerOwnershipPeriod :=
  match truthy (pot_user_id player) with
  | None => periods
  | Some userId =>
      let playerId := pot_player_id player in
      let purchaseDate :=
        match pot_purchased_at player with
        | Some d => d
        | None => pot_created_at player
        end in
      let history := historyOf playerId m in
      match find (isOpenPeriodOf userId (pot_team_id player)) history with
      | Some existingActivePeriod =>
          periods ++ [mkPeriod userId (pot_team_id player) playerId
                               (pot_player_name player)
                               (h_purchaseDate existingActivePeriod) None]
      | None =>
          periods ++ [mkPeriod userId (pot_team_id player) playerId
                               (pot_player_name player) purchaseDate None]
      end
  end.

(** [Math.abs(a.getTime() - b.getTime()) < 1000] *)
Definition within1000ms (a b : JSDate) : bool :=
  match num_sub (getTime a) (getTime b) with
  | Some v => Z.abs v <? 1000
  | None => false
  end.

(** The predicate of [periods.some] in step 3. *)
Definition sameHolding (pid : Z) (period : HistoryPeriod)
    (p : PlayerOwnershipPeriod) : bool :=
  (playerId p =? pid)
  && String.eqb (userId p) (h_userId period)
  && String.eqb (teamId p) (h_teamId period)
  && within1000ms (purchaseDate p) (h_purchaseDate period).

(** Step 3, the body of [history.forEach]. *)
Definition emitClosedPeriod (playerId : Z) (playerName : string)
    (periods : list PlayerOwnershipPeriod) (period : HistoryPeriod)
    : list PlayerOwnershipPeriod :=
  match h_saleDate period with
  | Some sale =>
      let alreadyAdded := existsb (sameHolding playerId period) periods in
      if negb alreadyAdded then
        periods ++ [mkPeriod (h_userId period) (h_teamId period) playerId
                             playerName (h_purchaseDate period) (Some sale)]
      else periods
  | None => periods
  end.

(** [`Jugador ${playerId}`] *)
Definition fallbackPlayerName (playerId : Z) : string :=
  ("Jugador " ++ NilEmpty.string_of_int (Z.to_int playerId))%string.

(** The name given to the closed periods of a player. *)
Definition closedPeriodName (playersOnTeam : list PlayerOnTeamRow)
    (transactions : option (list TransactionRow)) (playerId : Z) : string :=
  let player := find (fun p => pot_player_id p =? playerId) playersOnTeam in
  match truthy (option_map pot_player_name player) with
  | Some n => n
  | None =>
      let t := match transactions with
               | Some ts => find (fun t => tx_player_id t =? playerId) ts
               | None => None
               end in
      match truthy (option_map tx_player_name t) with
      | Some n => n
      | None => fallbackPlayerName playerId
      end
  end.

(** Step 3, the body of [playerHistoryMap.forEach]. *)
Definition emitPlayerHistory (playersOnTeam : list PlayerOnTeamRow)
    (transactions : option (list TransactionRow))
    (periods : list PlayerOwnershipPeriod)
    (entry : Z * list HistoryPeriod) : list PlayerOwnershipPeriod :=
  let (playerId, history) := entry in
  let playerName := closedPeriodName playersOnTeam transactions playerId in
  fold_left (emitClosedPeriod playerId playerName) history periods.

(** The three steps on the rows already fetched. *)
Definition reconstructPeriods (playersOnTeam : list PlayerOnTeamRow)
    (transactions : option (list TransactionRow)) : list PlayerOwnershipPeriod :=
  let playerHistoryMap :=
    match transactions with
    | Some ts => buildHistory ts
    | None => []
    end in
  let periods := fold_left (processRosterRow playerHistoryMap) playersOnTeam [] in
  fold_left (emitPlayerHistory playersOnTeam transactions) playerHistoryMap periods.

(** [getPlayerOwnershipPeriods]: a failed roster query gives no period, a
    failed transaction query is treated as no transaction. *)
Definition getPlayerOwnershipPeriods (playersQuery : QueryResult PlayerOnTeamRow)
    (transactionsQuery : QueryResult TransactionRow) : list PlayerOwnershipPeriod :=
  match playersQuery with
  | QueryError => []
  | QueryOk playersOnTeam =>
      reconstructPeriods playersOnTeam
        match transactionsQuery with
        | QueryOk ts => Some ts
        | QueryError => None
        end
  end.

(* ================================================================== *)
(** * Weekly points aggregator (fantasy-ranking.ts, 422-502) *)

(** [d.toISOString()] throws a [RangeError] on an Invalid Date. *)
Definition toISOStringThrows (d : JSDate) : bool :=
  match d with
  | None => true
  | Some _ => false
  end.

Section Engine.

Variable tz : Zone.
Variable dateParse : string -> JSDate.

(** The predicate of [gameLogs.filter]. *)
Definition isInRange (normalizedPurchaseDate : JSDate)
    (normalizedSaleDate : option JSDate) (game : PlayerGameLog) : bool :=
  let gameDate := normalizeDate tz dateParse (FromString (gl_date game)) in
  let isAfterPurchase := date_ge gameDate normalizedPurchaseDate in
  let isBeforeSale :=
    match normalizedSaleDate with
    | None => true
    | Some sale => date_lt gameDate sale
    end in
  isAfterPurchase && isBeforeSale.

(** The log lines of [calculateWeeklyPoints] (448-479): when the log is not
    empty they print the normalized purchase date, the normalized sale date
    when there is one, and the normalized dates of the first and the last
    game with [toISOString]; the later lines print the same dates again. *)
Definition debugLogThrows (normalizedPurchaseDate : JSDate)
    (normalizedSaleDate : option JSDate) (gameLogs : list PlayerGameLog) : bool :=
  match gameLogs with
  | [] => false
  | first :: _ =>
      let firstGame := normalizeDate tz dateParse (FromString (gl_date first)) in
      let lastGame :=
        normalizeDate tz dateParse (FromString (gl_date (last gameLogs first))) in
      toISOStringThrows normalizedPurchaseDate
      || match normalizedSaleDate with
         | Some sale => toISOStringThrows sale
         | None => false
         end
      || toISOStringThrows firstGame
      || toISOStringThrows lastGame
  end.

(** The body of [filteredGames.forEach]. *)
Definition addGameToWeek (normalizedSeasonStart : JSDate) (m : JSMap Num Z)
    (game : PlayerGameLog) : JSMap Num Z :=
  let gameDate := normalizeDate tz dateParse (FromString (gl_date game)) in
  let weekNumber := getWeekNumber tz dateParse gameDate normalizedSeasonStart in
  let currentPoints :=
    match map_get num_eqb weekNumber m with Some p => p | None => 0 end in
  map_set num_eqb weekNumber (currentPoints + gl_points game) m.

Definition compareWeeks (a b : WeeklyPoints) : Num :=
  num_sub (weekNumber a) (weekNumber b).

(** [calculateWeeklyPoints]; [None] when it throws. *)
Definition calculateWeeklyPoints (gameLogs : list PlayerGameLog)
    (purchaseDate : JSDate) (saleDate : option JSDate)
    (seasonStartDate : JSDate) : option (list WeeklyPoints) :=
  let normalizedPurchaseDate := normalizeDate tz dateParse (FromDate purchaseDate) in
  let normalizedSaleDate :=
    option_map (fun s => normalizeDate tz dateParse (FromDate s)) saleDate in
  let normalizedSeasonStart := normalizeDate tz dateParse (FromDate seasonStartDate) in
  let filteredGames :=
    filter (isInRange normalizedPurchaseDate normalizedSaleDate) gameLogs in
  if debugLogThrows normalizedPurchaseDate normalizedSaleDate gameLogs then None
  else
    let weeklyPointsMap :=
      fold_left (addGameToWeek normalizedSeasonStart) filteredGames [] in
    let weeklyPoints :=
      map (fun '(weekNumber, points) =>
             let wd := getWeekDates tz weekNumber normalizedSeasonStart in
             mkWeeklyPoints weekNumber (wd_start wd) (wd_end wd) points)
          weeklyPointsMap in
    Some (jsSort compareWeeks weeklyPoints).

(* ================================================================== *)
(** * Ranking calculator (fantasy-ranking.ts, 515-740) *)

(** [a.localeCompare(b)] in the host's default locale. *)
Variable localeCompare : string -> string -> Z.

(** The game log that [getPlayerAllGameLogs] returns for each player; a
    failed fetch is the empty log. *)
Variable getPlayerAllGameLogs : Z -> list PlayerGameLog.

(** The order in which the fetches started under [Promise.all] complete
    (a rearrangement of the players asked for); each completion stores its
    log in the map. *)
Variable fetchOrder : list Z -> list Z.

Definition UserRankingsMap : Type := JSMap string TeamRanking.

(** [[...new Set(l)]] *)
Fixpoint distinct (l : list Z) (seen : list Z) : list Z :=
  match l with
  | [] => []
  | x :: rest =>
      if existsb (Z.eqb x) seen then distinct rest seen
      else x :: distinct rest (x :: seen)
  end.

(** The body of [teams.forEach] that initialises the rankings. *)
Definition initRanking (m : UserRankingsMap) (team : TeamRow) : UserRankingsMap :=
  map_set String.eqb (team_user_id team)
    (mkRanking (team_user_id team) (team_id team) (team_name team) 0 []) m.

(** The body of [weeklyPoints.forEach]: the ranking object is updated in
    place. *)
Definition addWeekly (ranking : TeamRanking) (weekly : WeeklyPoints) : TeamRanking :=
  let currentWeekPoints :=
    match map_get num_eqb (weekNumber weekly) (weeklyBreakdown ranking) with
    | Some p => p
    | None => 0
    end in
  let newWeekPoints := currentWeekPoints + wp_points weekly in
  mkRanking (r_userId ranking) (r_teamId ranking) (r_teamName ranking)
            (totalPoints ranking + wp_points weekly)
            (map_set num_eqb (weekNumber weekly) newWeekPoints
                     (weeklyBreakdown ranking)).

(** The ranking a period is credited to: the one stored under the
    period's user, else a new one made from the period's team, else none
    (the period is skipped). *)
Definition rankingFor (teams : list TeamRow) (m : UserRankingsMap)
    (period : PlayerOwnershipPeriod) : option TeamRanking :=
  match map_get String.eqb (userId period) m with
  | Some ranking => Some ranking
  | None =>
      match find (fun t => String.eqb (team_id t) (teamId period)) teams with
      | Some team =>
          Some (mkRanking (userId period) (teamId period) (team_name team) 0 [])
      | None => None
      end
  end.

(** The body of the loop over [ownershipPeriods]; [None] when it throws:
    [calculateWeeklyPoints] may throw, and after the points are credited the
    period's purchase date, and its sale date when there is one, are printed
    with [toISOString] (669-670). *)
Definition processPeriod (teams : list TeamRow)
    (playerGameLogsMap : JSMap Z (list PlayerGameLog))
    (m : UserRankingsMap) (period : PlayerOwnershipPeriod)
    : option UserRankingsMap :=
  let gameLogs :=
    match map_get Z.eqb (playerId period) playerGameLogsMap with
    | Some logs => logs
    | None => []
    end in
  match rankingFor teams m period with
  | None => Some m   (* continue *)
  | Some ranking =>
      match calculateWeeklyPoints gameLogs (purchaseDate period) (saleDate period)
                                  (defaultSeasonStart dateParse) with
      | None => None
      | Some weeklyPoints =>
          let m :=
            map_set String.eqb (userId period)
                    (fold_left addWeekly weeklyPoints ranking) m in
          if toISOStringThrows (purchaseDate period)
             || match saleDate period with
                | Some sale => toISOStringThrows sale
                | None => false
                end
          then None
          else Some m
      end
  end.

(** The loop over [ownershipPeriods]: a throw ends it. *)
Definition processPeriods (teams : list TeamRow)
    (playerGameLogsMap : JSMap Z (list PlayerGameLog))
    (ownershipPeriods : list PlayerOwnershipPeriod) (m : UserRankingsMap)
    : option UserRankingsMap :=
  fold_left (fun m period =>
               match m with
               | Some m => processPeriod teams playerGameLogsMap m period
               | None => None
               end)
            ownershipPeriods (Some m).

(** The comparator of both [rankings.sort] calls. *)
Definition compareRankings (a b : TeamRanking) : Num :=
  if negb (totalPoints b =? totalPoints a)
  then Some (totalPoints b - totalPoints a)
  else Some (localeCompare (r_teamName a) (r_teamName b)).

(** The body of the last [teams.forEach]. *)
Definition addMissingTeam (rankedUserIds : list string)
    (rankings : list TeamRanking) (team : TeamRow) : list TeamRanking :=
  if negb (existsb (String.eqb (team_user_id team)) rankedUserIds)
  then rankings ++ [mkRanking (team_user_id team) (team_id team)
                              (team_name team) 0 []]
  else rankings.

(** [calculateRankings]: whatever is thrown inside is caught and the empty
    list returned. *)
Definition calculateRankings (teamsQuery : QueryResult TeamRow)
    (playersQuery : QueryResult PlayerOnTeamRow)
    (transactionsQuery : QueryResult TransactionRow) : list TeamRanking :=
  match teamsQuery with
  | QueryError => []
  | QueryOk [] => []
  | QueryOk teams =>
      let ownershipPeriods :=
        getPlayerOwnershipPeriods playersQuery transactionsQuery in
      let playerIds := distinct (map playerId ownershipPeriods) [] in
      let playerGameLogsMap :=
        fold_left (fun m playerId =>
                     map_set Z.eqb playerId (getPlayerAllGameLogs playerId) m)
                  (fetchOrder playerIds) [] in
      let userRankingsMap := fold_left initRanking teams [] in
      match processPeriods teams playerGameLogsMap ownershipPeriods
                           userRankingsMap with
      | None => []   (* catch *)
      | Some userRankingsMap =>
          let rankings := map_values userRankingsMap in
          let rankings := jsSort compareRankings rankings in
          let rankedUserIds := map r_userId rankings in
          let rankings := fold_left (addMissingTeam rankedUserIds) teams rankings in
          jsSort compareRankings rankings
      end
  end.

End Engine.

(* ================================================================== *)
(** * Ranking cache (fantasy-ranking-cache.ts; table of migration 004) *)

(** A row of [team_rankings_cache].  [c_weekly_breakdown] is the JSON object
    [{weekNumber: points}], each key held as the number its text denotes;
    [c_calculated_at] is the time stamp in milliseconds. *)
Record CacheRow : Type := mkCacheRow {
  c_user_id : string;
  c_team_id : string;
  c_team_name : string;
  c_total_points : Z;
  c_weekly_breakdown : list (Num * Z);
  c_calculated_at : Z
}.

Definition CacheTable : Type := list CacheRow.

(** Property order of an object: integer keys ascending, then the others
    (here only ["NaN"]). *)
Definition compareKeys (a b : Num * Z) : Num :=
  match fst a, fst b with
  | Some x, Some y => Some (x - y)
  | None, Some _ => Some 1
  | Some _, None => Some (-1)
  | None, None => Some 0
  end.

(** [Object.fromEntries(m)] *)
Definition objectFromEntries (m : JSMap Num Z) : list (Num * Z) :=
  jsSort compareKeys m.

Definition sameCacheKey (a b : CacheRow) : bool :=
  String.eqb (c_user_id a) (c_user_id b) && String.eqb (c_team_id a) (c_team_id b).

(** One row of an upsert on conflict [(user_id, team_id)]. *)
Fixpoint upsertRow (table : CacheTable) (row : CacheRow) : CacheTable :=
  match table with
  | [] => [row]
  | r :: rest =>
      if sameCacheKey r row then row :: rest else r :: upsertRow rest row
  end.

(** The store refuses an upsert that names one key twice. *)
Fixpoint hasRepeatedKey (rows : list CacheRow) : bool :=
  match rows with
  | [] => false
  | r :: rest => existsb (sameCacheKey r) rest || hasRepeatedKey rest
  end.

(** [rankings.map(ranking => ({..., calculated_at: new Date().toISOString()}))];
    [clock i] is what [new Date()] reads while row [i] is built. *)
Fixpoint rankingsData (clock : nat -> Z) (i : nat) (rankings : list TeamRanking)
    : list CacheRow :=
  match rankings with
  | [] => []
  | ranking :: rest =>
      mkCacheRow (r_userId ranking) (r_teamId ranking) (r_teamName ranking)
                 (totalPoints ranking)
                 (objectFromEntries (weeklyBreakdown ranking))
                 (clock i)
      :: rankingsData clock (S i) rest
  end.

(** [saveRankingsToCache]: whether it succeeded, and the table afterwards.
    [storeUp] tells whether the store answers the request. *)
Definition saveRankingsToCache (storeUp : bool) (clock : nat -> Z)
    (rankings : list TeamRanking) (table : CacheTable) : bool * CacheTable :=
  let rows := rankingsData clock 0 rankings in
  if storeUp && negb (hasRepeatedKey rows)
  then (true, fold_left upsertRow rows table)
  else (false, table).

Definition compareCachedTotals (a b : CacheRow) : Num :=
  Some (c_total_points b - c_total_points a).

(** [new Map(entries)] *)
Definition mapFromEntries (entries : list (Num * Z)) : JSMap Num Z :=
  fold_left (fun m e => map_set num_eqb (fst e) (snd e) m) entries [].

(** A row as a [TeamRanking]. *)
Definition rankingOfRow (row : CacheRow) : TeamRanking :=
  mkRanking (c_user_id row) (c_team_id row) (c_team_name row)
            (c_total_points row) (mapFromEntries (c_weekly_breakdown row)).

Section Cache.

Variable tz : Zone.
Variable dateParse : string -> JSDate.
Variable localeCompare : string -> string -> Z.
Variable getPlayerAllGameLogs : Z -> list PlayerGameLog.
Variable fetchOrder : list Z -> list Z.

(** [getRankingsFromCache]; [now] is what [new Date()] reads, [None] is
    [null].  Rows with equal [total_points] come in an order the store does
    not fix; the table order is kept here. *)
Definition getRankingsFromCache (storeUp : bool) (maxAgeMinutes : Z) (now : Z)
    (table : CacheTable) : option (list TeamRanking) :=
  let minCalculatedAt := Some now in
  let minCalculatedAt :=
    setMinutes tz minCalculatedAt
      (num_sub (getMinutes tz minCalculatedAt) (Some maxAgeMinutes)) in
  match minCalculatedAt with
  | None => None   (* toISOString throws; caught *)
  | Some minTime =>
      if storeUp then
        let data :=
          jsSort compareCachedTotals
            (filter (fun row => minTime <=? c_calculated_at row) table) in
        match data with
        | [] => None
        | _ => Some (map rankingOfRow data)
        end
      else None
  end.

(** The three queries of [calculateRankings], as the store would answer
    them. *)
Record StoreSnapshot : Type := mkSnapshot {
  teamsQuery : QueryResult TeamRow;
  playersQuery : QueryResult PlayerOnTeamRow;
  transactionsQuery : QueryResult TransactionRow
}.

Definition calculateAndCacheRankings (db : StoreSnapshot) (storeUp : bool)
    (clock : nat -> Z) (table : CacheTable) : list TeamRanking * CacheTable :=
  let rankings :=
    calculateRankings tz dateParse localeCompare getPlayerAllGameLogs fetchOrder
      (teamsQuery db) (playersQuery db) (transactionsQuery db) in
  (rankings, snd (saveRankingsToCache storeUp clock rankings table)).

(** [getRankingsWithCache]: the rankings returned and the cache table
    afterwards. *)
Definition getRankingsWithCache (db : StoreSnapshot) (readUp writeUp : bool)
    (maxAgeMinutes : Z) (now : Z) (clock : nat -> Z) (table : CacheTable)
    : list TeamRanking * CacheTable :=
  match getRankingsFromCache readUp maxAgeMinutes now table with
  | Some cachedRankings => (cachedRankings, table)
  | None => calculateAndCacheRankings db writeUp clock table
  end.

End Cache.

(* ================================================================== *)
(** * Concrete hosts and inputs used to run the engine *)

(** A host collation: code-unit order. *)
Definition codeUnitCompare (a b : string) : Z :=
  match String.compare a b with Lt => -1 | Eq => 0 | Gt => 1 end.

(** The zone five hours west of UTC. *)
Definition tzMinus5 : Z := -18000000.

(* ================================================================== *)
(** * Vocabulary of the properties *)

(** The run of the engine when nothing throws: the weeks a period is
    credited, the crediting of a period and the rankings computed, as
    total functions.  [calculateWeeklyPoints], [processPeriod] and
    [calculateRankings] agree with them whenever they do not throw. *)
Section RunWithoutThrow.

Variable tz : Zone.
Variable dateParse : string -> JSDate.

Definition creditedWeeks (gameLogs : list PlayerGameLog)
    (purchaseDate : JSDate) (saleDate : option JSDate)
    (seasonStartDate : JSDate) : list WeeklyPoints :=
  let normalizedPurchaseDate := normalizeDate tz dateParse (FromDate purchaseDate) in
  let normalizedSaleDate :=
    option_map (fun s => normalizeDate tz dateParse (FromDate s)) saleDate in
  let normalizedSeasonStart := normalizeDate tz dateParse (FromDate seasonStartDate) in
  let filteredGames :=
    filter (isInRange tz dateParse normalizedPurchaseDate normalizedSaleDate)
           gameLogs in
  let weeklyPointsMap :=
    fold_left (addGameToWeek tz dateParse normalizedSeasonStart) filteredGames [] in
  let weeklyPoints :=
    map (fun '(weekNumber, points) =>
           let wd := getWeekDates tz weekNumber normalizedSeasonStart in
           mkWeeklyPoints weekNumber (wd_start wd) (wd_end wd) points)
        weeklyPointsMap in
  jsSort compareWeeks weeklyPoints.

Variable localeCompare : string -> string -> Z.
Variable getPlayerAllGameLogs : Z -> list PlayerGameLog.
Variable fetchOrder : list Z -> list Z.

Definition creditPeriod (teams : list TeamRow)
    (playerGameLogsMap : JSMap Z (list PlayerGameLog))
    (m : UserRankingsMap) (period : PlayerOwnershipPeriod) : UserRankingsMap :=
  let gameLogs :=
    match map_get Z.eqb (playerId period) playerGameLogsMap with
    | Some logs => logs
    | None => []
    end in
  match rankingFor teams m period with
  | None => m
  | Some ranking =>
      let weeklyPoints :=
        creditedWeeks gameLogs (purchaseDate period) (saleDate period)
                      (defaultSeasonStart dateParse) in
      map_set String.eqb (userId period)
              (fold_left addWeekly weeklyPoints ranking) m
  end.

Definition rankedTeams (teamsQuery : QueryResult TeamRow)
    (playersQuery : QueryResult PlayerOnTeamRow)
    (transactionsQuery : QueryResult TransactionRow) : list TeamRanking :=
  match teamsQuery with
  | QueryError => []
  | QueryOk [] => []
  | QueryOk teams =>
      let ownershipPeriods :=
        getPlayerOwnershipPeriods playersQuery transactionsQuery in
      let playerIds := distinct (map playerId ownershipPeriods) [] in
      let playerGameLogsMap :=
        fold_left (fun m playerId =>
                     map_set Z.eqb playerId (getPlayerAllGameLogs playerId) m)
                  (fetchOrder playerIds) [] in
      let userRankingsMap := fold_left initRanking teams [] in
      let userRankingsMap :=
        fold_left (creditPeriod teams playerGameLogsMap) ownershipPeriods
                  userRankingsMap in
      let rankings := map_values userRankingsMap in
      let rankings := jsSort (compareRankings localeCompare) rankings in
      let rankedUserIds := map r_userId rankings in
      let rankings := fold_left (addMissingTeam rankedUserIds) teams rankings in
      jsSort (compareRankings localeCompare) rankings
  end.

(** What makes the crediting of a period throw when it reads the log
    [gameLogs]: a log line of [calculateWeeklyPoints], or an Invalid
    purchase or sale date of the period. *)
Definition periodThrows (gameLogs : list PlayerGameLog)
    (period : PlayerOwnershipPeriod) : bool :=
  debugLogThrows tz dateParse
    (normalizeDate tz dateParse (FromDate (purchaseDate period)))
    (option_map (fun s => normalizeDate tz dateParse (FromDate s)) (saleDate period))
    gameLogs
  || (toISOStringThrows (purchaseDate period)
      || match saleDate period with
         | Some sale => toISOStringThrows sale
         | None => false
         end).

(** Nothing is thrown when the dates are in order: every period has a valid
    purchase date and, when it has a sale date, a valid one, these dates
    are normalized to valid dates, and so is the date of every game of the
    logs. *)
Definition datesAreValid (periods : list PlayerOwnershipPeriod) : Prop :=
  (forall p, In p periods ->
     purchaseDate p <> None
     /\ normalizeDate tz dateParse (FromDate (purchaseDate p)) <> None
     /\ forall sale, saleDate p = Some sale ->
          sale <> None /\ normalizeDate tz dateParse (FromDate sale) <> None)
  /\ (forall playerId game,
        In game (getPlayerAllGameLogs playerId) ->
        normalizeDate tz dateParse (FromString (gl_date game)) <> None).

End RunWithoutThrow.

Definition sumZ (l : list Z) : Z := fold_right Z.add 0 l.

Definition isNil {A : Type} (l : list A) : bool :=
  match l with [] => true | _ => false end.

(** [m.get(k) || 0] on a map of integers. *)
Definition getOr0 {K : Type} (keq : K -> K -> bool) (k : K) (m : JSMap K Z) : Z :=
  match map_get keq k m with Some p => p | None => 0 end.

Section AggregatorVocabulary.

Variable tz : Zone.
Variable dateParse : string -> JSDate.

(** The filter of the aggregator in the words of the specification: the
    normalized game date is on or after the normalized purchase date, and
    there is no sale date or the normalized game date is before the
    normalized sale date.  A comparison with an Invalid Date does not hold. *)
Definition GameCounts (purchaseDate : JSDate) (saleDate : option JSDate)
    (game : PlayerGameLog) : Prop :=
  exists g p,
    normalizeDate tz dateParse (FromString (gl_date game)) = Some g
    /\ normalizeDate tz dateParse (FromDate purchaseDate) = Some p
    /\ p <= g
    /\ (saleDate = None
        \/ exists sale s, saleDate = Some sale
             /\ normalizeDate tz dateParse (FromDate sale) = Some s /\ g < s).

(** The same test as a boolean. *)
Definition gameCounts (purchaseDate : JSDate) (saleDate : option JSDate)
    (game : PlayerGameLog) : bool :=
  let g := normalizeDate tz dateParse (FromString (gl_date game)) in
  date_ge g (normalizeDate tz dateParse (FromDate purchaseDate))
  && match saleDate with
     | None => true
     | Some sale => date_lt g (normalizeDate tz dateParse (FromDate sale))
     end.

(** The week bucket of a game. *)
Definition weekOfGame (seasonStartDate : JSDate) (game : PlayerGameLog) : Num :=
  getWeekNumber tz dateParse
    (normalizeDate tz dateParse (FromString (gl_date game)))
    (normalizeDate tz dateParse (FromDate seasonStartDate)).

(** Points of the games of [gameLogs] that count and fall in week [w]. *)
Definition countedPointsInWeek (purchaseDate : JSDate) (saleDate : option JSDate)
    (seasonStartDate : JSDate) (w : Num) (gameLogs : list PlayerGameLog) : Z :=
  sumZ (map gl_points
          (filter (fun g => gameCounts purchaseDate saleDate g
                            && num_eqb (weekOfGame seasonStartDate g) w)
                  gameLogs)).

(** Points of the games of [gameLogs] that count. *)
Definition countedPoints (purchaseDate : JSDate) (saleDate : option JSDate)
    (gameLogs : list PlayerGameLog) : Z :=
  sumZ (map gl_points (filter (gameCounts purchaseDate saleDate) gameLogs)).

End AggregatorVocabulary.

(** Points that a list of week entries holds for week [w]. *)
Definition pointsOfWeek (w : Num) (l : list WeeklyPoints) : Z :=
  sumZ (map wp_points (filter (fun e => num_eqb (weekNumber e) w) l)).

(** The close step in the words of the specification: among the working
    periods of the player, the most recent still-open period of the seller
    (the last one appended) is the one closed. *)
Definition closeMostRecentOpen (user team : string) (transactionDate : JSDate)
    (history : list HistoryPeriod) : list HistoryPeriod :=
  rev (closeFirstOpen user team transactionDate (rev history)).

(** Step 1 with the close step of the specification. *)
Definition processTransaction_spec (m : PlayerHistoryMap)
    (transaction : TransactionRow) : PlayerHistoryMap :=
  match truthy (tx_buyer_user_id transaction),
        truthy (tx_seller_user_id transaction) with
  | Some buyerUserId, Some sellerUserId =>
      let playerId := tx_player_id transaction in
      let transactionDate := tx_created_at transaction in
      let m := if map_has Z.eqb playerId m then m
               else map_set Z.eqb playerId [] m in
      let history := historyOf playerId m in
      let history :=
        closeMostRecentOpen sellerUserId (tx_seller_team_id transaction)
                            transactionDate history in
      let history :=
        history ++ [mkHistory buyerUserId (tx_buyer_team_id transaction)
                              transactionDate None] in
      map_set Z.eqb playerId history m
  | _, _ => m
  end.

(** The period that a roster row yields in step 2. *)
Definition rosterPeriod (m : PlayerHistoryMap) (userId : string)
    (player : PlayerOnTeamRow) : PlayerOwnershipPeriod :=
  mkPeriod userId (pot_team_id player) (pot_player_id player)
    (pot_player_name player)
    match find (isOpenPeriodOf userId (pot_team_id player))
               (historyOf (pot_player_id player) m) with
    | Some existingActivePeriod => h_purchaseDate existingActivePeriod
    | None =>
        match pot_purchased_at player with
        | Some d => d
        | None => pot_created_at player
        end
    end
    None.

(** Player 7 is bought twice by team TU of user u (from v, then from w) and
    then sold by u to x. *)
Definition twoPurchasesThenSale : list TransactionRow :=
  [ mkTransaction "t1" "TU" "TV" 7 "P7" (Some 1000) (Some "u") (Some "v");
    mkTransaction "t2" "TU" "TW" 7 "P7" (Some 2000) (Some "u") (Some "w");
    mkTransaction "t3" "TX" "TU" 7 "P7" (Some 3000) (Some "x") (Some "u") ]%string.

(** The ranking a team starts from. *)
Definition rankingZero (team : TeamRow) : TeamRanking :=
  mkRanking (team_user_id team) (team_id team) (team_name team) 0 [].

(** The identity fields of the entries of the rankings map. *)
Definition skeleton (m : JSMap string TeamRanking)
    : list (string * (string * string * string)) :=
  map (fun kv => (fst kv, (r_userId (snd kv), r_teamId (snd kv), r_teamName (snd kv)))) m.

Definition teamSkeleton (team : TeamRow) : string * (string * string * string) :=
  (team_user_id team, (team_user_id team, team_id team, team_name team)).

(** Keys are distinct and each ranking is stored under its own user. *)
Definition keyedByUser (m : JSMap string TeamRanking) : Prop :=
  NoDup (map_keys m) /\ forall k r, In (k, r) m -> r_userId r = k.

Section RankingVocabulary.

Variable tz : Zone.
Variable dateParse : string -> JSDate.
Variable getPlayerAllGameLogs : Z -> list PlayerGameLog.

(** The map of game logs once every fetch has completed. *)
Definition gameLogsMapOf (completed : list Z) : JSMap Z (list PlayerGameLog) :=
  fold_left (fun m playerId =>
               map_set Z.eqb playerId (getPlayerAllGameLogs playerId) m)
            completed [].

(** The rankings map after the loop over the ownership periods. *)
Definition rankingsMapOf (completed : list Z) (teams : list TeamRow)
    (periods : list PlayerOwnershipPeriod) : JSMap string TeamRanking :=
  fold_left (creditPeriod tz dateParse teams (gameLogsMapOf completed))
            periods (fold_left initRanking teams []).

End RankingVocabulary.

(** The order of the leaderboard: more points first, and for equal points
    the name that the collation does not put after the other first. *)
Definition rankedBefore (localeCompare : string -> string -> Z)
    (a b : TeamRanking) : Prop :=
  totalPoints a > totalPoints b
  \/ (totalPoints a = totalPoints b
      /\ localeCompare (r_teamName a) (r_teamName b) <= 0).

(** Two teams of one user, which the store's [UNIQUE(user_id)] rules out. *)
Definition twoTeamsOfOneUser : list TeamRow :=
  [ mkTeam "T1" "u1" "Alpha"; mkTeam "T2" "u1" "Beta" ]%string.

(** Two teams of two users; the first holds player 1. *)
Definition twoTeams : list TeamRow :=
  [ mkTeam "T1" "u1" "Alpha"; mkTeam "T2" "u2" "Beta" ]%string.

Definition rosterOfT1 : list PlayerOnTeamRow :=
  [ mkPlayerOnTeam "T1" 1 "P1" (Some (isoDateParse "2024-10-25"))
                   (isoDateParse "2024-10-25") (Some "u1") ]%string.

Definition logsOfPlayer1 (playerId : Z) : list PlayerGameLog :=
  if playerId =? 1
  then [ mkGameLog "2024-10-24" 10; mkGameLog "2024-11-01" 20 ]%string
  else [].





(** The key of a cache row. *)
Definition cacheKey (row : CacheRow) : string * string :=
  (c_user_id row, c_team_id row).

(** The row stored under [(user_id, team_id)], if any. *)
Definition findRow (user team : string) (table : CacheTable) : option CacheRow :=
  find (fun row => String.eqb (c_user_id row) user && String.eqb (c_team_id row) team)
       table.

(** The cutoff of [getRankingsFromCache]: the instant that the host assigns
    to the local time [maxAge] minutes before the local time of [now]. *)
Definition cacheCutoff (tz : Zone) (maxAgeMinutes now : Z) : Z :=
  UTC tz (LocalTime tz now - maxAgeMinutes * 60000).

(** A host two hours east of UTC that sets its clock back one hour at
    2024-10-27T01:00Z (03:00 local time becomes 02:00); a local time that
    occurs twice is given the earlier of its two instants. *)
Definition zoneWithClockSetBack : Zone :=
  mkZone (fun t => if t <? 1729990800000 then 7200000 else 3600000)
         (fun t => if t <? 1729990800000 + 7200000 then 7200000 else 3600000).

(** A host on UTC that moves one hour west of it at 2024-10-27T01:00Z
    (01:00 local time becomes 00:00). *)
Definition zoneWestInWinter : Zone :=
  mkZone (fun t => if t <? 1729990800000 then 0 else -3600000)
         (fun t => if t <? 1729990800000 then 0 else -3600000).

(** [now - calculated_at <= maxAge], the age in minutes. *)
Definition isFresh (maxAgeMinutes now : Z) (row : CacheRow) : bool :=
  now - c_calculated_at row <=? maxAgeMinutes * 60000.

(** The row written for a ranking at time [stamp]. *)
Definition rowOfRanking (stamp : Z) (ranking : TeamRanking) : CacheRow :=
  mkCacheRow (r_userId ranking) (r_teamId ranking) (r_teamName ranking)
             (totalPoints ranking)
             (objectFromEntries (weeklyBreakdown ranking)) stamp.

(** A cache table whose two rows were stamped at 1000 ms and 1001 ms, and a
    reading time at which only the second is 30 minutes old or less. *)
Definition tableStampedAcrossATick : CacheTable :=
  [ mkCacheRow "u1" "T1" "Alpha" 20 [(Some 2, 20)] 1000;
    mkCacheRow "u2" "T2" "Beta" 0 [] 1001 ]%string.

Definition thirtyMinutesAfter1001 : Z := 1001 + 30 * 60000.

Definition snapshotOfTwoTeams : StoreSnapshot :=
  mkSnapshot (QueryOk twoTeams) (QueryOk rosterOfT1) (QueryOk []).

(** A log provider that keeps the log of one player only. *)
Definition keepOnly (pid : Z) (logs : Z -> list PlayerGameLog)
    : Z -> list PlayerGameLog :=
  fun q => if q =? pid then logs q else [].

Section ConservationVocabulary.

Variable tz : Zone.
Variable dateParse : string -> JSDate.

(** The ownership periods of player [pid] whose interval, on normalized
    dates, contains the game. *)
Definition coveringPeriods (pid : Z) (periods : list PlayerOwnershipPeriod)
    (game : PlayerGameLog) : list PlayerOwnershipPeriod :=
  filter (fun p => (playerId p =? pid)
                   && gameCounts tz dateParse (purchaseDate p) (saleDate p) game)
         periods.

(** Points of the games of a log that lie in the union of the intervals of
    player [pid]. *)
Definition pointsInUnion (pid : Z) (periods : list PlayerOwnershipPeriod)
    (gameLogs : list PlayerGameLog) : Z :=
  sumZ (map gl_points
          (filter (fun g => negb (isNil (coveringPeriods pid periods g))) gameLogs)).

(** Points that the period earns from a log. *)
Definition periodPoints (logs : Z -> list PlayerGameLog)
    (p : PlayerOwnershipPeriod) : Z :=
  countedPoints tz dateParse (purchaseDate p) (saleDate p) (logs (playerId p)).

End ConservationVocabulary.

(** Player 1 is an initial pick of two teams at once (the store only
    forbids a player twice on one team). *)
Definition rosterSharedPlayer : list PlayerOnTeamRow :=
  [ mkPlayerOnTeam "T1" 1 "P1" (Some (isoDateParse "2024-10-25"))
                   (isoDateParse "2024-10-25") (Some "u1");
    mkPlayerOnTeam "T2" 1 "P1" (Some (isoDateParse "2024-10-26"))
                   (isoDateParse "2024-10-26") (Some "u2") ]%string.

(** The total of every ranking of the map is the sum of its week buckets. *)
Definition balanced (m : JSMap string TeamRanking) : Prop :=
  forall k r, In (k, r) m ->
    totalPoints r = sumZ (map_values (weeklyBreakdown r)).

(** The log that the loop over the periods reads for a period. *)
Definition logsRead (logsMap : JSMap Z (list PlayerGameLog))
    (p : PlayerOwnershipPeriod) : list PlayerGameLog :=
  match map_get Z.eqb (playerId p) logsMap with
  | Some logs => logs
  | None => []
  end.

(* ------------------------------------------------------------------ *)
(** Vocabulary of interval disjointness. *)

(** The instants (in milliseconds) that a period covers: from its purchase
    date on, up to but excluding its sale date when it has one. *)
Definition covers (p : PlayerOwnershipPeriod) (x : Z) : Prop :=
  (exists s, purchaseDate p = Some s /\ s <= x)
  /\ match saleDate p with
     | None => True
     | Some (Some e) => x < e
     | Some None => False
     end.

Definition overlap (p q : PlayerOwnershipPeriod) : Prop :=
  exists x, covers p x /\ covers q x.

(** The periods of one player in a list. *)
Definition periodsOf (pid : Z) (periods : list PlayerOwnershipPeriod)
    : list PlayerOwnershipPeriod :=
  filter (fun p => playerId p =? pid) periods.

(** The buyer and the seller, each as (user, team), of a transaction of
    player [pid] that step 1 processes. *)
Definition processedFor (pid : Z) (tx : TransactionRow)
    : option ((string * string) * (string * string)) :=
  if tx_player_id tx =? pid then
    match truthy (tx_buyer_user_id tx), truthy (tx_seller_user_id tx) with
    | Some b, Some s =>
        Some ((b, tx_buyer_team_id tx), (s, tx_seller_team_id tx))
    | _, _ => None
    end
  else None.

(** The successive buyers of player [pid], with the dates of purchase. *)
Fixpoint buyersOf (pid : Z) (txs : list TransactionRow)
    : list (string * string * JSDate) :=
  match txs with
  | [] => []
  | tx :: rest =>
      match processedFor pid tx with
      | Some ((b, bt), _) => (b, bt, tx_created_at tx) :: buyersOf pid rest
      | None => buyersOf pid rest
      end
  end.

(** Each processed transaction of the player is a sale by the buyer of the
    previous one ([last] is the holder before [txs]). *)
Fixpoint sellersFollowBuyers (pid : Z) (last : option (string * string))
    (txs : list TransactionRow) : bool :=
  match txs with
  | [] => true
  | tx :: rest =>
      match processedFor pid tx with
      | Some (buyer, (s, st)) =>
          match last with
          | None => true
          | Some (u, t) => String.eqb s u && String.eqb st t
          end
          && sellersFollowBuyers pid (Some buyer) rest
      | None => sellersFollowBuyers pid last rest
      end
  end.

(** The dates are valid and do not decrease. *)
Fixpoint ascending (l : list JSDate) : bool :=
  match l with
  | [] => true
  | None :: _ => false
  | Some c :: rest =>
      match rest with
      | [] => true
      | Some d :: _ => (c <=? d) && ascending rest
      | None :: _ => false
      end
  end.

Definition lastHolder (l : list (string * string * JSDate))
    : option (string * string) :=
  match rev l with
  | [] => None
  | (u, t, _) :: _ => Some (u, t)
  end.

(** The (user, team) of the roster rows of player [pid] that step 2
    processes. *)
Definition rosterHolders (pid : Z) (rows : list PlayerOnTeamRow)
    : list (string * string) :=
  flat_map (fun row =>
              if pot_player_id row =? pid then
                match truthy (pot_user_id row) with
                | Some u => [(u, pot_team_id row)]
                | None => []
                end
              else [])
           rows.

(** The player is on at most one roster, and on that of the last buyer
    when there are transactions. *)
Definition rosterFollowsChain (pid : Z) (rows : list PlayerOnTeamRow)
    (txs : list TransactionRow) : bool :=
  match rosterHolders pid rows with
  | [] => true
  | [(u, t)] =>
      match lastHolder (buyersOf pid txs) with
      | None => true
      | Some (u', t') => String.eqb u u' && String.eqb t t'
      end
  | _ => false
  end.

(** The history that a chain of purchases leaves: each buyer's period, closed
    at the next purchase, the last one open. *)
Fixpoint chainHistory (l : list (string * string * JSDate)) : list HistoryPeriod :=
  match l with
  | [] => []
  | (u, t, c) :: rest =>
      mkHistory u t c
        match rest with
        | [] => None
        | (_, _, d) :: _ => Some d
        end
      :: chainHistory rest
  end.

(** A history entry as a period of the output. *)
Definition periodOfHistory (pid : Z) (name : string) (h : HistoryPeriod)
    : PlayerOwnershipPeriod :=
  mkPeriod (h_userId h) (h_teamId h) pid name (h_purchaseDate h) (h_saleDate h).

Definition isClosed (h : HistoryPeriod) : bool :=
  match h_saleDate h with Some _ => true | None => false end.

(** [l'] is [l] with some elements left out. *)
Inductive subseq {A : Type} : list A -> list A -> Prop :=
| subseq_nil : subseq [] []
| subseq_skip (x : A) (l' l : list A) : subseq l' l -> subseq l' (x :: l)
| subseq_take (x : A) (l' l : list A) : subseq l' l -> subseq (x :: l') (x :: l).

(** The closed periods of the working histories in the order in which step
    3 visits them, each with its player. *)
Definition closedCandidates (m : PlayerHistoryMap) : list (Z * HistoryPeriod) :=
  flat_map (fun entry => map (pair (fst entry)) (filter isClosed (snd entry))) m.

(** The period that step 3 appends for a closed period of a history. *)
Definition candidatePeriod (playersOnTeam : list PlayerOnTeamRow)
    (transactions : option (list TransactionRow)) (c : Z * HistoryPeriod)
    : PlayerOwnershipPeriod :=
  periodOfHistory (fst c) (closedPeriodName playersOnTeam transactions (fst c))
                  (snd c).

(** Team TU of user u buys player 7 twice within a second and sells it
    once; the player is on its roster. *)
Definition boughtTwiceWithinASecond : list TransactionRow :=
  [ mkTransaction "t1" "TU" "TV" 7 "P7" (Some 1000) (Some "u") (Some "v");
    mkTransaction "t2" "TU" "TW" 7 "P7" (Some 1500) (Some "u") (Some "w");
    mkTransaction "t3" "TX" "TU" 7 "P7" (Some 3000) (Some "x") (Some "u") ]%string.

Definition rosterOfTU : list PlayerOnTeamRow :=
  [ mkPlayerOnTeam "TU" 7 "P7" (Some (Some 1500)) (Some 1500) (Some "u") ]%string.

(** Player 1 changes hands twice and is on the roster of the last buyer. *)
Definition chainOfTwoSales : list TransactionRow :=
  [ mkTransaction "t1" "T2" "T1" 1 "P1" (Some 1000) (Some "u2") (Some "u1");
    mkTransaction "t2" "T3" "T2" 1 "P1" (Some 2000) (Some "u3") (Some "u2") ]%string.

Definition rosterAfterTwoSales : list PlayerOnTeamRow :=
  [ mkPlayerOnTeam "T3" 1 "P1" (Some (Some 2000)) (Some 2000) (Some "u3") ]%string.

(* ------------------------------------------------------------------ *)
(** The four date forms named by the specification, as texts. *)

Definition isDigitsBetween (lo hi : Z) (s : string) : bool :=
  allChars isDigit s && (lo <=? strlen s) && (strlen s <=? hi).

(** [YYYY-MM-DD] *)
Definition isIsoDateText (s : string) : bool :=
  match s with
  | String y1 (String y2 (String y3 (String y4 (String h1
      (String m1 (String m2 (String h2 (String d1 (String d2 EmptyString))))))))) =>
      isDigit y1 && isDigit y2 && isDigit y3 && isDigit y4 && Ascii.eqb h1 "-"
      && isDigit m1 && isDigit m2 && Ascii.eqb h2 "-" && isDigit d1 && isDigit d2
  | _ => false
  end.

(** [MM/DD/YYYY] *)
Definition isSlashDateText (s : string) : bool :=
  match split "/" s with
  | [mm; dd; yyyy] =>
      isDigitsBetween 1 2 mm && isDigitsBetween 1 2 dd && isDigitsBetween 4 4 yyyy
  | _ => false
  end.

(** ["Mon DD, YYYY"] with an English month abbreviation. *)
Definition isMonthNameDateText (s : string) : bool :=
  match matchMmmDdYyyy s with
  | Some (mmm, _, _) => negb (indexOf mmm monthNames =? -1)
  | None => false
  end.

(** [YYYYMMDD] *)
Definition isCompactDateText (s : string) : bool := isEightDigits s.

(* ------------------------------------------------------------------ *)
(** Vocabulary of the properties of the calendar, the reconstructor and the
    cache as wholes. *)

(** The week number of an entry, 0 standing for NaN. *)
Definition weekOrZero (e : WeeklyPoints) : Z :=
  match weekNumber e with Some w => w | None => 0 end.

(** The period of a roster row when the history knows no open period of its
    holder: it starts at [purchased_at], or at [created_at] when
    [purchased_at] is absent. *)
Definition periodOfRosterRow (userId : string) (player : PlayerOnTeamRow)
    : PlayerOwnershipPeriod :=
  mkPeriod userId (pot_team_id player) (pot_player_id player)
    (pot_player_name player)
    match pot_purchased_at player with
    | Some d => d
    | None => pot_created_at player
    end
    None.

(** The roster rows whose user resolves, each with that user. *)
Definition heldRows (rows : list PlayerOnTeamRow) : list (string * PlayerOnTeamRow) :=
  flat_map (fun row => match truthy (pot_user_id row) with
                       | Some u => [(u, row)]
                       | None => []
                       end) rows.

(** The fields of a ranking other than its weekly breakdown. *)
Definition rankingIdentity (r : TeamRanking) : string * string * string * Z :=
  (r_userId r, r_teamId r, r_teamName r, totalPoints r).

(** Two rankings as the calculator returns them. *)
Definition rankingsOfTwoTeams : list TeamRanking :=
  [ mkRanking "u1" "T1" "Apple" 8 [(Some 2, 5); (Some 1, 3)];
    mkRanking "u2" "T2" "Banana" 0 [] ]%string.

(** A processed purchase of player [pid] by [(user, team)] at date [d]. *)
Definition boughtIn (txs : list TransactionRow) (pid : Z) (user team : string)
    (d : JSDate) : Prop :=
  exists tx,
    In tx txs /\ tx_player_id tx = pid
    /\ truthy (tx_buyer_user_id tx) = Some user
    /\ truthy (tx_seller_user_id tx) <> None
    /\ tx_buyer_team_id tx = team /\ tx_created_at tx = d.

(** A processed purchase of player [pid] from [(user, team)] at date [d]. *)
Definition soldIn (txs : list TransactionRow) (pid : Z) (user team : string)
    (d : JSDate) : Prop :=
  exists tx,
    In tx txs /\ tx_player_id tx = pid
    /\ truthy (tx_seller_user_id tx) = Some user
    /\ truthy (tx_buyer_user_id tx) <> None
    /\ tx_seller_team_id tx = team /\ tx_created_at tx = d.

(** Where a period of the output comes from. *)
Definition periodProvenance (rows : list PlayerOnTeamRow)
    (transactionsQuery : QueryResult TransactionRow)
    (p : PlayerOwnershipPeriod) : Prop :=
  match saleDate p with
  | None =>
      exists row,
        In row rows /\ truthy (pot_user_id row) = Some (userId p)
        /\ pot_team_id row = teamId p /\ pot_player_id row = playerId p
        /\ pot_player_name row = playerName p
  | Some d =>
      exists txs,
        transactionsQuery = QueryOk txs
        /\ boughtIn txs (playerId p) (userId p) (teamId p) (purchaseDate p)
        /\ soldIn txs (playerId p) (userId p) (teamId p) d
  end.

(* ================================================================== *)
(** * Game log fetcher (fantasy-ranking.ts, 29-93) *)

(** A cell of the provider's JSON answer, or what indexing past the end of a
    row yields.  [CellNumber n] is a number whose value is the integer [n],
    below 10^21 in magnitude (from there on [String] switches to the
    exponent form).  [CellOther text time] is any other value [v] (another
    number, a boolean, an array, an object), given by what the code reads
    of it: [String(v)] and [new Date(v)]. *)
Inductive Cell : Type :=
| CellString (s : string)
| CellNumber (n : Z)
| CellNull
| CellUndefined
| CellOther (text : string) (time : JSDate).

(** An element of [resultSets]; [None] is an absent or null property. *)
Record ResultSet : Type := mkResultSet {
  rs_headers : option (list Cell);
  rs_rowSet : option (list (list Cell))
}.

(** What [fetch] resolves to: the status, and the value of
    [response.json()], [None] when that call throws; its [resultSets]
    property is [None] when absent or null. *)
Record NbaResponse : Type := mkNbaResponse {
  resp_status : Z;
  resp_json : option (option (list ResultSet))
}.

(** [response.ok] *)
Definition responseOk (r : NbaResponse) : bool :=
  (200 <=? resp_status r) && (resp_status r <=? 299).

Definition isCellString (s : string) (c : Cell) : bool :=
  match c with CellString x => String.eqb x s | _ => false end.

(** [headers.indexOf(s)] for a string [s]: -1 when absent. *)
Fixpoint cellIndexOfFrom (i : Z) (s : string) (cells : list Cell) : Z :=
  match cells with
  | [] => -1
  | c :: rest => if isCellString s c then i else cellIndexOfFrom (i + 1) s rest
  end.

Definition cellIndexOf (s : string) (cells : list Cell) : Z :=
  cellIndexOfFrom 0 s cells.

(** [row[i]] for [i >= 0] *)
Definition cellAt (row : list Cell) (i : Z) : Cell :=
  nth (Z.to_nat i) row CellUndefined.

(** [String(c)] *)
Definition cellToString (c : Cell) : string :=
  match c with
  | CellString s => s
  | CellNumber n => NilEmpty.string_of_int (Z.to_int n)
  | CellNull => "null"
  | CellUndefined => "undefined"
  | CellOther text _ => text
  end.

(** [parseInt(c) || 0] *)
Definition pointsOfCell (c : Cell) : Z :=
  match parseInt (cellToString c) with
  | Some v => v
  | None => 0
  end.

(** An element of the array that the fetcher returns. *)
Record FetchedGame : Type := mkFetchedGame {
  fg_date : Cell;
  fg_points : Z
}.

Section GameLogFetcher.

Variable dateParse : string -> JSDate.

(** [new Date(c)] *)
Definition dateOfCell (c : Cell) : JSDate :=
  match c with
  | CellString s => dateParse s
  | CellNumber n => TimeClip n
  | CellNull => Some 0
  | CellUndefined => None
  | CellOther _ time => time
  end.

(** The comparator of the fetcher: oldest first. *)
Definition compareGamesAscending (a b : FetchedGame) : Num :=
  num_sub (getTime (dateOfCell (fg_date a))) (getTime (dateOfCell (fg_date b))).

(** [rows.map(row => ({ date: row[gameDateIdx], points: parseInt(row[ptsIdx]) || 0 }))] *)
Definition gamesOfRows (gameDateIdx ptsIdx : Z) (rows : list (list Cell))
    : list FetchedGame :=
  map (fun row => mkFetchedGame (cellAt row gameDateIdx)
                                (pointsOfCell (cellAt row ptsIdx))) rows.

(** [getPlayerAllGameLogs] on what [fetch] yields; [None] is a rejected
    [fetch]. *)
Definition getPlayerAllGameLogs (fetched : option NbaResponse) : list FetchedGame :=
  match fetched with
  | None => []
  | Some response =>
      if negb (responseOk response) then [] else
      match resp_json response with
      | None => []
      | Some None => []
      | Some (Some []) => []
      | Some (Some (gameLogs :: _)) =>
          let headers := match rs_headers gameLogs with Some h => h | None => [] end in
          let rows := match rs_rowSet gameLogs with Some r => r | None => [] end in
          let gameDateIdx := cellIndexOf "GAME_DATE" headers in
          let ptsIdx := cellIndexOf "PTS" headers in
          if (gameDateIdx =? -1) || (ptsIdx =? -1) then []
          else jsSort compareGamesAscending (gamesOfRows gameDateIdx ptsIdx rows)
      end
  end.

End GameLogFetcher.

(** An answer of the provider with two games, the later one first. *)
Definition answerOfTwoGames : NbaResponse :=
  mkNbaResponse 200
    (Some (Some [ mkResultSet
                    (Some [CellString "Game_ID"; CellString "GAME_DATE";
                           CellString "PTS"])
                    (Some [ [CellString "0022400101"; CellString "2024-10-25";
                             CellNumber 31];
                            [CellString "0022400061"; CellString "2024-10-23";
                             CellString "24"] ]) ]))%string.

(** Two games are in order when both dates are valid and the first is not
    later than the second; an Invalid Date is in order with anything. *)
Definition notLaterThan (dateParse : string -> JSDate) (a b : FetchedGame) : Prop :=
  forall ta tb,
    dateOfCell dateParse (fg_date a) = Some ta ->
    dateOfCell dateParse (fg_date b) = Some tb -> ta <= tb.

(* ================================================================== *)
(** * Leaderboard endpoint (pages/api/fantasy/ranking.ts) *)

(** A user as [auth.admin.listUsers] returns it; the three names are the
    properties of [user_metadata], for users whose names are texts or
    absent.  (The metadata is free-form: a name that is not a text would
    make [startsWith] or [localeCompare] throw, which the handler answers
    with 500.) *)
Record AuthUser : Type := mkAuthUser {
  au_id : string;
  au_email : option string;
  au_full_name : option string;
  au_name : option string;
  au_display_name : option string
}.

(** An element of [allUsers]. *)
Record ListedUser : Type := mkListedUser {
  lu_id : string;
  lu_email : option string;
  lu_displayName : string
}.

(** [email.split('@')[0]] *)
Definition emailLocalPart (email : string) : string :=
  hd EmptyString (split "@" email).

(** [full_name || name || display_name || email?.split('@')[0] || 'Usuario'] *)
Definition displayNameOf (user : AuthUser) : string :=
  match truthy (au_full_name user) with
  | Some n => n
  | None =>
  match truthy (au_name user) with
  | Some n => n
  | None =>
  match truthy (au_display_name user) with
  | Some n => n
  | None =>
  match truthy (option_map emailLocalPart (au_email user)) with
  | Some n => n
  | None => "Usuario"
  end end end end.

Definition listedUserOf (user : AuthUser) : ListedUser :=
  mkListedUser (au_id user) (au_email user) (displayNameOf user).

(** The users listed: none without a service role key, none when the
    listing fails. *)
Definition listAllUsers (serviceRoleKey : option string)
    (listUsers : QueryResult AuthUser) : list ListedUser :=
  match truthy serviceRoleKey with
  | None => []
  | Some _ =>
      match listUsers with
      | QueryOk users => map listedUserOf users
      | QueryError => []
      end
  end.

(** The name given to a user that has no ranking:
    [displayName || (email ? `Equipo de ${email.split('@')[0]}` : 'Usuario') || 'Usuario'] *)
Definition teamNameOfUser (user : ListedUser) : string :=
  match truthy (Some (lu_displayName user)) with
  | Some n => n
  | None =>
      match truthy (lu_email user) with
      | Some email => ("Equipo de " ++ emailLocalPart email)%string
      | None => "Usuario"
      end
  end.

(** The ranking pushed for a user without a team. *)
Definition rankingOfUser (user : ListedUser) : TeamRanking :=
  mkRanking (lu_id user) ("user-" ++ lu_id user)%string (teamNameOfUser user) 0 [].

(** [rankingsMap.get(u)] as a position in the array: the map is filled in
    array order, so a user maps to its last ranking. *)
Fixpoint lastIndexOfUser (u : string) (rankings : list TeamRanking) (i : nat)
    : option nat :=
  match rankings with
  | [] => None
  | r :: rest =>
      match lastIndexOfUser u rest (S i) with
      | Some k => Some k
      | None => if String.eqb (r_userId r) u then Some i else None
      end
  end.

(** The object at position [i] is changed in place. *)
Fixpoint updateAt {A : Type} (i : nat) (f : A -> A) (l : list A) : list A :=
  match l, i with
  | [], _ => []
  | x :: rest, O => f x :: rest
  | x :: rest, S k => x :: updateAt k f rest
  end.

(** [teamName.startsWith('Equipo de ') || teamName === 'Usuario'] *)
Definition isGenericTeamName (name : string) : bool :=
  String.prefix "Equipo de " name || String.eqb name "Usuario".

Definition renameIfGeneric (displayName : string) (r : TeamRanking) : TeamRanking :=
  if isGenericTeamName (r_teamName r)
  then mkRanking (r_userId r) (r_teamId r) displayName (totalPoints r)
                 (weeklyBreakdown r)
  else r.

(** The body of [allUsers.forEach]; [computed] is the array that
    [calculateRankings] returned, from which [rankingsMap] was filled, and
    [rankings] is that array as it is now. *)
Definition addUser (computed : list TeamRanking) (rankings : list TeamRanking)
    (user : ListedUser) : list TeamRanking :=
  match lastIndexOfUser (lu_id user) computed 0 with
  | None => rankings ++ [rankingOfUser user]
  | Some i =>
      match truthy (Some (lu_displayName user)) with
      | Some displayName => updateAt i (renameIfGeneric displayName) rankings
      | None => rankings
      end
  end.

(** An element of the [rankings] array of the answer. *)
Record RankingEntry : Type := mkRankingEntry {
  e_userId : string;
  e_teamId : string;
  e_teamName : string;
  e_totalPoints : Z;
  e_weeklyBreakdown : list (Num * Z)
}.

Definition entryOfRanking (r : TeamRanking) : RankingEntry :=
  mkRankingEntry (r_userId r) (r_teamId r) (r_teamName r) (totalPoints r)
                 (objectFromEntries (weeklyBreakdown r)).

(** The answer of the endpoint: status, [totalUsers], [rankings]. *)
Record RankingResponse : Type := mkRankingResponse {
  rr_status : Z;
  rr_totalUsers : Z;
  rr_rankings : list RankingEntry
}.

Section LeaderboardEndpoint.

Variable tz : Zone.
Variable dateParse : string -> JSDate.
Variable localeCompare : string -> string -> Z.
Variable gameLogs : Z -> list PlayerGameLog.
Variable fetchOrder : list Z -> list Z.

(** [GET /api/fantasy/ranking].  With names that are texts nothing throws
    outside [calculateRankings], which catches its own exceptions, so the
    handler reaches its answer with status 200. *)
Definition GET_ranking (serviceRoleKey : option string)
    (listUsers : QueryResult AuthUser) (db : StoreSnapshot) : RankingResponse :=
  let allUsers := listAllUsers serviceRoleKey listUsers in
  let computed :=
    calculateRankings tz dateParse localeCompare gameLogs fetchOrder
      (teamsQuery db) (playersQuery db) (transactionsQuery db) in
  let rankings := fold_left (addUser computed) allUsers computed in
  let rankings := jsSort (compareRankings localeCompare) rankings in
  mkRankingResponse 200 (Z.of_nat (List.length rankings))
                    (map entryOfRanking rankings).

End LeaderboardEndpoint.

(** The name that the display names of the users listed leave to a ranking. *)
Definition renamedFor (users : list ListedUser) (r : TeamRanking) : TeamRanking :=
  fold_left (fun r user =>
               if String.eqb (r_userId r) (lu_id user)
               then match truthy (Some (lu_displayName user)) with
                    | Some displayName => renameIfGeneric displayName r
                    | None => r
                    end
               else r)
            users r.

(** The users listed that have no ranking. *)
Definition unrankedUsers (computed : list TeamRanking) (users : list ListedUser)
    : list ListedUser :=
  filter (fun user => negb (existsb (fun r => String.eqb (r_userId r) (lu_id user))
                                    computed)) users.

(** The order of the answer: more points first, and for equal points the
    name that the collation does not put after the other first. *)
Definition entryBefore (localeCompare : string -> string -> Z)
    (a b : RankingEntry) : Prop :=
  e_totalPoints a > e_totalPoints b
  \/ (e_totalPoints a = e_totalPoints b
      /\ localeCompare (e_teamName a) (e_teamName b) <= 0).

(** A store with the two teams of [twoTeams], the roster of T1 and no
    transaction, and the users of the two teams followed by a user that has
    no team. *)
Definition threeUsers : list AuthUser :=
  [ mkAuthUser "u1" (Some "ann@example.org") (Some "Ann") None None;
    mkAuthUser "u2" (Some "bob@example.org") None None None;
    mkAuthUser "u3" (Some "cy@example.org") None None None ]%string.

(** The store of [snapshotOfTwoTeams] when the first team still has the
    name it was created with. *)
Definition snapshotWithGenericName : StoreSnapshot :=
  mkSnapshot (QueryOk [ mkTeam "T1" "u1" "Equipo de u1"; mkTeam "T2" "u2" "Beta" ]%string)
             (QueryOk rosterOfT1) (QueryOk []).

(* ================================================================== *)
(** * In-memory cache of provider answers (src/lib/cache.ts) *)

Section MapDelete.

Context {K V : Type}.
Variable keq : K -> K -> bool.

(** [m.delete(k)] *)
Fixpoint map_delete (k : K) (m : JSMap K V) : JSMap K V :=
  match m with
  | [] => []
  | (k', v) :: rest =>
      if keq k' k then rest else (k', v) :: map_delete k rest
  end.

End MapDelete.

Module SimpleCache.

Section Cache.

(** The type of the values stored. *)
Variable T : Type.

Record CacheEntry : Type := mkCacheEntry {
  data : T;
  timestamp : Z;
  ttl : Z   (* time to live, in milliseconds *)
}.

(** The private [cache] map of the instance. *)
Definition State : Type := JSMap string CacheEntry.

(** [new SimpleCache()] *)
Definition empty : State := [].

(** [get(key)] when [Date.now()] reads [now]: the value, [None] for [null],
    and the map afterwards (an expired entry is deleted). *)
Definition get (now : Z) (key : string) (cache : State) : option T * State :=
  match map_get String.eqb key cache with
  | None => (None, cache)
  | Some entry =>
      let age := now - timestamp entry in
      if ttl entry <? age then (None, map_delete String.eqb key cache)
      else (Some (data entry), cache)
  end.

(** [set(key, data, ttl)] when [Date.now()] reads [now]; an omitted [ttl]
    is one hour. *)
Definition set (now : Z) (key : string) (value : T) (ttl : option Z)
    (cache : State) : State :=
  map_set String.eqb key
    (mkCacheEntry value now (match ttl with Some t => t | None => 3600000 end))
    cache.

(** [clear()] *)
Definition clear (cache : State) : State := [].

(** [delete(key)] *)
Definition delete (key : string) (cache : State) : State :=
  map_delete String.eqb key cache.

End Cache.

Arguments data {T} _.
Arguments timestamp {T} _.
Arguments ttl {T} _.
Arguments empty {T}.
Arguments get {T} now key cache.
Arguments set {T} now key value ttl cache.
Arguments clear {T} cache.
Arguments delete {T} key cache.

End SimpleCache.

(** The states that a [SimpleCache] can reach: keys are distinct, as in any
    [Map]. *)
Definition distinctKeys {V : Type} (m : JSMap string V) : Prop :=
  NoDup (map_keys m).

(* ================================================================== *)
(** * Player game log endpoint (pages/api/nba/player-game-logs.ts) *)

(** [parseInt(s, 10)] *)
Definition parseInt10 (s : string) : Num :=
  let s1 := snd (span isWhiteSpace s) in
  let '(sign, s2) :=
    match s1 with
    | String c r =>
        if Ascii.eqb c "-" then (-1, r)
        else if Ascii.eqb c "+" then (1, r)
        else (1, s1)
    | EmptyString => (1, s1)
    end in
  option_map (Z.mul sign) (parseDigits 10 None s2).

(** The statuses with which a [Response] cannot carry a body. *)
Definition isNullBodyStatus (status : Z) : bool :=
  (status =? 101) || (status =? 103) || (status =? 204) || (status =? 205)
  || (status =? 304).

(** What the endpoint answers besides the status. *)
Inductive PlayerLogsBody : Type :=
| MissingPlayerId          (* error: the parameter is required *)
| InvalidPlayerId          (* error: the parameter must be a number *)
| HttpError (status : Z)   (* success: false, the provider's status *)
| NoGameLogs               (* success: false, no result set *)
| UnexpectedStructure      (* success: false, a column is missing *)
| InternalError            (* success: false, an exception was caught *)
| PlayerStats (dailyPoints weeklyPoints : Z) (lastGameDate : option Cell)
              (totalGames : Z).

Record PlayerLogsResponse : Type := mkPlayerLogsResponse {
  pl_status : Z;
  pl_body : PlayerLogsBody
}.

Section PlayerLogsEndpoint.

Variable tz : Zone.
Variable dateParse : string -> JSDate.

(** The comparator of the endpoint: most recent first. *)
Definition compareGamesDescending (a b : FetchedGame) : Num :=
  num_sub (getTime (dateOfCell dateParse (fg_date b)))
          (getTime (dateOfCell dateParse (fg_date a))).

(** [GET /api/nba/player-game-logs]; [playerIdParam] is
    [searchParams.get("playerId")], [fetched] what [fetch] yields for the
    player ([None] when it rejects) and [now] what [new Date()] reads.  A
    [Response] with a body cannot be built with a status outside 200-599 or
    with a null-body status: the attempt throws and is answered as an
    internal error. *)
Definition GET_playerGameLogs (playerIdParam : option string)
    (fetched : Z -> option NbaResponse) (now : Z) : PlayerLogsResponse :=
  match truthy playerIdParam with
  | None => mkPlayerLogsResponse 400 MissingPlayerId
  | Some playerIdParam =>
      match parseInt10 playerIdParam with
      | None => mkPlayerLogsResponse 400 InvalidPlayerId
      | Some playerId =>
          match fetched playerId with
          | None => mkPlayerLogsResponse 500 InternalError
          | Some response =>
              if negb (responseOk response) then
                if (200 <=? resp_status response) && (resp_status response <=? 599)
                   && negb (isNullBodyStatus (resp_status response))
                then mkPlayerLogsResponse (resp_status response)
                                          (HttpError (resp_status response))
                else mkPlayerLogsResponse 500 InternalError
              else
              match resp_json response with
              | None => mkPlayerLogsResponse 500 InternalError
              | Some None => mkPlayerLogsResponse 404 NoGameLogs
              | Some (Some []) => mkPlayerLogsResponse 404 NoGameLogs
              | Some (Some (gameLogs :: _)) =>
                  let headers :=
                    match rs_headers gameLogs with Some h => h | None => [] end in
                  let rows :=
                    match rs_rowSet gameLogs with Some r => r | None => [] end in
                  let gameDateIdx := cellIndexOf "GAME_DATE" headers in
                  let ptsIdx := cellIndexOf "PTS" headers in
                  if (gameDateIdx =? -1) || (ptsIdx =? -1)
                  then mkPlayerLogsResponse 500 UnexpectedStructure
                  else
                    let games :=
                      jsSort compareGamesDescending
                             (gamesOfRows gameDateIdx ptsIdx rows) in
                    let dailyPoints :=
                      match games with g :: _ => fg_points g | [] => 0 end in
                    let lastGameDate :=
                      match games with g :: _ => Some (fg_date g) | [] => None end in
                    let sevenDaysAgo := Some now in
                    let sevenDaysAgo :=
                      setDate tz sevenDaysAgo
                              (num_sub (getDate tz sevenDaysAgo) (Some 7)) in
                    let weeklyGames :=
                      filter (fun game =>
                                date_ge (dateOfCell dateParse (fg_date game))
                                        sevenDaysAgo) games in
                    let weeklyPoints :=
                      fold_left (fun sum game => sum + fg_points game)
                                weeklyGames 0 in
                    mkPlayerLogsResponse 200
                      (PlayerStats dailyPoints weeklyPoints lastGameDate
                                   (Z.of_nat (List.length games)))
              end
          end
      end
  end.

End PlayerLogsEndpoint.

(** The cutoff of the weekly points: the instant that the host assigns to
    the local time of [now] on the calendar day seven days earlier. *)
Definition sevenDaysBefore (tz : Zone) (now : Z) : Z :=
  UTC tz (LocalTime tz now - 7 * msPerDay).

(** The games of the last seven days: those whose date is valid and not
    before the cutoff. *)
Definition inLastSevenDays (tz : Zone) (dateParse : string -> JSDate) (now : Z)
    (g : FetchedGame) : bool :=
  match dateOfCell dateParse (fg_date g) with
  | Some t => sevenDaysBefore tz now <=? t
  | None => false
  end.

(* ================================================================== *)
(** * Team helpers (src/lib/fantasy.ts) and line-up endpoints
      (pages/api/fantasy/move-player.ts, swap-players.ts)

    The store is reached through queries whose answers are inputs here; an
    endpoint is modelled by the answer it returns and the list of writes
    that it sends to the store, in order.  The amounts of a row are carried
    as they are stored; the endpoints modelled here do not compute with
    them. *)

(** A row of [user_teams]. *)
Record UserTeam : Type := mkUserTeam {
  ut_id : string;
  ut_user_id : string;
  ut_team_name : string;
  ut_budget : Z
}.

(** A row of [players_on_team]; [p_owner_user_id] is the [user_id] of the
    joined team where a query joins it. *)
Record PlayerOnTeam : Type := mkPlayerOnTeamRow {
  p_id : string;
  p_team_id : string;
  p_player_id : Z;
  p_player_name : string;
  p_is_starter : bool;
  p_purchase_price : Z;
  p_release_clause : option Z;
  p_purchased_at : option string;
  p_can_be_sold : bool;
  p_owner_user_id : option string
}.

(** A write sent to the store. *)
Inductive Write : Type :=
| InsertTeam (user_id team_name : string) (budget : Z)
| UpdateStarter (id team_id : string) (is_starter : bool)
| CallSwapPlayers (player1_id player2_id team_id : string).

(** [getOrCreateUserTeam]; [existingTeam] is the answer of the select
    ([None]: an error or no single row) and [insertedTeam] the answer of the
    insert ([None]: an error). *)
Definition getOrCreateUserTeam (userId : string) (existingTeam : option UserTeam)
    (insertedTeam : option UserTeam) : option UserTeam * list Write :=
  match existingTeam with
  | Some team => (Some team, [])
  | None =>
      (insertedTeam,
       [InsertTeam userId ("Equipo de " ++ substring 0 8 userId)%string 1000000])
  end.

(** [getTeamPlayers]: the rows of the team, none when the query fails. *)
Definition getTeamPlayers (roster : QueryResult PlayerOnTeam) : list PlayerOnTeam :=
  match roster with
  | QueryOk data => data
  | QueryError => []
  end.

(** [canPlayerBeSold]; [now] is what [new Date()] reads.  The age in days is
    compared with 7 as a real number. *)
Definition canPlayerBeSold (dateParse : string -> JSDate) (now : Z)
    (player : PlayerOnTeam) : bool :=
  match truthy (p_purchased_at player) with
  | None => true
  | Some purchased_at =>
      if p_can_be_sold player then true
      else
        match dateParse purchased_at with
        | Some purchaseDate => 7 * (1000 * 60 * 60 * 24) <=? now - purchaseDate
        | None => false
        end
  end.

(** What an endpoint says when it refuses or fails. *)
Inductive MarketError : Type :=
| NotAuthenticated | InvalidSession | IncompleteData
| TeamUnavailable | PlayerNotFound | PlayerNotOnTeam
| StartersFull | BenchFull | PlayerUpdateFailed
| PlayersNotOnTeam | SameCategory | SwapRefused (message : string)
| FirstUpdateFailed | SecondUpdateFailed.

Inductive ApiBody : Type :=
| Failure (error : MarketError)
| AlreadyInPlace
| PlayerMoved
| PlayersSwapped.

Record ApiResponse : Type := mkApiResponse {
  api_status : Z;
  api_body : ApiBody
}.

(** The user of the session: the cookies must hold both tokens and
    [setSession] must answer with a user. *)
Definition sessionUser (accessToken refreshToken : option string)
    (session : option string) : MarketError + string :=
  match truthy accessToken, truthy refreshToken with
  | Some _, Some _ =>
      match session with
      | Some userId => inr userId
      | None => inl InvalidSession
      end
  | _, _ => inl NotAuthenticated
  end.

(** The market writes, those that touch a roster: every write but the
    creation of the caller's own team. *)
Definition isMarketWrite (w : Write) : bool :=
  match w with
  | InsertTeam _ _ _ => false
  | _ => true
  end.

(** A team with a budget of 1000. *)
Definition teamOfU1 : UserTeam := mkUserTeam "T1" "u1" "Alpha"%string 1000.

(* ------------------------------------------------------------------ *)
(** ** [POST /api/fantasy/move-player] *)

Record MovePlayerStore : Type := mkMovePlayerStore {
  mp_existingTeam : option UserTeam;
  mp_insertedTeam : option UserTeam;
  mp_roster : QueryResult PlayerOnTeam;
  mp_updateFails : bool
}.

(** The endpoint; [isStarter] is [None] when the property of the request
    body is absent or not a boolean. *)
Definition POST_movePlayer (accessToken refreshToken session : option string)
    (playerId : option string) (isStarter : option bool) (db : MovePlayerStore)
    : ApiResponse * list Write :=
  match sessionUser accessToken refreshToken session with
  | inl e => (mkApiResponse 401 (Failure e), [])
  | inr userId =>
      match truthy playerId, isStarter with
      | Some playerId, Some isStarter =>
          let (userTeam, w0) :=
            getOrCreateUserTeam userId (mp_existingTeam db) (mp_insertedTeam db) in
          match userTeam with
          | None => (mkApiResponse 500 (Failure TeamUnavailable), w0)
          | Some userTeam =>
              let currentPlayers := getTeamPlayers (mp_roster db) in
              match find (fun p => String.eqb (p_id p) playerId) currentPlayers with
              | None => (mkApiResponse 404 (Failure PlayerNotFound), w0)
              | Some playerToMove =>
                  if Bool.eqb (p_is_starter playerToMove) isStarter
                  then (mkApiResponse 200 AlreadyInPlace, w0)
                  else
                  let startersCount :=
                    List.length
                      (filter (fun p => p_is_starter p
                                        && negb (String.eqb (p_id p) playerId))
                              currentPlayers) in
                  if isStarter && negb (p_is_starter playerToMove)
                     && (5 <=? Z.of_nat startersCount)
                  then (mkApiResponse 400 (Failure StartersFull), w0)
                  else
                  let benchCount :=
                    List.length
                      (filter (fun p => negb (p_is_starter p)
                                        && negb (String.eqb (p_id p) playerId))
                              currentPlayers) in
                  if negb isStarter && p_is_starter playerToMove
                     && (4 <=? Z.of_nat benchCount)
                  then (mkApiResponse 400 (Failure BenchFull), w0)
                  else
                  if negb (String.eqb (p_team_id playerToMove) (ut_id userTeam))
                  then (mkApiResponse 404 (Failure PlayerNotOnTeam), w0)
                  else
                  let w1 := w0 ++ [UpdateStarter playerId (ut_id userTeam) isStarter] in
                  if mp_updateFails db
                  then (mkApiResponse 500 (Failure PlayerUpdateFailed), w1)
                  else (mkApiResponse 200 PlayerMoved, w1)
              end
          end
      | _, _ => (mkApiResponse 400 (Failure IncompleteData), [])
      end
  end.

(** The roster once the store has applied [UpdateStarter id team flag]:
    the rows with that id and that team get the flag. *)
Definition withStarter (id team : string) (flag : bool)
    (roster : list PlayerOnTeam) : list PlayerOnTeam :=
  map (fun p => if String.eqb (p_id p) id && String.eqb (p_team_id p) team
                then mkPlayerOnTeamRow (p_id p) (p_team_id p) (p_player_id p)
                       (p_player_name p) flag (p_purchase_price p)
                       (p_release_clause p) (p_purchased_at p) (p_can_be_sold p)
                       (p_owner_user_id p)
                else p) roster.

Definition startersOf (roster : list PlayerOnTeam) : list PlayerOnTeam :=
  filter p_is_starter roster.

Definition benchOf (roster : list PlayerOnTeam) : list PlayerOnTeam :=
  filter (fun p => negb (p_is_starter p)) roster.

(** A roster of five starters and one player on the bench. *)
Definition rosterOfSix : list PlayerOnTeam :=
  [ mkPlayerOnTeamRow "r1" "T1" 1 "P1" true 100 None None true None;
    mkPlayerOnTeamRow "r2" "T1" 2 "P2" true 100 None None true None;
    mkPlayerOnTeamRow "r3" "T1" 3 "P3" true 100 None None true None;
    mkPlayerOnTeamRow "r4" "T1" 4 "P4" true 100 None None true None;
    mkPlayerOnTeamRow "r5" "T1" 5 "P5" true 100 None None true None;
    mkPlayerOnTeamRow "r6" "T1" 6 "P6" false 100 None None true None ]%string.

(* ------------------------------------------------------------------ *)
(** ** [POST /api/fantasy/swap-players] *)

(** What the remote procedure [swap_players] hands back as [data]: a falsy
    value, [true], an object with a [success] property (its truthiness, and
    its [error] property), or another truthy value. *)
Inductive RpcValue : Type :=
| RvFalsy
| RvTrue
| RvOutcome (success : bool) (error : option string)
| RvOther.

(** The call throws, answers with an error, or answers with data. *)
Inductive SwapRpc : Type :=
| RpcThrows
| RpcFailed
| RpcData (swapResult : RpcValue).

Record SwapPlayersStore : Type := mkSwapPlayersStore {
  sw_existingTeam : option UserTeam;
  sw_insertedTeam : option UserTeam;
  sw_roster : QueryResult PlayerOnTeam;
  sw_rpc : SwapRpc;
  sw_firstUpdateFails : bool;
  sw_secondUpdateFails : bool
}.

Definition swapRefusedByDefault : string := "Error al intercambiar jugadores".

Definition POST_swapPlayers (accessToken refreshToken session : option string)
    (player1Id player2Id : option string) (db : SwapPlayersStore)
    : ApiResponse * list Write :=
  match sessionUser accessToken refreshToken session with
  | inl e => (mkApiResponse 401 (Failure e), [])
  | inr userId =>
      match truthy player1Id, truthy player2Id with
      | Some player1Id, Some player2Id =>
          let (userTeam, w0) :=
            getOrCreateUserTeam userId (sw_existingTeam db) (sw_insertedTeam db) in
          match userTeam with
          | None => (mkApiResponse 500 (Failure TeamUnavailable), w0)
          | Some userTeam =>
              let currentPlayers := getTeamPlayers (sw_roster db) in
              match find (fun p => String.eqb (p_id p) player1Id) currentPlayers,
                    find (fun p => String.eqb (p_id p) player2Id) currentPlayers with
              | Some player1, Some player2 =>
                  if negb (String.eqb (p_team_id player1) (ut_id userTeam))
                     || negb (String.eqb (p_team_id player2) (ut_id userTeam))
                  then (mkApiResponse 404 (Failure PlayersNotOnTeam), w0)
                  else
                  if Bool.eqb (p_is_starter player1) (p_is_starter player2)
                  then (mkApiResponse 400 (Failure SameCategory), w0)
                  else
                  let w1 := w0 ++ [CallSwapPlayers player1Id player2Id (ut_id userTeam)] in
                  let fallback :=
                    let (firstPlayerId, secondPlayerId) :=
                      if p_is_starter player1 && negb (p_is_starter player2)
                      then (player2Id, player1Id)
                      else (player1Id, player2Id) in
                    let w2 := w1 ++ [UpdateStarter firstPlayerId (ut_id userTeam) true] in
                    if sw_firstUpdateFails db
                    then (mkApiResponse 500 (Failure FirstUpdateFailed), w2)
                    else
                    let w3 :=
                      w2 ++ [UpdateStarter secondPlayerId (ut_id userTeam) false] in
                    if sw_secondUpdateFails db
                    then (mkApiResponse 500 (Failure SecondUpdateFailed),
                          w3 ++ [UpdateStarter firstPlayerId (ut_id userTeam) false])
                    else (mkApiResponse 200 PlayersSwapped, w3) in
                  match sw_rpc db with
                  | RpcThrows => fallback
                  | RpcFailed => fallback
                  | RpcData (RvOutcome true _) => (mkApiResponse 200 PlayersSwapped, w1)
                  | RpcData (RvOutcome false error) =>
                      (mkApiResponse 400
                         (Failure (SwapRefused match truthy error with
                                               | Some message => message
                                               | None => swapRefusedByDefault
                                               end)), w1)
                  | RpcData RvTrue => (mkApiResponse 200 PlayersSwapped, w1)
                  | RpcData RvFalsy => fallback
                  | RpcData RvOther => fallback
                  end
              | _, _ => (mkApiResponse 404 (Failure PlayersNotOnTeam), w0)
              end
          end
      | _, _ => (mkApiResponse 400 (Failure IncompleteData), [])
      end
  end.

(* ################################################################## *)
(** * Properties *)

(* ================================================================== *)
(** ** Week calendar *)

(** C3 (fails on the code).  In the UTC zone, with the default season start
    2024-10-22 (a Tuesday), Monday 2024-10-28 is on or after the season
    start and [getWeekNumber] gives it week 1, but the range that
    [getWeekDates] returns for week 1 runs from Monday 2024-10-21 00:00:00.000
    to Sunday 2024-10-27 23:59:59.999 and ends before that date; the same
    date lies inside the range returned for week 2, and [getWeekNumber] does
    not map it back to 2. *)
Theorem week_functions_disagree_at_default_start :
  let seasonStart := defaultSeasonStart isoDateParse in
  let d := isoDateParse "2024-10-28" in
  let week1 := getWeekDates 0 (Some 1) seasonStart in
  let week2 := getWeekDates 0 (Some 2) seasonStart in
  date_ge d seasonStart = true
  /\ getWeekNumber 0 isoDateParse d seasonStart = Some 1
  /\ wd_start week1 = isoDateParse "2024-10-21"
  /\ wd_end week1 = Some 1730073599999
  /\ date_lt (wd_end week1) d = true
  /\ date_ge d (wd_start week2) = true
  /\ date_ge (wd_end week2) d = true
  /\ getWeekNumber 0 isoDateParse d seasonStart <> Some 2.
Proof.
  vm_compute. repeat split; try reflexivity. discriminate.
Qed.

(* ================================================================== *)
(** ** Ownership interval reconstructor: the emission of closed periods *)

Lemma within1000ms_spec (a b : JSDate) :
  within1000ms a b = true <->
  exists x y, a = Some x /\ b = Some y /\ Z.abs (x - y) < 1000.
Proof.
  unfold within1000ms, getTime, num_sub. split.
  - destruct a as [x|], b as [y|]; try discriminate.
    intros H. exists x, y. rewrite Z.ltb_lt in H. auto.
  - intros (x & y & -> & -> & H). now apply Z.ltb_lt.
Qed.

Lemma sameHolding_spec (pid : Z) (period : HistoryPeriod)
    (p : PlayerOwnershipPeriod) :
  sameHolding pid period p = true <->
  playerId p = pid /\ userId p = h_userId period /\ teamId p = h_teamId period
  /\ within1000ms (purchaseDate p) (h_purchaseDate period) = true.
Proof.
  unfold sameHolding.
  rewrite !andb_true_iff, Z.eqb_eq, !String.eqb_eq. tauto.
Qed.

Lemma app_one_neq {A : Type} (l : list A) (x : A) : l ++ [x] <> l.
Proof.
  intros H. apply (f_equal (@List.length A)) in H.
  rewrite length_app in H. simpl in H. lia.
Qed.

(* ================================================================== *)
(** ** Maps, sums and the sort *)

Lemma num_eqb_eq (a b : Num) : num_eqb a b = true <-> a = b.
Proof.
  destruct a as [x|], b as [y|]; simpl; split; try discriminate; try reflexivity.
  - intros H. apply Z.eqb_eq in H. now subst.
  - intros [= ->]. apply Z.eqb_refl.
Qed.

Lemma num_eqb_refl (a : Num) : num_eqb a a = true.
Proof. now apply num_eqb_eq. Qed.

Lemma sumZ_app (a b : list Z) : sumZ (a ++ b) = sumZ a + sumZ b.
Proof. induction a as [|x a IH]; simpl; [reflexivity | rewrite IH; lia]. Qed.

Lemma sumZ_perm (a b : list Z) : Permutation a b -> sumZ a = sumZ b.
Proof. induction 1; simpl; lia. Qed.

Section MapFacts.

Context {K V : Type}.
Variable keq : K -> K -> bool.
Hypothesis keq_eq : forall a b, keq a b = true <-> a = b.

Lemma keq_refl (a : K) : keq a a = true.
Proof. now apply keq_eq. Qed.

Lemma keq_neq (a b : K) : a <> b -> keq a b = false.
Proof.
  intros H. destruct (keq a b) eqn:E; [|reflexivity].
  apply keq_eq in E. contradiction.
Qed.

Lemma map_get_set_same (k : K) (v : V) (m : JSMap K V) :
  map_get keq k (map_set keq k v m) = Some v.
Proof.
  induction m as [|[k' v'] m IH]; simpl.
  - now rewrite keq_refl.
  - destruct (keq k' k) eqn:E; simpl; rewrite E; [reflexivity | exact IH].
Qed.

Lemma map_get_set_other (k k' : K) (v : V) (m : JSMap K V) :
  k' <> k -> map_get keq k (map_set keq k' v m) = map_get keq k m.
Proof.
  intros Hne. induction m as [|[k0 v0] m IH]; simpl.
  - now rewrite keq_neq.
  - destruct (keq k0 k') eqn:E; simpl.
    + apply keq_eq in E. subst k0. now rewrite keq_neq.
    + destruct (keq k0 k); [reflexivity | exact IH].
Qed.

Lemma map_keys_set (k : K) (v : V) (m : JSMap K V) :
  map_keys (map_set keq k v m)
  = if map_has keq k m then map_keys m else map_keys m ++ [k].
Proof.
  unfold map_has, map_keys. induction m as [|[k' v'] m IH]; simpl.
  - reflexivity.
  - destruct (keq k' k) eqn:E; simpl; [reflexivity|].
    rewrite IH. destruct (map_get keq k m); reflexivity.
Qed.

Lemma map_get_In_keys (k : K) (m : JSMap K V) :
  map_has keq k m = true <-> In k (map_keys m).
Proof.
  unfold map_has, map_keys. induction m as [|[k' v'] m IH]; simpl.
  - split; [discriminate | tauto].
  - destruct (keq k' k) eqn:E.
    + apply keq_eq in E. subst. tauto.
    + rewrite IH. split; [tauto|]. intros [H|H]; [|exact H].
      subst. rewrite keq_refl in E. discriminate.
Qed.

Lemma map_set_NoDup (k : K) (v : V) (m : JSMap K V) :
  NoDup (map_keys m) -> NoDup (map_keys (map_set keq k v m)).
Proof.
  intros H. rewrite map_keys_set.
  destruct (map_has keq k m) eqn:E; [exact H|].
  apply NoDup_app; [exact H | repeat constructor; simpl; tauto |].
  intros x Hx [<-|[]]. apply map_get_In_keys in Hx. congruence.
Qed.

Lemma map_get_In (k : K) (v : V) (m : JSMap K V) :
  map_get keq k m = Some v -> In (k, v) m.
Proof.
  induction m as [|[k' v'] m IH]; simpl; [discriminate|].
  destruct (keq k' k) eqn:E.
  - apply keq_eq in E. subst. intros [= ->]. now left.
  - intros H. right. auto.
Qed.

Lemma In_map_get (k : K) (v : V) (m : JSMap K V) :
  NoDup (map_keys m) -> In (k, v) m -> map_get keq k m = Some v.
Proof.
  unfold map_keys. induction m as [|[k' v'] m IH]; simpl; [tauto|].
  intros Hnd [H|H].
  - injection H as -> ->. now rewrite keq_refl.
  - inversion Hnd; subst. destruct (keq k' k) eqn:E.
    + apply keq_eq in E. subst. exfalso. apply H2.
      apply in_map_iff. exists (k, v). auto.
    + auto.
Qed.

End MapFacts.

Section SortFacts.

Context {A : Type}.
Variable cmp : A -> A -> Num.

Lemma insertSorted_perm (x : A) (l : list A) :
  Permutation (insertSorted cmp x l) (x :: l).
Proof.
  induction l as [|y l IH]; simpl; [reflexivity|].
  destruct (goesAfter cmp x y); [|reflexivity].
  rewrite IH. apply perm_swap.
Qed.

Lemma jsSort_perm (l : list A) : Permutation (jsSort cmp l) l.
Proof.
  induction l as [|x l IH]; simpl; [reflexivity|].
  rewrite insertSorted_perm. now constructor.
Qed.

Lemma jsSort_In (x : A) (l : list A) : In x (jsSort cmp l) <-> In x l.
Proof.
  split; apply Permutation_in; [|symmetry]; apply jsSort_perm.
Qed.

Lemma jsSort_nil_inv (l : list A) : jsSort cmp l = [] -> l = [].
Proof.
  intros H. apply Permutation_nil. rewrite <- H. apply jsSort_perm.
Qed.

End SortFacts.

Lemma filter_perm {A : Type} (f : A -> bool) (l l' : list A) :
  Permutation l l' -> Permutation (filter f l) (filter f l').
Proof.
  induction 1; simpl.
  - constructor.
  - destruct (f x); [constructor|]; assumption.
  - destruct (f x), (f y); try apply perm_swap; reflexivity.
  - etransitivity; eassumption.
Qed.

Lemma filter_filter {A : Type} (f g : A -> bool) (l : list A) :
  filter g (filter f l) = filter (fun x => f x && g x) l.
Proof.
  induction l as [|x l IH]; simpl; [reflexivity|].
  destruct (f x); simpl; [destruct (g x)|]; rewrite ?IH; reflexivity.
Qed.

(** With distinct keys, the values stored under [w] add up to [m.get(w) || 0]. *)
Lemma sum_of_key_getOr0 (w : Num) (m : JSMap Num Z) :
  NoDup (map_keys m) ->
  sumZ (map snd (filter (fun e => num_eqb (fst e) w) m)) = getOr0 num_eqb w m.
Proof.
  unfold getOr0, map_keys. induction m as [|[k v] m IH]; simpl; [reflexivity|].
  intros Hnd. inversion Hnd as [|? ? Hk Hnd']; subst.
  destruct (num_eqb k w) eqn:E; simpl.
  - apply num_eqb_eq in E. subst k.
    assert (Hnone : filter (fun e => num_eqb (fst e) w) m = []).
    { clear -Hk. induction m as [|[k v] m IH]; simpl in *; [reflexivity|].
      destruct (num_eqb k w) eqn:E.
      - apply num_eqb_eq in E. subst. tauto.
      - apply IH. tauto. }
    rewrite Hnone. simpl. lia.
  - now apply IH.
Qed.

(* ================================================================== *)
(** ** Weekly points aggregator *)

Section AggregatorFacts.

Variable tz : Zone.
Variable dateParse : string -> JSDate.

#[local] Abbreviation normalize := (normalizeDate tz dateParse).

Lemma gameCounts_spec (purchaseDate : JSDate) (saleDate : option JSDate)
    (game : PlayerGameLog) :
  gameCounts tz dateParse purchaseDate saleDate game = true
  <-> GameCounts tz dateParse purchaseDate saleDate game.
Proof.
  unfold gameCounts, GameCounts, date_ge, date_lt, num_ge, num_lt.
  destruct (normalize (FromString (gl_date game))) as [g|];
    destruct (normalize (FromDate purchaseDate)) as [p|]; simpl.
  - destruct saleDate as [sale|].
    + destruct (normalize (FromDate sale)) as [s|] eqn:Es.
      * rewrite andb_true_iff, Z.leb_le, Z.ltb_lt. split.
        -- intros [H1 H2]. exists g, p. repeat split; try assumption.
           right. exists sale, s. auto.
        -- intros (g' & p' & [= <-] & [= <-] & Hle & [Hn | (sl & s' & [= <-] & Hs & Hlt)]);
             [discriminate|].
           rewrite Es in Hs. injection Hs as <-. auto.
      * rewrite andb_false_r. split; [discriminate|].
        intros (g' & p' & _ & _ & _ & [Hn | (sl & s' & [= <-] & Hs & _)]);
          [discriminate|]. rewrite Es in Hs. discriminate.
    + rewrite andb_true_r, Z.leb_le. split.
      * intros H. exists g, p. auto.
      * intros (g' & p' & [= <-] & [= <-] & Hle & _). exact Hle.
  - split; [discriminate|]. intros (g' & p' & _ & Hp & _). discriminate.
  - split; [discriminate|]. intros (g' & p' & Hg & _). discriminate.
  - split; [discriminate|]. intros (g' & p' & Hg & _). discriminate.
Qed.

Lemma isInRange_gameCounts (purchaseDate : JSDate) (saleDate : option JSDate)
    (game : PlayerGameLog) :
  isInRange tz dateParse (normalize (FromDate purchaseDate))
            (option_map (fun s => normalize (FromDate s)) saleDate) game
  = gameCounts tz dateParse purchaseDate saleDate game.
Proof. unfold isInRange, gameCounts. destruct saleDate; reflexivity. Qed.

Variable seasonStartDate : JSDate.

#[local] Abbreviation weekOf := (weekOfGame tz dateParse seasonStartDate).
#[local] Abbreviation addGame := (addGameToWeek tz dateParse (normalize (FromDate seasonStartDate))).

Lemma addGame_getOr0 (w : Num) (m : JSMap Num Z) (game : PlayerGameLog) :
  getOr0 num_eqb w (addGame m game)
  = getOr0 num_eqb w m + (if num_eqb (weekOf game) w then gl_points game else 0).
Proof.
  unfold addGameToWeek, getOr0. fold (weekOf game).
  destruct (num_eqb (weekOf game) w) eqn:E.
  - apply num_eqb_eq in E. subst w.
    now rewrite (map_get_set_same num_eqb num_eqb_eq).
  - rewrite (map_get_set_other num_eqb num_eqb_eq); [lia|].
    intros H. rewrite H, num_eqb_refl in E. discriminate.
Qed.

Lemma addGame_fold_getOr0 (w : Num) (games : list PlayerGameLog) (m : JSMap Num Z) :
  getOr0 num_eqb w (fold_left addGame games m)
  = getOr0 num_eqb w m
    + sumZ (map gl_points (filter (fun g => num_eqb (weekOf g) w) games)).
Proof.
  revert m. induction games as [|g games IH]; intros m; simpl; [lia|].
  rewrite IH, addGame_getOr0.
  destruct (num_eqb (weekOf g) w); simpl; lia.
Qed.

Lemma addGame_keys (m : JSMap Num Z) (game : PlayerGameLog) :
  map_keys (addGame m game)
  = if map_has num_eqb (weekOf game) m then map_keys m
    else map_keys m ++ [weekOf game].
Proof. unfold addGameToWeek. apply map_keys_set. Qed.

Lemma addGame_fold_keys (w : Num) (games : list PlayerGameLog) (m : JSMap Num Z) :
  In w (map_keys (fold_left addGame games m))
  <-> In w (map_keys m) \/ exists g, In g games /\ weekOf g = w.
Proof.
  revert m. induction games as [|g games IH]; intros m; simpl.
  - split; [tauto|]. intros [H|(g & [] & _)]. exact H.
  - rewrite IH, addGame_keys.
    destruct (map_has num_eqb (weekOf g) m) eqn:E.
    + apply (map_get_In_keys num_eqb num_eqb_eq) in E. split.
      * intros [H|(g' & Hin & Hw)]; [tauto|]. right. exists g'. auto.
      * intros [H|(g' & [<-|Hin] & Hw)]; [tauto| |].
        -- left. now rewrite <- Hw.
        -- right. exists g'. auto.
    + rewrite in_app_iff. simpl. split.
      * intros [[H|[H|[]]]|(g' & Hin & Hw)]; [tauto| |].
        -- right. exists g. auto.
        -- right. exists g'. auto.
      * intros [H|(g' & [<-|Hin] & Hw)]; [tauto| |].
        -- left. right. left. exact Hw.
        -- right. exists g'. auto.
Qed.

Lemma addGame_fold_NoDup (games : list PlayerGameLog) (m : JSMap Num Z) :
  NoDup (map_keys m) -> NoDup (map_keys (fold_left addGame games m)).
Proof.
  revert m. induction games as [|g games IH]; intros m H; simpl; [exact H|].
  apply IH. unfold addGameToWeek. now apply (map_set_NoDup num_eqb num_eqb_eq).
Qed.

Lemma addGame_fold_sum (games : list PlayerGameLog) (m : JSMap Num Z) :
  sumZ (map_values (fold_left addGame games m))
  = sumZ (map_values m) + sumZ (map gl_points games).
Proof.
  revert m. induction games as [|g games IH]; intros m; simpl; [lia|].
  rewrite IH.
  assert (Hstep : forall k v (m0 : JSMap Num Z),
    sumZ (map_values (map_set num_eqb k (getOr0 num_eqb k m0 + v) m0))
    = sumZ (map_values m0) + v).
  { intros k v m0. unfold getOr0, map_values.
    induction m0 as [|[k' v'] m0 IHm]; simpl; [lia|].
    destruct (num_eqb k' k); simpl; [lia|]. rewrite IHm. lia. }
  unfold addGameToWeek. fold (getOr0 num_eqb (getWeekNumber tz dateParse
    (normalize (FromString (gl_date g))) (normalize (FromDate seasonStartDate))) m).
  rewrite Hstep. lia.
Qed.

End AggregatorFacts.

Lemma calculateWeeklyPoints_perm (tz : Zone) (dateParse : string -> JSDate)
    (gameLogs : list PlayerGameLog) (purchaseDate : JSDate)
    (saleDate : option JSDate) (seasonStartDate : JSDate) :
  exists weeks : JSMap Num Z,
    weeks = fold_left
              (addGameToWeek tz dateParse
                 (normalizeDate tz dateParse (FromDate seasonStartDate)))
              (filter (gameCounts tz dateParse purchaseDate saleDate) gameLogs) []
    /\ Permutation (map weekNumber
                      (creditedWeeks tz dateParse gameLogs purchaseDate
                                             saleDate seasonStartDate))
                   (map_keys weeks)
    /\ Permutation (map (fun e => (weekNumber e, wp_points e))
                      (creditedWeeks tz dateParse gameLogs purchaseDate
                                             saleDate seasonStartDate))
                   weeks.
Proof.
  eexists. split; [reflexivity|].
  unfold creditedWeeks.
  rewrite (filter_ext _ _ (isInRange_gameCounts tz dateParse purchaseDate saleDate)).
  set (weeks := fold_left (addGameToWeek _ _ _) _ []).
  assert (H : Permutation
    (map (fun e => (weekNumber e, wp_points e))
       (jsSort compareWeeks
          (map (fun '(weekNumber, points) =>
                  let wd := getWeekDates tz weekNumber
                              (normalizeDate tz dateParse (FromDate seasonStartDate)) in
                  mkWeeklyPoints weekNumber (wd_start wd) (wd_end wd) points)
               weeks)))
    weeks).
  { rewrite (jsSort_perm compareWeeks). rewrite map_map.
    erewrite map_ext; [rewrite map_id; reflexivity|].
    intros [k v]. reflexivity. }
  split; [|exact H].
  apply (Permutation_map fst) in H. rewrite map_map in H. exact H.
Qed.

(** The weeks credited hold exactly the games that pass the filter: the
    entry of each week holds the sum of the points of those games that fall
    in that week, a week has an entry exactly when such a game falls in it,
    no week has two entries, the entries add up to the points of all those
    games, and when no game passes the filter there is no entry. *)
Lemma creditedWeeks_counts_games_in_period
    (tz : Zone) (dateParse : string -> JSDate)
    (gameLogs : list PlayerGameLog) (purchaseDate : JSDate)
    (saleDate : option JSDate) (seasonStartDate : JSDate) :
  let result :=
    creditedWeeks tz dateParse gameLogs purchaseDate saleDate
                          seasonStartDate in
  (forall game,
     isInRange tz dateParse (normalizeDate tz dateParse (FromDate purchaseDate))
       (option_map (fun s => normalizeDate tz dateParse (FromDate s)) saleDate)
       game = true
     <-> GameCounts tz dateParse purchaseDate saleDate game)
  /\ (forall w,
        pointsOfWeek w result
        = countedPointsInWeek tz dateParse purchaseDate saleDate seasonStartDate
                              w gameLogs)
  /\ (forall w,
        In w (map weekNumber result)
        <-> exists game,
              In game gameLogs
              /\ GameCounts tz dateParse purchaseDate saleDate game
              /\ weekOfGame tz dateParse seasonStartDate game = w)
  /\ NoDup (map weekNumber result)
  /\ sumZ (map wp_points result)
     = countedPoints tz dateParse purchaseDate saleDate gameLogs
  /\ ((forall game,
         In game gameLogs ->
         ~ GameCounts tz dateParse purchaseDate saleDate game)
      -> result = []).
Proof.
  intros result.
  destruct (calculateWeeklyPoints_perm tz dateParse gameLogs purchaseDate
              saleDate seasonStartDate) as (weeks & Hweeks & Hkeys & Hperm).
  fold result in Hkeys, Hperm.
  assert (Hnd : NoDup (map_keys weeks)).
  { subst weeks. apply addGame_fold_NoDup. constructor. }
  split; [|split; [|split; [|split; [|split]]]].
  - intros game. rewrite isInRange_gameCounts. apply gameCounts_spec.
  - intros w. unfold pointsOfWeek, countedPointsInWeek.
    transitivity (sumZ (map snd (filter (fun e => num_eqb (fst e) w) weeks))).
    + apply (filter_perm (fun e => num_eqb (fst e) w)) in Hperm.
      apply (Permutation_map snd) in Hperm. apply sumZ_perm in Hperm.
      rewrite <- Hperm. f_equal.
      clear. induction result as [|e l IH]; simpl; [reflexivity|].
      destruct (num_eqb (weekNumber e) w); simpl; now rewrite IH.
    + rewrite (sum_of_key_getOr0 w weeks Hnd). subst weeks.
      rewrite addGame_fold_getOr0. unfold getOr0. simpl.
      now rewrite filter_filter.
  - intros w. split.
    + intros H. apply (Permutation_in _ Hkeys) in H. subst weeks.
      apply addGame_fold_keys in H. destruct H as [[]|(g & Hin & Hw)].
      apply filter_In in Hin. destruct Hin as [Hin Hc].
      exists g. split; [exact Hin|]. split; [|exact Hw].
      now apply gameCounts_spec.
    + intros (g & Hin & Hc & Hw).
      apply (Permutation_in _ (Permutation_sym Hkeys)). subst weeks.
      apply addGame_fold_keys. right. exists g. split; [|exact Hw].
      apply filter_In. split; [exact Hin|]. now apply gameCounts_spec.
  - apply (Permutation_NoDup (Permutation_sym Hkeys) Hnd).
  - unfold countedPoints.
    apply (Permutation_map snd) in Hperm. rewrite map_map in Hperm. simpl in Hperm.
    transitivity (sumZ (map_values weeks)); [apply sumZ_perm; exact Hperm|].
    subst weeks. rewrite addGame_fold_sum. simpl. lia.
  - intros Hnone.
    assert (Hf : filter (gameCounts tz dateParse purchaseDate saleDate) gameLogs = []).
    { destruct (filter _ gameLogs) as [|g l] eqn:E; [reflexivity|].
      assert (Hin : In g (filter (gameCounts tz dateParse purchaseDate saleDate) gameLogs))
        by (rewrite E; now left).
      apply filter_In in Hin. destruct Hin as [Hin Hc].
      apply gameCounts_spec in Hc. now apply Hnone in Hc. }
    rewrite Hf in Hweeks. simpl in Hweeks. subst weeks.
    apply Permutation_sym, Permutation_nil in Hkeys.
    destruct result; [reflexivity | discriminate].
Qed.

(* ================================================================== *)
(** ** Ownership interval reconstructor: steps 1 and 2 *)

Lemma closeFirstOpen_none (user team : string) (d : JSDate)
    (history : list HistoryPeriod) :
  (forall p, In p history -> isOpenPeriodOf user team p = false) ->
  closeFirstOpen user team d history = history.
Proof.
  induction history as [|p l IH]; simpl; [reflexivity|].
  intros H. rewrite (H p (or_introl eq_refl)). f_equal. apply IH.
  intros q Hq. apply H. now right.
Qed.

Lemma closeFirstOpen_first (user team : string) (d : JSDate)
    (l1 l2 : list HistoryPeriod) (p : HistoryPeriod) :
  (forall q, In q l1 -> isOpenPeriodOf user team q = false) ->
  isOpenPeriodOf user team p = true ->
  closeFirstOpen user team d (l1 ++ p :: l2)
  = l1 ++ mkHistory (h_userId p) (h_teamId p) (h_purchaseDate p) (Some d) :: l2.
Proof.
  intros H1 Hp. induction l1 as [|q l1 IH]; simpl.
  - now rewrite Hp.
  - rewrite (H1 q (or_introl eq_refl)). f_equal. apply IH.
    intros r Hr. apply H1. now right.
Qed.

Lemma historyOf_set_same (pid : Z) (h : list HistoryPeriod) (m : PlayerHistoryMap) :
  historyOf pid (map_set Z.eqb pid h m) = h.
Proof. unfold historyOf. now rewrite (map_get_set_same Z.eqb Z.eqb_eq). Qed.

Lemma historyOf_set_other (pid q : Z) (h : list HistoryPeriod) (m : PlayerHistoryMap) :
  q <> pid -> historyOf pid (map_set Z.eqb q h m) = historyOf pid m.
Proof.
  intros H. unfold historyOf. now rewrite (map_get_set_other Z.eqb Z.eqb_eq).
Qed.

Lemma historyOf_ensure (pid q : Z) (m : PlayerHistoryMap) :
  historyOf pid (if map_has Z.eqb q m then m else map_set Z.eqb q [] m)
  = historyOf pid m.
Proof.
  destruct (map_has Z.eqb q m) eqn:E; [reflexivity|].
  destruct (Z.eq_dec q pid) as [->|Hne].
  - rewrite historyOf_set_same. unfold historyOf, map_has in *.
    destruct (map_get Z.eqb pid m); [discriminate | reflexivity].
  - now apply historyOf_set_other.
Qed.

Lemma processTransaction_history (m : PlayerHistoryMap) (tx : TransactionRow)
    (buyer seller : string) :
  truthy (tx_buyer_user_id tx) = Some buyer ->
  truthy (tx_seller_user_id tx) = Some seller ->
  historyOf (tx_player_id tx) (processTransaction m tx)
  = closeFirstOpen seller (tx_seller_team_id tx) (tx_created_at tx)
                   (historyOf (tx_player_id tx) m)
    ++ [mkHistory buyer (tx_buyer_team_id tx) (tx_created_at tx) None].
Proof.
  intros Hb Hs. unfold processTransaction. rewrite Hb, Hs.
  now rewrite historyOf_set_same, historyOf_ensure.
Qed.

Lemma processTransaction_other (m : PlayerHistoryMap) (tx : TransactionRow) (q : Z) :
  q <> tx_player_id tx ->
  historyOf q (processTransaction m tx) = historyOf q m.
Proof.
  intros Hne. unfold processTransaction.
  destruct (truthy (tx_buyer_user_id tx)); [|reflexivity].
  destruct (truthy (tx_seller_user_id tx)); [|reflexivity].
  rewrite historyOf_set_other by congruence. apply historyOf_ensure.
Qed.

(** C5 as stated fails on the code: when the seller has two open periods
    for the player, the transaction closes the oldest one (the first that
    [history.find] meets), not the most recent one. *)
Lemma close_step_closes_oldest_open_period :
  let m := buildHistory (firstn 2 twoPurchasesThenSale) in
  let tx := nth 2 twoPurchasesThenSale
              (mkTransaction "" "" "" 0 "" None None None) in
  (historyOf 7 m
    = [ mkHistory "u" "TU" (Some 1000) None; mkHistory "u" "TU" (Some 2000) None ]
  /\ historyOf 7 (processTransaction m tx)
     = [ mkHistory "u" "TU" (Some 1000) (Some (Some 3000));
         mkHistory "u" "TU" (Some 2000) None;
         mkHistory "x" "TX" (Some 3000) None ]
  /\ historyOf 7 (processTransaction_spec m tx)
     = [ mkHistory "u" "TU" (Some 1000) None;
         mkHistory "u" "TU" (Some 2000) (Some (Some 3000));
         mkHistory "x" "TX" (Some 3000) None ]
  /\ processTransaction m tx <> processTransaction_spec m tx)%string.
Proof.
  vm_compute. repeat split. discriminate.
Qed.

(** C5 (amended).  Transactions are processed in the order of the list
    (ascending [created_at]).  A transaction whose buyer and seller users
    both resolve closes, in the history of its player, the first still-open
    period of the seller's (user, team) in the working list (the oldest one;
    it is the most recent one whenever the seller has a single open period)
    by setting its [saleDate] to [created_at], then appends an open period of
    the buyer that starts at [created_at]; when the seller has no open
    period nothing is closed and only the buyer's period is appended; the
    histories of the other players are untouched, and a transaction with an
    unresolved buyer or seller changes nothing.  A roster row whose user
    resolves appends exactly one open period: it starts at the
    [purchaseDate] of the first open period of that (user, team) in the
    player's history when there is one (the row's own timestamps are then
    ignored), otherwise at the row's [purchased_at], or at its [created_at]
    when [purchased_at] is absent. *)
Theorem reconstructor_steps_one_and_two :
  (forall transactions,
     buildHistory transactions = fold_left processTransaction transactions [])
  /\ (forall m tx buyer seller,
        truthy (tx_buyer_user_id tx) = Some buyer ->
        truthy (tx_seller_user_id tx) = Some seller ->
        let history := historyOf (tx_player_id tx) m in
        let bought := mkHistory buyer (tx_buyer_team_id tx) (tx_created_at tx) None in
        (forall l1 p l2,
           history = l1 ++ p :: l2 ->
           (forall q, In q l1 -> isOpenPeriodOf seller (tx_seller_team_id tx) q = false) ->
           isOpenPeriodOf seller (tx_seller_team_id tx) p = true ->
           historyOf (tx_player_id tx) (processTransaction m tx)
           = l1 ++ mkHistory (h_userId p) (h_teamId p) (h_purchaseDate p)
                             (Some (tx_created_at tx)) :: l2 ++ [bought])
        /\ ((forall q, In q history ->
               isOpenPeriodOf seller (tx_seller_team_id tx) q = false) ->
            historyOf (tx_player_id tx) (processTransaction m tx)
            = history ++ [bought])
        /\ (forall q, q <> tx_player_id tx ->
              historyOf q (processTransaction m tx) = historyOf q m))
  /\ (forall m tx,
        truthy (tx_buyer_user_id tx) = None \/ truthy (tx_seller_user_id tx) = None ->
        processTransaction m tx = m)
  /\ (forall m periods player,
        match truthy (pot_user_id player) with
        | Some user =>
            processRosterRow m periods player
            = periods ++ [rosterPeriod m user player]
        | None => processRosterRow m periods player = periods
        end).
Proof.
  split; [reflexivity|]. split; [|split].
  - intros m tx buyer seller Hb Hs history bought. split; [|split].
    + intros l1 p l2 Hh H1 Hp.
      rewrite (processTransaction_history m tx buyer seller Hb Hs).
      fold history. rewrite Hh, (closeFirstOpen_first _ _ _ _ _ _ H1 Hp).
      rewrite <- app_assoc. reflexivity.
    + intros Hnone.
      rewrite (processTransaction_history m tx buyer seller Hb Hs).
      fold history. now rewrite closeFirstOpen_none.
    + intros q Hq. now apply processTransaction_other.
  - intros m tx [H|H]; unfold processTransaction; rewrite H; [reflexivity|].
    now destruct (truthy (tx_buyer_user_id tx)).
  - intros m periods player. unfold processRosterRow, rosterPeriod.
    destruct (truthy (pot_user_id player)) as [user|]; [|reflexivity].
    destruct (find _ _); reflexivity.
Qed.

(* ================================================================== *)
(** ** Ranking calculator: the rankings map *)

Section MapSetFacts.

Context {K V : Type}.
Variable keq : K -> K -> bool.
Hypothesis keq_eq : forall a b, keq a b = true <-> a = b.

Lemma map_set_absent (k : K) (v : V) (m : JSMap K V) :
  map_get keq k m = None -> map_set keq k v m = m ++ [(k, v)].
Proof.
  induction m as [|[k' v'] m IH]; simpl; [reflexivity|].
  destruct (keq k' k); [discriminate|]. intros H. now rewrite IH.
Qed.

Lemma map_set_present (k : K) (v v0 : V) (m : JSMap K V) :
  map_get keq k m = Some v0 ->
  exists l1 l2, m = l1 ++ (k, v0) :: l2 /\ map_set keq k v m = l1 ++ (k, v) :: l2.
Proof.
  induction m as [|[k' v'] m IH]; simpl; [discriminate|].
  destruct (keq k' k) eqn:E.
  - apply keq_eq in E. subst k'. intros [= ->]. now exists [], m.
  - intros H. destruct (IH H) as (l1 & l2 & -> & ->).
    now exists ((k', v') :: l1), l2.
Qed.

Lemma map_get_keys_none (k : K) (m : JSMap K V) :
  ~ In k (map_keys m) -> map_get keq k m = None.
Proof.
  intros H. destruct (map_get keq k m) eqn:E; [|reflexivity].
  exfalso. apply H. apply (map_get_In_keys keq keq_eq).
  unfold map_has. now rewrite E.
Qed.

End MapSetFacts.

Lemma addWeekly_fold_ids (weeklyPoints : list WeeklyPoints) (r : TeamRanking) :
  let r' := fold_left addWeekly weeklyPoints r in
  r_userId r' = r_userId r /\ r_teamId r' = r_teamId r
  /\ r_teamName r' = r_teamName r.
Proof.
  revert r. induction weeklyPoints as [|w l IH]; intros r; simpl; [auto|].
  destruct (IH (addWeekly r w)) as (H1 & H2 & H3). simpl in *. auto.
Qed.

Lemma addWeekly_fold_total (weeklyPoints : list WeeklyPoints) (r : TeamRanking) :
  totalPoints (fold_left addWeekly weeklyPoints r)
  = totalPoints r + sumZ (map wp_points weeklyPoints).
Proof.
  revert r. induction weeklyPoints as [|w l IH]; intros r; simpl; [lia|].
  rewrite IH. simpl. lia.
Qed.

Lemma initRanking_fold_fresh (teams : list TeamRow) (m : JSMap string TeamRanking) :
  NoDup (map_keys m ++ map team_user_id teams) ->
  fold_left initRanking teams m
  = m ++ map (fun t => (team_user_id t, rankingZero t)) teams.
Proof.
  revert m. induction teams as [|t teams IH]; intros m Hnd; simpl.
  - now rewrite app_nil_r.
  - unfold initRanking at 2.
    rewrite (map_set_absent String.eqb).
    + rewrite IH.
      * now rewrite <- app_assoc.
      * unfold map_keys in *. rewrite map_app. simpl. now rewrite <- app_assoc.
    + apply (map_get_keys_none String.eqb String.eqb_eq).
      intros Hin. apply NoDup_app_remove_r in Hnd as Hm.
      apply NoDup_remove_2 in Hnd. apply Hnd, in_or_app. now left.
Qed.

Lemma initRanking_fold_keys (teams : list TeamRow) (m : JSMap string TeamRanking)
    (u : string) :
  In u (map_keys (fold_left initRanking teams m))
  <-> In u (map_keys m) \/ In u (map team_user_id teams).
Proof.
  revert m. induction teams as [|t teams IH]; intros m; simpl; [tauto|].
  rewrite IH. unfold initRanking at 1. rewrite (map_keys_set String.eqb).
  destruct (map_has String.eqb (team_user_id t) m) eqn:E.
  - apply (map_get_In_keys String.eqb String.eqb_eq) in E.
    split; [tauto|]. intros [H|[<-|H]]; tauto.
  - rewrite in_app_iff. simpl. tauto.
Qed.

Lemma keyedByUser_set (m : JSMap string TeamRanking) (k : string) (r : TeamRanking) :
  keyedByUser m -> r_userId r = k -> keyedByUser (map_set String.eqb k r m).
Proof.
  intros [Hnd Hk] Hr. split.
  - now apply (map_set_NoDup String.eqb String.eqb_eq).
  - intros k' r' Hin.
    destruct (map_get String.eqb k m) as [v0|] eqn:E.
    + destruct (map_set_present String.eqb String.eqb_eq k r v0 m E)
        as (l1 & l2 & Hm & Hs).
      rewrite Hs in Hin. apply in_app_or in Hin. destruct Hin as [Hin|[Hin|Hin]].
      * apply Hk. rewrite Hm. apply in_or_app. now left.
      * now injection Hin as <- <-.
      * apply Hk. rewrite Hm. apply in_or_app. right. now right.
    + rewrite (map_set_absent String.eqb k r m E) in Hin.
      apply in_app_or in Hin. destruct Hin as [Hin|[Hin|[]]].
      * now apply Hk.
      * now injection Hin as <- <-.
Qed.

Lemma initRanking_fold_keyed (teams : list TeamRow) (m : JSMap string TeamRanking) :
  keyedByUser m -> keyedByUser (fold_left initRanking teams m).
Proof.
  revert m. induction teams as [|t teams IH]; intros m H; simpl; [exact H|].
  apply IH. unfold initRanking. now apply keyedByUser_set.
Qed.

Lemma addMissingTeam_fold_id (ranked : list string) (teams : list TeamRow)
    (rankings : list TeamRanking) :
  (forall t, In t teams -> In (team_user_id t) ranked) ->
  fold_left (addMissingTeam ranked) teams rankings = rankings.
Proof.
  revert rankings. induction teams as [|t teams IH]; intros rankings H;
    [reflexivity|].
  assert (Hstep : addMissingTeam ranked rankings t = rankings).
  { unfold addMissingTeam.
    replace (existsb (String.eqb (team_user_id t)) ranked) with true;
      [reflexivity|].
    symmetry. apply existsb_exists. exists (team_user_id t).
    split; [apply H; now left | apply String.eqb_refl]. }
  cbn [fold_left]. rewrite Hstep. apply IH. intros t' Ht'. apply H. now right.
Qed.

Section RankingFacts.

Variable tz : Zone.
Variable dateParse : string -> JSDate.
Variable localeCompare : string -> string -> Z.
Variable getPlayerAllGameLogs : Z -> list PlayerGameLog.
Variable fetchOrder : list Z -> list Z.
Variable teams : list TeamRow.
Variable logsMap : JSMap Z (list PlayerGameLog).

#[local] Abbreviation process := (creditPeriod tz dateParse teams logsMap).

Lemma rankingFor_userId (m : UserRankingsMap) (p : PlayerOwnershipPeriod)
    (r : TeamRanking) :
  keyedByUser m -> rankingFor teams m p = Some r -> r_userId r = userId p.
Proof.
  intros [_ Hk]. unfold rankingFor.
  destruct (map_get String.eqb (userId p) m) as [r0|] eqn:E.
  - intros [= <-]. apply Hk. now apply (map_get_In String.eqb String.eqb_eq).
  - destruct (find _ teams); [|discriminate]. now intros [= <-].
Qed.

Lemma processPeriod_keyed (m : UserRankingsMap) (p : PlayerOwnershipPeriod) :
  keyedByUser m -> keyedByUser (process m p).
Proof.
  intros H. unfold creditPeriod.
  destruct (rankingFor teams m p) as [r|] eqn:E; [|exact H].
  apply keyedByUser_set; [exact H|].
  destruct (addWeekly_fold_ids
    (creditedWeeks tz dateParse
       match map_get Z.eqb (playerId p) logsMap with Some l => l | None => [] end
       (purchaseDate p) (saleDate p) (defaultSeasonStart dateParse)) r) as (-> & _).
  now apply (rankingFor_userId m).
Qed.

Lemma processPeriod_keys_mono (m : UserRankingsMap) (p : PlayerOwnershipPeriod)
    (u : string) :
  In u (map_keys m) -> In u (map_keys (process m p)).
Proof.
  intros H. unfold creditPeriod.
  destruct (rankingFor teams m p); [|exact H].
  rewrite (map_keys_set String.eqb).
  destruct (map_has String.eqb (userId p) m); [exact H|].
  apply in_or_app. now left.
Qed.

Lemma processPeriod_get_other (m : UserRankingsMap) (p : PlayerOwnershipPeriod)
    (k : string) :
  userId p <> k -> map_get String.eqb k (process m p) = map_get String.eqb k m.
Proof.
  intros H. unfold creditPeriod.
  destruct (rankingFor teams m p); [|reflexivity].
  now apply (map_get_set_other String.eqb String.eqb_eq).
Qed.

(** A period whose team, when it is in the team list, belongs to the
    period's user adds no entry and changes no identity field. *)
Lemma processPeriod_skeleton (m : UserRankingsMap) (p : PlayerOwnershipPeriod) :
  keyedByUser m ->
  (forall t, In t teams -> In (team_user_id t) (map_keys m)) ->
  (forall t, In t teams -> team_id t = teamId p -> team_user_id t = userId p) ->
  skeleton (process m p) = skeleton m.
Proof.
  intros Hkeyed Hteams Hcons. unfold creditPeriod, rankingFor.
  destruct (map_get String.eqb (userId p) m) as [r0|] eqn:E.
  - destruct (map_set_present String.eqb String.eqb_eq (userId p)
      (fold_left addWeekly
         (creditedWeeks tz dateParse
            match map_get Z.eqb (playerId p) logsMap with Some l => l | None => [] end
            (purchaseDate p) (saleDate p) (defaultSeasonStart dateParse)) r0)
      r0 m E) as (l1 & l2 & Hm & Hs).
    rewrite Hs. rewrite Hm at 1. unfold skeleton. rewrite !map_app. simpl.
    destruct (addWeekly_fold_ids
      (creditedWeeks tz dateParse
         match map_get Z.eqb (playerId p) logsMap with Some l => l | None => [] end
         (purchaseDate p) (saleDate p) (defaultSeasonStart dateParse)) r0)
      as (-> & -> & ->).
    reflexivity.
  - destruct (find (fun t => String.eqb (team_id t) (teamId p)) teams) as [t|] eqn:F;
      [|reflexivity].
    exfalso. apply find_some in F. destruct F as [Hin Heq].
    apply String.eqb_eq in Heq.
    specialize (Hcons t Hin Heq). specialize (Hteams t Hin).
    rewrite Hcons in Hteams.
    apply (map_get_In_keys String.eqb String.eqb_eq) in Hteams.
    unfold map_has in Hteams. now rewrite E in Hteams.
Qed.

Lemma processPeriod_fold_keyed (periods : list PlayerOwnershipPeriod)
    (m : UserRankingsMap) :
  keyedByUser m -> keyedByUser (fold_left process periods m).
Proof.
  revert m. induction periods as [|p l IH]; intros m H; simpl; [exact H|].
  apply IH. now apply processPeriod_keyed.
Qed.

Lemma processPeriod_fold_keys_mono (periods : list PlayerOwnershipPeriod)
    (m : UserRankingsMap) (u : string) :
  In u (map_keys m) -> In u (map_keys (fold_left process periods m)).
Proof.
  revert m. induction periods as [|p l IH]; intros m H; simpl; [exact H|].
  apply IH. now apply processPeriod_keys_mono.
Qed.

Lemma processPeriod_fold_get_other (periods : list PlayerOwnershipPeriod)
    (m : UserRankingsMap) (k : string) :
  (forall p, In p periods -> userId p <> k) ->
  map_get String.eqb k (fold_left process periods m) = map_get String.eqb k m.
Proof.
  revert m. induction periods as [|p l IH]; intros m H; simpl; [reflexivity|].
  rewrite IH by (intros q Hq; apply H; now right).
  apply processPeriod_get_other. apply H. now left.
Qed.

Lemma processPeriod_fold_skeleton (periods : list PlayerOwnershipPeriod)
    (m : UserRankingsMap) :
  keyedByUser m ->
  (forall t, In t teams -> In (team_user_id t) (map_keys m)) ->
  (forall p t, In p periods -> In t teams -> team_id t = teamId p ->
               team_user_id t = userId p) ->
  skeleton (fold_left process periods m) = skeleton m.
Proof.
  revert m. induction periods as [|p l IH]; intros m Hk Ht Hc; simpl; [reflexivity|].
  rewrite IH.
  - apply processPeriod_skeleton; [exact Hk | exact Ht |].
    intros t Hin. apply Hc; [now left | exact Hin].
  - now apply processPeriod_keyed.
  - intros t Hin. apply processPeriod_keys_mono. now apply Ht.
  - intros q t Hq. apply Hc. now right.
Qed.

End RankingFacts.

Lemma keyed_userIds (m : JSMap string TeamRanking) :
  keyedByUser m -> map r_userId (map_values m) = map_keys m.
Proof.
  intros [_ Hk]. unfold map_values, map_keys. rewrite map_map.
  apply map_ext_in. intros [k r] Hin. simpl. now apply Hk.
Qed.

Lemma filter_unique {A : Type} (f : A -> string) (l : list A) (x : A) :
  NoDup (map f l) -> In x l ->
  filter (fun y => String.eqb (f y) (f x)) l = [x].
Proof.
  induction l as [|y l IH]; simpl; [tauto|].
  intros Hnd Hin. inversion Hnd as [|? ? Hy Hnd']; subst.
  assert (Hrest : forall z, ~ In (f z) (map f l) ->
            filter (fun y0 => String.eqb (f y0) (f z)) l = []).
  { clear. intros z Hz. induction l as [|a l IH]; simpl in *; [reflexivity|].
    destruct (String.eqb (f a) (f z)) eqn:E.
    - apply String.eqb_eq in E. tauto.
    - apply IH. tauto. }
  destruct Hin as [->|Hin].
  - rewrite String.eqb_refl. now rewrite Hrest.
  - destruct (String.eqb (f y) (f x)) eqn:E.
    + apply String.eqb_eq in E. exfalso. apply Hy. rewrite E. now apply in_map.
    + now apply IH.
Qed.

Section RankingResult.

Variable tz : Zone.
Variable dateParse : string -> JSDate.
Variable localeCompare : string -> string -> Z.
Variable getPlayerAllGameLogs : Z -> list PlayerGameLog.
Variable fetchOrder : list Z -> list Z.

#[local] Abbreviation rankings :=
  (rankedTeams tz dateParse localeCompare getPlayerAllGameLogs fetchOrder).
#[local] Abbreviation compare := (compareRankings localeCompare).

Lemma rankingsMapOf_keyed (completed : list Z) (teams : list TeamRow)
    (periods : list PlayerOwnershipPeriod) :
  keyedByUser (rankingsMapOf tz dateParse getPlayerAllGameLogs completed teams periods).
Proof.
  apply processPeriod_fold_keyed, initRanking_fold_keyed.
  split; [constructor | intros k r []].
Qed.

Lemma rankingsMapOf_has_teams (completed : list Z) (teams : list TeamRow)
    (periods : list PlayerOwnershipPeriod) (t : TeamRow) :
  In t teams ->
  In (team_user_id t)
     (map_keys (rankingsMapOf tz dateParse getPlayerAllGameLogs completed teams periods)).
Proof.
  intros Hin. apply processPeriod_fold_keys_mono, initRanking_fold_keys.
  right. now apply in_map.
Qed.

(** The result is the sorted list of the values of the rankings map: the
    last loop over the teams finds every user already ranked. *)
Lemma calculateRankings_shape (teams : list TeamRow)
    (playersQuery : QueryResult PlayerOnTeamRow)
    (transactionsQuery : QueryResult TransactionRow) :
  teams <> [] ->
  let periods := getPlayerOwnershipPeriods playersQuery transactionsQuery in
  rankings (QueryOk teams) playersQuery transactionsQuery
  = jsSort compare
      (jsSort compare
         (map_values
            (rankingsMapOf tz dateParse getPlayerAllGameLogs
               (fetchOrder (distinct (map playerId periods) [])) teams periods))).
Proof.
  intros Hne periods. unfold rankedTeams.
  destruct teams as [|t0 teams']; [contradiction|].
  set (teams := t0 :: teams') in *.
  fold periods.
  change (fold_left (creditPeriod tz dateParse teams _) periods _)
    with (rankingsMapOf tz dateParse getPlayerAllGameLogs
            (fetchOrder (distinct (map playerId periods) [])) teams periods).
  set (m := rankingsMapOf _ _ _ _ _ _).
  rewrite addMissingTeam_fold_id; [reflexivity|].
  intros t Ht.
  apply (Permutation_in _ (Permutation_sym
           (Permutation_map r_userId (jsSort_perm compare (map_values m))))).
  rewrite keyed_userIds by apply rankingsMapOf_keyed.
  now apply rankingsMapOf_has_teams.
Qed.

Lemma calculateRankings_perm (teams : list TeamRow)
    (playersQuery : QueryResult PlayerOnTeamRow)
    (transactionsQuery : QueryResult TransactionRow) :
  teams <> [] ->
  let periods := getPlayerOwnershipPeriods playersQuery transactionsQuery in
  Permutation
    (rankings (QueryOk teams) playersQuery transactionsQuery)
    (map_values
       (rankingsMapOf tz dateParse getPlayerAllGameLogs
          (fetchOrder (distinct (map playerId periods) [])) teams periods)).
Proof.
  intros Hne periods. rewrite calculateRankings_shape by exact Hne.
  now rewrite !jsSort_perm.
Qed.

(** Every user that has a team row is ranked exactly once, whatever the
    rows are. *)
Lemma every_team_owner_ranked_once (teams : list TeamRow)
    (playersQuery : QueryResult PlayerOnTeamRow)
    (transactionsQuery : QueryResult TransactionRow) (t : TeamRow) :
  In t teams ->
  exists r,
    filter (fun r => String.eqb (r_userId r) (team_user_id t))
           (rankings (QueryOk teams) playersQuery transactionsQuery) = [r].
Proof.
  intros Hin.
  assert (Hne : teams <> []) by (intros ->; destruct Hin).
  pose proof (calculateRankings_perm teams playersQuery transactionsQuery Hne) as Hperm.
  cbv zeta in Hperm.
  set (out := rankings _ _ _) in *.
  set (m := rankingsMapOf _ _ _ _ _ _) in *.
  pose proof (rankingsMapOf_keyed
    (fetchOrder (distinct (map playerId
       (getPlayerOwnershipPeriods playersQuery transactionsQuery)) []))
    teams (getPlayerOwnershipPeriods playersQuery transactionsQuery)) as Hkeyed.
  fold m in Hkeyed.
  assert (Hnd : NoDup (map r_userId out)).
  { apply (Permutation_NoDup (Permutation_sym (Permutation_map r_userId Hperm))).
    rewrite keyed_userIds by exact Hkeyed. apply Hkeyed. }
  assert (Hex : In (team_user_id t) (map r_userId out)).
  { apply (Permutation_in _ (Permutation_sym (Permutation_map r_userId Hperm))).
    rewrite keyed_userIds by exact Hkeyed.
    now apply rankingsMapOf_has_teams. }
  apply in_map_iff in Hex. destruct Hex as (r & Hr & Hrin).
  exists r. rewrite <- Hr. now apply filter_unique.
Qed.

End RankingResult.

(* ================================================================== *)
(** ** The run and its throws *)

Section RunFacts.

Variable tz : Zone.
Variable dateParse : string -> JSDate.
Variable localeCompare : string -> string -> Z.
Variable getPlayerAllGameLogs : Z -> list PlayerGameLog.
Variable fetchOrder : list Z -> list Z.

Lemma calculateWeeklyPoints_run (gameLogs : list PlayerGameLog)
    (purchaseDate : JSDate) (saleDate : option JSDate) (seasonStartDate : JSDate) :
  calculateWeeklyPoints tz dateParse gameLogs purchaseDate saleDate seasonStartDate
  = if debugLogThrows tz dateParse
         (normalizeDate tz dateParse (FromDate purchaseDate))
         (option_map (fun s => normalizeDate tz dateParse (FromDate s)) saleDate)
         gameLogs
    then None
    else Some (creditedWeeks tz dateParse gameLogs purchaseDate saleDate
                             seasonStartDate).
Proof. reflexivity. Qed.

Lemma processPeriod_run (teams : list TeamRow)
    (logsMap : JSMap Z (list PlayerGameLog)) (m : UserRankingsMap)
    (p : PlayerOwnershipPeriod) :
  processPeriod tz dateParse teams logsMap m p
  = match rankingFor teams m p with
    | None => Some m
    | Some _ =>
        if periodThrows tz dateParse (logsRead logsMap p) p then None
        else Some (creditPeriod tz dateParse teams logsMap m p)
    end.
Proof.
  unfold processPeriod, creditPeriod, periodThrows, logsRead.
  destruct (rankingFor teams m p) as [r|]; [|reflexivity].
  rewrite calculateWeeklyPoints_run.
  destruct (debugLogThrows _ _ _ _ _); [reflexivity|].
  cbn [orb]. now destruct (toISOStringThrows (purchaseDate p) || _).
Qed.

Lemma processPeriods_thrown (teams : list TeamRow)
    (logsMap : JSMap Z (list PlayerGameLog)) (periods : list PlayerOwnershipPeriod) :
  fold_left (fun m period =>
               match m with
               | Some m => processPeriod tz dateParse teams logsMap m period
               | None => None
               end) periods None = None.
Proof. induction periods as [|p l IH]; [reflexivity | exact IH]. Qed.

(** When the loop ends without a throw it has credited every period. *)
Lemma processPeriods_some (teams : list TeamRow)
    (logsMap : JSMap Z (list PlayerGameLog)) (periods : list PlayerOwnershipPeriod)
    (m m' : UserRankingsMap) :
  processPeriods tz dateParse teams logsMap periods m = Some m' ->
  m' = fold_left (creditPeriod tz dateParse teams logsMap) periods m.
Proof.
  unfold processPeriods. revert m.
  induction periods as [|p l IH]; intros m; cbn [fold_left].
  - now intros [= <-].
  - rewrite processPeriod_run.
    destruct (rankingFor teams m p) as [r|] eqn:E.
    + destruct (periodThrows tz dateParse (logsRead logsMap p) p).
      * rewrite processPeriods_thrown. discriminate.
      * apply IH.
    + intros H. apply IH in H. rewrite H. unfold creditPeriod. now rewrite E.
Qed.

Lemma processPeriods_run (teams : list TeamRow)
    (logsMap : JSMap Z (list PlayerGameLog)) (periods : list PlayerOwnershipPeriod)
    (m : UserRankingsMap) :
  (forall p, In p periods ->
     periodThrows tz dateParse (logsRead logsMap p) p = false) ->
  processPeriods tz dateParse teams logsMap periods m
  = Some (fold_left (creditPeriod tz dateParse teams logsMap) periods m).
Proof.
  unfold processPeriods. revert m.
  induction periods as [|p l IH]; intros m H; cbn [fold_left]; [reflexivity|].
  rewrite processPeriod_run, (H p (or_introl eq_refl)).
  assert (Hstep : match rankingFor teams m p with
                  | Some _ => Some (creditPeriod tz dateParse teams logsMap m p)
                  | None => Some m
                  end = Some (creditPeriod tz dateParse teams logsMap m p)).
  { unfold creditPeriod. now destruct (rankingFor teams m p). }
  rewrite Hstep. apply IH. intros q Hq. apply H. now right.
Qed.

(** A period of a user that is ranked already ends the loop with a throw
    when one of its dates is an Invalid Date. *)
Lemma processPeriods_invalid_date (teams : list TeamRow)
    (logsMap : JSMap Z (list PlayerGameLog)) (periods : list PlayerOwnershipPeriod)
    (m : UserRankingsMap) (p : PlayerOwnershipPeriod) :
  In p periods -> In (userId p) (map_keys m) ->
  purchaseDate p = None \/ saleDate p = Some None ->
  processPeriods tz dateParse teams logsMap periods m = None.
Proof.
  unfold processPeriods. revert m.
  induction periods as [|q l IH]; intros m Hin Hkey Hbad; [destruct Hin|].
  cbn [fold_left]. rewrite processPeriod_run.
  destruct Hin as [-> | Hin].
  - apply (map_get_In_keys String.eqb String.eqb_eq) in Hkey.
    unfold rankingFor, map_has in *.
    destruct (map_get String.eqb (userId p) m); [|discriminate].
    replace (periodThrows tz dateParse (logsRead logsMap p) p) with true.
    + apply processPeriods_thrown.
    + symmetry. unfold periodThrows. apply orb_true_iff. right.
      destruct Hbad as [-> | ->]; [reflexivity | apply orb_true_r].
  - destruct (rankingFor teams m q) as [r|] eqn:E.
    + destruct (periodThrows tz dateParse (logsRead logsMap q) q).
      * apply processPeriods_thrown.
      * apply IH; try assumption. unfold creditPeriod. rewrite E.
        rewrite (map_keys_set String.eqb).
        destruct (map_has String.eqb (userId q) m); [exact Hkey|].
        apply in_or_app. now left.
    + now apply IH.
Qed.

Lemma debugLogThrows_false (purchaseDate : JSDate) (saleDate : option JSDate)
    (gameLogs : list PlayerGameLog) :
  normalizeDate tz dateParse (FromDate purchaseDate) <> None ->
  (forall sale, saleDate = Some sale ->
     normalizeDate tz dateParse (FromDate sale) <> None) ->
  (forall game, In game gameLogs ->
     normalizeDate tz dateParse (FromString (gl_date game)) <> None) ->
  debugLogThrows tz dateParse
    (normalizeDate tz dateParse (FromDate purchaseDate))
    (option_map (fun s => normalizeDate tz dateParse (FromDate s)) saleDate)
    gameLogs = false.
Proof.
  intros Hp Hs Hg. unfold debugLogThrows.
  destruct gameLogs as [|first rest]; [reflexivity|].
  assert (Hfirst : normalizeDate tz dateParse (FromString (gl_date first)) <> None)
    by (apply Hg; now left).
  assert (Hlast : normalizeDate tz dateParse
                    (FromString (gl_date (last (first :: rest) first))) <> None).
  { apply Hg. destruct (exists_last (l := first :: rest)) as (l' & x & E);
      [discriminate|].
    rewrite E, last_last. apply in_or_app. right. now left. }
  destruct (normalizeDate tz dateParse (FromDate purchaseDate)); [|contradiction].
  destruct (normalizeDate tz dateParse (FromString (gl_date first)));
    [|contradiction].
  destruct (normalizeDate tz dateParse
              (FromString (gl_date (last (first :: rest) first)))); [|contradiction].
  destruct saleDate as [sale|]; [|reflexivity].
  specialize (Hs sale eq_refl). cbn [option_map].
  now destruct (normalizeDate tz dateParse (FromDate sale)).
Qed.

Lemma gameLogs_fold_values (completed : list Z) (m : JSMap Z (list PlayerGameLog)) :
  (forall pid l, map_get Z.eqb pid m = Some l -> l = getPlayerAllGameLogs pid) ->
  forall pid l,
    map_get Z.eqb pid
      (fold_left (fun m playerId =>
                    map_set Z.eqb playerId (getPlayerAllGameLogs playerId) m)
                 completed m) = Some l ->
    l = getPlayerAllGameLogs pid.
Proof.
  revert m. induction completed as [|c completed IH]; intros m Hm; [exact Hm|].
  cbn [fold_left]. apply IH. intros pid l.
  destruct (Z.eq_dec c pid) as [-> | Hne].
  - rewrite (map_get_set_same Z.eqb Z.eqb_eq). now intros [= <-].
  - rewrite (map_get_set_other Z.eqb Z.eqb_eq) by exact Hne. apply Hm.
Qed.

(** With the dates in order no period throws, whatever fetches completed. *)
Lemma periodThrows_false (completed : list Z)
    (periods : list PlayerOwnershipPeriod) (p : PlayerOwnershipPeriod) :
  datesAreValid tz dateParse getPlayerAllGameLogs periods ->
  In p periods ->
  periodThrows tz dateParse
    (logsRead (fold_left (fun m playerId =>
                            map_set Z.eqb playerId (getPlayerAllGameLogs playerId) m)
                         completed []) p) p = false.
Proof.
  intros [Hperiods Hgames] Hin.
  destruct (Hperiods p Hin) as (Hp & Hnp & Hs).
  unfold periodThrows. apply orb_false_iff. split.
  - apply debugLogThrows_false; [exact Hnp | intros sale E; now apply Hs |].
    intros game Hg. unfold logsRead in Hg.
    destruct (map_get Z.eqb (playerId p) _) as [l|] eqn:E; [|destruct Hg].
    apply gameLogs_fold_values in E; [|discriminate]. subst l.
    now apply (Hgames (playerId p)).
  - destruct (purchaseDate p); [|contradiction]. cbn [toISOStringThrows orb].
    destruct (saleDate p) as [sale|]; [|reflexivity].
    destruct (Hs sale eq_refl) as [Hsale _]. now destruct sale.
Qed.

(** [calculateRankings] returns the rankings computed, or nothing when a
    throw was caught. *)
Lemma calculateRankings_cases (teamsQuery : QueryResult TeamRow)
    (playersQuery : QueryResult PlayerOnTeamRow)
    (transactionsQuery : QueryResult TransactionRow) :
  calculateRankings tz dateParse localeCompare getPlayerAllGameLogs fetchOrder
    teamsQuery playersQuery transactionsQuery = []
  \/ calculateRankings tz dateParse localeCompare getPlayerAllGameLogs fetchOrder
       teamsQuery playersQuery transactionsQuery
     = rankedTeams tz dateParse localeCompare getPlayerAllGameLogs fetchOrder
         teamsQuery playersQuery transactionsQuery.
Proof.
  unfold calculateRankings, rankedTeams.
  destruct teamsQuery as [[|t teams]|]; [now left | | now left].
  cbv zeta.
  destruct (processPeriods _ _ _ _ _ _) as [m|] eqn:E; [|now left].
  right. apply processPeriods_some in E. now rewrite E.
Qed.

Lemma calculateRankings_run (teamsQuery : QueryResult TeamRow)
    (playersQuery : QueryResult PlayerOnTeamRow)
    (transactionsQuery : QueryResult TransactionRow) :
  datesAreValid tz dateParse getPlayerAllGameLogs
    (getPlayerOwnershipPeriods playersQuery transactionsQuery) ->
  calculateRankings tz dateParse localeCompare getPlayerAllGameLogs fetchOrder
    teamsQuery playersQuery transactionsQuery
  = rankedTeams tz dateParse localeCompare getPlayerAllGameLogs fetchOrder
      teamsQuery playersQuery transactionsQuery.
Proof.
  intros Hvalid. unfold calculateRankings, rankedTeams.
  destruct teamsQuery as [[|t teams]|]; try reflexivity.
  cbv zeta. rewrite processPeriods_run; [reflexivity|].
  intros p Hp. now apply (periodThrows_false _ _ p Hvalid).
Qed.

(** A period of a team owner with an Invalid purchase or sale date empties
    the result: the throw of [toISOString] is caught. *)
Lemma calculateRankings_invalid_date (teams : list TeamRow)
    (playersQuery : QueryResult PlayerOnTeamRow)
    (transactionsQuery : QueryResult TransactionRow) (p : PlayerOwnershipPeriod) :
  In p (getPlayerOwnershipPeriods playersQuery transactionsQuery) ->
  In (userId p) (map team_user_id teams) ->
  purchaseDate p = None \/ saleDate p = Some None ->
  calculateRankings tz dateParse localeCompare getPlayerAllGameLogs fetchOrder
    (QueryOk teams) playersQuery transactionsQuery = [].
Proof.
  intros Hin Huser Hbad. unfold calculateRankings.
  destruct teams as [|t teams]; [reflexivity|]. cbv zeta.
  rewrite (processPeriods_invalid_date _ _ _ _ p Hin); [reflexivity| |exact Hbad].
  apply initRanking_fold_keys. now right.
Qed.

End RunFacts.

(* ================================================================== *)
(** ** Ranking calculator: completeness *)

(** C4 as stated fails on the code: the rankings are keyed by user, so when
    one user owns two team rows only the last one loaded is ranked. *)
Lemma first_team_of_a_user_with_two_teams_is_not_ranked :
  let out :=
    calculateRankings 0 isoDateParse codeUnitCompare (fun _ => []) (fun l => l)
      (QueryOk twoTeamsOfOneUser) (QueryOk []) (QueryOk []) in
  (In (mkTeam "T1" "u1" "Alpha") twoTeamsOfOneUser
   /\ filter (fun r => String.eqb (r_teamId r) "T1") out = []
   /\ map r_teamId out = ["T2"])%string.
Proof.
  vm_compute. repeat split. now left.
Qed.

(** When no two team rows share a user or an id, and the team of every
    ownership period, when it is in the list, belongs to the period's user,
    the rankings computed hold exactly one ranking with each team's id. *)
Lemma rankedTeams_rank_every_team_once
    (tz : Zone) (dateParse : string -> JSDate)
    (localeCompare : string -> string -> Z)
    (getPlayerAllGameLogs : Z -> list PlayerGameLog)
    (fetchOrder : list Z -> list Z)
    (teams : list TeamRow)
    (playersQuery : QueryResult PlayerOnTeamRow)
    (transactionsQuery : QueryResult TransactionRow) (t : TeamRow) :
  NoDup (map team_user_id teams) ->
  NoDup (map team_id teams) ->
  (forall p t',
     In p (getPlayerOwnershipPeriods playersQuery transactionsQuery) ->
     In t' teams -> team_id t' = teamId p -> team_user_id t' = userId p) ->
  In t teams ->
  let out :=
    rankedTeams tz dateParse localeCompare getPlayerAllGameLogs fetchOrder
      (QueryOk teams) playersQuery transactionsQuery in
  exists r,
    filter (fun r => String.eqb (r_teamId r) (team_id t)) out = [r]
    /\ r_userId r = team_user_id t
    /\ r_teamName r = team_name t
    /\ ((forall p,
           In p (getPlayerOwnershipPeriods playersQuery transactionsQuery) ->
           userId p <> team_user_id t)
        -> totalPoints r = 0 /\ weeklyBreakdown r = []).
Proof.
  intros Husers Hids Hcons Hin out.
  assert (Hne : teams <> []) by (intros ->; destruct Hin).
  pose proof (calculateRankings_perm tz dateParse localeCompare
    getPlayerAllGameLogs fetchOrder teams playersQuery transactionsQuery Hne) as Hperm.
  cbv zeta in Hperm. fold out in Hperm.
  set (periods := getPlayerOwnershipPeriods playersQuery transactionsQuery) in *.
  set (m := rankingsMapOf _ _ _ _ _ _) in *.
  assert (Hm0 : fold_left initRanking teams []
                = map (fun t => (team_user_id t, rankingZero t)) teams).
  { now rewrite initRanking_fold_fresh. }
  assert (Hkeyed0 : keyedByUser (fold_left initRanking teams [])).
  { apply initRanking_fold_keyed. split; [constructor | intros k r []]. }
  assert (Hsk : skeleton m = map teamSkeleton teams).
  { unfold m, rankingsMapOf. rewrite processPeriod_fold_skeleton.
    - rewrite Hm0. unfold skeleton. rewrite map_map. reflexivity.
    - exact Hkeyed0.
    - intros t' Ht'. apply initRanking_fold_keys. right. now apply in_map.
    - exact Hcons. }
  assert (Hteam : map r_teamId (map_values m) = map team_id teams).
  { transitivity (map (fun s => snd (fst (snd s))) (skeleton m)).
    - unfold skeleton, map_values. now rewrite !map_map.
    - rewrite Hsk, map_map. reflexivity. }
  assert (Hnd : NoDup (map r_teamId out)).
  { apply (Permutation_NoDup (Permutation_sym (Permutation_map r_teamId Hperm))).
    now rewrite Hteam. }
  assert (Hex : exists r, In r (map_values m) /\ r_userId r = team_user_id t
                          /\ r_teamId r = team_id t /\ r_teamName r = team_name t).
  { assert (Hs : In (teamSkeleton t) (skeleton m))
      by (rewrite Hsk; now apply in_map).
    unfold skeleton in Hs. apply in_map_iff in Hs.
    destruct Hs as ([k r] & Heq & Hkr). simpl in Heq. unfold teamSkeleton in Heq.
    injection Heq as _ Hu Hi Hn. exists r. repeat split; try assumption.
    unfold map_values. apply in_map_iff. now exists (k, r). }
  destruct Hex as (r & Hr & Hu & Hi & Hn).
  assert (Hout : In r out) by (apply (Permutation_in _ (Permutation_sym Hperm) Hr)).
  exists r. split; [|split; [|split]]; try assumption.
  - rewrite <- Hi. now apply filter_unique.
  - intros Hnone.
    assert (Hget : map_get String.eqb (team_user_id t) m = Some (rankingZero t)).
    { unfold m, rankingsMapOf. rewrite processPeriod_fold_get_other by exact Hnone.
      rewrite Hm0. apply (In_map_get String.eqb String.eqb_eq).
      - unfold map_keys. rewrite map_map. exact Husers.
      - apply in_map_iff. now exists t. }
    apply (map_get_In String.eqb String.eqb_eq) in Hget.
    assert (Hz : In (rankingZero t) out).
    { apply (Permutation_in _ (Permutation_sym Hperm)).
      unfold map_values. apply in_map_iff. now exists (team_user_id t, rankingZero t). }
    pose proof (filter_unique r_teamId out r Hnd Hout) as F1.
    pose proof (filter_unique r_teamId out (rankingZero t) Hnd Hz) as F2.
    simpl in F2. rewrite Hi in F1. rewrite F1 in F2. injection F2 as ->.
    split; reflexivity.
Qed.

(** C4 (amended).  When no two rows of the loaded team list share a user
    (the store declares [UNIQUE(user_id)]) or an id, the team of every
    ownership period, when it is in the list, belongs to the period's user
    (the user of a period is read through the join on its team), and the
    dates are in order (every period has a valid purchase date and, when it
    has one, a valid sale date, and these dates and the date of every game
    are normalized to valid dates), the returned array holds exactly one
    TeamRanking with each team's id; it carries the team's user and name,
    and when the user has no ownership period its total is 0 and its weekly
    breakdown is empty.  When a period of a team owner has an Invalid
    purchase or sale date the run throws and the returned array is empty:
    no team is ranked. *)
Theorem every_team_ranked_once_when_owners_distinct
    (tz : Zone) (dateParse : string -> JSDate)
    (localeCompare : string -> string -> Z)
    (getPlayerAllGameLogs : Z -> list PlayerGameLog)
    (fetchOrder : list Z -> list Z)
    (teams : list TeamRow)
    (playersQuery : QueryResult PlayerOnTeamRow)
    (transactionsQuery : QueryResult TransactionRow) (t : TeamRow) :
  NoDup (map team_user_id teams) ->
  NoDup (map team_id teams) ->
  (forall p t',
     In p (getPlayerOwnershipPeriods playersQuery transactionsQuery) ->
     In t' teams -> team_id t' = teamId p -> team_user_id t' = userId p) ->
  In t teams ->
  let periods := getPlayerOwnershipPeriods playersQuery transactionsQuery in
  let out :=
    calculateRankings tz dateParse localeCompare getPlayerAllGameLogs fetchOrder
      (QueryOk teams) playersQuery transactionsQuery in
  (datesAreValid tz dateParse getPlayerAllGameLogs periods ->
   exists r,
     filter (fun r => String.eqb (r_teamId r) (team_id t)) out = [r]
     /\ r_userId r = team_user_id t
     /\ r_teamName r = team_name t
     /\ ((forall p, In p periods -> userId p <> team_user_id t)
         -> totalPoints r = 0 /\ weeklyBreakdown r = []))
  /\ (forall p,
        In p periods -> In (userId p) (map team_user_id teams) ->
        purchaseDate p = None \/ saleDate p = Some None ->
        out = []).
Proof.
  intros Husers Hids Hcons Hin periods out. split.
  - intros Hvalid. unfold out.
    rewrite calculateRankings_run by exact Hvalid.
    now apply rankedTeams_rank_every_team_once.
  - intros p Hp Huser Hbad.
    exact (calculateRankings_invalid_date tz dateParse localeCompare
             getPlayerAllGameLogs fetchOrder teams playersQuery transactionsQuery
             p Hp Huser Hbad).
Qed.

(** The amended C4 at two teams of two users, the first of which holds a
    player: the second team is ranked once, with no points. *)
Lemma every_team_ranked_once_witness :
  exists r,
    (filter (fun r => String.eqb (r_teamId r) "T2")
       (calculateRankings 0 isoDateParse codeUnitCompare logsOfPlayer1
          (fun l => l) (QueryOk twoTeams) (QueryOk rosterOfT1) (QueryOk []))
     = [r]
     /\ r_userId r = "u2" /\ r_teamName r = "Beta")%string.
Proof.
  destruct (every_team_ranked_once_when_owners_distinct 0 isoDateParse
              codeUnitCompare logsOfPlayer1 (fun l => l) twoTeams
              (QueryOk rosterOfT1) (QueryOk [])
              (mkTeam "T2" "u2" "Beta")) as [H _].
  - repeat constructor; simpl; intuition discriminate.
  - repeat constructor; simpl; intuition discriminate.
  - intros p t' Hp Ht'. vm_compute in Hp. destruct Hp as [<-|[]].
    destruct Ht' as [<-|[<-|[]]]; simpl; [reflexivity | discriminate].
  - right. now left.
  - destruct H as (r & H1 & H2 & H3 & _).
    + split.
      * intros p Hp. vm_compute in Hp. destruct Hp as [<-|[]].
        split; [discriminate|]. split; [vm_compute; discriminate|].
        intros sale [=].
      * intros pid game Hg. unfold logsOfPlayer1 in Hg.
        destruct (pid =? 1); [|destruct Hg].
        repeat (destruct Hg as [<-|Hg]; [vm_compute; discriminate|]).
        destruct Hg.
    + exists r. auto.
Defined.

(* ================================================================== *)
(** ** Ranking calculator: order of the result *)

Section SortedFacts.

Context {A : Type}.
Variable cmp : A -> A -> Num.
Variable R : A -> A -> Prop.
Hypothesis after_R : forall x y, goesAfter cmp x y = true -> R y x.
Hypothesis before_R : forall x y, goesAfter cmp x y = false -> R x y.

Lemma insertSorted_Sorted (x : A) (l : list A) :
  Sorted R l -> Sorted R (insertSorted cmp x l).
Proof.
  induction l as [|y l IH]; simpl; intros Hs.
  - repeat constructor.
  - destruct (goesAfter cmp x y) eqn:E.
    + inversion Hs as [|? ? Hl Hhd]; subst. constructor; [now apply IH|].
      destruct l as [|z l]; simpl.
      * constructor. now apply after_R.
      * destruct (goesAfter cmp x z); constructor.
        -- inversion Hhd; subst. assumption.
        -- now apply after_R.
    + constructor; [exact Hs|]. constructor. now apply before_R.
Qed.

Lemma jsSort_Sorted (l : list A) : Sorted R (jsSort cmp l).
Proof.
  induction l as [|x l IH]; simpl; [constructor|].
  now apply insertSorted_Sorted.
Qed.

End SortedFacts.

Lemma gameLogsMapOf_get (logs : Z -> list PlayerGameLog) (completed : list Z)
    (pid : Z) :
  map_get Z.eqb pid (gameLogsMapOf logs completed)
  = if existsb (Z.eqb pid) completed then Some (logs pid) else None.
Proof.
  unfold gameLogsMapOf.
  assert (H : forall acc,
    map_get Z.eqb pid
      (fold_left (fun m playerId => map_set Z.eqb playerId (logs playerId) m)
                 completed acc)
    = if existsb (Z.eqb pid) completed then Some (logs pid)
      else map_get Z.eqb pid acc).
  { induction completed as [|q l IH]; intros acc; simpl; [reflexivity|].
    rewrite IH. destruct (existsb (Z.eqb pid) l); [now rewrite orb_true_r|].
    rewrite orb_false_r. destruct (Z.eqb pid q) eqn:E.
    - apply Z.eqb_eq in E. subst q.
      apply (map_get_set_same Z.eqb Z.eqb_eq).
    - apply (map_get_set_other Z.eqb Z.eqb_eq).
      intros ->. now rewrite Z.eqb_refl in E. }
  apply H.
Qed.








Lemma codeUnitCompare_le (a b : string) :
  codeUnitCompare a b <= 0 <-> a = b \/ String_as_OT.lt a b.
Proof.
  unfold codeUnitCompare.
  pose proof (String_as_OT.cmp_eq a b) as He.
  pose proof (String_as_OT.cmp_lt a b) as Hl.
  unfold String_as_OT.cmp in *.
  destruct (String.compare a b); split; intros H; try lia.
  - left. now apply He.
  - right. now apply Hl.
  - destruct H as [H|H]; [apply He in H | apply Hl in H]; discriminate.
Qed.

Lemma codeUnitCompare_antisym (a b : string) :
  0 < codeUnitCompare a b -> codeUnitCompare b a <= 0.
Proof.
  unfold codeUnitCompare. rewrite (String.compare_antisym b a).
  destruct (String.compare a b); simpl; lia.
Qed.

Lemma codeUnitCompare_trans (a b c : string) :
  codeUnitCompare a b <= 0 -> codeUnitCompare b c <= 0 ->
  codeUnitCompare a c <= 0.
Proof.
  rewrite !codeUnitCompare_le. intros [->|H1] [->|H2]; auto.
  right. eapply String_as_OT.lt_trans; eassumption.
Qed.


(* ================================================================== *)
(** ** Ranking cache *)

Lemma time_decomposition (t : Z) :
  MakeDate (Day t)
    (MakeTime (HourFromTime t) (MinFromTime t) (SecFromTime t) (msFromTime t)) = t.
Proof.
  unfold MakeDate, Day, MakeTime, HourFromTime, MinFromTime, SecFromTime,
    msFromTime, msPerDay.
  Z.div_mod_to_equations. lia.
Qed.

(** Moving the minutes back by [maxAge] moves the wall clock back by
    [maxAge] minutes: the result is the instant that the host assigns to
    that local time. *)
Lemma setMinutes_back (tz : Zone) (now maxAge : Z) :
  setMinutes tz (Some now) (num_sub (getMinutes tz (Some now)) (Some maxAge))
  = TimeClip (cacheCutoff tz maxAge now).
Proof.
  unfold setMinutes, getMinutes, num_sub, option_map, cacheCutoff. cbv zeta.
  do 2 f_equal.
  pose proof (time_decomposition (LocalTime tz now)) as H.
  unfold MakeDate, MakeTime in *. lia.
Qed.

(** Where the offset in force now is the one the host applies to the local
    time [maxAge] minutes earlier, as on a host that keeps one offset, the
    cutoff lies [maxAge] minutes back. *)
Lemma cacheCutoff_same_offset (tz : Zone) (now maxAge : Z) :
  localOffset tz now = utcOffset tz (LocalTime tz now - maxAge * 60000) ->
  cacheCutoff tz maxAge now = now - maxAge * 60000.
Proof. unfold cacheCutoff, UTC, LocalTime. lia. Qed.

Lemma sameCacheKey_eq (a b : CacheRow) :
  sameCacheKey a b = true <-> cacheKey a = cacheKey b.
Proof.
  unfold sameCacheKey, cacheKey. rewrite andb_true_iff, !String.eqb_eq.
  split; [intros [-> ->]; reflexivity | intros [= -> ->]; auto].
Qed.

Lemma findRow_key (row : CacheRow) (u t : string) :
  (String.eqb (c_user_id row) u && String.eqb (c_team_id row) t) = true
  <-> cacheKey row = (u, t).
Proof.
  unfold cacheKey. rewrite andb_true_iff, !String.eqb_eq.
  split; [intros [-> ->]; reflexivity | intros [= -> ->]; auto].
Qed.

Lemma upsertRow_find_same (table : CacheTable) (row : CacheRow) :
  findRow (c_user_id row) (c_team_id row) (upsertRow table row) = Some row.
Proof.
  unfold findRow. induction table as [|r table IH]; simpl.
  - now rewrite !String.eqb_refl.
  - destruct (sameCacheKey r row) eqn:E; simpl.
    + now rewrite !String.eqb_refl.
    + unfold sameCacheKey in E. rewrite E. exact IH.
Qed.

Lemma upsertRow_find_other (table : CacheTable) (row : CacheRow) (u t : string) :
  cacheKey row <> (u, t) ->
  findRow u t (upsertRow table row) = findRow u t table.
Proof.
  intros Hne. unfold findRow.
  assert (Hrow : (String.eqb (c_user_id row) u && String.eqb (c_team_id row) t) = false).
  { destruct (_ && _) eqn:E; [|reflexivity]. apply findRow_key in E. contradiction. }
  induction table as [|r table IH]; simpl.
  - now rewrite Hrow.
  - destruct (sameCacheKey r row) eqn:E; simpl.
    + rewrite Hrow. apply sameCacheKey_eq in E.
      destruct (String.eqb (c_user_id r) u && String.eqb (c_team_id r) t) eqn:F;
        [|reflexivity].
      apply findRow_key in F. congruence.
    + now rewrite IH.
Qed.

Lemma upsertRow_keys (table : CacheTable) (row : CacheRow) :
  map cacheKey (upsertRow table row)
  = if existsb (fun r => sameCacheKey r row) table then map cacheKey table
    else map cacheKey table ++ [cacheKey row].
Proof.
  induction table as [|r table IH]; simpl; [reflexivity|].
  destruct (sameCacheKey r row) eqn:E; simpl.
  - apply sameCacheKey_eq in E. now rewrite E.
  - rewrite IH. now destruct (existsb _ table).
Qed.

Lemma upsertRow_NoDup (table : CacheTable) (row : CacheRow) :
  NoDup (map cacheKey table) -> NoDup (map cacheKey (upsertRow table row)).
Proof.
  intros H. rewrite upsertRow_keys.
  destruct (existsb (fun r => sameCacheKey r row) table) eqn:E; [exact H|].
  apply NoDup_app; [exact H | repeat constructor; simpl; tauto |].
  intros k Hk [<-|[]]. apply in_map_iff in Hk. destruct Hk as (r & Hr & Hin).
  assert (existsb (fun r => sameCacheKey r row) table = true).
  { apply existsb_exists. exists r. split; [exact Hin|]. now apply sameCacheKey_eq. }
  congruence.
Qed.

Lemma upsert_fold_NoDup (rows : list CacheRow) (table : CacheTable) :
  NoDup (map cacheKey table) ->
  NoDup (map cacheKey (fold_left upsertRow rows table)).
Proof.
  revert table. induction rows as [|r rows IH]; intros table H; simpl; [exact H|].
  apply IH. now apply upsertRow_NoDup.
Qed.

Lemma upsert_fold_find_other (rows : list CacheRow) (table : CacheTable)
    (u t : string) :
  ~ In (u, t) (map cacheKey rows) ->
  findRow u t (fold_left upsertRow rows table) = findRow u t table.
Proof.
  revert table. induction rows as [|r rows IH]; intros table H; simpl; [reflexivity|].
  simpl in H. rewrite IH by tauto. apply upsertRow_find_other. tauto.
Qed.

Lemma upsert_fold_find_written (rows : list CacheRow) (table : CacheTable)
    (row : CacheRow) :
  NoDup (map cacheKey rows) -> In row rows ->
  findRow (c_user_id row) (c_team_id row) (fold_left upsertRow rows table)
  = Some row.
Proof.
  revert table. induction rows as [|r rows IH]; intros table Hnd Hin; simpl;
    [destruct Hin|].
  inversion Hnd as [|? ? Hr Hnd']; subst. destruct Hin as [->|Hin].
  - rewrite upsert_fold_find_other by exact Hr. apply upsertRow_find_same.
  - now apply IH.
Qed.

Lemma rankingsData_keys (clock : nat -> Z) (i : nat) (rankings : list TeamRanking) :
  map cacheKey (rankingsData clock i rankings)
  = map (fun r => (r_userId r, r_teamId r)) rankings.
Proof.
  revert i. induction rankings as [|r l IH]; intros i; simpl; [reflexivity|].
  now rewrite IH.
Qed.

Lemma rankingsData_nth (clock : nat -> Z) (i j : nat) (rankings : list TeamRanking)
    (r : TeamRanking) :
  nth_error rankings j = Some r ->
  In (rowOfRanking (clock (i + j)%nat) r) (rankingsData clock i rankings).
Proof.
  revert i j. induction rankings as [|r0 l IH]; intros i j H.
  - destruct j; discriminate.
  - destruct j as [|j]; simpl in *.
    + injection H as ->. left. now rewrite Nat.add_0_r.
    + right. rewrite <- Nat.add_succ_comm. now apply IH.
Qed.

Lemma hasRepeatedKey_false (rows : list CacheRow) :
  NoDup (map cacheKey rows) -> hasRepeatedKey rows = false.
Proof.
  induction rows as [|r rows IH]; simpl; [reflexivity|].
  intros Hnd. inversion Hnd as [|? ? Hr Hnd']; subst.
  rewrite (IH Hnd'), orb_false_r.
  destruct (existsb (sameCacheKey r) rows) eqn:E; [|reflexivity].
  apply existsb_exists in E. destruct E as (x & Hx & Hk).
  apply sameCacheKey_eq in Hk. exfalso. apply Hr. rewrite Hk. now apply in_map.
Qed.

Lemma NoDup_map_fst_pair {A B C : Type} (f : A -> B) (g : A -> C) (l : list A) :
  NoDup (map f l) -> NoDup (map (fun x => (f x, g x)) l).
Proof.
  induction l as [|x l IH]; simpl; intros H; [constructor|].
  inversion H as [|? ? Hx Hnd]; subst. constructor; [|now apply IH].
  intros Hin. apply Hx. apply in_map_iff in Hin.
  destruct Hin as (y & [= Hy _] & Hyin). rewrite <- Hy. now apply in_map.
Qed.

Lemma Sorted_map {A B : Type} (f : A -> B) (R : B -> B -> Prop) (l : list A) :
  Sorted (fun a b => R (f a) (f b)) l -> Sorted R (map f l).
Proof.
  induction 1 as [|x l Hs IH Hhd]; simpl; constructor; [exact IH|].
  destruct Hhd; simpl; constructor. assumption.
Qed.

Lemma calculateRankings_users_distinct
    (tz : Zone) (dateParse : string -> JSDate)
    (localeCompare : string -> string -> Z)
    (getPlayerAllGameLogs : Z -> list PlayerGameLog)
    (fetchOrder : list Z -> list Z)
    (teamsQuery : QueryResult TeamRow)
    (playersQuery : QueryResult PlayerOnTeamRow)
    (transactionsQuery : QueryResult TransactionRow) :
  NoDup (map r_userId
           (calculateRankings tz dateParse localeCompare getPlayerAllGameLogs
              fetchOrder teamsQuery playersQuery transactionsQuery)).
Proof.
  destruct (calculateRankings_cases tz dateParse localeCompare
              getPlayerAllGameLogs fetchOrder teamsQuery playersQuery
              transactionsQuery) as [-> | ->]; [constructor|].
  destruct teamsQuery as [teams|]; [|constructor].
  destruct teams as [|t0 teams]; [constructor|].
  assert (Hne : t0 :: teams <> []) by discriminate.
  pose proof (calculateRankings_perm tz dateParse localeCompare
    getPlayerAllGameLogs fetchOrder (t0 :: teams) playersQuery transactionsQuery
    Hne) as Hperm.
  cbv zeta in Hperm.
  apply (Permutation_NoDup (Permutation_sym (Permutation_map r_userId Hperm))).
  rewrite keyed_userIds by apply rankingsMapOf_keyed.
  apply rankingsMapOf_keyed.
Qed.

(** C9 as stated fails on the code: every row carries its own
    [calculated_at] and the freshness test is applied row by row.  Here the
    two stored rows were stamped 1 ms apart; read exactly 30 minutes after
    the later stamp with [maxAge = 30], the cache answers with the second
    team only: neither every stored team, nor a fresh computation. *)
Lemma cache_hit_returns_only_the_rows_still_fresh :
  let result :=
    getRankingsWithCache 0 isoDateParse codeUnitCompare logsOfPlayer1 (fun l => l)
      snapshotOfTwoTeams true true 30 thirtyMinutesAfter1001
      (fun _ => thirtyMinutesAfter1001) tableStampedAcrossATick in
  (map c_team_id tableStampedAcrossATick = ["T1"; "T2"]
   /\ map (isFresh 30 thirtyMinutesAfter1001) tableStampedAcrossATick = [false; true]
   /\ map r_teamId (fst result) = ["T2"]
   /\ snd result = tableStampedAcrossATick
   /\ map r_teamId
        (calculateRankings 0 isoDateParse codeUnitCompare logsOfPlayer1
           (fun l => l) (QueryOk twoTeams) (QueryOk rosterOfT1) (QueryOk []))
      = ["T1"; "T2"])%string.
Proof.
  vm_compute. repeat split.
Qed.

(** C9 (amended).  Each cache row has its own [calculated_at], and the
    cutoff is [new Date()] moved back by [setMinutes]: the instant whose
    local reading is [maxAge] minutes before the local reading of now, which
    is [now - maxAge] wherever the offset of the host did not change in
    between.  When the store answers the read and at least one row is
    stamped at or after the cutoff, [getRankingsWithCache] returns exactly
    those rows, each as a TeamRanking with its stored fields and weekly
    breakdown, ordered by [total_points] descending, and leaves the table as
    it is; rows stamped earlier are left out.  Otherwise it returns the
    result of the ranking calculator and, when the store accepts the write,
    the table then holds under each ranking's (userId, teamId) the row of
    that ranking with the time read while it was built, in place of any
    prior row of that key; rows of other keys are untouched and keys stay
    unique. *)
Theorem cache_serves_fresh_rows_or_recomputes
    (tz : Zone) (dateParse : string -> JSDate)
    (localeCompare : string -> string -> Z)
    (getPlayerAllGameLogs : Z -> list PlayerGameLog)
    (fetchOrder : list Z -> list Z)
    (db : StoreSnapshot) (readUp writeUp : bool)
    (maxAgeMinutes now : Z) (clock : nat -> Z) (table : CacheTable) :
  Z.abs (cacheCutoff tz maxAgeMinutes now) <= maxTimeValue ->
  let cutoff := cacheCutoff tz maxAgeMinutes now in
  let fresh := filter (fun row => cutoff <=? c_calculated_at row) table in
  let computed :=
    calculateRankings tz dateParse localeCompare getPlayerAllGameLogs fetchOrder
      (teamsQuery db) (playersQuery db) (transactionsQuery db) in
  let result :=
    getRankingsWithCache tz dateParse localeCompare getPlayerAllGameLogs
      fetchOrder db readUp writeUp maxAgeMinutes now clock table in
  (localOffset tz now = utcOffset tz (LocalTime tz now - maxAgeMinutes * 60000) ->
   forall row,
     cutoff <= c_calculated_at row
     <-> now - c_calculated_at row <= maxAgeMinutes * 60000)
  /\ (readUp = true -> fresh <> [] ->
      fst result = map rankingOfRow (jsSort compareCachedTotals fresh)
      /\ snd result = table
      /\ (forall r,
            In r (fst result)
            <-> exists row,
                  In row table /\ cutoff <= c_calculated_at row
                  /\ r = rankingOfRow row)
      /\ Sorted (fun a b => totalPoints a >= totalPoints b) (fst result))
  /\ (readUp = false \/ fresh = [] ->
      fst result = computed
      /\ (writeUp = false -> snd result = table)
      /\ (writeUp = true ->
          (forall j r,
             nth_error computed j = Some r ->
             findRow (r_userId r) (r_teamId r) (snd result)
             = Some (rowOfRanking (clock j) r))
          /\ (forall u t,
                (forall r, In r computed -> (r_userId r, r_teamId r) <> (u, t)) ->
                findRow u t (snd result) = findRow u t table)
          /\ (NoDup (map cacheKey table) -> NoDup (map cacheKey (snd result))))).
Proof.
  intros Hrange cutoff fresh computed result.
  assert (Hread : getRankingsFromCache tz readUp maxAgeMinutes now table
                  = if readUp then
                      match jsSort compareCachedTotals fresh with
                      | [] => None
                      | _ :: _ =>
                          Some (map rankingOfRow (jsSort compareCachedTotals fresh))
                      end
                    else None).
  { unfold getRankingsFromCache. rewrite setMinutes_back. unfold TimeClip.
    apply Z.leb_le in Hrange. rewrite Hrange. reflexivity. }
  assert (Hkeys : NoDup (map cacheKey (rankingsData clock 0 computed))).
  { rewrite rankingsData_keys. apply NoDup_map_fst_pair.
    apply calculateRankings_users_distinct. }
  split; [|split].
  - intros Hsame row. unfold cutoff.
    rewrite (cacheCutoff_same_offset tz now maxAgeMinutes Hsame). lia.
  - intros -> Hfresh.
    assert (Hdata : jsSort compareCachedTotals fresh <> []).
    { intros H. now apply jsSort_nil_inv in H. }
    unfold result, getRankingsWithCache. rewrite Hread.
    destruct (jsSort compareCachedTotals fresh) as [|d data] eqn:E; [contradiction|].
    cbn [fst snd]. rewrite <- E. split; [reflexivity|]. split; [reflexivity|].
    split.
    + intros r. rewrite in_map_iff. split.
      * intros (row & <- & Hin). apply jsSort_In in Hin.
        apply filter_In in Hin. destruct Hin as [Hin Hf].
        exists row. split; [exact Hin|]. split; [|reflexivity].
        now apply Z.leb_le in Hf.
      * intros (row & Hin & Hf & ->). exists row. split; [reflexivity|].
        apply jsSort_In, filter_In. split; [exact Hin|].
        now apply Z.leb_le.
    + apply Sorted_map. simpl.
      apply (jsSort_Sorted compareCachedTotals
               (fun a b => c_total_points a >= c_total_points b)).
      * intros x y. unfold goesAfter, compareCachedTotals. rewrite Z.ltb_lt. lia.
      * intros x y. unfold goesAfter, compareCachedTotals. rewrite Z.ltb_ge. lia.
  - intros Hmiss.
    assert (Hnone : getRankingsFromCache tz readUp maxAgeMinutes now table = None).
    { rewrite Hread. destruct readUp; [|reflexivity].
      destruct Hmiss as [H|H]; [discriminate|]. now rewrite H. }
    unfold result, getRankingsWithCache. rewrite Hnone.
    unfold calculateAndCacheRankings. fold computed. simpl fst. simpl snd.
    unfold saveRankingsToCache. rewrite (hasRepeatedKey_false _ Hkeys).
    split; [reflexivity|]. split.
    + intros ->. reflexivity.
    + intros ->. simpl. split; [|split].
      * intros j r Hj.
        apply (upsert_fold_find_written (rankingsData clock 0 computed) table
                 (rowOfRanking (clock j) r) Hkeys).
        now apply (rankingsData_nth clock 0 j).
      * intros u t Hnot. apply upsert_fold_find_other.
        rewrite rankingsData_keys. intros Hin. apply in_map_iff in Hin.
        destruct Hin as (r & Hr & Hin). now apply (Hnot r).
      * apply upsert_fold_NoDup.
Qed.

(** The amended C9 at the table stamped across a tick: read 30 minutes after
    the later stamp, the answer is the fresh row alone. *)
Lemma cache_serves_fresh_rows_witness :
  fst (getRankingsWithCache 0 isoDateParse codeUnitCompare logsOfPlayer1
         (fun l => l) snapshotOfTwoTeams true true 30 thirtyMinutesAfter1001
         (fun _ => thirtyMinutesAfter1001) tableStampedAcrossATick)
  = map rankingOfRow
      (jsSort compareCachedTotals
         (filter (fun row => cacheCutoff 0 30 thirtyMinutesAfter1001
                             <=? c_calculated_at row)
                 tableStampedAcrossATick)).
Proof.
  assert (Hrange : Z.abs (cacheCutoff 0 30 thirtyMinutesAfter1001) <= maxTimeValue)
    by (vm_compute; discriminate).
  assert (Hfresh : filter (fun row => cacheCutoff 0 30 thirtyMinutesAfter1001
                                      <=? c_calculated_at row)
                          tableStampedAcrossATick <> [])
    by (vm_compute; discriminate).
  destruct (cache_serves_fresh_rows_or_recomputes 0 isoDateParse codeUnitCompare
              logsOfPlayer1 (fun l => l) snapshotOfTwoTeams true true 30
              thirtyMinutesAfter1001 (fun _ => thirtyMinutesAfter1001)
              tableStampedAcrossATick Hrange) as (_ & Hhit & _).
  exact (proj1 (Hhit eq_refl Hfresh)).
Defined.

(** Across a change of offset the cutoff is not [maxAge] minutes back.  On
    a host that moves its clock from 03:00 (two hours east of UTC) back to
    02:00 (one hour east) at 2024-10-27T01:00Z, read at 01:10Z with
    [maxAge = 30]: the local reading 02:10 less 30 minutes is 01:40, which
    the host places at 23:40Z of the day before, so a row stamped 90 minutes
    ago is served. *)
Lemma cache_cutoff_across_a_change_of_offset :
  let now := 1729991400000 in
  cacheCutoff zoneWithClockSetBack 30 now = now - 90 * 60000
  /\ map r_teamId
       (fst (getRankingsWithCache zoneWithClockSetBack isoDateParse codeUnitCompare
               logsOfPlayer1 (fun l => l) snapshotOfTwoTeams true true 30 now
               (fun _ => now)
               [mkCacheRow "u1" "T1" "Alpha" 30 [] (now - 90 * 60000)]))
     = ["T1"%string].
Proof. vm_compute. split; reflexivity. Qed.

(* ================================================================== *)
(** ** Ranking calculator: conservation of points *)

Lemma distinct_In (x : Z) (l seen : list Z) :
  In x (distinct l seen) <-> In x l /\ ~ In x seen.
Proof.
  revert seen. induction l as [|y l IH]; intros seen; simpl; [tauto|].
  destruct (existsb (Z.eqb y) seen) eqn:E.
  - apply existsb_exists in E. destruct E as (z & Hz & Hyz).
    apply Z.eqb_eq in Hyz. subst z. rewrite IH. split; [tauto|].
    intros [[<-|H] Hn]; tauto.
  - assert (Hy : ~ In y seen).
    { intros H. assert (existsb (Z.eqb y) seen = true); [|congruence].
      apply existsb_exists. exists y. split; [exact H | apply Z.eqb_refl]. }
    simpl. rewrite IH. simpl. split.
    + intros [<-|[H1 H2]]; [tauto|]. split; [tauto|]. intros H. apply H2. now right.
    + intros [[<-|H1] H2]; [tauto|].
      destruct (Z.eq_dec y x) as [->|Hne]; [tauto|]. right. split; [exact H1|].
      intros [H|H]; [congruence | tauto].
Qed.

Lemma map_set_sum {K V : Type} (keq : K -> K -> bool) (f : V -> Z)
    (k : K) (v : V) (m : JSMap K V) :
  sumZ (map f (map_values (map_set keq k v m)))
  = sumZ (map f (map_values m)) + f v
    - match map_get keq k m with Some v0 => f v0 | None => 0 end.
Proof.
  unfold map_values. induction m as [|[k' v'] m IH]; simpl; [lia|].
  destruct (keq k' k); simpl; [lia|]. rewrite IH. lia.
Qed.

Lemma calculateWeeklyPoints_total (tz : Zone) (dateParse : string -> JSDate)
    (gameLogs : list PlayerGameLog) (purchaseDate : JSDate)
    (saleDate : option JSDate) (seasonStartDate : JSDate) :
  sumZ (map wp_points
          (creditedWeeks tz dateParse gameLogs purchaseDate saleDate
                                 seasonStartDate))
  = countedPoints tz dateParse purchaseDate saleDate gameLogs.
Proof.
  destruct (calculateWeeklyPoints_perm tz dateParse gameLogs purchaseDate
              saleDate seasonStartDate) as (weeks & Hweeks & _ & Hperm).
  apply (Permutation_map snd) in Hperm. rewrite map_map in Hperm.
  transitivity (sumZ (map_values weeks)); [apply sumZ_perm; exact Hperm|].
  subst weeks. rewrite addGame_fold_sum. unfold countedPoints. simpl. lia.
Qed.

Lemma countedPoints_nil (tz : Zone) (dateParse : string -> JSDate)
    (purchaseDate : JSDate) (saleDate : option JSDate) :
  countedPoints tz dateParse purchaseDate saleDate [] = 0.
Proof. reflexivity. Qed.

Lemma addWeekly_fold_buckets (weeklyPoints : list WeeklyPoints) (r : TeamRanking) :
  sumZ (map_values (weeklyBreakdown (fold_left addWeekly weeklyPoints r)))
  = sumZ (map_values (weeklyBreakdown r)) + sumZ (map wp_points weeklyPoints).
Proof.
  revert r. induction weeklyPoints as [|w l IH]; intros r; [simpl; lia|].
  cbn [fold_left map sumZ fold_right]. rewrite IH. unfold addWeekly.
  cbn [weeklyBreakdown].
  pose proof (map_set_sum num_eqb (fun v => v) (weekNumber w)
    (match map_get num_eqb (weekNumber w) (weeklyBreakdown r) with
     | Some p => p | None => 0 end + wp_points w) (weeklyBreakdown r)) as H.
  rewrite !map_id in H. rewrite H. unfold sumZ.
  destruct (map_get num_eqb (weekNumber w) (weeklyBreakdown r)); lia.
Qed.

(** Swapping the two sums: each game is counted once per period that
    contains it. *)
Lemma sum_over_periods_swap {P G : Type} (c : P -> G -> bool) (pts : G -> Z)
    (periods : list P) (games : list G) :
  sumZ (map (fun p => sumZ (map pts (filter (c p) games))) periods)
  = sumZ (map (fun g => pts g
                        * Z.of_nat (List.length (filter (fun p => c p g) periods)))
              games).
Proof.
  induction periods as [|p periods IH]; simpl.
  - induction games as [|g games IHg]; simpl; lia.
  - rewrite IH. clear IH.
    induction games as [|g games IHg]; simpl; [lia|].
    destruct (c p g); simpl; lia.
Qed.

Lemma map_set_In {K V : Type} (keq : K -> K -> bool) (k k' : K) (v v' : V)
    (m : JSMap K V) :
  In (k', v') (map_set keq k v m) -> v' = v \/ In (k', v') m.
Proof.
  induction m as [|[k0 v0] m IH]; simpl.
  - intros [[= <- <-]|[]]. now left.
  - destruct (keq k0 k); simpl.
    + intros [[= <- <-]|H]; [now left | right; now right].
    + intros [H|H]; [right; now left|].
      destruct (IH H); [now left | right; now right].
Qed.

Section ConservationFacts.

Variable tz : Zone.
Variable dateParse : string -> JSDate.
Variable teams : list TeamRow.
Variable logsMap : JSMap Z (list PlayerGameLog).

#[local] Abbreviation credit := (creditPeriod tz dateParse teams logsMap).
#[local] Abbreviation earned :=
  (fun p => countedPoints tz dateParse (purchaseDate p) (saleDate p)
                          (logsRead logsMap p)).

Lemma processPeriod_total (m : UserRankingsMap) (p : PlayerOwnershipPeriod) :
  sumZ (map totalPoints (map_values (credit m p)))
  = sumZ (map totalPoints (map_values m))
    + match rankingFor teams m p with Some _ => earned p | None => 0 end.
Proof.
  unfold creditPeriod. fold (logsRead logsMap p).
  destruct (rankingFor teams m p) as [r|] eqn:E; [|lia].
  rewrite map_set_sum, addWeekly_fold_total, calculateWeeklyPoints_total.
  unfold rankingFor in E.
  destruct (map_get String.eqb (userId p) m) as [r0|].
  - injection E as ->. lia.
  - destruct (find _ teams); [|discriminate]. injection E as <-. simpl. lia.
Qed.

Lemma rankingFor_known (m : UserRankingsMap) (p : PlayerOwnershipPeriod) :
  (forall t, In t teams -> In (team_user_id t) (map_keys m)) ->
  In (userId p) (map team_user_id teams) \/ In (teamId p) (map team_id teams) ->
  rankingFor teams m p <> None.
Proof.
  intros Hkeys [H|H]; unfold rankingFor.
  - apply in_map_iff in H. destruct H as (t & Ht & Hin).
    specialize (Hkeys t Hin). rewrite Ht in Hkeys.
    apply (map_get_In_keys String.eqb String.eqb_eq) in Hkeys.
    unfold map_has in Hkeys.
    destruct (map_get String.eqb (userId p) m); [discriminate|discriminate].
  - destruct (map_get String.eqb (userId p) m); [discriminate|].
    apply in_map_iff in H. destruct H as (t & Ht & Hin).
    destruct (find (fun t0 => String.eqb (team_id t0) (teamId p)) teams) eqn:F;
      [discriminate|].
    apply (find_none _ _ F) in Hin. rewrite Ht, String.eqb_refl in Hin.
    discriminate.
Qed.

Lemma processPeriod_fold_total (periods : list PlayerOwnershipPeriod)
    (m : UserRankingsMap) :
  (forall t, In t teams -> In (team_user_id t) (map_keys m)) ->
  (forall p, In p periods ->
     In (userId p) (map team_user_id teams) \/ In (teamId p) (map team_id teams)) ->
  sumZ (map totalPoints (map_values (fold_left credit periods m)))
  = sumZ (map totalPoints (map_values m)) + sumZ (map earned periods).
Proof.
  revert m. induction periods as [|p l IH]; intros m Hkeys Hknown; simpl; [lia|].
  rewrite IH.
  - rewrite processPeriod_total.
    destruct (rankingFor teams m p) eqn:E; [lia|].
    exfalso. apply (rankingFor_known m p Hkeys); [|exact E].
    apply Hknown. now left.
  - intros t Ht. apply processPeriod_keys_mono. now apply Hkeys.
  - intros q Hq. apply Hknown. now right.
Qed.

Lemma processPeriod_balanced (m : UserRankingsMap) (p : PlayerOwnershipPeriod) :
  balanced m -> balanced (credit m p).
Proof.
  intros Hb. unfold creditPeriod.
  destruct (rankingFor teams m p) as [r|] eqn:E; [|exact Hb].
  intros k r' Hin. apply map_set_In in Hin. destruct Hin as [->|Hin];
    [|now apply (Hb k)].
  rewrite addWeekly_fold_total, addWeekly_fold_buckets.
  assert (Hr : totalPoints r = sumZ (map_values (weeklyBreakdown r))).
  { unfold rankingFor in E.
    destruct (map_get String.eqb (userId p) m) as [r0|] eqn:G.
    - injection E as <-. apply (Hb (userId p)).
      now apply (map_get_In String.eqb String.eqb_eq).
    - destruct (find _ teams); [|discriminate]. now injection E as <-. }
  lia.
Qed.

Lemma processPeriod_fold_balanced (periods : list PlayerOwnershipPeriod)
    (m : UserRankingsMap) :
  balanced m -> balanced (fold_left credit periods m).
Proof.
  revert m. induction periods as [|p l IH]; intros m H; simpl; [exact H|].
  apply IH. now apply processPeriod_balanced.
Qed.

End ConservationFacts.

Lemma initRanking_fold_zero (teams : list TeamRow) (m : JSMap string TeamRanking) :
  (forall k r, In (k, r) m -> totalPoints r = 0 /\ weeklyBreakdown r = []) ->
  forall k r, In (k, r) (fold_left initRanking teams m) ->
    totalPoints r = 0 /\ weeklyBreakdown r = [].
Proof.
  revert m. induction teams as [|t teams IH]; intros m H; simpl; [exact H|].
  apply IH. intros k r Hin. unfold initRanking in Hin.
  apply map_set_In in Hin. destruct Hin as [->|Hin]; [split; reflexivity|].
  now apply (H k).
Qed.

Lemma initial_rankings_hold_nothing (teams : list TeamRow) :
  sumZ (map totalPoints (map_values (fold_left initRanking teams []))) = 0
  /\ balanced (fold_left initRanking teams []).
Proof.
  pose proof (initRanking_fold_zero teams [] (fun k r (H : In (k, r) []) =>
    match H with end)) as Hz.
  split.
  - unfold map_values.
    induction (fold_left initRanking teams []) as [|[k r] m IH]; simpl; [reflexivity|].
    destruct (Hz k r (or_introl eq_refl)) as [-> _].
    rewrite IH; [reflexivity|]. intros k' r' Hin. apply (Hz k'). now right.
  - intros k r Hin. destruct (Hz k r Hin) as [-> ->]. reflexivity.
Qed.

Lemma logsRead_fetched (logs : Z -> list PlayerGameLog)
    (fetchOrder : list Z -> list Z) (periods : list PlayerOwnershipPeriod)
    (p : PlayerOwnershipPeriod) :
  (forall l, Permutation (fetchOrder l) l) ->
  In p periods ->
  logsRead (gameLogsMapOf logs (fetchOrder (distinct (map playerId periods) []))) p
  = logs (playerId p).
Proof.
  intros Hperm Hin. unfold logsRead. rewrite gameLogsMapOf_get.
  replace (existsb _ _) with true; [reflexivity|].
  symmetry. apply existsb_exists. exists (playerId p).
  split; [|apply Z.eqb_refl].
  apply (Permutation_in _ (Permutation_sym (Hperm _))).
  apply distinct_In. split; [now apply in_map | tauto].
Qed.

(** Every period is credited once: the totals of a run add up to the
    points that the periods earn, and each total is the sum of its week
    buckets. *)
Lemma calculateRankings_total
    (tz : Zone) (dateParse : string -> JSDate)
    (localeCompare : string -> string -> Z)
    (logs : Z -> list PlayerGameLog) (fetchOrder : list Z -> list Z)
    (teams : list TeamRow)
    (playersQuery : QueryResult PlayerOnTeamRow)
    (transactionsQuery : QueryResult TransactionRow) :
  (forall l, Permutation (fetchOrder l) l) ->
  (forall p,
     In p (getPlayerOwnershipPeriods playersQuery transactionsQuery) ->
     In (userId p) (map team_user_id teams) \/ In (teamId p) (map team_id teams)) ->
  let out :=
    rankedTeams tz dateParse localeCompare logs fetchOrder
      (QueryOk teams) playersQuery transactionsQuery in
  sumZ (map totalPoints out)
  = sumZ (map (periodPoints tz dateParse logs)
              (getPlayerOwnershipPeriods playersQuery transactionsQuery))
  /\ (forall r, In r out ->
        totalPoints r = sumZ (map_values (weeklyBreakdown r))).
Proof.
  intros Hperm Hknown out.
  set (periods := getPlayerOwnershipPeriods playersQuery transactionsQuery) in *.
  assert (Hcases : teams = [] \/ teams <> [])
    by (destruct teams; [now left | right; discriminate]).
  destruct Hcases as [Hnil|Hne].
  - subst teams.
    assert (Hp : periods = []).
    { destruct periods as [|p l]; [reflexivity|].
      destruct (Hknown p (or_introl eq_refl)) as [[]|[]]. }
    rewrite Hp. unfold out. simpl. split; [reflexivity | intros r []].
  - pose proof (calculateRankings_perm tz dateParse localeCompare logs fetchOrder
                  teams playersQuery transactionsQuery Hne) as Hout.
    cbv zeta in Hout. fold periods in Hout. fold out in Hout.
    destruct (initial_rankings_hold_nothing teams) as [Hzero Hbal].
    split.
    + rewrite (sumZ_perm _ _ (Permutation_map totalPoints Hout)).
      unfold rankingsMapOf. rewrite processPeriod_fold_total.
      * rewrite Hzero. simpl. f_equal. apply map_ext_in. intros p Hp.
        unfold periodPoints. now rewrite logsRead_fetched.
      * intros t Ht. apply initRanking_fold_keys. right. now apply in_map.
      * exact Hknown.
    + intros r Hr. apply (Permutation_in _ Hout) in Hr.
      unfold map_values in Hr. apply in_map_iff in Hr.
      destruct Hr as ([k r'] & <- & Hin). simpl.
      apply (processPeriod_fold_balanced tz dateParse teams _ periods _ Hbal k r' Hin).
Qed.

Lemma periodPoints_keepOnly (tz : Zone) (dateParse : string -> JSDate)
    (pid : Z) (logs : Z -> list PlayerGameLog) (p : PlayerOwnershipPeriod) :
  periodPoints tz dateParse (keepOnly pid logs) p
  = sumZ (map gl_points
            (filter (fun g => (playerId p =? pid)
                              && gameCounts tz dateParse (purchaseDate p)
                                            (saleDate p) g)
                    (logs pid))).
Proof.
  unfold periodPoints, keepOnly, countedPoints.
  destruct (playerId p =? pid) eqn:E.
  - apply Z.eqb_eq in E. rewrite E. reflexivity.
  - simpl. induction (logs pid) as [|g l IH]; simpl; [reflexivity | exact IH].
Qed.

Lemma sum_once_is_union {G : Type} (pts : G -> Z) (n : G -> nat) (games : list G) :
  (forall g, In g games -> (n g <= 1)%nat) ->
  sumZ (map (fun g => pts g * Z.of_nat (n g)) games)
  = sumZ (map pts (filter (fun g => negb (Nat.eqb (n g) 0)) games)).
Proof.
  induction games as [|g games IH]; intros H; simpl; [reflexivity|].
  rewrite IH by (intros g' Hg'; apply H; now right).
  specialize (H g (or_introl eq_refl)).
  destruct (n g) as [|[|k]]; simpl; lia.
Qed.

(** C2 as stated fails on the code: a game that lies in the intervals of
    two periods of the player is counted once for each.  Player 1 is on the
    rosters of two teams; its game of 2024-11-01 (20 points) lies in both
    open intervals, so the rankings hold 40 points of the player while the
    games in the union of its intervals are worth 20. *)
Lemma game_in_two_periods_is_counted_twice :
  let periods :=
    getPlayerOwnershipPeriods (QueryOk rosterSharedPlayer) (QueryOk []) in
  let out :=
    calculateRankings 0 isoDateParse codeUnitCompare logsOfPlayer1 (fun l => l)
      (QueryOk twoTeams) (QueryOk rosterSharedPlayer) (QueryOk []) in
  map totalPoints out = [20; 20]
  /\ sumZ (map totalPoints out) = 40
  /\ pointsInUnion 0 isoDateParse 1 periods (logsOfPlayer1 1) = 20.
Proof.
  vm_compute. repeat split.
Qed.

(** The rankings computed hold, for a player, the points of each game of
    its log once for every ownership period whose interval contains the
    game. *)
Lemma rankedTeams_count_per_containing_period
    (tz : Zone) (dateParse : string -> JSDate)
    (localeCompare : string -> string -> Z)
    (logs : Z -> list PlayerGameLog) (fetchOrder : list Z -> list Z)
    (teams : list TeamRow)
    (playersQuery : QueryResult PlayerOnTeamRow)
    (transactionsQuery : QueryResult TransactionRow) (pid : Z) :
  (forall l, Permutation (fetchOrder l) l) ->
  (forall p,
     In p (getPlayerOwnershipPeriods playersQuery transactionsQuery) ->
     In (userId p) (map team_user_id teams) \/ In (teamId p) (map team_id teams)) ->
  let periods := getPlayerOwnershipPeriods playersQuery transactionsQuery in
  let run logs :=
    rankedTeams tz dateParse localeCompare logs fetchOrder
      (QueryOk teams) playersQuery transactionsQuery in
  let perGame :=
    sumZ (map (fun g => gl_points g
                        * Z.of_nat (List.length
                                      (coveringPeriods tz dateParse pid periods g)))
              (logs pid)) in
  sumZ (map totalPoints (run (keepOnly pid logs))) = perGame
  /\ sumZ (map (fun r => sumZ (map_values (weeklyBreakdown r)))
               (run (keepOnly pid logs))) = perGame
  /\ ((forall g, In g (logs pid) ->
         (List.length (coveringPeriods tz dateParse pid periods g) <= 1)%nat)
      -> perGame = pointsInUnion tz dateParse pid periods (logs pid))
  /\ sumZ (map totalPoints (run logs))
     = sumZ (map (periodPoints tz dateParse logs) periods)
  /\ (forall r, In r (run logs) ->
        totalPoints r = sumZ (map_values (weeklyBreakdown r))).
Proof.
  intros Hperm Hknown periods run perGame.
  destruct (calculateRankings_total tz dateParse localeCompare logs fetchOrder
              teams playersQuery transactionsQuery Hperm Hknown) as [Hall Hbal].
  destruct (calculateRankings_total tz dateParse localeCompare
              (keepOnly pid logs) fetchOrder teams playersQuery
              transactionsQuery Hperm Hknown) as [Hone Hbal1].
  fold periods in Hall, Hone. fold (run logs) in Hall, Hbal.
  fold (run (keepOnly pid logs)) in Hone, Hbal1.
  assert (Htotal : sumZ (map totalPoints (run (keepOnly pid logs))) = perGame).
  { rewrite Hone. unfold perGame, coveringPeriods.
    rewrite <- (sum_over_periods_swap
      (fun p g => (playerId p =? pid)
                  && gameCounts tz dateParse (purchaseDate p) (saleDate p) g)
      gl_points periods (logs pid)).
    f_equal. apply map_ext. intros p. apply periodPoints_keepOnly. }
  split; [exact Htotal|]. split; [|split; [|split]].
  - rewrite <- Htotal. f_equal. apply map_ext_in. intros r Hr.
    symmetry. now apply Hbal1.
  - intros Honce. unfold perGame, pointsInUnion.
    rewrite (sum_once_is_union gl_points
      (fun g => List.length (coveringPeriods tz dateParse pid periods g))
      (logs pid) Honce).
    f_equal. f_equal. apply filter_ext. intros g.
    now destruct (coveringPeriods tz dateParse pid periods g).
  - exact Hall.
  - exact Hbal.
Qed.

Lemma datesAreValid_keepOnly (tz : Zone) (dateParse : string -> JSDate)
    (logs : Z -> list PlayerGameLog) (pid : Z)
    (periods : list PlayerOwnershipPeriod) :
  datesAreValid tz dateParse logs periods ->
  datesAreValid tz dateParse (keepOnly pid logs) periods.
Proof.
  intros [Hp Hg]. split; [exact Hp|].
  intros q game Hin. unfold keepOnly in Hin.
  destruct (q =? pid); [now apply (Hg q) | destruct Hin].
Qed.

(** C2 (amended).  Provided every ownership period belongs to a user or a
    team of the loaded list (so that no period is skipped) and the dates
    are in order (every period has a valid purchase date and, when it has
    one, a valid sale date, and these dates and the date of every game are
    normalized to valid dates), the points that one run of
    [calculateRankings] attributes to a player (the totals of all
    TeamRankings when only that player's log is kept; equally the week
    buckets of all TeamRankings) are the sum, over the entries of the
    player's game log, of the entry's points times the number of the
    player's ownership periods whose interval contains its normalized date:
    a game outside every interval is not counted, a game inside one interval
    is counted once, a game inside k intervals is counted k times.  When no
    game lies in two intervals this is the sum of the points of the games in
    the union of the intervals.  Over all players, the totals add up to the
    points earned by the periods, and each total is the sum of its week
    buckets.  When a period of a team owner has an Invalid purchase or sale
    date the run throws and returns the empty array: no point is attributed
    to anyone. *)
Theorem player_points_counted_once_per_containing_period
    (tz : Zone) (dateParse : string -> JSDate)
    (localeCompare : string -> string -> Z)
    (logs : Z -> list PlayerGameLog) (fetchOrder : list Z -> list Z)
    (teams : list TeamRow)
    (playersQuery : QueryResult PlayerOnTeamRow)
    (transactionsQuery : QueryResult TransactionRow) (pid : Z) :
  (forall l, Permutation (fetchOrder l) l) ->
  (forall p,
     In p (getPlayerOwnershipPeriods playersQuery transactionsQuery) ->
     In (userId p) (map team_user_id teams) \/ In (teamId p) (map team_id teams)) ->
  let periods := getPlayerOwnershipPeriods playersQuery transactionsQuery in
  let run logs :=
    calculateRankings tz dateParse localeCompare logs fetchOrder
      (QueryOk teams) playersQuery transactionsQuery in
  let perGame :=
    sumZ (map (fun g => gl_points g
                        * Z.of_nat (List.length
                                      (coveringPeriods tz dateParse pid periods g)))
              (logs pid)) in
  (datesAreValid tz dateParse logs periods ->
   sumZ (map totalPoints (run (keepOnly pid logs))) = perGame
   /\ sumZ (map (fun r => sumZ (map_values (weeklyBreakdown r)))
                (run (keepOnly pid logs))) = perGame
   /\ ((forall g, In g (logs pid) ->
          (List.length (coveringPeriods tz dateParse pid periods g) <= 1)%nat)
       -> perGame = pointsInUnion tz dateParse pid periods (logs pid))
   /\ sumZ (map totalPoints (run logs))
      = sumZ (map (periodPoints tz dateParse logs) periods)
   /\ (forall r, In r (run logs) ->
         totalPoints r = sumZ (map_values (weeklyBreakdown r))))
  /\ (forall p,
        In p periods -> In (userId p) (map team_user_id teams) ->
        purchaseDate p = None \/ saleDate p = Some None ->
        run logs = []).
Proof.
  intros Hperm Hknown periods run perGame. split.
  - intros Hvalid. unfold run.
    rewrite (calculateRankings_run tz dateParse localeCompare logs fetchOrder
               (QueryOk teams) playersQuery transactionsQuery Hvalid).
    rewrite (calculateRankings_run tz dateParse localeCompare (keepOnly pid logs)
               fetchOrder (QueryOk teams) playersQuery transactionsQuery
               (datesAreValid_keepOnly tz dateParse logs pid _ Hvalid)).
    exact (rankedTeams_count_per_containing_period tz dateParse localeCompare logs
             fetchOrder teams playersQuery transactionsQuery pid Hperm Hknown).
  - intros p Hp Huser Hbad.
    exact (calculateRankings_invalid_date tz dateParse localeCompare logs
             fetchOrder teams playersQuery transactionsQuery p Hp Huser Hbad).
Qed.

(** The amended C2 at the team that alone holds player 1: the 20 points of
    the one game played after the purchase. *)
Lemma player_points_witness :
  sumZ (map totalPoints
          (calculateRankings 0 isoDateParse codeUnitCompare
             (keepOnly 1 logsOfPlayer1) (fun l => l)
             (QueryOk twoTeams) (QueryOk rosterOfT1) (QueryOk [])))
  = sumZ (map (fun g => gl_points g
                        * Z.of_nat (List.length
                            (coveringPeriods 0 isoDateParse 1
                               (getPlayerOwnershipPeriods (QueryOk rosterOfT1)
                                                          (QueryOk []))
                               g)))
              (logsOfPlayer1 1)).
Proof.
  assert (Hperm : forall l : list Z, Permutation ((fun l => l) l) l)
    by (intros l; apply Permutation_refl).
  assert (Hknown : forall p,
    In p (getPlayerOwnershipPeriods (QueryOk rosterOfT1) (QueryOk [])) ->
    In (userId p) (map team_user_id twoTeams)
    \/ In (teamId p) (map team_id twoTeams)).
  { intros p Hp. vm_compute in Hp. destruct Hp as [<-|[]]. left. now left. }
  assert (Hvalid : datesAreValid 0 isoDateParse logsOfPlayer1
                     (getPlayerOwnershipPeriods (QueryOk rosterOfT1) (QueryOk []))).
  { split.
    - intros p Hp. vm_compute in Hp. destruct Hp as [<-|[]].
      split; [discriminate|]. split; [vm_compute; discriminate|].
      intros sale [=].
    - intros q game Hg. unfold logsOfPlayer1 in Hg.
      destruct (q =? 1); [|destruct Hg].
      repeat (destruct Hg as [<-|Hg]; [vm_compute; discriminate|]).
      destruct Hg. }
  exact (proj1 (proj1 (player_points_counted_once_per_containing_period 0
                         isoDateParse codeUnitCompare logsOfPlayer1 (fun l => l)
                         twoTeams (QueryOk rosterOfT1) (QueryOk []) 1 Hperm Hknown)
                      Hvalid)).
Defined.

(* ================================================================== *)
(** ** Ownership interval reconstructor: disjointness *)

Lemma subseq_refl {A : Type} (l : list A) : subseq l l.
Proof. induction l; constructor; assumption. Qed.

Lemma subseq_In {A : Type} (l' l : list A) (x : A) :
  subseq l' l -> In x l' -> In x l.
Proof.
  induction 1; simpl; [tauto | intros; right; auto |].
  intros [->|H0]; [now left | right; auto].
Qed.

Lemma subseq_filter {A : Type} (f : A -> bool) (l : list A) :
  subseq (filter f l) l.
Proof.
  induction l as [|x l IH]; simpl; [constructor|].
  destruct (f x); now constructor.
Qed.

Lemma subseq_trans {A : Type} (l1 l2 l3 : list A) :
  subseq l1 l2 -> subseq l2 l3 -> subseq l1 l3.
Proof.
  intros H12 H23. revert l1 H12.
  induction H23 as [|x l2 l3 H IH|x l2 l3 H IH]; intros l1 H12.
  - exact H12.
  - constructor. now apply IH.
  - inversion H12; subst; constructor; now apply IH.
Qed.

Lemma subseq_map {A B : Type} (f : A -> B) (l' l : list A) :
  subseq l' l -> subseq (map f l') (map f l).
Proof. induction 1; simpl; constructor; assumption. Qed.

Lemma ForallOrdPairs_subseq {A : Type} (R : A -> A -> Prop) (l' l : list A) :
  subseq l' l -> ForallOrdPairs R l -> ForallOrdPairs R l'.
Proof.
  induction 1 as [|x l' l H IH|x l' l H IH]; intros HF.
  - constructor.
  - inversion HF; subst. now apply IH.
  - inversion HF as [|? ? Hx Hl]; subst. constructor; [|now apply IH].
    rewrite Forall_forall in *. intros y Hy. apply Hx.
    now apply (subseq_In l' l).
Qed.

(** *** Step 1 on a chain of purchases *)

Lemma chainHistory_app (l : list (string * string * JSDate))
    (u t : string) (c : JSDate) :
  chainHistory (l ++ [(u, t, c)])
  = match lastHolder l with
    | None => []
    | Some (u0, t0) =>
        closeFirstOpen u0 t0 c (chainHistory l)
    end ++ [mkHistory u t c None].
Proof.
  induction l as [|[[u1 t1] c1] l IH]; [reflexivity|].
  destruct l as [|[[u2 t2] c2] l'].
  - unfold lastHolder. simpl. unfold isOpenPeriodOf. simpl.
    now rewrite !String.eqb_refl.
  - change (chainHistory (((u1, t1, c1) :: (u2, t2, c2) :: l') ++ [(u, t, c)]))
      with (mkHistory u1 t1 c1 (Some c2)
            :: chainHistory (((u2, t2, c2) :: l') ++ [(u, t, c)])).
    rewrite IH.
    assert (Hlast : lastHolder ((u1, t1, c1) :: (u2, t2, c2) :: l')
                    = lastHolder ((u2, t2, c2) :: l')).
    { unfold lastHolder. simpl.
      destruct (rev l' ++ [(u2, t2, c2)]) as [|[[a b] d] r] eqn:E.
      - destruct (rev l'); discriminate.
      - reflexivity. }
    rewrite Hlast.
    destruct (lastHolder ((u2, t2, c2) :: l')) as [[u0 t0]|] eqn:E.
    + change (chainHistory ((u1, t1, c1) :: (u2, t2, c2) :: l'))
        with (mkHistory u1 t1 c1 (Some c2) :: chainHistory ((u2, t2, c2) :: l')).
      cbn [closeFirstOpen]. unfold isOpenPeriodOf at 1. cbn [h_saleDate].
      rewrite andb_false_r. reflexivity.
    + unfold lastHolder in E. simpl in E.
      destruct (rev l' ++ [(u2, t2, c2)]) as [|[[a b] d] r] eqn:E2;
        [destruct (rev l'); discriminate | discriminate].
Qed.

Lemma lastHolder_app (l : list (string * string * JSDate))
    (u t : string) (c : JSDate) :
  lastHolder (l ++ [(u, t, c)]) = Some (u, t).
Proof. unfold lastHolder. now rewrite rev_app_distr. Qed.

(** A chain of purchases leaves the chain history. *)
Lemma buildHistory_chain (pid : Z) (txs : list TransactionRow)
    (m : PlayerHistoryMap) (l0 : list (string * string * JSDate)) :
  historyOf pid m = chainHistory l0 ->
  sellersFollowBuyers pid (lastHolder l0) txs = true ->
  historyOf pid (fold_left processTransaction txs m)
  = chainHistory (l0 ++ buyersOf pid txs).
Proof.
  revert m l0. induction txs as [|tx txs IH]; intros m l0 Hm Hchain; simpl.
  - now rewrite app_nil_r.
  - simpl in Hchain. unfold processedFor in *.
    destruct (tx_player_id tx =? pid) eqn:Epid.
    + apply Z.eqb_eq in Epid.
      destruct (truthy (tx_buyer_user_id tx)) as [b|] eqn:Eb.
      * destruct (truthy (tx_seller_user_id tx)) as [s|] eqn:Es.
        -- apply andb_true_iff in Hchain. destruct Hchain as [Hlink Hrest].
           replace (l0 ++ (b, tx_buyer_team_id tx, tx_created_at tx) :: buyersOf pid txs)
             with ((l0 ++ [(b, tx_buyer_team_id tx, tx_created_at tx)])
                   ++ buyersOf pid txs)
             by (now rewrite <- app_assoc).
           apply IH.
           ++ rewrite <- Epid.
              rewrite (processTransaction_history m tx b s Eb Es).
              rewrite Epid, Hm, chainHistory_app.
              destruct (lastHolder l0) as [[u0 t0]|] eqn:El.
              ** apply andb_true_iff in Hlink. destruct Hlink as [H1 H2].
                 apply String.eqb_eq in H1, H2. now subst.
              ** destruct l0 as [|x l0'].
                 { reflexivity. }
                 { exfalso. unfold lastHolder in El. simpl in El.
                   destruct (rev l0' ++ [x]) as [|[[a b0] d] r] eqn:E2;
                     [destruct (rev l0'); discriminate | discriminate]. }
           ++ now rewrite lastHolder_app.
        -- apply IH; [|exact Hchain].
           unfold processTransaction. now rewrite Eb, Es.
      * apply IH; [|exact Hchain]. unfold processTransaction. now rewrite Eb.
    + apply IH; [|exact Hchain].
      rewrite processTransaction_other; [exact Hm|].
      intros ->. now rewrite Z.eqb_refl in Epid.
Qed.

Lemma processTransaction_NoDup (m : PlayerHistoryMap) (tx : TransactionRow) :
  NoDup (map_keys m) -> NoDup (map_keys (processTransaction m tx)).
Proof.
  intros H. unfold processTransaction.
  destruct (truthy (tx_buyer_user_id tx)); [|exact H].
  destruct (truthy (tx_seller_user_id tx)); [|exact H].
  apply (map_set_NoDup Z.eqb Z.eqb_eq).
  destruct (map_has Z.eqb (tx_player_id tx) m); [exact H|].
  now apply (map_set_NoDup Z.eqb Z.eqb_eq).
Qed.

Lemma buildHistory_NoDup (txs : list TransactionRow) :
  NoDup (map_keys (buildHistory txs)).
Proof.
  unfold buildHistory.
  assert (H : forall m, NoDup (map_keys m) ->
                        NoDup (map_keys (fold_left processTransaction txs m))).
  { induction txs as [|tx txs IH]; intros m Hm; simpl; [exact Hm|].
    apply IH. now apply processTransaction_NoDup. }
  apply H. constructor.
Qed.

(** *** Step 2 *)

Lemma processRosterRow_fold (m : PlayerHistoryMap) (rows : list PlayerOnTeamRow)
    (periods : list PlayerOwnershipPeriod) :
  fold_left (processRosterRow m) rows periods
  = periods
    ++ flat_map (fun row => match truthy (pot_user_id row) with
                            | Some u => [rosterPeriod m u row]
                            | None => []
                            end) rows.
Proof.
  revert periods. induction rows as [|row rows IH]; intros periods; simpl.
  - now rewrite app_nil_r.
  - rewrite IH. unfold processRosterRow at 1. fold (rosterPeriod m).
    destruct (truthy (pot_user_id row)) as [u|] eqn:E; [|reflexivity].
    assert (Hrow : forall periods0,
      match find (isOpenPeriodOf u (pot_team_id row))
                 (historyOf (pot_player_id row) m) with
      | Some existingActivePeriod =>
          periods0 ++ [mkPeriod u (pot_team_id row) (pot_player_id row)
                                (pot_player_name row)
                                (h_purchaseDate existingActivePeriod) None]
      | None =>
          periods0 ++ [mkPeriod u (pot_team_id row) (pot_player_id row)
                                (pot_player_name row)
                                match pot_purchased_at row with
                                | Some d => d
                                | None => pot_created_at row
                                end None]
      end = periods0 ++ [rosterPeriod m u row]).
    { intros periods0. unfold rosterPeriod. now destruct (find _ _). }
    rewrite Hrow. now rewrite <- app_assoc.
Qed.

Lemma periodsOf_app (pid : Z) (a b : list PlayerOwnershipPeriod) :
  periodsOf pid (a ++ b) = periodsOf pid a ++ periodsOf pid b.
Proof. apply filter_app. Qed.

(** The periods that step 2 yields for player [pid], one per roster holder. *)
Lemma roster_periods_of_player (pid : Z) (m : PlayerHistoryMap)
    (rows : list PlayerOnTeamRow) :
  exists held : list (string * PlayerOnTeamRow),
    periodsOf pid (fold_left (processRosterRow m) rows [])
    = map (fun ur => rosterPeriod m (fst ur) (snd ur)) held
    /\ rosterHolders pid rows = map (fun ur => (fst ur, pot_team_id (snd ur))) held
    /\ forall ur, In ur held -> pot_player_id (snd ur) = pid.
Proof.
  rewrite processRosterRow_fold. simpl.
  induction rows as [|row rows (held & H1 & H2 & H3)]; simpl.
  - exists []. repeat split. intros ur [].
  - rewrite periodsOf_app, H1. unfold rosterHolders in *. simpl. rewrite H2.
    destruct (truthy (pot_user_id row)) as [u|] eqn:Eu.
    + unfold periodsOf at 1. simpl.
      destruct (pot_player_id row =? pid) eqn:Ep.
      * exists ((u, row) :: held). simpl. repeat split.
        intros ur [<-|Hin]; [now apply Z.eqb_eq | now apply H3].
      * exists held. simpl. repeat split. exact H3.
    + exists held. simpl. destruct (pot_player_id row =? pid); repeat split; exact H3.
Qed.

(** *** Step 3 *)

Lemma emitClosedPeriod_fold (q : Z) (name : string) (history : list HistoryPeriod)
    (periods : list PlayerOwnershipPeriod) :
  exists emitted,
    fold_left (emitClosedPeriod q name) history periods = periods ++ emitted
    /\ subseq emitted (map (periodOfHistory q name) (filter isClosed history)).
Proof.
  revert periods. induction history as [|h history IH]; intros periods; simpl.
  - exists []. split; [now rewrite app_nil_r | constructor].
  - unfold emitClosedPeriod at 2, isClosed at 1.
    destruct (h_saleDate h) as [sale|] eqn:Es.
    + destruct (existsb (sameHolding q h) periods); simpl.
      * destruct (IH periods) as (e & He & Hsub). exists e.
        split; [exact He | now constructor].
      * destruct (IH (periods ++ [mkPeriod (h_userId h) (h_teamId h) q name
                                           (h_purchaseDate h) (Some sale)]))
          as (e & He & Hsub).
        exists (periodOfHistory q name h :: e). split.
        -- rewrite He, <- app_assoc. unfold periodOfHistory. now rewrite Es.
        -- now constructor.
    + apply IH.
Qed.

Lemma subseq_nil_l {A : Type} (l : list A) : subseq [] l.
Proof. induction l; constructor; assumption. Qed.

Lemma periodsOf_history_other (pid q : Z) (name : string)
    (l : list PlayerOwnershipPeriod) (history : list HistoryPeriod) :
  q <> pid -> subseq l (map (periodOfHistory q name) history) ->
  periodsOf pid l = [].
Proof.
  intros Hne Hsub. unfold periodsOf.
  destruct (filter (fun p => playerId p =? pid) l) as [|p r] eqn:E; [reflexivity|].
  assert (Hin : In p (filter (fun p => playerId p =? pid) l)) by (rewrite E; now left).
  apply filter_In in Hin. destruct Hin as [Hin Hp]. apply Z.eqb_eq in Hp.
  apply (subseq_In _ _ _ Hsub) in Hin. apply in_map_iff in Hin.
  destruct Hin as (h & <- & _). simpl in Hp. contradiction.
Qed.

Lemma periodsOf_history_same (pid : Z) (name : string)
    (l : list PlayerOwnershipPeriod) (history : list HistoryPeriod) :
  subseq l (map (periodOfHistory pid name) history) -> periodsOf pid l = l.
Proof.
  intros Hsub. unfold periodsOf.
  assert (H : forall p, In p l -> (playerId p =? pid) = true).
  { intros p Hin. apply (subseq_In _ _ _ Hsub) in Hin. apply in_map_iff in Hin.
    destruct Hin as (h & <- & _). simpl. apply Z.eqb_refl. }
  clear Hsub. induction l as [|p l IH]; simpl; [reflexivity|].
  rewrite (H p (or_introl eq_refl)). f_equal. apply IH.
  intros p' Hp'. apply H. now right.
Qed.

Section Emission.

Variable playersOnTeam : list PlayerOnTeamRow.
Variable transactions : option (list TransactionRow).

#[local] Abbreviation emitCandidate :=
  (fun periods (c : Z * HistoryPeriod) =>
     emitClosedPeriod (fst c) (closedPeriodName playersOnTeam transactions (fst c))
                      periods (snd c)).

Lemma emitClosedPeriod_closed_only (q : Z) (name : string)
    (history : list HistoryPeriod) (periods : list PlayerOwnershipPeriod) :
  fold_left (emitClosedPeriod q name) history periods
  = fold_left (emitClosedPeriod q name) (filter isClosed history) periods.
Proof.
  revert periods. induction history as [|h history IH]; intros periods;
    [reflexivity|].
  cbn [fold_left filter]. unfold isClosed at 1, emitClosedPeriod at 2.
  destruct (h_saleDate h) as [sale|] eqn:E; [|apply IH].
  cbn [fold_left]. unfold emitClosedPeriod at 3. rewrite E. apply IH.
Qed.

(** Step 3 visits the closed periods of the histories one after the
    other. *)
Lemma emitPlayerHistory_candidates (m : PlayerHistoryMap)
    (periods : list PlayerOwnershipPeriod) :
  fold_left (emitPlayerHistory playersOnTeam transactions) m periods
  = fold_left emitCandidate (closedCandidates m) periods.
Proof.
  revert periods. induction m as [|[q history] m IH]; intros periods;
    [reflexivity|].
  cbn [fold_left closedCandidates flat_map fst snd]. rewrite fold_left_app.
  fold (closedCandidates m). rewrite <- IH. f_equal.
  unfold emitPlayerHistory. rewrite emitClosedPeriod_closed_only.
  generalize (filter isClosed history). clear. intros l. revert periods.
  induction l as [|h l IH]; intros periods; [reflexivity|].
  cbn [map fold_left fst snd]. apply IH.
Qed.

Lemma emitCandidate_fold (cands : list (Z * HistoryPeriod))
    (periods : list PlayerOwnershipPeriod) :
  exists kept,
    fold_left emitCandidate cands periods = periods ++ kept
    /\ subseq kept (map (candidatePeriod playersOnTeam transactions) cands).
Proof.
  revert periods. induction cands as [|[q h] cands IH]; intros periods.
  - exists []. split; [now rewrite app_nil_r | constructor].
  - cbn [fold_left map fst snd]. unfold emitClosedPeriod at 2.
    destruct (h_saleDate h) as [sale|] eqn:E.
    + destruct (existsb (sameHolding q h) periods); cbn [negb].
      * destruct (IH periods) as (k & Hk & Hsub). exists k.
        split; [exact Hk | now constructor].
      * destruct (IH (periods ++ [mkPeriod (h_userId h) (h_teamId h) q
                                    (closedPeriodName playersOnTeam transactions q)
                                    (h_purchaseDate h) (Some sale)]))
          as (k & Hk & Hsub).
        exists (candidatePeriod playersOnTeam transactions (q, h) :: k). split.
        -- rewrite Hk, <- app_assoc. unfold candidatePeriod, periodOfHistory.
           cbn [fst snd]. now rewrite E.
        -- now constructor.
    + destruct (IH periods) as (k & Hk & Hsub). exists k.
      split; [exact Hk | now constructor].
Qed.

Lemma closedCandidates_closed (m : PlayerHistoryMap) (c : Z * HistoryPeriod) :
  In c (closedCandidates m) -> isClosed (snd c) = true.
Proof.
  unfold closedCandidates. rewrite in_flat_map.
  intros ([q history] & _ & Hin). cbn [fst snd] in Hin.
  apply in_map_iff in Hin. destruct Hin as (h & <- & Hh).
  apply filter_In in Hh. apply Hh.
Qed.

End Emission.

(** C10.  In the final step of [getPlayerOwnershipPeriods] the closed
    periods of the working histories are visited in order, and the output
    grows by appending.  When a closed period is visited, the output built
    so far consists of the periods of the roster rows followed by those of
    the closed periods visited before that were kept; the period is left
    out exactly when the output built so far holds a period with the same
    [playerId], [userId] and [teamId] whose [purchaseDate] is less than
    1000 ms away, and is appended with its own dates otherwise.  The test
    does not look at [saleDate]: an open period of the same holder bought
    within one second suppresses the closed one. *)
Theorem closed_period_omitted_iff_duplicate
    (playersOnTeam : list PlayerOnTeamRow)
    (transactionsQuery : QueryResult TransactionRow)
    (pre post : list (Z * HistoryPeriod)) (pid : Z) (period : HistoryPeriod) :
  let transactions :=
    match transactionsQuery with QueryOk ts => Some ts | QueryError => None end in
  let playerHistoryMap :=
    match transactions with Some ts => buildHistory ts | None => [] end in
  let rosterPeriods :=
    fold_left (processRosterRow playerHistoryMap) playersOnTeam [] in
  let out := getPlayerOwnershipPeriods (QueryOk playersOnTeam) transactionsQuery in
  closedCandidates playerHistoryMap = pre ++ (pid, period) :: post ->
  exists built rest,
    out = built
          ++ (if existsb (sameHolding pid period) built then []
              else [candidatePeriod playersOnTeam transactions (pid, period)])
          ++ rest
    /\ (exists kept,
          built = rosterPeriods ++ kept
          /\ subseq kept (map (candidatePeriod playersOnTeam transactions) pre))
    /\ subseq rest (map (candidatePeriod playersOnTeam transactions) post)
    /\ (existsb (sameHolding pid period) built = true
        <-> exists p x y,
              In p built /\ playerId p = pid /\ userId p = h_userId period
              /\ teamId p = h_teamId period /\ purchaseDate p = Some x
              /\ h_purchaseDate period = Some y /\ Z.abs (x - y) < 1000)
    /\ (forall p x y,
          In p rosterPeriods -> saleDate p = None ->
          playerId p = pid -> userId p = h_userId period ->
          teamId p = h_teamId period -> purchaseDate p = Some x ->
          h_purchaseDate period = Some y -> Z.abs (x - y) < 1000 ->
          out = built ++ rest).
Proof.
  intros transactions playerHistoryMap rosterPeriods out Hcands.
  assert (Hclosed : isClosed period = true).
  { apply (closedCandidates_closed playerHistoryMap (pid, period)).
    rewrite Hcands. apply in_or_app. right. now left. }
  assert (Hout : out = fold_left
                         (fun periods (c : Z * HistoryPeriod) =>
                            emitClosedPeriod (fst c)
                              (closedPeriodName playersOnTeam transactions (fst c))
                              periods (snd c))
                         (pre ++ (pid, period) :: post) rosterPeriods).
  { unfold out, getPlayerOwnershipPeriods, reconstructPeriods.
    fold transactions. fold playerHistoryMap. fold rosterPeriods.
    now rewrite emitPlayerHistory_candidates, Hcands. }
  rewrite fold_left_app in Hout. cbn [fold_left fst snd] in Hout.
  destruct (emitCandidate_fold playersOnTeam transactions pre rosterPeriods)
    as (kept & Hbuilt & Hkept).
  set (built := fold_left _ pre rosterPeriods) in *.
  destruct (emitCandidate_fold playersOnTeam transactions post
              (emitClosedPeriod pid
                 (closedPeriodName playersOnTeam transactions pid) built period))
    as (rest & Hrest & Hsub).
  rewrite Hrest in Hout.
  assert (Hstep : emitClosedPeriod pid
                    (closedPeriodName playersOnTeam transactions pid) built period
                  = built
                    ++ (if existsb (sameHolding pid period) built then []
                        else [candidatePeriod playersOnTeam transactions
                                (pid, period)])).
  { unfold emitClosedPeriod, candidatePeriod, periodOfHistory, isClosed in *.
    cbn [fst snd]. destruct (h_saleDate period) as [sale|]; [|discriminate].
    destruct (existsb (sameHolding pid period) built); cbn [negb];
      [now rewrite app_nil_r | reflexivity]. }
  rewrite Hstep, <- app_assoc in Hout.
  assert (Hdup : existsb (sameHolding pid period) built = true
     <-> exists p x y,
           In p built /\ playerId p = pid /\ userId p = h_userId period
           /\ teamId p = h_teamId period /\ purchaseDate p = Some x
           /\ h_purchaseDate period = Some y /\ Z.abs (x - y) < 1000).
  { rewrite existsb_exists. split.
    - intros (p & Hin & Hs). apply sameHolding_spec in Hs.
      destruct Hs as (Hp & Hu & Ht & Hw). apply within1000ms_spec in Hw.
      destruct Hw as (x & y & Hx & Hy & Hxy). exists p, x, y. auto 10.
    - intros (p & x & y & Hin & Hp & Hu & Ht & Hx & Hy & Hxy).
      exists p. split; [assumption|]. apply sameHolding_spec.
      repeat split; try assumption. apply within1000ms_spec.
      exists x, y. auto. }
  exists built, rest. split; [exact Hout|]. split; [now exists kept|].
  split; [exact Hsub|]. split; [exact Hdup|].
  intros p x y Hin _ Hp Hu Ht Hx Hy Hxy.
  replace (existsb (sameHolding pid period) built) with true in Hout;
    [exact Hout|].
  symmetry. apply Hdup. exists p, x, y. repeat split; try assumption.
  rewrite Hbuilt. apply in_or_app. now left.
Qed.

(** C10 at a player sold twice: the one closed period is visited with the
    roster period alone in the output, and is kept. *)
Lemma closed_period_omitted_iff_duplicate_witness :
  exists built rest,
    getPlayerOwnershipPeriods (QueryOk rosterAfterTwoSales) (QueryOk chainOfTwoSales)
    = built
      ++ (if existsb (sameHolding 1 (mkHistory "u2" "T2" (Some 1000)
                                               (Some (Some 2000)))) built
          then []
          else [mkPeriod "u2" "T2" 1 "P1" (Some 1000) (Some (Some 2000))])
      ++ rest
    /\ built = [mkPeriod "u3" "T3" 1 "P1" (Some 2000) None]
    /\ rest = [].
Proof.
  destruct (closed_period_omitted_iff_duplicate rosterAfterTwoSales
              (QueryOk chainOfTwoSales) [] [] 1
              (mkHistory "u2" "T2" (Some 1000) (Some (Some 2000))) eq_refl)
    as (built & rest & Hout & (kept & Hbuilt & Hkept) & Hrest & _).
  inversion Hkept; subst kept. inversion Hrest; subst rest.
  exists built, []. split; [exact Hout|]. split; [exact Hbuilt | reflexivity].
Defined.

(** A closed period suppressed by an open one: team TU bought player 7 at
    1000 and again at 1500 and sold it at 3000, which closed the period of
    1000; the roster row reuses the open period of 1500, and the closed
    period of 1000 to 3000 is left out of the output. *)
Lemma closed_period_suppressed_by_an_open_period :
  closedCandidates (buildHistory boughtTwiceWithinASecond)
  = [(7, mkHistory "u" "TU" (Some 1000) (Some (Some 3000)))]
  /\ getPlayerOwnershipPeriods (QueryOk rosterOfTU) (QueryOk boughtTwiceWithinASecond)
     = [mkPeriod "u" "TU" 7 "P7" (Some 1500) None].
Proof. vm_compute. split; reflexivity. Qed.

(** Step 3 adds to the periods of player [pid] some of the closed periods
    of its history, in order. *)
Lemma emitPlayerHistory_fold (pid : Z) (rows : list PlayerOnTeamRow)
    (transactions : option (list TransactionRow)) (m : PlayerHistoryMap)
    (periods : list PlayerOwnershipPeriod) :
  NoDup (map_keys m) ->
  exists emitted,
    periodsOf pid (fold_left (emitPlayerHistory rows transactions) m periods)
    = periodsOf pid periods ++ emitted
    /\ subseq emitted
         (map (periodOfHistory pid (closedPeriodName rows transactions pid))
              (filter isClosed (historyOf pid m))).
Proof.
  revert periods. induction m as [|[q hq] m IH]; intros periods Hnd.
  - exists []. simpl. split; [now rewrite app_nil_r | constructor].
  - cbn [fold_left]. unfold emitPlayerHistory at 2.
    destruct (emitClosedPeriod_fold q (closedPeriodName rows transactions q) hq periods)
      as (e & He & Hsub).
    rewrite He. inversion Hnd as [|? ? Hq Hnd']; subst.
    destruct (IH (periods ++ e) Hnd') as (e' & He' & Hsub').
    rewrite He', periodsOf_app.
    unfold historyOf. cbn [map_get].
    destruct (Z.eqb q pid) eqn:Eq.
    + apply Z.eqb_eq in Eq. subst q.
      assert (Hnone : historyOf pid m = []).
      { unfold historyOf.
        now rewrite (map_get_keys_none Z.eqb Z.eqb_eq pid m Hq). }
      rewrite Hnone in Hsub'. simpl in Hsub'. inversion Hsub'; subst.
      exists e. rewrite app_nil_r. split; [|exact Hsub].
      f_equal.
      apply (periodsOf_history_same pid (closedPeriodName rows transactions pid)
               e (filter isClosed hq) Hsub).
    + exists e'. split; [|exact Hsub'].
      rewrite (periodsOf_history_other pid q (closedPeriodName rows transactions q)
                 e (filter isClosed hq)); [now rewrite app_nil_r | | exact Hsub].
      intros ->. now rewrite Z.eqb_refl in Eq.
Qed.

(** *** Intervals of a chain history *)

Lemma overlap_sym (p q : PlayerOwnershipPeriod) : overlap p q -> overlap q p.
Proof. intros (x & H1 & H2). exists x. tauto. Qed.

Lemma chainHistory_purchases (l : list (string * string * JSDate)) :
  map h_purchaseDate (chainHistory l) = map snd l.
Proof.
  induction l as [|[[u t] c] l IH]; simpl; [reflexivity | now rewrite IH].
Qed.

Lemma ascending_tail (d : JSDate) (ds : list JSDate) :
  ascending (d :: ds) = true -> ascending ds = true.
Proof.
  simpl. destruct d as [c|]; [|discriminate].
  destruct ds as [|[e|] ds]; try reflexivity; try discriminate.
  intros H. apply andb_true_iff in H. tauto.
Qed.

Lemma ascending_lower (d : Z) (ds : list JSDate) (y : JSDate) :
  ascending (Some d :: ds) = true -> In y (Some d :: ds) ->
  exists y', y = Some y' /\ d <= y'.
Proof.
  revert d. induction ds as [|e ds IH]; intros d Hasc Hin.
  - destruct Hin as [<-|[]]. exists d. split; [reflexivity | lia].
  - destruct Hin as [<-|Hin].
    + exists d. split; [reflexivity | lia].
    + simpl in Hasc. destruct e as [e|]; [|discriminate].
      apply andb_true_iff in Hasc. destruct Hasc as [Hle Hasc].
      apply Z.leb_le in Hle.
      destruct (IH e Hasc Hin) as (y' & -> & Hy). exists y'. split; [reflexivity | lia].
Qed.

Lemma chain_no_overlap (pid : Z) (name : string)
    (l : list (string * string * JSDate)) :
  ascending (map snd l) = true ->
  ForallOrdPairs (fun p q => ~ overlap p q)
                 (map (periodOfHistory pid name) (chainHistory l)).
Proof.
  induction l as [|[[u t] c] rest IH]; intros Hasc; [constructor|].
  cbn [chainHistory map]. constructor.
  - destruct rest as [|[[u2 t2] d] rest']; [constructor|].
    apply Forall_forall. intros q Hq (x & [_ Hsale] & [(s & Hs & Hsx) _]).
    simpl in Hsale.
    cbn [map snd] in Hasc. cbn [ascending] in Hasc.
    destruct c as [c|]; [|discriminate]. destruct d as [d|]; [|discriminate].
    apply andb_true_iff in Hasc. destruct Hasc as [_ Hasc].
    apply in_map_iff in Hq. destruct Hq as (h & <- & Hh).
    simpl in Hs.
    assert (Hin : In (h_purchaseDate h) (map snd ((u2, t2, Some d) :: rest'))).
    { rewrite <- chainHistory_purchases. now apply in_map. }
    destruct (ascending_lower d _ _ Hasc Hin) as (y' & Hy & Hle).
    rewrite Hy in Hs. injection Hs as <-. lia.
  - apply IH. now apply (ascending_tail c).
Qed.

Lemma lastHolder_inv (l : list (string * string * JSDate)) :
  match lastHolder l with
  | None => l = []
  | Some (u, t) => exists l' c, l = l' ++ [(u, t, c)]
  end.
Proof.
  unfold lastHolder. destruct (rev l) as [|[[u t] c] r] eqn:E.
  - apply (f_equal (@rev _)) in E. now rewrite rev_involutive in E.
  - exists (rev r), c. apply (f_equal (@rev _)) in E.
    now rewrite rev_involutive in E.
Qed.

Lemma chainHistory_last_open (l' : list (string * string * JSDate))
    (u t : string) (c : JSDate) :
  find (isOpenPeriodOf u t) (chainHistory (l' ++ [(u, t, c)]))
  = Some (mkHistory u t c None)
  /\ In (mkHistory u t c None) (chainHistory (l' ++ [(u, t, c)])).
Proof.
  induction l' as [|[[u1 t1] c1] l' [IH1 IH2]].
  - simpl. unfold isOpenPeriodOf. simpl. rewrite !String.eqb_refl. auto.
  - change (chainHistory (((u1, t1, c1) :: l') ++ [(u, t, c)]))
      with (mkHistory u1 t1 c1
              match l' ++ [(u, t, c)] with
              | [] => None
              | (_, _, d) :: _ => Some d
              end :: chainHistory (l' ++ [(u, t, c)])).
    split; [|now right].
    cbn [find]. unfold isOpenPeriodOf at 1. cbn [h_saleDate].
    destruct (l' ++ [(u, t, c)]) as [|[[a b] d] r] eqn:E.
    + destruct l'; discriminate.
    + now rewrite andb_false_r.
Qed.

(** C1 as stated fails on the code: step 2 yields one open period per
    roster row and nothing reconciles the rows of different teams.  Player 1
    is on the rosters of two users at once; the two open periods returned
    both cover every instant from the later purchase on. *)
Lemma player_on_two_rosters_has_overlapping_periods :
  let periods :=
    getPlayerOwnershipPeriods (QueryOk rosterSharedPlayer) (QueryOk []) in
  let p1 := mkPeriod "u1" "T1" 1 "P1" (isoDateParse "2024-10-25") None in
  let p2 := mkPeriod "u2" "T2" 1 "P1" (isoDateParse "2024-10-26") None in
  (periods = [p1; p2]
   /\ userId p1 <> userId p2
   /\ playerId p1 = playerId p2
   /\ overlap p1 p2)%string.
Proof.
  cbv zeta. split; [vm_compute; reflexivity|]. split; [discriminate|].
  split; [reflexivity|].
  exists 1729900800000. unfold covers. simpl. split.
  - split; [|exact I]. eexists. split; [vm_compute; reflexivity | lia].
  - split; [|exact I]. eexists. split; [vm_compute; reflexivity | lia].
Qed.

(** C1 (amended).  For a player whose processed transactions form a chain
    (each is a sale by the buyer of the previous one, with valid,
    non-decreasing [created_at]) and who is on at most one roster, that of
    the last buyer when there are transactions, the OwnershipPeriods
    returned for the player are pairwise non-overlapping: no instant is
    covered by two of them (a period ends where the next one starts: its sale
    date, excluded, is the purchase date of the next); in particular no two
    periods of different users cover a common instant. *)
Theorem chained_player_periods_do_not_overlap
    (pid : Z) (rows : list PlayerOnTeamRow) (txs : list TransactionRow) :
  sellersFollowBuyers pid None txs = true ->
  ascending (map snd (buyersOf pid txs)) = true ->
  rosterFollowsChain pid rows txs = true ->
  let periods :=
    periodsOf pid (getPlayerOwnershipPeriods (QueryOk rows) (QueryOk txs)) in
  ForallOrdPairs (fun p q => ~ overlap p q) periods
  /\ (forall p q,
        In p periods -> In q periods -> userId p <> userId q -> ~ overlap p q).
Proof.
  intros Hchain Hasc Hroster periods.
  assert (Hmain : ForallOrdPairs (fun p q => ~ overlap p q) periods).
  { unfold periods, getPlayerOwnershipPeriods, reconstructPeriods.
    set (m := buildHistory txs).
    set (name := closedPeriodName rows (Some txs) pid).
    assert (Hhist : historyOf pid m = chainHistory (buyersOf pid txs)).
    { apply (buildHistory_chain pid txs [] []); [reflexivity | exact Hchain]. }
    destruct (emitPlayerHistory_fold pid rows (Some txs) m
                (fold_left (processRosterRow m) rows [])
                (buildHistory_NoDup txs)) as (emitted & Hout & Hsub).
    rewrite Hout. fold name in Hsub. rewrite Hhist in Hsub.
    destruct (roster_periods_of_player pid m rows) as (held & Hheld & Hholders & Hpid).
    rewrite Hheld.
    pose proof (chain_no_overlap pid name (buyersOf pid txs) Hasc) as Hfop.
    assert (Hsub' : subseq emitted
              (map (periodOfHistory pid name) (chainHistory (buyersOf pid txs)))).
    { eapply subseq_trans; [exact Hsub|]. apply subseq_map, subseq_filter. }
    unfold rosterFollowsChain in Hroster. rewrite Hholders in Hroster.
    destruct held as [|[u row] [|x held']]; simpl in Hroster; [| |discriminate].
    - simpl. now apply (ForallOrdPairs_subseq _ _ _ Hsub').
    - pose proof (lastHolder_inv (buyersOf pid txs)) as Hlast.
      destruct (lastHolder (buyersOf pid txs)) as [[u' t']|].
      + apply andb_true_iff in Hroster. destruct Hroster as [Hu Ht].
        apply String.eqb_eq in Hu, Ht. subst u'.
        destruct Hlast as (l' & c & Hl).
        destruct (chainHistory_last_open l' u t' c) as [Hfind Hin].
        rewrite <- Hl in Hfind, Hin.
        simpl. constructor; [|now apply (ForallOrdPairs_subseq _ _ _ Hsub')].
        apply Forall_forall. intros e He Hov.
        set (y := periodOfHistory pid name (mkHistory u t' c None)).
        assert (Hy : In y (map (periodOfHistory pid name)
                             (chainHistory (buyersOf pid txs))))
          by (now apply in_map).
        assert (Hey : overlap y e).
        { destruct Hov as (x & [Hp _] & Hx). exists x. split; [|exact Hx].
          split; [|exact I]. unfold rosterPeriod in Hp.
          cbn [purchaseDate fst snd] in Hp.
          pose proof (Hpid (u, row) (or_introl eq_refl)) as Hrow.
          cbn [snd] in Hrow. cbn [fst snd] in Ht.
          rewrite Hrow, Ht, Hhist, Hfind in Hp. exact Hp. }
        pose proof (subseq_In _ _ e Hsub He) as Heclosed.
        apply in_map_iff in Heclosed. destruct Heclosed as (h & Heq & Hh).
        apply filter_In in Hh. destruct Hh as [Hh Hcl].
        assert (Hne : e <> y).
        { intros Heqy. rewrite <- Heq in Heqy. unfold y in Heqy.
          apply (f_equal saleDate) in Heqy. simpl in Heqy.
          unfold isClosed in Hcl. rewrite Heqy in Hcl. discriminate. }
        destruct (ForallOrdPairs_In Hfop e y (subseq_In _ _ e Hsub' He) Hy)
          as [H|[H|H]].
        * contradiction.
        * apply H. now apply overlap_sym.
        * now apply H.
      + rewrite Hlast in Hsub'. simpl in Hsub'. inversion Hsub'; subst.
        simpl. constructor; [constructor | constructor]. }
  split; [exact Hmain|].
  intros p q Hp Hq Hne.
  destruct (ForallOrdPairs_In Hmain p q Hp Hq) as [H|[H|H]].
  - subst. contradiction.
  - exact H.
  - intros Hov. apply H. now apply overlap_sym.
Qed.

(** The amended C1 at a player sold twice and held by the last buyer: the
    three periods returned for it do not overlap. *)
Lemma chained_player_periods_witness :
  ForallOrdPairs (fun p q => ~ overlap p q)
    (periodsOf 1
       (getPlayerOwnershipPeriods (QueryOk rosterAfterTwoSales)
                                  (QueryOk chainOfTwoSales))).
Proof.
  exact (proj1 (chained_player_periods_do_not_overlap 1 rosterAfterTwoSales
                  chainOfTwoSales eq_refl eq_refl eq_refl)).
Defined.

(* ------------------------------------------------------------------ *)
(** ** [normalizeDate] *)



Lemma monthOfDayWithinYear_range (leap dwy : Z) :
  0 <= monthOfDayWithinYear leap dwy <= 11.
Proof.
  unfold monthOfDayWithinYear.
  repeat match goal with |- context [if ?b then _ else _] => destruct b end; lia.
Qed.

Lemma monthStart_range (leap m : Z) :
  0 <= leap <= 1 -> 0 <= monthStart leap m <= 335.
Proof.
  intros H. unfold monthStart.
  repeat match goal with |- context [if ?b then _ else _] => destruct b end; lia.
Qed.

Lemma leapDays_range (y : Z) : 0 <= leapDays y <= 1.
Proof. unfold leapDays. destruct (isLeapYear y); lia. Qed.

(** Away from the two-digit years, the calendar date of a time names its day. *)
Lemma MakeDay_of_fields (t : Z) :
  MakeDay (YearFromTime t) (MonthFromTime t) (DateFromTime t) = Day t.
Proof.
  unfold MakeDay, DateFromTime, MonthFromTime, InLeapYear, DayWithinYear.
  cbv zeta.
  set (y := YearFromTime t).
  set (m := monthOfDayWithinYear (leapDays y) (Day t - DayFromYear y)).
  pose proof (monthOfDayWithinYear_range (leapDays y) (Day t - DayFromYear y)) as Hm.
  fold m in Hm.
  rewrite (Z.div_small m 12) by lia. rewrite (Z.mod_small m 12) by lia.
  rewrite Z.add_0_r. lia.
Qed.

Lemma DayFromYear_two_digit (D : Z) :
  0 <= YearFromDay D <= 99 ->
  -40000 <= D - DayFromYear (YearFromDay D) <= 40000
  /\ -30000 <= DayFromYear (1900 + YearFromDay D) <= 12000.
Proof.
  unfold YearFromDay.
  set (e := 1970 + 400 * D / 146097).
  assert (He : e = 1970 + 400 * D / 146097) by reflexivity.
  destruct (D <? DayFromYear e) eqn:E1;
    [|destruct (DayFromYear (e + 1) <=? D) eqn:E2];
    intros Hy; unfold DayFromYear in *; clearbody e;
    Z.div_mod_to_equations; lia.
Qed.
Lemma code_inj (a b : ascii) : code a = code b -> a = b.
Proof.
  unfold code. intros H. apply N2Z.inj in H.
  rewrite <- (ascii_N_embedding a), <- (ascii_N_embedding b). now rewrite H.
Qed.

Lemma ascii_eqb_code (a b : ascii) : Ascii.eqb a b = (code a =? code b).
Proof.
  destruct (Ascii.eqb a b) eqn:E; symmetry.
  - apply Ascii.eqb_eq in E. subst. apply Z.eqb_refl.
  - apply Z.eqb_neq. intros H. apply code_inj in H. subst.
    now rewrite Ascii.eqb_refl in E.
Qed.

Lemma isDigit_code (c : ascii) : isDigit c = true <-> 48 <= code c <= 57.
Proof. unfold isDigit. rewrite andb_true_iff, !Z.leb_le. tauto. Qed.

Lemma digit_not_other (c k : ascii) :
  isDigit c = true -> (code k < 48 \/ 57 < code k) -> Ascii.eqb c k = false.
Proof.
  intros H Hk. apply isDigit_code in H. rewrite ascii_eqb_code.
  apply Z.eqb_neq. lia.
Qed.

Lemma digit_not_space (c : ascii) : isDigit c = true -> isWhiteSpace c = false.
Proof.
  intros H. apply isDigit_code in H. unfold isWhiteSpace.
  repeat (apply orb_false_iff; split); apply Z.eqb_neq; lia.
Qed.

Lemma digit_not_letter (c : ascii) : isDigit c = true -> isAsciiLetter c = false.
Proof.
  intros H. apply isDigit_code in H. unfold isAsciiLetter.
  apply orb_false_iff; split; apply andb_false_iff;
    rewrite !Z.leb_gt; lia.
Qed.

Lemma span_spec (p : ascii -> bool) (s a b : string) :
  span p s = (a, b) ->
  s = (a ++ b)%string /\ allChars p a = true
  /\ match b with String c _ => p c = false | EmptyString => True end.
Proof.
  revert a b. induction s as [|c s IH]; intros a b; simpl.
  - intros [= <- <-]. auto.
  - destruct (p c) eqn:E.
    + destruct (span p s) as [a' b'] eqn:Es. intros [= <- <-].
      destruct (IH a' b' eq_refl) as (-> & Ha & Hb). simpl. rewrite E. auto.
    + intros [= <- <-]. simpl. auto.
Qed.

Lemma span_all (p : ascii -> bool) (s : string) :
  allChars p s = true -> span p s = (s, EmptyString).
Proof.
  induction s as [|c s IH]; simpl; [reflexivity|].
  intros H. apply andb_true_iff in H. destruct H as [-> H]. now rewrite IH.
Qed.

Lemma span_head_fails (p : ascii -> bool) (c : ascii) (s : string) :
  p c = false -> span p (String c s) = (EmptyString, String c s).
Proof. intros H. simpl. now rewrite H. Qed.

Lemma includesChar_app (c : ascii) (a b : string) :
  includesChar c (a ++ b) = includesChar c a || includesChar c b.
Proof.
  induction a as [|x a IH]; simpl; [reflexivity|].
  rewrite IH. now rewrite orb_assoc.
Qed.

Lemma allChars_excludes (p : ascii -> bool) (c : ascii) (s : string) :
  p c = false -> allChars p s = true -> includesChar c s = false.
Proof.
  intros Hc. induction s as [|x s IH]; simpl; [reflexivity|].
  intros H. apply andb_true_iff in H. destruct H as [Hx Hs].
  rewrite (IH Hs), orb_false_r.
  destruct (Ascii.eqb x c) eqn:E; [|reflexivity].
  apply Ascii.eqb_eq in E. congruence.
Qed.

Lemma digitValue_digit (c : ascii) :
  isDigit c = true -> exists v, digitValue 10 c = Some v /\ 0 <= v <= 9.
Proof.
  intros H. apply isDigit_code in H. unfold digitValue.
  replace ((48 <=? code c) && (code c <=? 57)) with true
    by (symmetry; apply andb_true_iff; rewrite !Z.leb_le; lia).
  exists (code c - 48). split; [|lia].
  replace (code c - 48 <? 10) with true; [reflexivity|].
  symmetry. apply Z.ltb_lt. lia.
Qed.

Lemma parseDigits_digits (s : string) (a : Z) :
  allChars isDigit s = true -> 0 <= a ->
  exists n, parseDigits 10 (Some a) s = Some n
            /\ a * 10 ^ strlen s <= n < (a + 1) * 10 ^ strlen s.
Proof.
  revert a. induction s as [|c s IH]; intros a Hs Ha.
  - exists a. simpl. split; [reflexivity|]. unfold strlen. simpl. lia.
  - simpl in Hs. apply andb_true_iff in Hs. destruct Hs as [Hc Hs].
    destruct (digitValue_digit c Hc) as (v & Hv & Hrange).
    cbn [parseDigits]. rewrite Hv.
    destruct (IH (a * 10 + v) Hs) as (n & Hn & Hb); [lia|].
    exists n. split; [exact Hn|].
    assert (Hlen : strlen (String c s) = strlen s + 1)
      by (unfold strlen; simpl String.length; lia).
    rewrite Hlen, Z.pow_add_r by (unfold strlen; lia).
    assert (0 < 10 ^ strlen s) by (apply Z.pow_pos_nonneg; unfold strlen; lia).
    nia.
Qed.

(** [parseInt] reads a non-empty string of decimal digits as its value. *)
Lemma parseInt_digits (s : string) :
  allChars isDigit s = true -> s <> EmptyString ->
  exists n, parseInt s = Some n /\ 0 <= n < 10 ^ strlen s.
Proof.
  intros Hs Hne. destruct s as [|c s]; [contradiction|].
  simpl in Hs. apply andb_true_iff in Hs. destruct Hs as [Hc Hs].
  unfold parseInt.
  rewrite (span_head_fails isWhiteSpace c s (digit_not_space c Hc)).
  cbn [snd].
  rewrite (digit_not_other c "-" Hc) by (cbv; auto).
  rewrite (digit_not_other c "+" Hc) by (cbv; auto).
  assert (Hradix :
    match String c s with
    | String c0 (String c1 r) =>
        if Ascii.eqb c0 "0" && (Ascii.eqb c1 "x" || Ascii.eqb c1 "X")
        then (16, r) else (10, String c s)
    | _ => (10, String c s)
    end = (10, String c s)).
  { destruct s as [|c1 r]; [reflexivity|].
    simpl in Hs. apply andb_true_iff in Hs. destruct Hs as [Hc1 _].
    rewrite (digit_not_other c1 "x" Hc1) by (cbv; auto).
    rewrite (digit_not_other c1 "X" Hc1) by (cbv; auto).
    now rewrite andb_false_r. }
  rewrite Hradix.
  destruct (digitValue_digit c Hc) as (v & Hv & Hrange).
  cbn [parseDigits]. rewrite Hv.
  destruct (parseDigits_digits s v Hs) as (n & Hn & Hb); [lia|].
  rewrite Hn. exists n. cbn [option_map]. split; [f_equal; lia|].
  assert (Hlen : strlen (String c s) = strlen s + 1)
    by (unfold strlen; simpl String.length; lia).
  rewrite Hlen, Z.pow_add_r by (unfold strlen; lia).
  assert (0 < 10 ^ strlen s) by (apply Z.pow_pos_nonneg; unfold strlen; lia).
  nia.
Qed.

Lemma letter_not_slash (c : ascii) :
  isAsciiLetter c = true -> Ascii.eqb c "/" = false.
Proof.
  unfold isAsciiLetter. rewrite orb_true_iff, !andb_true_iff, !Z.leb_le.
  intros H. rewrite ascii_eqb_code. apply Z.eqb_neq.
  change (code "/") with 47. lia.
Qed.

Lemma strlen_length (s : string) (n : nat) :
  strlen s = Z.of_nat n -> String.length s = n.
Proof. unfold strlen. lia. Qed.

(** What the regular expression of the month-name form lets through. *)
Lemma matchMmmDdYyyy_spec (s mmm dd yyyy : string) :
  matchMmmDdYyyy s = Some (mmm, dd, yyyy) ->
  allChars isDigit dd = true /\ 1 <= strlen dd <= 2
  /\ allChars isDigit yyyy = true /\ strlen yyyy = 4
  /\ includesChar "/" s = false.
Proof.
  unfold matchMmmDdYyyy.
  destruct s as [|a [|b [|c r]]]; try discriminate.
  destruct (isAsciiLetter a && isAsciiLetter b && isAsciiLetter c) eqn:El;
    [|discriminate].
  apply andb_true_iff in El. destruct El as [El Hc].
  apply andb_true_iff in El. destruct El as [Ha Hb].
  destruct (span isWhiteSpace r) as [ws1 r1] eqn:E1.
  destruct (isEmpty ws1); [discriminate|].
  destruct (span isDigit r1) as [ds r2] eqn:E2.
  destruct ((1 <=? strlen ds) && (strlen ds <=? 2)) eqn:Elen; [|discriminate].
  destruct r2 as [|comma r3]; [discriminate|].
  destruct (Ascii.eqb comma ",") eqn:Ecomma; [|discriminate].
  destruct (span isWhiteSpace r3) as [ws2 r4] eqn:E3.
  destruct (isEmpty ws2); [discriminate|].
  destruct (span isDigit r4) as [ys r5] eqn:E4.
  destruct ((strlen ys =? 4) && isEmpty r5) eqn:Ey; [|discriminate].
  intros [= <- <- <-].
  apply andb_true_iff in Elen. destruct Elen as [L1 L2].
  apply Z.leb_le in L1, L2.
  apply andb_true_iff in Ey. destruct Ey as [L4 Hend]. apply Z.eqb_eq in L4.
  destruct (span_spec _ _ _ _ E1) as (-> & Hws1 & _).
  destruct (span_spec _ _ _ _ E2) as (-> & Hds & _).
  destruct (span_spec _ _ _ _ E3) as (-> & Hws2 & _).
  destruct (span_spec _ _ _ _ E4) as (-> & Hys & _).
  repeat split; try assumption.
  apply Ascii.eqb_eq in Ecomma. subst comma.
  cbn [includesChar].
  rewrite (letter_not_slash a Ha), (letter_not_slash b Hb), (letter_not_slash c Hc).
  rewrite !includesChar_app. cbn [includesChar].
  rewrite !includesChar_app.
  rewrite (allChars_excludes isWhiteSpace "/" ws1 eq_refl Hws1).
  rewrite (allChars_excludes isDigit "/" ds eq_refl Hds).
  rewrite (allChars_excludes isWhiteSpace "/" ws2 eq_refl Hws2).
  rewrite (allChars_excludes isDigit "/" ys eq_refl Hys).
  destruct r5; [reflexivity | discriminate].
Qed.

Lemma splitAux_without (c : ascii) (cur s : string) :
  includesChar c s = false -> splitAux c cur s = [(cur ++ s)%string].
Proof.
  revert cur. induction s as [|x s IH]; intros cur; simpl.
  - intros _. f_equal. induction cur; simpl; [reflexivity | now f_equal].
  - intros H. apply orb_false_iff in H. destruct H as [Hx Hs].
    rewrite Hx, (IH _ Hs). f_equal.
    clear. induction cur; simpl; [reflexivity | now f_equal].
Qed.

Lemma split_three_includes (c : ascii) (s p0 p1 p2 : string) :
  split c s = [p0; p1; p2] -> includesChar c s = true.
Proof.
  intros H. destruct (includesChar c s) eqn:E; [reflexivity|].
  unfold split in H. rewrite (splitAux_without c _ s E) in H. discriminate.
Qed.

Lemma eight_digits_inv (s : string) :
  isEightDigits s = true ->
  exists c1 c2 c3 c4 c5 c6 c7 c8,
    s = String c1 (String c2 (String c3 (String c4
          (String c5 (String c6 (String c7 (String c8 EmptyString)))))))
    /\ isDigit c1 = true /\ isDigit c2 = true /\ isDigit c3 = true
    /\ isDigit c4 = true /\ isDigit c5 = true /\ isDigit c6 = true
    /\ isDigit c7 = true /\ isDigit c8 = true.
Proof.
  unfold isEightDigits. intros H. apply andb_true_iff in H.
  destruct H as [Hd Hl]. apply Z.eqb_eq in Hl.
  apply (strlen_length s 8) in Hl.
  destruct s as [|c1 [|c2 [|c3 [|c4 [|c5 [|c6 [|c7 [|c8 [|c9 r]]]]]]]]];
    simpl in Hl; try discriminate.
  exists c1, c2, c3, c4, c5, c6, c7, c8. simpl in Hd.
  repeat (apply andb_true_iff in Hd; destruct Hd as [? Hd]). auto 10.
Qed.

Lemma Date_local_valid (tz y m d : Z) :
  - msPerDay < tz < msPerDay ->
  0 <= y <= 9999 -> -1 <= m <= 98 -> 0 <= d <= 99 ->
  exists t, Date_local tz (Some y) (Some m) (Some d) = Some t
            /\ Z.abs t <= maxTimeValue /\ - maxTimeValue <= t + tz.
Proof.
  intros Htz Hy Hm Hd. unfold Date_local, TimeClip, UTC, MakeDate, MakeTime, MakeDay.
  cbn [localOffset utcOffset fixedZone].
  cbv zeta.
  set (y' := MakeFullYear y).
  assert (Hy' : 100 <= y' <= 9999).
  { unfold y', MakeFullYear. destruct ((0 <=? y) && (y <=? 99)) eqn:E; [|].
    - apply andb_true_iff in E. rewrite !Z.leb_le in E. lia.
    - apply andb_false_iff in E. rewrite !Z.leb_gt in E. lia. }
  pose proof (monthStart_range (leapDays (y' + m / 12)) (m mod 12)
                (leapDays_range _)) as Hms.
  set (ms := monthStart _ _) in *.
  assert (Hdy : -700000 <= DayFromYear (y' + m / 12) <= 3000000).
  { unfold DayFromYear. Z.div_mod_to_equations. lia. }
  set (D := DayFromYear (y' + m / 12)) in *.
  unfold msPerDay, maxTimeValue in *.
  eexists. split.
  - replace (Z.abs _ <=? _) with true; [reflexivity|].
    symmetry. apply Z.leb_le. lia.
  - lia.
Qed.

(** The calendar date of a local time, read back by [Date.UTC], is a valid
    date at midnight UTC as soon as the local day is not before the first
    day that a Date can hold. *)
Lemma Date_UTC_of_fields_valid (tz t : Z) :
  - msPerDay < tz < msPerDay ->
  Z.abs t <= maxTimeValue ->
  - maxTimeValue <= t + tz ->
  exists n,
    Date_UTC (getFullYear tz (Some t)) (getMonth tz (Some t)) (getDate tz (Some t))
    = Some (n * msPerDay).
Proof.
  intros Htz Ht Hlow. unfold getFullYear, getMonth, getDate, option_map, LocalTime.
  cbn [localOffset utcOffset fixedZone].
  set (lt := t + tz) in *. unfold Date_UTC, MakeDate, MakeTime.
  unfold MakeFullYear.
  destruct ((0 <=? YearFromTime lt) && (YearFromTime lt <=? 99)) eqn:Eq.
  - apply andb_true_iff in Eq. rewrite !Z.leb_le in Eq.
    unfold YearFromTime in *.
    destruct (DayFromYear_two_digit (Day lt) Eq) as [Hdwy Hdfy].
    exists (MakeDay (1900 + YearFromDay (Day lt)) (MonthFromTime lt) (DateFromTime lt)).
    unfold TimeClip.
    replace (Z.abs _ <=? _) with true; [f_equal; lia|].
    symmetry. apply Z.leb_le.
    unfold MakeDay, DateFromTime, MonthFromTime, InLeapYear, DayWithinYear, YearFromTime.
    cbv zeta.
    set (y := YearFromDay (Day lt)) in *.
    set (m := monthOfDayWithinYear (leapDays y) (Day lt - DayFromYear y)).
    pose proof (monthOfDayWithinYear_range (leapDays y) (Day lt - DayFromYear y)) as Hm.
    fold m in Hm.
    rewrite (Z.div_small m 12) by lia. rewrite (Z.mod_small m 12) by lia.
    rewrite !Z.add_0_r.
    pose proof (monthStart_range (leapDays (1900 + y)) m (leapDays_range _)).
    pose proof (monthStart_range (leapDays y) m (leapDays_range _)).
    unfold msPerDay, maxTimeValue. lia.
  - rewrite MakeDay_of_fields. exists (Day lt). unfold TimeClip.
    replace (Z.abs _ <=? _) with true; [f_equal; lia|].
    symmetry. apply Z.leb_le. unfold Day, msPerDay, maxTimeValue in *.
    Z.div_mod_to_equations. lia.
Qed.


Lemma digits_between (lo hi : Z) (s : string) :
  isDigitsBetween lo hi s = true -> 1 <= lo ->
  exists n, parseInt s = Some n /\ 0 <= n < 10 ^ hi.
Proof.
  unfold isDigitsBetween. intros H Hlo.
  apply andb_true_iff in H. destruct H as [H Hhi].
  apply andb_true_iff in H. destruct H as [Hd Hl].
  apply Z.leb_le in Hhi, Hl.
  assert (Hne : s <> EmptyString).
  { intros ->. unfold strlen in Hl. simpl in Hl. lia. }
  destruct (parseInt_digits s Hd Hne) as (n & Hn & Hb).
  exists n. split; [exact Hn|].
  assert (10 ^ strlen s <= 10 ^ hi) by (apply Z.pow_le_mono_r; lia).
  lia.
Qed.

Lemma indexOfFrom_range (i : Z) (x : string) (names : list string) :
  indexOfFrom i x names = -1
  \/ i <= indexOfFrom i x names < i + Z.of_nat (List.length names).
Proof.
  revert i. induction names as [|n names IH]; intros i; simpl; [now left|].
  destruct (String.eqb n x); [right; lia|].
  destruct (IH (i + 1)) as [H|H]; [now left | right; lia].
Qed.

(** A text in one of the three forms that the normalizer reads itself
    parses to a date whose local day a Date can hold. *)
Lemma parsedDate_of_known_form (tz : Z) (dateParse : string -> JSDate) (s : string) :
  - msPerDay < tz < msPerDay ->
  isSlashDateText s = true \/ isMonthNameDateText s = true
  \/ isCompactDateText s = true ->
  exists t, parsedDate tz dateParse (FromString s) = Some t
            /\ Z.abs t <= maxTimeValue /\ - maxTimeValue <= t + tz.
Proof.
  intros Htz [H|[H|H]].
  - unfold isSlashDateText in H.
    destruct (split "/" s) as [|mm [|dd [|yyyy [|x r]]]] eqn:Es; try discriminate.
    apply andb_true_iff in H. destruct H as [H Hy].
    apply andb_true_iff in H. destruct H as [Hm Hd].
    pose proof (split_three_includes "/" s mm dd yyyy Es) as Hinc.
    assert (Hno : matchMmmDdYyyy s = None).
    { destruct (matchMmmDdYyyy s) as [[[a b] c]|] eqn:E; [|reflexivity].
      apply matchMmmDdYyyy_spec in E. destruct E as (_ & _ & _ & _ & E).
      congruence. }
    unfold parsedDate. rewrite Hno, Hinc, Es.
    destruct (digits_between 1 2 mm Hm) as (m & -> & Hmr); [lia|].
    destruct (digits_between 1 2 dd Hd) as (d & -> & Hdr); [lia|].
    destruct (digits_between 4 4 yyyy Hy) as (y & -> & Hyr); [lia|].
    cbn [num_sub]. apply Date_local_valid; [exact Htz | | |];
      change (10 ^ 2) with 100 in *; change (10 ^ 4) with 10000 in *; lia.
  - unfold isMonthNameDateText in H.
    destruct (matchMmmDdYyyy s) as [[[mmm dd] yyyy]|] eqn:E; [|discriminate].
    unfold parsedDate. rewrite E, H.
    apply matchMmmDdYyyy_spec in E. destruct E as (Hd & Hdl & Hy & Hyl & _).
    assert (Hne : forall x, 1 <= strlen x -> x <> EmptyString).
    { intros x Hx ->. unfold strlen in Hx. simpl in Hx. lia. }
    destruct (parseInt_digits dd Hd) as (d & -> & Hdr); [apply Hne; lia|].
    destruct (parseInt_digits yyyy Hy) as (y & -> & Hyr); [apply Hne; lia|].
    rewrite Hyl in Hyr. change (10 ^ 4) with 10000 in Hyr.
    assert (10 ^ strlen dd <= 10 ^ 2) by (apply Z.pow_le_mono_r; lia).
    change (10 ^ 2) with 100 in *.
    apply negb_true_iff, Z.eqb_neq in H.
    destruct (indexOfFrom_range 0 mmm monthNames) as [Hi|Hi];
      [unfold indexOf in H; contradiction|].
    change (Z.of_nat (List.length monthNames)) with 12 in Hi. unfold indexOf.
    apply Date_local_valid; [exact Htz | | |]; lia.
  - unfold isCompactDateText in H. pose proof H as H8.
    apply eight_digits_inv in H.
    destruct H as (c1 & c2 & c3 & c4 & c5 & c6 & c7 & c8 & -> &
                   D1 & D2 & D3 & D4 & D5 & D6 & D7 & D8).
    assert (Hno : matchMmmDdYyyy
              (String c1 (String c2 (String c3 (String c4 (String c5
                 (String c6 (String c7 (String c8 EmptyString)))))))) = None).
    { unfold matchMmmDdYyyy. now rewrite (digit_not_letter c1 D1). }
    assert (Hinc : includesChar "/"
              (String c1 (String c2 (String c3 (String c4 (String c5
                 (String c6 (String c7 (String c8 EmptyString)))))))) = false).
    { apply (allChars_excludes isDigit); [reflexivity|].
      simpl. now rewrite D1, D2, D3, D4, D5, D6, D7, D8. }
    unfold parsedDate. rewrite Hno, Hinc, H8.
    unfold substring. simpl String.substring.
    destruct (parseInt_digits (String c1 (String c2 (String c3 (String c4 EmptyString)))))
      as (y & -> & Hyr); [simpl; now rewrite D1, D2, D3, D4 | discriminate |].
    destruct (parseInt_digits (String c5 (String c6 EmptyString)))
      as (m & -> & Hmr); [simpl; now rewrite D5, D6 | discriminate |].
    destruct (parseInt_digits (String c7 (String c8 EmptyString)))
      as (d & -> & Hdr); [simpl; now rewrite D7, D8 | discriminate |].
    cbn [num_sub]. unfold strlen in *. simpl String.length in *.
    change (10 ^ Z.of_nat 4) with 10000 in *.
    change (10 ^ Z.of_nat 2) with 100 in *.
    apply Date_local_valid; [exact Htz | | |]; lia.
Qed.

Lemma iso_text_goes_to_host_parser (tz : Z) (dateParse : string -> JSDate)
    (s : string) :
  isIsoDateText s = true -> parsedDate tz dateParse (FromString s) = dateParse s.
Proof.
  unfold isIsoDateText. intros H.
  destruct s as [|y1 [|y2 [|y3 [|y4 [|h1 [|m1 [|m2 [|h2 [|d1 [|d2 [|x r]]]]]]]]]]];
    try discriminate.
  do 9 (apply andb_true_iff in H; destruct H as [H ?]).
  repeat match goal with
         | E : Ascii.eqb _ _ = true |- _ => apply Ascii.eqb_eq in E; subst
         end.
  unfold parsedDate.
  replace (matchMmmDdYyyy _) with (@None (string * string * string))
    by (unfold matchMmmDdYyyy; now rewrite (digit_not_letter y1 H)).
  replace (includesChar "/" _) with false.
  - replace (isEightDigits _) with false; [reflexivity|].
    unfold isEightDigits. unfold strlen. simpl String.length.
    now rewrite andb_false_r.
  - symmetry. cbn [includesChar].
    repeat match goal with
           | D : isDigit ?c = true |- context [Ascii.eqb ?c "/"] =>
               rewrite (digit_not_other c "/" D) by (cbv; auto)
           end.
    reflexivity.
Qed.

(** C8 (fails on the code).  [normalizeDate] validates the date it parsed
    but not the date it builds: the result is [Date.UTC] of the host-local
    calendar date of the input, and for the first instant a Date can hold,
    read in a zone west of UTC, that calendar date lies one day before the
    range of Date.  Five hours west of UTC, [normalizeDate] returns an
    Invalid Date for a valid Date, and warns of nothing. *)
Lemma normalizeDate_of_the_first_instant_west_of_utc_is_invalid :
  parsedDate tzMinus5 isoDateParse (FromDate (Some (- maxTimeValue)))
  = Some (- maxTimeValue)
  /\ normalizeDate tzMinus5 isoDateParse (FromDate (Some (- maxTimeValue))) = None
  /\ normalizeDateLog tzMinus5 isoDateParse (FromDate (Some (- maxTimeValue)))
     = (None, []).
Proof.
  vm_compute. repeat split.
Qed.

(** What [normalizeDate] returns on a host that keeps one offset, less
    than a day from UTC: when the input does not parse to a valid date, the
    sentinel
    1970-01-01T00:00:00Z together with one warning naming the input; when it
    does, no warning and the UTC midnight that carries the host-local
    calendar date of the parsed date (years 0 to 99 being read as 19xx by
    [Date.UTC]), which is a valid Date at midnight UTC whenever that local
    day is not before the first day a Date can hold (always so in a zone at
    or east of UTC), and an Invalid Date otherwise.  Texts of the forms
    MM/DD/YYYY, "Mon DD, YYYY" and YYYYMMDD are parsed by the function itself
    and always yield a valid midnight and no warning; a text of the form
    YYYY-MM-DD is handed to the host's date parser. *)
Lemma normalizeDate_returns_local_day_at_utc_midnight_or_sentinel
    (tz : Z) (dateParse : string -> JSDate) :
  - msPerDay < tz < msPerDay ->
  (forall input,
     match parsedDate tz dateParse input with
     | None =>
         normalizeDateLog tz dateParse input
         = (Some 0, [InvalidDateDetected input])
     | Some t =>
         let result := fst (normalizeDateLog tz dateParse input) in
         snd (normalizeDateLog tz dateParse input) = []
         /\ (result = None \/ exists n, result = Some (n * msPerDay))
         /\ (Z.abs t <= maxTimeValue -> - maxTimeValue <= t + tz ->
             exists n, result = Some (n * msPerDay))
         /\ (Z.abs t <= maxTimeValue -> 0 <= tz ->
             exists n, result = Some (n * msPerDay))
         /\ (~ 0 <= YearFromTime (t + tz) <= 99 ->
             result = TimeClip (Day (t + tz) * msPerDay))
     end)
  /\ (forall s,
        isSlashDateText s = true \/ isMonthNameDateText s = true
        \/ isCompactDateText s = true ->
        exists n,
          normalizeDateLog tz dateParse (FromString s) = (Some (n * msPerDay), []))
  /\ (forall s,
        isIsoDateText s = true ->
        parsedDate tz dateParse (FromString s) = dateParse s).
Proof.
  intros Htz.
  assert (Hvalid : forall input t,
    parsedDate tz dateParse input = Some t ->
    Z.abs t <= maxTimeValue -> - maxTimeValue <= t + tz ->
    exists n, normalizeDateLog tz dateParse input = (Some (n * msPerDay), [])).
  { intros input t Hp Ht Hlow. unfold normalizeDateLog. rewrite Hp.
    cbn [getTime].
    destruct (Date_UTC_of_fields_valid tz t Htz Ht Hlow) as (n & ->).
    now exists n. }
  split; [|split].
  - intros input. destruct (parsedDate tz dateParse input) as [t|] eqn:Hp.
    + cbv zeta. unfold normalizeDateLog. rewrite Hp. cbn [getTime fst snd].
      split; [reflexivity|]. split; [|split; [|split]].
      * unfold getFullYear, getMonth, getDate, option_map, Date_UTC, TimeClip.
        destruct (Z.abs _ <=? maxTimeValue); [right | now left].
        eexists. unfold MakeDate, MakeTime. f_equal.
        rewrite Z.add_0_r. reflexivity.
      * intros Ht Hlow. apply (Date_UTC_of_fields_valid tz t Htz Ht Hlow).
      * intros Ht Hpos. apply (Date_UTC_of_fields_valid tz t Htz Ht).
        unfold maxTimeValue in *. lia.
      * intros Hyear.
        unfold getFullYear, getMonth, getDate, option_map, Date_UTC, LocalTime.
        cbn [localOffset utcOffset fixedZone].
        unfold MakeFullYear.
        replace ((0 <=? YearFromTime (t + tz)) && (YearFromTime (t + tz) <=? 99))
          with false.
        -- rewrite MakeDay_of_fields. unfold MakeDate, MakeTime.
           now rewrite Z.add_0_r.
        -- symmetry. apply andb_false_iff. rewrite !Z.leb_gt. lia.
    + unfold normalizeDateLog. rewrite Hp. reflexivity.
  - intros s Hs.
    destruct (parsedDate_of_known_form tz dateParse s Htz Hs) as (t & Hp & Ht & Hlow).
    apply (Hvalid _ t Hp Ht Hlow).
  - intros s. apply iso_text_goes_to_host_parser.
Qed.

(** On a UTC host, at the text of the provider's usual form. *)
Lemma normalizeDate_witness :
  exists n,
    normalizeDateLog 0 isoDateParse (FromString "Oct 22, 2025")
    = (Some (n * msPerDay), []).
Proof.
  assert (Htz : - msPerDay < 0 < msPerDay) by (unfold msPerDay; lia).
  apply (proj1 (proj2 (normalizeDate_returns_local_day_at_utc_midnight_or_sentinel
                         0 isoDateParse Htz))).
  right. left. reflexivity.
Defined.

(** The day kept is the host-local one: five hours west of UTC the text
    [2025-10-22], which the host parser reads as midnight UTC, is normalized
    to the midnight of 21 October; and a year below 100 is moved into the
    twentieth century. *)
Lemma normalizeDate_keeps_the_local_day :
  (normalizeDate tzMinus5 isoDateParse (FromString "2025-10-22")
   = isoDateParse "2025-10-21")%string
  /\ (normalizeDate 0 isoDateParse (FromString "0050-10-22")
      = isoDateParse "1950-10-22")%string.
Proof.
  split; vm_compute; reflexivity.
Qed.

(** The four forms on a UTC host, and a text that is no date. *)
Lemma normalizeDate_examples :
  (normalizeDateLog 0 isoDateParse (FromString "2025-10-22")
   = (Some 1761091200000, [])
   /\ normalizeDateLog 0 isoDateParse (FromString "10/22/2025")
      = (Some 1761091200000, [])
   /\ normalizeDateLog 0 isoDateParse (FromString "Oct 22, 2025")
      = (Some 1761091200000, [])
   /\ normalizeDateLog 0 isoDateParse (FromString "20251022")
      = (Some 1761091200000, [])
   /\ normalizeDateLog 0 isoDateParse (FromString "not a date")
      = (Some 0, [InvalidDateDetected (FromString "not a date")]))%string.
Proof.
  repeat split; vm_compute; reflexivity.
Qed.

(* ================================================================== *)
(** * The week calendar, the reconstructor and the cache as wholes *)

Lemma YearFromDay_since_epoch (D : Z) : 0 <= D -> 1970 <= YearFromDay D.
Proof.
  intros HD. unfold YearFromDay.
  set (e := 1970 + 400 * D / 146097).
  assert (He : e = 1970 + 400 * D / 146097) by reflexivity.
  destruct (D <? DayFromYear e) eqn:E1;
    [|destruct (DayFromYear (e + 1) <=? D) eqn:E2].
  - apply Z.ltb_lt in E1. unfold DayFromYear in *. clearbody e.
    Z.div_mod_to_equations. lia.
  - clearbody e. Z.div_mod_to_equations. lia.
  - clearbody e. Z.div_mod_to_equations. lia.
Qed.

(** A date on or after 1 January 1970 (local time) is normalized to the UTC
    midnight of its local day. *)
Lemma normalizeDateLog_since_epoch (tz : Z) (dateParse : string -> JSDate) (t : Z) :
  - msPerDay < tz < msPerDay ->
  0 <= t + tz -> t <= maxTimeValue ->
  normalizeDateLog tz dateParse (FromDate (Some t))
  = (Some (Day (t + tz) * msPerDay), []).
Proof.
  intros Htz Hlow Hhigh. unfold normalizeDateLog, parsedDate. cbn [getTime].
  f_equal.
  unfold getFullYear, getMonth, getDate, option_map, Date_UTC, LocalTime.
  cbn [localOffset utcOffset fixedZone].
  unfold MakeFullYear.
  assert (Hday : 0 <= Day (t + tz) <= 100000000).
  { unfold Day, msPerDay, maxTimeValue in *. Z.div_mod_to_equations. lia. }
  pose proof (YearFromDay_since_epoch (Day (t + tz)) (proj1 Hday)) as Hy.
  fold (YearFromTime (t + tz)) in Hy.
  replace ((0 <=? YearFromTime (t + tz)) && (YearFromTime (t + tz) <=? 99))
    with false
    by (symmetry; apply andb_false_iff; rewrite !Z.leb_gt; lia).
  rewrite MakeDay_of_fields. unfold MakeDate, MakeTime, TimeClip.
  rewrite Z.add_0_r.
  replace (Z.abs _ <=? _) with true; [reflexivity|].
  symmetry. apply Z.leb_le. unfold msPerDay, maxTimeValue in *. lia.
Qed.

Lemma normalizeDate_since_epoch (tz : Z) (dateParse : string -> JSDate) (t : Z) :
  - msPerDay < tz < msPerDay ->
  0 <= t + tz -> t <= maxTimeValue ->
  normalizeDate tz dateParse (FromDate (Some t)) = Some (Day (t + tz) * msPerDay).
Proof.
  intros. unfold normalizeDate. now rewrite normalizeDateLog_since_epoch.
Qed.

Lemma Day_of_midnight (tz n : Z) :
  - msPerDay < tz < msPerDay ->
  Day (n * msPerDay + tz) = if 0 <=? tz then n else n - 1.
Proof.
  intros Htz. unfold Day, msPerDay in *.
  destruct (0 <=? tz) eqn:E; [apply Z.leb_le in E | apply Z.leb_gt in E];
    Z.div_mod_to_equations; lia.
Qed.

Lemma getWeekNumber_of_days (tz : Z) (dateParse : string -> JSDate)
    (d s : JSDate) (a b : Z) :
  normalizeDate tz dateParse (FromDate d) = Some (a * msPerDay) ->
  normalizeDate tz dateParse (FromDate s) = Some (b * msPerDay) ->
  getWeekNumber tz dateParse d s = Some (Z.max 1 ((a - b) / 7 + 1)).
Proof.
  intros Hd Hs. unfold getWeekNumber. rewrite Hd, Hs.
  cbn [getTime num_sub num_floor_div num_add num_max1].
  do 3 f_equal.
  replace (a * msPerDay - b * msPerDay) with ((a - b) * 86400000)
    by (unfold msPerDay; lia).
  now rewrite Z.div_mul.
Qed.

(** X1.  On a host that keeps one offset, less than a day from UTC, and for
    dates from 1970 on, the week number counts the blocks of seven local
    calendar days from the day of the season start, the first block being
    week 1, and never goes below 1. *)
Theorem getWeekNumber_counts_seven_day_blocks
    (tz : Z) (dateParse : string -> JSDate) (t s : Z) :
  - msPerDay < tz < msPerDay ->
  0 <= t + tz -> t <= maxTimeValue ->
  0 <= s + tz -> s <= maxTimeValue ->
  getWeekNumber tz dateParse (Some t) (Some s)
  = Some (Z.max 1 ((Day (t + tz) - Day (s + tz)) / 7 + 1)).
Proof.
  intros Htz Ht1 Ht2 Hs1 Hs2.
  apply getWeekNumber_of_days; now apply normalizeDate_since_epoch.
Qed.

Lemma getWeekNumber_counts_seven_day_blocks_witness :
  getWeekNumber 0 isoDateParse (isoDateParse "2024-11-05") (isoDateParse "2024-10-22")
  = Some 3.
Proof.
  assert (Htz : - msPerDay < 0 < msPerDay) by (unfold msPerDay; lia).
  assert (H1 : 0 <= 1730764800000 + 0) by lia.
  assert (H2 : 1730764800000 <= maxTimeValue) by (unfold maxTimeValue; lia).
  assert (H3 : 0 <= 1729555200000 + 0) by lia.
  assert (H4 : 1729555200000 <= maxTimeValue) by (unfold maxTimeValue; lia).
  exact (getWeekNumber_counts_seven_day_blocks 0 isoDateParse
           1730764800000 1729555200000 Htz H1 H2 H3 H4).
Defined.

(** X2.  On a host that keeps one offset, less than a day from UTC, and for
    dates and a season start from 1970 on (local time): later dates never
    get an earlier week, and from the season start on a date seven times 24
    hours later falls in the next week. *)
Theorem getWeekNumber_is_monotone
    (tz : Z) (dateParse : string -> JSDate) (t1 t2 s : Z) :
  - msPerDay < tz < msPerDay ->
  0 <= s + tz -> s <= maxTimeValue ->
  0 <= t1 + tz -> t1 <= t2 -> t2 <= maxTimeValue ->
  exists w1 w2,
    getWeekNumber tz dateParse (Some t1) (Some s) = Some w1
    /\ getWeekNumber tz dateParse (Some t2) (Some s) = Some w2
    /\ 1 <= w1 <= w2
    /\ (s <= t1 -> t2 = t1 + 7 * msPerDay -> w2 = w1 + 1).
Proof.
  intros Htz Hs1 Hs2 Ht1 Hle Ht2.
  assert (Ha : getWeekNumber tz dateParse (Some t1) (Some s)
               = Some (Z.max 1 ((Day (t1 + tz) - Day (s + tz)) / 7 + 1))).
  { apply getWeekNumber_of_days; apply normalizeDate_since_epoch; lia. }
  assert (Hb : getWeekNumber tz dateParse (Some t2) (Some s)
               = Some (Z.max 1 ((Day (t2 + tz) - Day (s + tz)) / 7 + 1))).
  { apply getWeekNumber_of_days; apply normalizeDate_since_epoch; lia. }
  eexists. eexists. split; [exact Ha|]. split; [exact Hb|].
  unfold Day, msPerDay in *. split.
  - Z.div_mod_to_equations. lia.
  - intros Hst ->. Z.div_mod_to_equations. lia.
Qed.

Lemma getWeekNumber_is_monotone_witness :
  exists w1 w2,
    getWeekNumber 0 isoDateParse (Some 1729555200000) (Some 1729555200000) = Some w1
    /\ getWeekNumber 0 isoDateParse (Some (1729555200000 + 7 * msPerDay))
         (Some 1729555200000) = Some w2
    /\ 1 <= w1 <= w2
    /\ (1729555200000 <= 1729555200000 ->
        1729555200000 + 7 * msPerDay = 1729555200000 + 7 * msPerDay -> w2 = w1 + 1).
Proof.
  assert (Htz : - msPerDay < 0 < msPerDay) by (unfold msPerDay; lia).
  assert (H1 : 0 <= 1729555200000 + 0) by lia.
  assert (H2 : 1729555200000 <= maxTimeValue) by (unfold maxTimeValue; lia).
  assert (H3 : 1729555200000 <= 1729555200000 + 7 * msPerDay)
    by (unfold msPerDay; lia).
  assert (H4 : 1729555200000 + 7 * msPerDay <= maxTimeValue)
    by (unfold msPerDay, maxTimeValue; lia).
  exact (getWeekNumber_is_monotone 0 isoDateParse 1729555200000
           (1729555200000 + 7 * msPerDay) 1729555200000 Htz H1 H2 H1 H3 H4).
Defined.

(** X3.  [getWeekNumber] yields a number unless one of the two normalized dates
    is an Invalid Date, and that number is at least 1; an Invalid Date is
    itself normalized to 1 January 1970, so it falls in week 1 of any season
    that starts in 1970 or later. *)
Theorem getWeekNumber_is_at_least_one
    (tz : Zone) (dateParse : string -> JSDate) (date seasonStartDate : JSDate) :
  match getWeekNumber tz dateParse date seasonStartDate with
  | Some w => 1 <= w
  | None =>
      normalizeDate tz dateParse (FromDate date) = None
      \/ normalizeDate tz dateParse (FromDate seasonStartDate) = None
  end
  /\ (forall b,
        normalizeDate tz dateParse (FromDate seasonStartDate) = Some b -> 0 <= b ->
        getWeekNumber tz dateParse None seasonStartDate = Some 1).
Proof.
  split.
  - unfold getWeekNumber.
    destruct (normalizeDate tz dateParse (FromDate date)) as [a|];
      destruct (normalizeDate tz dateParse (FromDate seasonStartDate)) as [b|];
      cbn [getTime num_sub num_floor_div num_add num_max1]; auto; lia.
  - intros b Hb Hpos. unfold getWeekNumber. rewrite Hb.
    change (normalizeDate tz dateParse (FromDate None)) with (Some 0).
    cbn [getTime num_sub num_floor_div num_add num_max1]. f_equal.
    Z.div_mod_to_equations. lia.
Qed.

Lemma MakeDay_add_days (y m d k : Z) : MakeDay y m (d + k) = MakeDay y m d + k.
Proof. unfold MakeDay. lia. Qed.

(** [d.setDate(d.getDate() + k)] moves the date by [k] days. *)
Lemma setDate_add_days (tz t k : Z) :
  setDate tz (Some t) (num_add (getDate tz (Some t)) (Some k))
  = TimeClip (t + k * msPerDay).
Proof.
  unfold setDate, getDate, option_map, num_add, LocalTime, UTC.
  cbn [localOffset utcOffset fixedZone].
  rewrite MakeDay_add_days, MakeDay_of_fields. f_equal.
  unfold MakeDate, Day, TimeWithinDay, msPerDay. Z.div_mod_to_equations. lia.
Qed.

Lemma setHours_some (tz t h m s ms : Z) :
  setHours tz (Some t) h m s ms
  = TimeClip (Day (t + tz) * msPerDay + MakeTime h m s ms - tz).
Proof. reflexivity. Qed.

Lemma TimeClip_in_range (t : Z) : Z.abs t <= maxTimeValue -> TimeClip t = Some t.
Proof.
  intros H. unfold TimeClip. apply Z.leb_le in H. now rewrite H.
Qed.

(** X4.  On a host that keeps one offset, less than a day from UTC, the range
    returned for week [w] is the calendar week, Monday 00:00:00.000 to
    Sunday 23:59:59.999 local time, that contains the day [7 (w - 1)] days
    after the season start. *)
Theorem getWeekDates_is_the_calendar_week_of_the_block_start
    (tz w s : Z) :
  - msPerDay < tz < msPerDay ->
  Z.abs (s + (w - 1) * 7 * msPerDay) + 14 * msPerDay <= maxTimeValue ->
  exists monday,
    getWeekDates tz (Some w) (Some s)
    = {| wd_start := Some (monday * msPerDay - tz);
         wd_end := Some ((monday + 7) * msPerDay - 1 - tz) |}
    /\ WeekDay (monday * msPerDay) = 1
    /\ monday <= Day (s + tz) + (w - 1) * 7 <= monday + 6.
Proof.
  intros Htz Hrange.
  set (D := Day (s + tz) + (w - 1) * 7).
  exists (D - (D + 3) mod 7).
  assert (HD : Day (s + (w - 1) * 7 * msPerDay + tz) = D).
  { unfold D, Day, msPerDay. Z.div_mod_to_equations. lia. }
  split; [|split].
  - unfold getWeekDates. cbv zeta. cbn [option_map].
    rewrite (setDate_add_days tz s ((w - 1) * 7)).
    rewrite TimeClip_in_range by (unfold msPerDay, maxTimeValue in *; lia).
    set (t1 := s + (w - 1) * 7 * msPerDay) in *.
    cbn [getDay option_map]. unfold LocalTime, WeekDay. cbn [localOffset utcOffset fixedZone]. rewrite HD.
    set (diff := if (D + 4) mod 7 =? 0 then -6 else 1 - (D + 4) mod 7).
    assert (Hdiff : diff = - ((D + 3) mod 7)).
    { unfold diff. destruct ((D + 4) mod 7 =? 0) eqn:E;
        [apply Z.eqb_eq in E | apply Z.eqb_neq in E];
        Z.div_mod_to_equations; lia. }
    rewrite (setDate_add_days tz t1 diff).
    assert (Hd6 : -6 <= diff <= 0).
    { rewrite Hdiff. Z.div_mod_to_equations. lia. }
    rewrite TimeClip_in_range by (unfold msPerDay, maxTimeValue in *; lia).
    rewrite !(setHours_some tz (t1 + diff * msPerDay)).
    assert (Hday2 : Day (t1 + diff * msPerDay + tz) = D + diff).
    { rewrite <- HD. unfold Day, msPerDay. Z.div_mod_to_equations. lia. }
    rewrite Hday2.
    assert (HDr : Z.abs (D * msPerDay) <= Z.abs t1 + 2 * msPerDay).
    { rewrite <- HD. unfold Day, msPerDay in *. Z.div_mod_to_equations. lia. }
    unfold MakeTime at 1 2 3.
    rewrite TimeClip_in_range by (unfold msPerDay, maxTimeValue in *; lia).
    rewrite setDate_add_days.
    rewrite TimeClip_in_range by (unfold msPerDay, maxTimeValue in *; lia).
    rewrite setHours_some. unfold MakeTime.
    replace (Day (_ + tz)) with (D + diff + 6)
      by (unfold Day, msPerDay; Z.div_mod_to_equations; lia).
    rewrite TimeClip_in_range by (unfold msPerDay, maxTimeValue in *; lia).
    cbn [wd_start wd_end]. rewrite Hdiff. f_equal; f_equal; unfold msPerDay; lia.
  - unfold WeekDay, Day. rewrite Z.div_mul by (unfold msPerDay; lia).
    Z.div_mod_to_equations. lia.
  - fold D. Z.div_mod_to_equations. lia.
Qed.

Lemma getWeekDates_witness :
  exists monday,
    getWeekDates 0 (Some 2) (isoDateParse "2024-10-22")
    = {| wd_start := Some (monday * msPerDay - 0);
         wd_end := Some ((monday + 7) * msPerDay - 1 - 0) |}
    /\ WeekDay (monday * msPerDay) = 1
    /\ monday <= Day (1729555200000 + 0) + (2 - 1) * 7 <= monday + 6.
Proof.
  assert (Htz : - msPerDay < 0 < msPerDay) by (unfold msPerDay; lia).
  assert (H : Z.abs (1729555200000 + (2 - 1) * 7 * msPerDay) + 14 * msPerDay
              <= maxTimeValue) by (unfold msPerDay, maxTimeValue; lia).
  exact (getWeekDates_is_the_calendar_week_of_the_block_start 0 2 1729555200000 Htz H).
Defined.

(** X5.  On a host that keeps one offset, less than a day from UTC:
    normalizing a date that is already normalized leaves it as it is in a
    zone at or east of UTC, and moves it to the previous day in a zone west
    of UTC (its local calendar day is then the day before). *)
Theorem normalizeDate_of_a_normalized_date
    (tz : Z) (dateParse : string -> JSDate) (t : Z) :
  - msPerDay < tz < msPerDay ->
  msPerDay <= t + tz -> t <= maxTimeValue ->
  exists day,
    normalizeDate tz dateParse (FromDate (Some t)) = Some (day * msPerDay)
    /\ day = Day (t + tz)
    /\ (0 <= tz ->
        normalizeDate tz dateParse (FromDate (Some (day * msPerDay)))
        = Some (day * msPerDay))
    /\ (tz < 0 ->
        normalizeDate tz dateParse (FromDate (Some (day * msPerDay)))
        = Some ((day - 1) * msPerDay)).
Proof.
  intros Htz Hlow Hhigh. exists (Day (t + tz)).
  assert (Hday : 1 <= Day (t + tz) <= 100000000).
  { unfold Day, msPerDay, maxTimeValue in *. Z.div_mod_to_equations. lia. }
  split; [|split; [reflexivity|]].
  - apply normalizeDate_since_epoch; unfold msPerDay in *; lia.
  - assert (Hagain :
      normalizeDate tz dateParse (FromDate (Some (Day (t + tz) * msPerDay)))
      = Some (Day (Day (t + tz) * msPerDay + tz) * msPerDay)).
    { apply normalizeDate_since_epoch; unfold msPerDay, maxTimeValue in *; lia. }
    rewrite Hagain, (Day_of_midnight tz _ Htz). split; intros Hs.
    + apply Z.leb_le in Hs. now rewrite Hs.
    + apply Z.leb_gt in Hs. now rewrite Hs.
Qed.

Lemma normalizeDate_of_a_normalized_date_witness :
  exists day,
    normalizeDate tzMinus5 isoDateParse (FromDate (Some 1729555200000))
    = Some (day * msPerDay)
    /\ day = Day (1729555200000 + tzMinus5)
    /\ (0 <= tzMinus5 ->
        normalizeDate tzMinus5 isoDateParse (FromDate (Some (day * msPerDay)))
        = Some (day * msPerDay))
    /\ (tzMinus5 < 0 ->
        normalizeDate tzMinus5 isoDateParse (FromDate (Some (day * msPerDay)))
        = Some ((day - 1) * msPerDay)).
Proof.
  assert (Htz : - msPerDay < tzMinus5 < msPerDay)
    by (unfold msPerDay, tzMinus5; lia).
  assert (H1 : msPerDay <= 1729555200000 + tzMinus5)
    by (unfold msPerDay, tzMinus5; lia).
  assert (H2 : 1729555200000 <= maxTimeValue) by (unfold maxTimeValue; lia).
  exact (normalizeDate_of_a_normalized_date tzMinus5 isoDateParse 1729555200000
           Htz H1 H2).
Defined.

(** X6.  The aggregator hands [getWeekNumber] dates that are already normalized.
    On a host that keeps one offset, less than a day from UTC, and for dates
    from 2 January 1970 on (local time), the second normalization shifts
    both dates alike, so the week is the week of the dates themselves. *)
Theorem getWeekNumber_of_normalized_dates
    (tz : Z) (dateParse : string -> JSDate) (t s : Z) :
  - msPerDay < tz < msPerDay ->
  msPerDay <= t + tz -> t <= maxTimeValue ->
  msPerDay <= s + tz -> s <= maxTimeValue ->
  getWeekNumber tz dateParse
    (normalizeDate tz dateParse (FromDate (Some t)))
    (normalizeDate tz dateParse (FromDate (Some s)))
  = getWeekNumber tz dateParse (Some t) (Some s).
Proof.
  intros Htz Ht1 Ht2 Hs1 Hs2.
  assert (Hdt : 1 <= Day (t + tz) <= 100000000).
  { unfold Day, msPerDay, maxTimeValue in *. Z.div_mod_to_equations. lia. }
  assert (Hds : 1 <= Day (s + tz) <= 100000000).
  { unfold Day, msPerDay, maxTimeValue in *. Z.div_mod_to_equations. lia. }
  rewrite (getWeekNumber_of_days tz dateParse (Some t) (Some s)
             (Day (t + tz)) (Day (s + tz)))
    by (apply normalizeDate_since_epoch; unfold msPerDay in *; lia).
  rewrite !normalizeDate_since_epoch by (unfold msPerDay in *; lia).
  rewrite (getWeekNumber_of_days tz dateParse _ _
             (Day (Day (t + tz) * msPerDay + tz)) (Day (Day (s + tz) * msPerDay + tz)))
    by (apply normalizeDate_since_epoch; unfold msPerDay, maxTimeValue in *; lia).
  rewrite !(Day_of_midnight tz _ Htz).
  destruct (0 <=? tz); [reflexivity|].
  now replace (Day (t + tz) - 1 - (Day (s + tz) - 1))
    with (Day (t + tz) - Day (s + tz)) by lia.
Qed.

Lemma getWeekNumber_of_normalized_dates_witness :
  getWeekNumber tzMinus5 isoDateParse
    (normalizeDate tzMinus5 isoDateParse (FromDate (Some 1730764800000)))
    (normalizeDate tzMinus5 isoDateParse (FromDate (Some 1729555200000)))
  = getWeekNumber tzMinus5 isoDateParse (Some 1730764800000) (Some 1729555200000).
Proof.
  assert (Htz : - msPerDay < tzMinus5 < msPerDay)
    by (unfold msPerDay, tzMinus5; lia).
  assert (H1 : msPerDay <= 1730764800000 + tzMinus5)
    by (unfold msPerDay, tzMinus5; lia).
  assert (H2 : 1730764800000 <= maxTimeValue) by (unfold maxTimeValue; lia).
  assert (H3 : msPerDay <= 1729555200000 + tzMinus5)
    by (unfold msPerDay, tzMinus5; lia).
  assert (H4 : 1729555200000 <= maxTimeValue) by (unfold maxTimeValue; lia).
  exact (getWeekNumber_of_normalized_dates tzMinus5 isoDateParse
           1730764800000 1729555200000 Htz H1 H2 H3 H4).
Defined.

(** On a host that is on UTC in summer and west of it in winter the second
    normalization does not shift both dates alike: with the season start in
    summer time, a game played on the eighth day of the season, in winter
    time, is in week 2 by its date and in week 1 by its normalized date. *)
Lemma getWeekNumber_of_normalized_dates_across_a_change_of_offset :
  let game := Some 1730203200000 in
  let seasonStart := isoDateParse "2024-10-22" in
  getWeekNumber zoneWestInWinter isoDateParse game seasonStart = Some 2
  /\ getWeekNumber zoneWestInWinter isoDateParse
       (normalizeDate zoneWestInWinter isoDateParse (FromDate game))
       (normalizeDate zoneWestInWinter isoDateParse (FromDate seasonStart))
     = Some 1.
Proof. vm_compute. split; reflexivity. Qed.

Lemma Date_UTC_range (y m d : Num) (v : Z) :
  Date_UTC y m d = Some v -> Z.abs v <= maxTimeValue.
Proof.
  unfold Date_UTC, TimeClip. destruct y, m, d; try discriminate.
  destruct (Z.abs _ <=? maxTimeValue) eqn:E; [|discriminate].
  intros [= <-]. now apply Z.leb_le.
Qed.

Lemma normalizeDate_range (tz : Z) (dateParse : string -> JSDate)
    (input : DateInput) (v : Z) :
  normalizeDate tz dateParse input = Some v -> Z.abs v <= maxTimeValue.
Proof.
  unfold normalizeDate, normalizeDateLog.
  destruct (getTime (parsedDate tz dateParse input)); cbn [fst];
    apply Date_UTC_range.
Qed.

(** In a zone at or east of UTC every [Date] is normalized to a valid date. *)
Lemma normalizeDate_valid_east (tz : Z) (dateParse : string -> JSDate) (d : JSDate) :
  0 <= tz < msPerDay ->
  match d with Some t => Z.abs t <= maxTimeValue | None => True end ->
  exists v, normalizeDate tz dateParse (FromDate d) = Some v.
Proof.
  intros Htz Hd. destruct d as [t|].
  - unfold normalizeDate, normalizeDateLog, parsedDate. cbn [getTime fst].
    destruct (Date_UTC_of_fields_valid tz t) as (n & Hn);
      [lia | exact Hd | lia |].
    rewrite Hn. now eexists.
  - exists 0. reflexivity.
Qed.

Lemma getWeekNumber_some (tz : Z) (dateParse : string -> JSDate)
    (date seasonStartDate : JSDate) (a b : Z) :
  normalizeDate tz dateParse (FromDate date) = Some a ->
  normalizeDate tz dateParse (FromDate seasonStartDate) = Some b ->
  exists w, getWeekNumber tz dateParse date seasonStartDate = Some w /\ 1 <= w.
Proof.
  intros Ha Hb. unfold getWeekNumber. rewrite Ha, Hb.
  cbn [getTime num_sub num_floor_div num_add num_max1].
  eexists. split; [reflexivity | lia].
Qed.

Lemma Sorted_le_lt (l : list Z) :
  Sorted Z.le l -> NoDup l -> StronglySorted Z.lt l.
Proof.
  intros Hs Hnd. apply Sorted_StronglySorted in Hs; [|intros x y z; lia].
  induction Hs as [|x l Hs IH Hall]; [constructor|].
  inversion Hnd as [|? ? Hx Hnd']; subst.
  constructor; [now apply IH|].
  rewrite Forall_forall in *. intros y Hy.
  specialize (Hall y Hy).
  assert (x <> y) by (intros ->; contradiction). lia.
Qed.

(** In a zone at or east of UTC the weeks credited carry week numbers
    that are numbers, at least 1, in strictly ascending order, and each
    entry's dates are those that [getWeekDates] gives for its week. *)
Lemma creditedWeeks_sorted_by_week
    (tz : Z) (dateParse : string -> JSDate)
    (gameLogs : list PlayerGameLog) (purchaseDate : JSDate)
    (saleDate : option JSDate) (seasonStartDate : JSDate) :
  0 <= tz < msPerDay ->
  match seasonStartDate with
  | Some s => Z.abs s <= maxTimeValue
  | None => True
  end ->
  let result :=
    creditedWeeks tz dateParse gameLogs purchaseDate saleDate
                          seasonStartDate in
  exists weeks : list Z,
    map weekNumber result = map Some weeks
    /\ StronglySorted Z.lt weeks
    /\ Forall (fun w => 1 <= w) weeks
    /\ Forall (fun e =>
         let wd := getWeekDates tz (weekNumber e)
                     (normalizeDate tz dateParse (FromDate seasonStartDate)) in
         weekStartDate e = wd_start wd /\ weekEndDate e = wd_end wd) result.
Proof.
  intros Htz Hs result.
  destruct (calculateWeeklyPoints_perm tz dateParse gameLogs purchaseDate saleDate
              seasonStartDate) as (m & Hm & Hkeys & _).
  fold result in Hkeys.
  (* every key is a week number, at least 1 *)
  assert (Hsome : forall k, In k (map weekNumber result) ->
                            exists w, k = Some w /\ 1 <= w).
  { intros k Hk. apply (Permutation_in _ Hkeys) in Hk. rewrite Hm in Hk.
    apply (addGame_fold_keys tz dateParse seasonStartDate) in Hk.
    destruct Hk as [[]|(g & Hg & Hw)].
    apply filter_In in Hg. destruct Hg as [_ Hg].
    apply gameCounts_spec in Hg. destruct Hg as (gd & p & Hgd & _).
    unfold weekOfGame in Hw. rewrite Hgd in Hw.
    destruct (normalizeDate_valid_east tz dateParse seasonStartDate Htz Hs)
      as (ns & Hns).
    rewrite Hns in Hw.
    destruct (normalizeDate_valid_east tz dateParse (Some gd) Htz
                (normalizeDate_range _ _ _ _ Hgd)) as (a & Ha).
    destruct (normalizeDate_valid_east tz dateParse (Some ns) Htz
                (normalizeDate_range _ _ _ _ Hns)) as (b & Hb).
    destruct (getWeekNumber_some tz dateParse _ _ a b Ha Hb) as (w & Hgw & Hw1).
    exists w. split; [congruence | exact Hw1]. }
  assert (Hnd : NoDup (map weekNumber result)).
  { apply (Permutation_NoDup (Permutation_sym Hkeys)). rewrite Hm.
    apply addGame_fold_NoDup. constructor. }
  assert (Hmap : map weekNumber result = map Some (map weekOrZero result)).
  { rewrite map_map. apply map_ext_in. intros e He. unfold weekOrZero.
    destruct (Hsome (weekNumber e) (in_map _ _ _ He)) as (w & -> & _).
    reflexivity. }
  exists (map weekOrZero result). split; [exact Hmap|]. split; [|split].
  - apply Sorted_le_lt.
    + assert (Hsorted : Sorted (fun a b => weekOrZero a <= weekOrZero b) result).
      { clear Hmap Hnd Hkeys.
        assert (Hall : Forall (fun e => exists w, weekNumber e = Some w) result).
        { apply Forall_forall. intros e He.
          destruct (Hsome (weekNumber e) (in_map _ _ _ He)) as (w & Hw & _).
          now exists w. }
        assert (Hs0 : Sorted (fun a b => forall x y, weekNumber a = Some x ->
                              weekNumber b = Some y -> x <= y) result).
        { unfold result, creditedWeeks. apply jsSort_Sorted.
          - intros x y. unfold goesAfter, compareWeeks, num_sub.
            destruct (weekNumber x), (weekNumber y); try discriminate.
            intros H%Z.ltb_lt a b [= <-] [= <-]. lia.
          - intros x y. unfold goesAfter, compareWeeks, num_sub.
            intros H a b Ha Hb. rewrite Ha, Hb in H. apply Z.ltb_ge in H. lia. }
        clear Hsome. induction Hs0 as [|e l Hs0 IH Hhd]; [constructor|].
        inversion Hall as [|? ? (w & Hw) Hall']; subst.
        constructor; [now apply IH|].
        destruct Hhd as [|e' l' Hrel]; constructor.
        inversion Hall' as [|? ? (w' & Hw') _]; subst.
        unfold weekOrZero. rewrite Hw, Hw'. now apply Hrel. }
      clear -Hsorted. induction Hsorted as [|e l Hs IH Hhd]; [constructor|].
      cbn [map]. constructor; [exact IH|].
      destruct Hhd; cbn [map]; constructor. assumption.
    + rewrite Hmap in Hnd. apply NoDup_map_inv in Hnd. exact Hnd.
  - apply Forall_forall. intros w Hw. apply in_map_iff in Hw.
    destruct Hw as (e & <- & He). unfold weekOrZero.
    destruct (Hsome (weekNumber e) (in_map _ _ _ He)) as (w & -> & Hw1).
    exact Hw1.
  - apply Forall_forall. intros e He. unfold result, creditedWeeks in He.
    apply (Permutation_in _ (jsSort_perm compareWeeks _)) in He.
    apply in_map_iff in He. destruct He as ([k v] & <- & _).
    cbn. split; reflexivity.
Qed.

(* ------------------------------------------------------------------ *)
(** ** [calculateWeeklyPoints] as a whole *)

(** On any host, a date whose local reading is on or after 1 January 1970
    is normalized to the UTC midnight of its local day. *)
Lemma normalizeDate_local_day (tz : Zone) (dateParse : string -> JSDate) (t : Z) :
  0 <= LocalTime tz t < maxTimeValue + msPerDay ->
  normalizeDate tz dateParse (FromDate (Some t))
  = Some (Day (LocalTime tz t) * msPerDay).
Proof.
  intros Hlt. unfold normalizeDate, normalizeDateLog, parsedDate.
  cbn [getTime fst].
  unfold getFullYear, getMonth, getDate, option_map, Date_UTC.
  set (lt := LocalTime tz t) in *. unfold MakeFullYear.
  assert (Hday : 0 <= Day lt <= 100000000).
  { unfold Day, msPerDay, maxTimeValue in *. Z.div_mod_to_equations. lia. }
  pose proof (YearFromDay_since_epoch (Day lt) (proj1 Hday)) as Hy.
  fold (YearFromTime lt) in Hy.
  replace ((0 <=? YearFromTime lt) && (YearFromTime lt <=? 99)) with false
    by (symmetry; apply andb_false_iff; rewrite !Z.leb_gt; lia).
  rewrite MakeDay_of_fields. unfold MakeDate, MakeTime, TimeClip.
  rewrite Z.add_0_r.
  replace (Z.abs _ <=? _) with true; [reflexivity|].
  symmetry. apply Z.leb_le. unfold msPerDay, maxTimeValue in *. lia.
Qed.

(** A text is normalized as the date it is parsed to. *)
Lemma normalizeDate_of_text (tz : Zone) (dateParse : string -> JSDate)
    (s : string) (t : Z) :
  parsedDate tz dateParse (FromString s) = Some t ->
  normalizeDate tz dateParse (FromString s)
  = normalizeDate tz dateParse (FromDate (Some t)).
Proof.
  intros H. unfold normalizeDate, normalizeDateLog. rewrite H. reflexivity.
Qed.

(** C6 (fails on the code).  Five hours west of UTC, with the first instant
    a Date can hold as purchase date and a log of one game: the normalized
    purchase date is an Invalid Date, no game passes the filter, and
    [calculateWeeklyPoints] does not return the empty array: the log line
    that prints the normalized purchase date with [toISOString] throws. *)
Lemma calculateWeeklyPoints_throws_where_no_game_passes :
  let gameLogs := [mkGameLog "2024-10-25" 10] in
  let purchaseDate := Some (- maxTimeValue) in
  normalizeDate tzMinus5 isoDateParse (FromDate purchaseDate) = None
  /\ filter (isInRange tzMinus5 isoDateParse
               (normalizeDate tzMinus5 isoDateParse (FromDate purchaseDate)) None)
            gameLogs = []
  /\ calculateWeeklyPoints tzMinus5 isoDateParse gameLogs purchaseDate None
       (isoDateParse "2024-10-22") = None.
Proof. vm_compute. repeat split. Qed.

(** X28.  [calculateWeeklyPoints] throws exactly when the log is not empty
    and one of the dates its log lines print is an Invalid Date: the
    normalized purchase date, the normalized sale date, or the normalized
    date of the first or of the last game.  When it returns, it has
    credited exactly the games whose normalized date is on or after the
    normalized purchase date and, when there is a sale date, before the
    normalized sale date: the entry of each week holds the sum of the points
    of those games that fall in that week, a week has an entry exactly when
    such a game falls in it, no week has two entries, the entries add up to
    the points of all those games, and when no game passes the filter the
    result is the empty array.  In calendar terms, for dates from 1970 on a
    game counts exactly when its local day is not before the local day of
    the purchase and, when there is a sale, before the local day of the
    sale. *)
Theorem weekly_points_credit_the_games_of_the_period
    (tz : Zone) (dateParse : string -> JSDate)
    (gameLogs : list PlayerGameLog) (purchaseDate : JSDate)
    (saleDate : option JSDate) (seasonStartDate : JSDate) :
  let normalize := normalizeDate tz dateParse in
  let returned :=
    calculateWeeklyPoints tz dateParse gameLogs purchaseDate saleDate
                          seasonStartDate in
  (returned = None
   <-> exists first rest,
         gameLogs = first :: rest
         /\ (normalize (FromDate purchaseDate) = None
             \/ (exists sale, saleDate = Some sale
                              /\ normalize (FromDate sale) = None)
             \/ normalize (FromString (gl_date first)) = None
             \/ normalize (FromString (gl_date (last rest first))) = None))
  /\ (forall result,
        returned = Some result ->
        (forall w,
           pointsOfWeek w result
           = countedPointsInWeek tz dateParse purchaseDate saleDate
                                 seasonStartDate w gameLogs)
        /\ (forall w,
              In w (map weekNumber result)
              <-> exists game,
                    In game gameLogs
                    /\ GameCounts tz dateParse purchaseDate saleDate game
                    /\ weekOfGame tz dateParse seasonStartDate game = w)
        /\ NoDup (map weekNumber result)
        /\ sumZ (map wp_points result)
           = countedPoints tz dateParse purchaseDate saleDate gameLogs
        /\ ((forall game,
               In game gameLogs ->
               ~ GameCounts tz dateParse purchaseDate saleDate game)
            -> result = []))
  /\ (forall game g p,
        parsedDate tz dateParse (FromString (gl_date game)) = Some g ->
        purchaseDate = Some p ->
        0 <= LocalTime tz g < maxTimeValue + msPerDay ->
        0 <= LocalTime tz p < maxTimeValue + msPerDay ->
        match saleDate with
        | None =>
            GameCounts tz dateParse purchaseDate saleDate game
            <-> Day (LocalTime tz p) <= Day (LocalTime tz g)
        | Some (Some s) =>
            0 <= LocalTime tz s < maxTimeValue + msPerDay ->
            (GameCounts tz dateParse purchaseDate saleDate game
             <-> Day (LocalTime tz p) <= Day (LocalTime tz g) < Day (LocalTime tz s))
        | Some None =>
            ~ GameCounts tz dateParse purchaseDate saleDate game
        end).
Proof.
  intros normalize returned.
  assert (Hrun : returned
                 = if debugLogThrows tz dateParse (normalize (FromDate purchaseDate))
                        (option_map (fun s => normalize (FromDate s)) saleDate)
                        gameLogs
                   then None
                   else Some (creditedWeeks tz dateParse gameLogs purchaseDate
                                            saleDate seasonStartDate))
    by reflexivity.
  split; [|split].
  - rewrite Hrun. unfold debugLogThrows.
    destruct gameLogs as [|first rest].
    + split; [discriminate|]. intros (f & r & [=] & _).
    + replace (last (first :: rest) first) with (last rest first)
        by (destruct rest; reflexivity).
      fold normalize.
      destruct (normalize (FromDate purchaseDate)) as [np|] eqn:Ep;
        cbn [toISOStringThrows orb].
      2:{ split; [|reflexivity]. intros _. exists first, rest. auto. }
      assert (Hs : match option_map (fun s => normalize (FromDate s)) saleDate with
                   | Some sale => toISOStringThrows sale
                   | None => false
                   end = true
                   <-> exists sale, saleDate = Some sale
                                    /\ normalize (FromDate sale) = None).
      { destruct saleDate as [sale|]; cbn [option_map].
        - destruct (normalize (FromDate sale)) eqn:Es; cbn [toISOStringThrows].
          + split; [discriminate|]. intros (x & [= <-] & Hx). congruence.
          + split; [|reflexivity]. intros _. now exists sale.
        - split; [discriminate|]. intros (x & [=] & _). }
      destruct (match option_map (fun s => normalize (FromDate s)) saleDate with
                | Some sale => toISOStringThrows sale
                | None => false
                end) eqn:Esale; cbn [orb].
      { split; [|reflexivity]. intros _. exists first, rest.
        split; [reflexivity|]. right. left. now apply Hs. }
      assert (Hnosale : ~ exists sale, saleDate = Some sale
                                       /\ normalize (FromDate sale) = None).
      { intros H. apply Hs in H. discriminate. }
      destruct (normalize (FromString (gl_date first))) as [nf|] eqn:Ef;
        cbn [toISOStringThrows orb].
      2:{ split; [|reflexivity]. intros _. exists first, rest.
          split; [reflexivity|]. right. right. left. exact Ef. }
      destruct (normalize (FromString (gl_date (last rest first)))) as [nl|] eqn:El;
        cbn [toISOStringThrows].
      * split; [discriminate|].
        intros (f & r & [= <- <-] & [H|[H|[H|H]]]); congruence.
      * split; [|reflexivity]. intros _. exists first, rest.
        split; [reflexivity|]. right. right. right. exact El.
  - intros result Hres. rewrite Hrun in Hres.
    destruct (debugLogThrows _ _ _ _ _); [discriminate|].
    injection Hres as <-.
    pose proof (creditedWeeks_counts_games_in_period tz dateParse gameLogs
                  purchaseDate saleDate seasonStartDate) as H.
    cbv zeta in H. destruct H as (_ & H2 & H3 & H4 & H5 & H6).
    repeat split; try assumption; apply H3.
  - intros game g p Hg -> Hlg Hlp.
    assert (Ng : normalize (FromString (gl_date game))
                 = Some (Day (LocalTime tz g) * msPerDay)).
    { unfold normalize. rewrite (normalizeDate_of_text tz dateParse _ g Hg).
      now apply normalizeDate_local_day. }
    assert (Np : normalize (FromDate (Some p))
                 = Some (Day (LocalTime tz p) * msPerDay))
      by now apply normalizeDate_local_day.
    unfold GameCounts. fold normalize. rewrite Ng, Np.
    destruct saleDate as [[s|]|].
    + intros Hls.
      assert (Ns : normalize (FromDate (Some s))
                   = Some (Day (LocalTime tz s) * msPerDay))
        by now apply normalizeDate_local_day.
      split.
      * intros (g' & p' & [= <-] & [= <-] & Hle & [H|(sale & s' & [= <-] & Hs & Hlt)]);
          [discriminate|].
        rewrite Ns in Hs. injection Hs as <-.
        unfold msPerDay in *. lia.
      * intros [Hle Hlt]. do 2 eexists. split; [reflexivity|].
        split; [reflexivity|]. split; [unfold msPerDay; lia|].
        right. exists (Some s). eexists. split; [reflexivity|].
        split; [exact Ns | unfold msPerDay; lia].
    + intros (g' & p' & [= <-] & [= <-] & Hle & [H|(sale & s' & [= <-] & Hs & Hlt)]);
        [discriminate|].
      change (normalize (FromDate None)) with (Some 0) in Hs.
      injection Hs as <-.
      assert (0 <= Day (LocalTime tz g))
        by (unfold Day, msPerDay in *; Z.div_mod_to_equations; lia).
      unfold msPerDay in *. lia.
    + split.
      * intros (g' & p' & [= <-] & [= <-] & Hle & _). unfold msPerDay in *. lia.
      * intros Hle. do 2 eexists. split; [reflexivity|].
        split; [reflexivity|]. split; [unfold msPerDay; lia | now left].
Qed.

Lemma TimeClip_range (t v : Z) : TimeClip t = Some v -> Z.abs v <= maxTimeValue.
Proof.
  unfold TimeClip. destruct (Z.abs t <=? maxTimeValue) eqn:E; [|discriminate].
  intros [= <-]. now apply Z.leb_le.
Qed.

(** What is parsed from a text is a Date, when the host parser yields
    Dates. *)
Lemma parsedDate_range (tz : Zone) (dateParse : string -> JSDate)
    (s : string) (t : Z) :
  (forall s t, dateParse s = Some t -> Z.abs t <= maxTimeValue) ->
  parsedDate tz dateParse (FromString s) = Some t -> Z.abs t <= maxTimeValue.
Proof.
  intros Hparse. unfold parsedDate, Date_local.
  repeat match goal with
         | |- context [match ?x with _ => _ end] => destruct x
         end;
    try discriminate; try apply Hparse; apply TimeClip_range.
Qed.

(** In a zone at or east of UTC every text is normalized to a valid
    date. *)
Lemma normalizeDate_text_valid_east (tz : Z) (dateParse : string -> JSDate)
    (s : string) :
  0 <= tz < msPerDay ->
  (forall s t, dateParse s = Some t -> Z.abs t <= maxTimeValue) ->
  exists v, normalizeDate tz dateParse (FromString s) = Some v.
Proof.
  intros Htz Hparse.
  destruct (parsedDate tz dateParse (FromString s)) as [t|] eqn:E.
  - rewrite (normalizeDate_of_text tz dateParse s t E).
    apply (normalizeDate_valid_east tz dateParse (Some t) Htz).
    now apply (parsedDate_range tz dateParse s).
  - exists 0. unfold normalizeDate, normalizeDateLog. now rewrite E.
Qed.

(** X7.  On a host that keeps one offset, at or east of UTC, the entries
    returned by [calculateWeeklyPoints] carry week numbers that are numbers, at least 1,
    in strictly ascending order, and each entry's dates are those that
    [getWeekDates] gives for its week; and it does return there, whenever
    its dates are Dates and the host parser yields Dates. *)
Theorem calculateWeeklyPoints_is_sorted_by_week
    (tz : Z) (dateParse : string -> JSDate)
    (gameLogs : list PlayerGameLog) (purchaseDate : JSDate)
    (saleDate : option JSDate) (seasonStartDate : JSDate) :
  0 <= tz < msPerDay ->
  match seasonStartDate with
  | Some s => Z.abs s <= maxTimeValue
  | None => True
  end ->
  let returned :=
    calculateWeeklyPoints tz dateParse gameLogs purchaseDate saleDate
                          seasonStartDate in
  (forall result,
     returned = Some result ->
     exists weeks : list Z,
       map weekNumber result = map Some weeks
       /\ StronglySorted Z.lt weeks
       /\ Forall (fun w => 1 <= w) weeks
       /\ Forall (fun e =>
            let wd := getWeekDates tz (weekNumber e)
                        (normalizeDate tz dateParse (FromDate seasonStartDate)) in
            weekStartDate e = wd_start wd /\ weekEndDate e = wd_end wd) result)
  /\ ((forall s t, dateParse s = Some t -> Z.abs t <= maxTimeValue) ->
      match purchaseDate with Some p => Z.abs p <= maxTimeValue | None => True end ->
      match saleDate with
      | Some (Some s) => Z.abs s <= maxTimeValue
      | _ => True
      end ->
      exists result, returned = Some result).
Proof.
  intros Htz Hs returned. split.
  - intros result Hres. unfold returned in Hres.
    rewrite calculateWeeklyPoints_run in Hres.
    destruct (debugLogThrows _ _ _ _ _); [discriminate|]. injection Hres as <-.
    exact (creditedWeeks_sorted_by_week tz dateParse gameLogs purchaseDate saleDate
             seasonStartDate Htz Hs).
  - intros Hparse Hp Hsale. unfold returned.
    rewrite calculateWeeklyPoints_run, debugLogThrows_false; [now eexists | | |].
    + destruct (normalizeDate_valid_east tz dateParse purchaseDate Htz Hp)
        as (v & ->). discriminate.
    + intros sale ->.
      destruct (normalizeDate_valid_east tz dateParse sale Htz) as (v & ->);
        [now destruct sale | discriminate].
    + intros game _.
      destruct (normalizeDate_text_valid_east tz dateParse (gl_date game) Htz
                  Hparse) as (v & ->). discriminate.
Qed.

Lemma calculateWeeklyPoints_is_sorted_by_week_witness :
  exists result,
    calculateWeeklyPoints 0 isoDateParse
      [mkGameLog "2024-11-06" 7; mkGameLog "2024-10-23" 5]%string
      (isoDateParse "2024-10-22") None (isoDateParse "2024-10-22")
    = Some result
    /\ exists weeks : list Z,
         map weekNumber result = map Some weeks
         /\ StronglySorted Z.lt weeks
         /\ Forall (fun w => 1 <= w) weeks
         /\ Forall (fun e =>
              let wd := getWeekDates 0 (weekNumber e)
                          (normalizeDate 0 isoDateParse
                             (FromDate (isoDateParse "2024-10-22"))) in
              weekStartDate e = wd_start wd /\ weekEndDate e = wd_end wd) result.
Proof.
  assert (Htz : 0 <= 0 < msPerDay) by (unfold msPerDay; lia).
  assert (Hs : Z.abs 1729555200000 <= maxTimeValue) by (unfold maxTimeValue; lia).
  eexists. split; [vm_compute; reflexivity|].
  apply (calculateWeeklyPoints_is_sorted_by_week 0 isoDateParse
           [mkGameLog "2024-11-06" 7; mkGameLog "2024-10-23" 5]%string
           (Some 1729555200000) None (Some 1729555200000) Htz Hs).
  vm_compute. reflexivity.
Defined.

Lemma rosterPeriod_no_history (u : string) (row : PlayerOnTeamRow) :
  rosterPeriod [] u row = periodOfRosterRow u row.
Proof. reflexivity. Qed.

Lemma roster_fold_heldRows (m : PlayerHistoryMap) (rows : list PlayerOnTeamRow) :
  fold_left (processRosterRow m) rows []
  = map (fun ur => rosterPeriod m (fst ur) (snd ur)) (heldRows rows).
Proof.
  rewrite processRosterRow_fold. cbn [app]. unfold heldRows.
  induction rows as [|row rows IH]; [reflexivity|].
  cbn [flat_map]. rewrite map_app, IH.
  now destruct (truthy (pot_user_id row)).
Qed.

(** X8.  A failed roster query yields no period at all; a failed transaction
    query is read as no transaction, and then the result is one open period
    per roster row whose user resolves, in roster order, starting at the
    row's [purchased_at] (or [created_at]). *)
Theorem ownership_periods_when_a_query_fails :
  (forall transactionsQuery,
     getPlayerOwnershipPeriods QueryError transactionsQuery = [])
  /\ (forall rows,
        getPlayerOwnershipPeriods (QueryOk rows) QueryError
        = getPlayerOwnershipPeriods (QueryOk rows) (QueryOk []))
  /\ (forall rows,
        getPlayerOwnershipPeriods (QueryOk rows) QueryError
        = map (fun ur => periodOfRosterRow (fst ur) (snd ur)) (heldRows rows)).
Proof.
  split; [reflexivity|]. split.
  - intros rows. unfold getPlayerOwnershipPeriods, reconstructPeriods. reflexivity.
  - intros rows. unfold getPlayerOwnershipPeriods, reconstructPeriods.
    cbn [fold_left]. now rewrite roster_fold_heldRows.
Qed.

Lemma emitClosedPeriod_fold_closed (q : Z) (name : string)
    (history : list HistoryPeriod) (periods : list PlayerOwnershipPeriod) :
  exists emitted,
    fold_left (emitClosedPeriod q name) history periods = periods ++ emitted
    /\ Forall (fun p => saleDate p <> None /\ playerId p = q) emitted.
Proof.
  destruct (emitClosedPeriod_fold q name history periods) as (e & He & Hsub).
  exists e. split; [exact He|].
  apply Forall_forall. intros p Hp.
  apply (subseq_In _ _ p Hsub) in Hp. apply in_map_iff in Hp.
  destruct Hp as (h & <- & Hh). apply filter_In in Hh. destruct Hh as [_ Hc].
  unfold isClosed in Hc. unfold periodOfHistory. cbn.
  split; [|reflexivity]. destruct (h_saleDate h); [discriminate|discriminate].
Qed.

Lemma emitPlayerHistory_fold_closed (rows : list PlayerOnTeamRow)
    (transactions : option (list TransactionRow)) (m : PlayerHistoryMap)
    (periods : list PlayerOwnershipPeriod) :
  exists emitted,
    fold_left (emitPlayerHistory rows transactions) m periods = periods ++ emitted
    /\ Forall (fun p => saleDate p <> None /\ In (playerId p) (map_keys m)) emitted.
Proof.
  revert periods. induction m as [|[q hq] m IH]; intros periods.
  - exists []. split; [symmetry; apply app_nil_r | constructor].
  - cbn [fold_left]. unfold emitPlayerHistory at 2.
    destruct (emitClosedPeriod_fold_closed q (closedPeriodName rows transactions q)
                hq periods) as (e & He & Hall).
    rewrite He. destruct (IH (periods ++ e)) as (e' & He' & Hall').
    exists (e ++ e'). split; [now rewrite He', app_assoc|].
    apply Forall_app. split; eapply Forall_impl; try eassumption.
    + intros p [Hs Hp]. split; [exact Hs|]. left. now symmetry.
    + intros p [Hs Hp]. split; [exact Hs|]. now right.
Qed.

(** X9.  Whatever the transactions are, the result consists of one open period
    per roster row whose user resolves, in roster order and with the row's
    user, team, player and name, followed by closed periods only: a period
    is open exactly when it comes from the current roster. *)
Theorem open_periods_are_the_roster_rows
    (rows : list PlayerOnTeamRow) (transactionsQuery : QueryResult TransactionRow) :
  exists opened closed,
    getPlayerOwnershipPeriods (QueryOk rows) transactionsQuery = opened ++ closed
    /\ map (fun p => (userId p, teamId p, playerId p, playerName p, saleDate p))
           opened
       = map (fun ur => (fst ur, pot_team_id (snd ur), pot_player_id (snd ur),
                         pot_player_name (snd ur), None))
             (heldRows rows)
    /\ Forall (fun p => saleDate p <> None) closed.
Proof.
  unfold getPlayerOwnershipPeriods, reconstructPeriods.
  set (txs := match transactionsQuery with
              | QueryOk ts => Some ts
              | QueryError => None
              end).
  set (m := match txs with Some ts => buildHistory ts | None => [] end).
  rewrite roster_fold_heldRows.
  destruct (emitPlayerHistory_fold_closed rows txs m
              (map (fun ur => rosterPeriod m (fst ur) (snd ur)) (heldRows rows)))
    as (e & He & Hall).
  exists (map (fun ur => rosterPeriod m (fst ur) (snd ur)) (heldRows rows)), e.
  split; [exact He|]. split.
  - rewrite map_map. apply map_ext. intros [u row]. reflexivity.
  - eapply Forall_impl; [|exact Hall]. now intros p [H _].
Qed.

Lemma map_get_perm {V : Type} (k : Num) (l l' : JSMap Num V) :
  Permutation l l' -> NoDup (map_keys l) ->
  map_get num_eqb k l = map_get num_eqb k l'.
Proof.
  intros Hp Hnd.
  assert (Hnd' : NoDup (map_keys l')).
  { unfold map_keys. apply (Permutation_NoDup (Permutation_map fst Hp) Hnd). }
  destruct (map_get num_eqb k l) as [v|] eqn:E.
  - apply (map_get_In num_eqb num_eqb_eq) in E.
    symmetry. apply (In_map_get num_eqb num_eqb_eq); [exact Hnd'|].
    now apply (Permutation_in _ Hp).
  - destruct (map_get num_eqb k l') as [v|] eqn:E'; [|reflexivity].
    apply (map_get_In num_eqb num_eqb_eq) in E'.
    apply (Permutation_in _ (Permutation_sym Hp)) in E'.
    apply (In_map_get num_eqb num_eqb_eq _ _ _ Hnd) in E'. congruence.
Qed.

Lemma mapFromEntries_fold (l acc : list (Num * Z)) :
  NoDup (map fst (acc ++ l)) ->
  fold_left (fun m e => map_set num_eqb (fst e) (snd e) m) l acc = acc ++ l.
Proof.
  revert acc. induction l as [|[k v] l IH]; intros acc Hnd.
  - now rewrite app_nil_r.
  - cbn [fold_left fst snd].
    assert (Habs : map_set num_eqb k v acc = acc ++ [(k, v)]).
    { assert (Hk : ~ In k (map fst acc)).
      { rewrite map_app in Hnd. apply NoDup_remove_2 in Hnd.
        rewrite in_app_iff in Hnd. tauto. }
      clear -Hk. induction acc as [|[k' v'] acc IHa]; [reflexivity|].
      cbn [map_set]. destruct (num_eqb k' k) eqn:E.
      - apply num_eqb_eq in E. subst. exfalso. apply Hk. now left.
      - cbn [app]. f_equal. apply IHa. intros H. apply Hk. now right. }
    rewrite Habs, IH; rewrite <- app_assoc; [reflexivity | exact Hnd].
Qed.

(** The weekly breakdown written by [Object.fromEntries] and read back by
    [new Map(Object.entries(...))] holds the same points per week, with the
    weeks in ascending order of their numbers. *)
Lemma weekly_breakdown_round_trip (m : JSMap Num Z) :
  NoDup (map_keys m) ->
  Permutation (mapFromEntries (objectFromEntries m)) m
  /\ forall w, map_get num_eqb w (mapFromEntries (objectFromEntries m))
               = map_get num_eqb w m.
Proof.
  intros Hnd. unfold mapFromEntries, objectFromEntries.
  pose proof (jsSort_perm compareKeys m) as Hp.
  rewrite (mapFromEntries_fold (jsSort compareKeys m) []).
  - cbn [app]. split; [exact Hp|]. intros w. apply map_get_perm; [exact Hp|].
    unfold map_keys. apply (Permutation_NoDup (Permutation_sym (Permutation_map fst Hp))).
    exact Hnd.
  - cbn [app]. apply (Permutation_NoDup (Permutation_sym (Permutation_map fst Hp))).
    exact Hnd.
Qed.

Lemma upsertRow_absent (table : CacheTable) (row : CacheRow) :
  ~ In (cacheKey row) (map cacheKey table) -> upsertRow table row = table ++ [row].
Proof.
  induction table as [|r table IH]; intros H; [reflexivity|].
  cbn [upsertRow]. destruct (sameCacheKey r row) eqn:E.
  - apply sameCacheKey_eq in E. exfalso. apply H. left. exact E.
  - cbn [app]. f_equal. apply IH. intros Hin. apply H. now right.
Qed.

Lemma upsert_fold_fresh (rows : list CacheRow) (table : CacheTable) :
  NoDup (map cacheKey (table ++ rows)) ->
  fold_left upsertRow rows table = table ++ rows.
Proof.
  revert table. induction rows as [|r rows IH]; intros table Hnd.
  - now rewrite app_nil_r.
  - cbn [fold_left]. rewrite upsertRow_absent.
    + rewrite IH; rewrite <- app_assoc; [reflexivity | exact Hnd].
    + rewrite map_app in Hnd. apply NoDup_remove_2 in Hnd.
      rewrite in_app_iff in Hnd. tauto.
Qed.

(** X11.  Rankings saved to the cache are served back as long as every
    stamp they were saved with is not before the cutoff of the read, the
    instant the host assigns to the local time [maxAge] minutes before the
    local time of the read (on a host that keeps one offset, [maxAge]
    minutes before the read): each comes back with its user, team, name and
    total, and with the same points for every week; saved to an empty table,
    they are all that is served. *)
Theorem saved_rankings_are_read_back
    (tz : Zone) (clock : nat -> Z) (rankings : list TeamRanking)
    (table : CacheTable) (maxAgeMinutes now : Z) :
  NoDup (map (fun r => (r_userId r, r_teamId r)) rankings) ->
  (forall r, In r rankings -> NoDup (map_keys (weeklyBreakdown r))) ->
  rankings <> [] ->
  Z.abs (cacheCutoff tz maxAgeMinutes now) <= maxTimeValue ->
  (forall i, cacheCutoff tz maxAgeMinutes now <= clock i) ->
  let saved := saveRankingsToCache true clock rankings table in
  exists served,
    fst saved = true
    /\ getRankingsFromCache tz true maxAgeMinutes now (snd saved) = Some served
    /\ (forall r, In r rankings ->
          exists r', In r' served
            /\ rankingIdentity r' = rankingIdentity r
            /\ forall w, map_get num_eqb w (weeklyBreakdown r')
                         = map_get num_eqb w (weeklyBreakdown r))
    /\ (table = [] ->
        Permutation (map rankingIdentity served) (map rankingIdentity rankings)).
Proof.
  intros Hkeys Hweeks Hne Hrange Hfresh saved.
  set (cutoff := cacheCutoff tz maxAgeMinutes now) in *.
  set (notBefore := fun row => cutoff <=? c_calculated_at row).
  set (rows := rankingsData clock 0 rankings).
  assert (Hrows : NoDup (map cacheKey rows)).
  { unfold rows. now rewrite rankingsData_keys. }
  assert (Hsaved : saved = (true, fold_left upsertRow rows table)).
  { unfold saved, saveRankingsToCache. fold rows.
    now rewrite (hasRepeatedKey_false rows Hrows). }
  set (table' := fold_left upsertRow rows table) in *.
  assert (Hread : getRankingsFromCache tz true maxAgeMinutes now table'
                  = match jsSort compareCachedTotals (filter notBefore table') with
                    | [] => None
                    | data => Some (map rankingOfRow data)
                    end).
  { unfold getRankingsFromCache. rewrite setMinutes_back. fold cutoff.
    rewrite (TimeClip_in_range _ Hrange). fold notBefore.
    now destruct (jsSort _ _). }
  set (data := jsSort compareCachedTotals (filter notBefore table')) in *.
  assert (Hin : forall r, In r rankings ->
                exists j, In (rowOfRanking (clock j) r) data).
  { intros r Hr. destruct (In_nth_error _ _ Hr) as (j & Hj).
    exists j. pose proof (rankingsData_nth clock 0 j rankings r Hj) as Hrow.
    cbn [Nat.add] in Hrow. fold rows in Hrow.
    pose proof (upsert_fold_find_written rows table _ Hrows Hrow) as Hfind.
    fold table' in Hfind. unfold findRow in Hfind. apply find_some in Hfind.
    apply (Permutation_in _ (Permutation_sym (jsSort_perm compareCachedTotals _))).
    apply filter_In. split; [tauto|]. unfold notBefore, rowOfRanking. cbn.
    apply Z.leb_le. apply Hfresh. }
  assert (Hdata : data <> []).
  { destruct rankings as [|r l]; [contradiction|].
    destruct (Hin r (or_introl eq_refl)) as (j & Hj). intros E. now rewrite E in Hj. }
  exists (map rankingOfRow data). rewrite Hsaved. cbn [fst snd].
  split; [reflexivity|]. split; [|split].
  - rewrite Hread. destruct data; [contradiction | reflexivity].
  - intros r Hr. destruct (Hin r Hr) as (j & Hj).
    exists (rankingOfRow (rowOfRanking (clock j) r)).
    split; [now apply in_map|]. split; [reflexivity|].
    intros w. unfold rankingOfRow, rowOfRanking. cbn.
    apply weekly_breakdown_round_trip. now apply Hweeks.
  - intros ->. unfold data, table'.
    rewrite (upsert_fold_fresh rows []) by exact Hrows. cbn [app].
    rewrite map_map.
    assert (Hall : filter notBefore rows = rows).
    { apply forallb_filter_id. apply forallb_forall. intros row Hrow.
      unfold rows in Hrow. clear -Hrow Hfresh. revert Hrow.
      generalize 0%nat. induction rankings as [|r l IH]; intros i; [intros []|].
      cbn [rankingsData]. intros [<-|H]; [|now apply (IH (S i))].
      unfold notBefore. cbn. apply Z.leb_le. apply Hfresh. }
    rewrite Hall.
    transitivity (map (fun x => rankingIdentity (rankingOfRow x)) rows).
    + apply Permutation_map. apply jsSort_perm.
    + unfold rows. generalize 0%nat. clear.
      induction rankings as [|r l IH]; intros i; [constructor|].
      cbn [rankingsData map]. constructor. apply IH.
Qed.

(** Read twenty minutes after the clock of [zoneWithClockSetBack] was set
    back, with a maximal age of 30 minutes, rankings saved 80 minutes
    before the read are served back. *)
Lemma saved_rankings_are_read_back_witness :
  exists served,
    fst (saveRankingsToCache true (fun _ => 1729987200000) rankingsOfTwoTeams [])
    = true
    /\ getRankingsFromCache zoneWithClockSetBack true 30 1729992000000
         (snd (saveRankingsToCache true (fun _ => 1729987200000)
                 rankingsOfTwoTeams []))
       = Some served
    /\ (forall r, In r rankingsOfTwoTeams ->
          exists r', In r' served
            /\ rankingIdentity r' = rankingIdentity r
            /\ forall w, map_get num_eqb w (weeklyBreakdown r')
                         = map_get num_eqb w (weeklyBreakdown r))
    /\ ((@nil CacheRow : CacheTable) = [] ->
        Permutation (map rankingIdentity served)
                    (map rankingIdentity rankingsOfTwoTeams)).
Proof.
  assert (H1 : NoDup (map (fun r => (r_userId r, r_teamId r)) rankingsOfTwoTeams)).
  { repeat constructor; cbn; intuition discriminate. }
  assert (H2 : forall r, In r rankingsOfTwoTeams ->
                         NoDup (map_keys (weeklyBreakdown r))).
  { intros r [<-|[<-|[]]]; repeat constructor; cbn; intuition discriminate. }
  assert (H3 : rankingsOfTwoTeams <> []) by discriminate.
  assert (H4 : Z.abs (cacheCutoff zoneWithClockSetBack 30 1729992000000)
               <= maxTimeValue)
    by (vm_compute; discriminate).
  assert (H5 : forall i : nat,
             cacheCutoff zoneWithClockSetBack 30 1729992000000
             <= (fun _ : nat => 1729987200000) i)
    by (intros i; vm_compute; discriminate).
  exact (saved_rankings_are_read_back zoneWithClockSetBack (fun _ => 1729987200000)
           rankingsOfTwoTeams [] 30 1729992000000 H1 H2 H3 H4 H5).
Defined.

Lemma initRanking_fold_values (teams : list TeamRow) (m : JSMap string TeamRanking) :
  forall k r, In (k, r) (fold_left initRanking teams m) ->
    In (k, r) m \/ exists t, In t teams /\ r = rankingZero t.
Proof.
  revert m. induction teams as [|t teams IH]; intros m k r Hin; [now left|].
  cbn [fold_left] in Hin. apply IH in Hin. destruct Hin as [Hin|(t' & Ht' & ->)].
  - unfold initRanking in Hin. apply map_set_In in Hin.
    destruct Hin as [->|Hin]; [|now left].
    right. exists t. split; [now left | reflexivity].
  - right. exists t'. split; [now right | reflexivity].
Qed.

(** With a failed roster query there is no period to credit, and nothing
    that throws. *)
Lemma calculateRankings_without_roster
    (tz : Zone) (dateParse : string -> JSDate)
    (localeCompare : string -> string -> Z)
    (getPlayerAllGameLogs : Z -> list PlayerGameLog)
    (fetchOrder : list Z -> list Z)
    (teamsQuery : QueryResult TeamRow)
    (transactionsQuery : QueryResult TransactionRow) :
  calculateRankings tz dateParse localeCompare getPlayerAllGameLogs fetchOrder
    teamsQuery QueryError transactionsQuery
  = rankedTeams tz dateParse localeCompare getPlayerAllGameLogs fetchOrder
      teamsQuery QueryError transactionsQuery.
Proof.
  unfold calculateRankings, rankedTeams.
  destruct teamsQuery as [[|t teams]|]; reflexivity.
Qed.

(** X12.  A failed or empty team query yields an empty leaderboard; when the
    roster query fails there is no ownership period, and the leaderboard
    lists the owner of every team with zero points and an empty breakdown. *)
Theorem calculateRankings_when_a_query_fails
    (tz : Zone) (dateParse : string -> JSDate)
    (localeCompare : string -> string -> Z)
    (getPlayerAllGameLogs : Z -> list PlayerGameLog)
    (fetchOrder : list Z -> list Z) :
  let run := calculateRankings tz dateParse localeCompare getPlayerAllGameLogs
               fetchOrder in
  (forall playersQuery transactionsQuery,
     run QueryError playersQuery transactionsQuery = []
     /\ run (QueryOk []) playersQuery transactionsQuery = [])
  /\ (forall teams transactionsQuery r,
        In r (run (QueryOk teams) QueryError transactionsQuery) ->
        exists t, In t teams /\ r = rankingZero t)
  /\ (forall teams transactionsQuery t,
        In t teams ->
        exists r, In r (run (QueryOk teams) QueryError transactionsQuery)
                  /\ r_userId r = team_user_id t
                  /\ totalPoints r = 0 /\ weeklyBreakdown r = []).
Proof.
  intros run. split; [intros; split; reflexivity|].
  assert (Hrun : forall teams transactionsQuery,
    run (QueryOk teams) QueryError transactionsQuery
    = rankedTeams tz dateParse localeCompare getPlayerAllGameLogs fetchOrder
        (QueryOk teams) QueryError transactionsQuery)
    by (intros; apply calculateRankings_without_roster).
  assert (Hvalues : forall teams transactionsQuery r,
    In r (run (QueryOk teams) QueryError transactionsQuery) ->
    exists t, In t teams /\ r = rankingZero t).
  { intros teams transactionsQuery r Hr. rewrite Hrun in Hr.
    assert (Hne : teams <> []) by (intros ->; destruct Hr).
    pose proof (calculateRankings_perm tz dateParse localeCompare
                  getPlayerAllGameLogs fetchOrder teams QueryError
                  transactionsQuery Hne) as Hperm.
    cbv zeta in Hperm. apply (Permutation_in _ Hperm) in Hr.
    unfold map_values in Hr. apply in_map_iff in Hr.
    destruct Hr as ([k r'] & <- & Hin).
    cbn [getPlayerOwnershipPeriods] in Hin.
    unfold rankingsMapOf in Hin. cbn [fold_left] in Hin.
    apply initRanking_fold_values in Hin. destruct Hin as [[]|H]. exact H. }
  split; [exact Hvalues|].
  intros teams transactionsQuery t Ht.
  destruct (every_team_owner_ranked_once tz dateParse localeCompare
              getPlayerAllGameLogs fetchOrder teams QueryError transactionsQuery
              t Ht) as (r & Hr).
  assert (Hin : In r (filter (fun r0 => String.eqb (r_userId r0) (team_user_id t))
                        (run (QueryOk teams) QueryError transactionsQuery))).
  { rewrite Hrun, Hr. now left. }
  apply filter_In in Hin. destruct Hin as [Hin Hu]. apply String.eqb_eq in Hu.
  exists r. split; [exact Hin|]. split; [exact Hu|].
  destruct (Hvalues _ _ _ Hin) as (t' & _ & ->). split; reflexivity.
Qed.

Lemma closeFirstOpen_In (u t : string) (d : JSDate) (l : list HistoryPeriod)
    (h : HistoryPeriod) :
  In h (closeFirstOpen u t d l) ->
  In h l
  \/ exists p, In p l /\ isOpenPeriodOf u t p = true
               /\ h = mkHistory (h_userId p) (h_teamId p) (h_purchaseDate p) (Some d).
Proof.
  induction l as [|p l IH]; cbn [closeFirstOpen]; [tauto|].
  destruct (isOpenPeriodOf u t p) eqn:E.
  - intros [<-|H]; [|left; now right].
    right. exists p. split; [now left | auto].
  - intros [<-|H]; [left; now left|].
    destruct (IH H) as [H'|(q & Hq & Ho & ->)]; [left; now right|].
    right. exists q. split; [now right | auto].
Qed.

Lemma boughtIn_app (txs more : list TransactionRow) (pid : Z) (u t : string)
    (d : JSDate) :
  boughtIn txs pid u t d -> boughtIn (txs ++ more) pid u t d.
Proof.
  intros (tx & Hin & H). exists tx. split; [apply in_or_app; now left | exact H].
Qed.

Lemma soldIn_app (txs more : list TransactionRow) (pid : Z) (u t : string)
    (d : JSDate) :
  soldIn txs pid u t d -> soldIn (txs ++ more) pid u t d.
Proof.
  intros (tx & Hin & H). exists tx. split; [apply in_or_app; now left | exact H].
Qed.

(** Every entry of a player's history was opened by a processed purchase,
    and closed, if it is closed, by a processed purchase from its holder. *)
Lemma buildHistory_provenance (txs : list TransactionRow) (pid : Z)
    (h : HistoryPeriod) :
  In h (historyOf pid (buildHistory txs)) ->
  boughtIn txs pid (h_userId h) (h_teamId h) (h_purchaseDate h)
  /\ forall d, h_saleDate h = Some d ->
               soldIn txs pid (h_userId h) (h_teamId h) d.
Proof.
  revert h. induction txs as [|tx txs IH] using rev_ind; intros h Hin.
  - destruct Hin.
  - unfold buildHistory in Hin. rewrite fold_left_app in Hin. cbn [fold_left] in Hin.
    fold (buildHistory txs) in Hin.
    assert (Hold : forall h0, In h0 (historyOf pid (buildHistory txs)) ->
      boughtIn (txs ++ [tx]) pid (h_userId h0) (h_teamId h0) (h_purchaseDate h0)
      /\ forall d, h_saleDate h0 = Some d ->
                   soldIn (txs ++ [tx]) pid (h_userId h0) (h_teamId h0) d).
    { intros h0 H0. destruct (IH h0 H0) as [Hb Hs].
      split; [now apply boughtIn_app|]. intros d Hd. apply soldIn_app. now apply Hs. }
    destruct (Z.eq_dec pid (tx_player_id tx)) as [->|Hne].
    + destruct (truthy (tx_buyer_user_id tx)) as [buyer|] eqn:Eb;
        [destruct (truthy (tx_seller_user_id tx)) as [seller|] eqn:Es|].
      * rewrite (processTransaction_history _ tx buyer seller Eb Es) in Hin.
        apply in_app_or in Hin. destruct Hin as [Hin|[<-|[]]].
        -- apply closeFirstOpen_In in Hin.
           destruct Hin as [Hin|(p & Hp & Hopen & ->)]; [now apply Hold|].
           destruct (Hold p Hp) as [Hb _]. cbn. split; [exact Hb|].
           intros d [= <-]. exists tx.
           unfold isOpenPeriodOf in Hopen.
           apply andb_true_iff in Hopen. destruct Hopen as [Hopen _].
           apply andb_true_iff in Hopen. destruct Hopen as [Hu Ht].
           apply String.eqb_eq in Hu, Ht.
           split; [apply in_or_app; right; now left|].
           rewrite Es, Eb, Hu, Ht. repeat split; discriminate.
        -- cbn. split; [|discriminate]. exists tx.
           split; [apply in_or_app; right; now left|].
           rewrite Es, Eb. repeat split; discriminate.
      * assert (E : processTransaction (buildHistory txs) tx = buildHistory txs).
        { unfold processTransaction. now rewrite Eb, Es. }
        rewrite E in Hin. now apply Hold.
      * assert (E : processTransaction (buildHistory txs) tx = buildHistory txs).
        { unfold processTransaction. now rewrite Eb. }
        rewrite E in Hin. now apply Hold.
    + rewrite processTransaction_other in Hin by exact Hne. now apply Hold.
Qed.

Lemma emitPlayerHistory_fold_entries (rows : list PlayerOnTeamRow)
    (transactions : option (list TransactionRow)) (m : PlayerHistoryMap)
    (periods : list PlayerOwnershipPeriod) :
  exists emitted,
    fold_left (emitPlayerHistory rows transactions) m periods = periods ++ emitted
    /\ Forall (fun p => exists q hq h,
                 In (q, hq) m /\ In h hq /\ isClosed h = true
                 /\ p = periodOfHistory q (closedPeriodName rows transactions q) h)
              emitted.
Proof.
  revert periods. induction m as [|[q hq] m IH]; intros periods.
  - exists []. split; [symmetry; apply app_nil_r | constructor].
  - cbn [fold_left]. unfold emitPlayerHistory at 2.
    destruct (emitClosedPeriod_fold q (closedPeriodName rows transactions q)
                hq periods) as (e & He & Hsub).
    rewrite He. destruct (IH (periods ++ e)) as (e' & He' & Hall').
    exists (e ++ e'). split; [now rewrite He', app_assoc|].
    apply Forall_app. split.
    + apply Forall_forall. intros p Hp.
      apply (subseq_In _ _ p Hsub) in Hp. apply in_map_iff in Hp.
      destruct Hp as (h & <- & Hh). apply filter_In in Hh.
      exists q, hq, h. split; [now left | tauto].
    + eapply Forall_impl; [|exact Hall'].
      intros p (q' & hq' & h & Hin & H). exists q', hq', h.
      split; [now right | exact H].
Qed.

(** X10.  Every open period of the result comes from a roster row whose user
    resolves, and every closed period was opened by a processed purchase
    of the player by its holder and closed by a processed purchase from
    that holder: a holding that no purchase opened (a player's first owner)
    yields no period once the player has left that roster. *)
Theorem periods_come_from_the_roster_or_from_purchases
    (rows : list PlayerOnTeamRow) (transactionsQuery : QueryResult TransactionRow) :
  Forall (periodProvenance rows transactionsQuery)
         (getPlayerOwnershipPeriods (QueryOk rows) transactionsQuery).
Proof.
  unfold getPlayerOwnershipPeriods, reconstructPeriods.
  set (txs := match transactionsQuery with
              | QueryOk ts => Some ts
              | QueryError => None
              end).
  set (m := match txs with Some ts => buildHistory ts | None => [] end).
  rewrite roster_fold_heldRows.
  destruct (emitPlayerHistory_fold_entries rows txs m
              (map (fun ur => rosterPeriod m (fst ur) (snd ur)) (heldRows rows)))
    as (e & He & Hall).
  rewrite He. apply Forall_app. split.
  - apply Forall_forall. intros p Hp. apply in_map_iff in Hp.
    destruct Hp as ([u row] & <- & Hin). unfold heldRows in Hin.
    apply in_flat_map in Hin. destruct Hin as (row' & Hrow & Hin).
    destruct (truthy (pot_user_id row')) as [u'|] eqn:Eu; [|destruct Hin].
    destruct Hin as [[= <- <-]|[]].
    unfold periodProvenance, rosterPeriod. cbn.
    exists row'. auto.
  - eapply Forall_impl; [|exact Hall].
    intros p (q & hq & h & Hin & Hh & Hc & ->).
    unfold periodProvenance, periodOfHistory. cbn.
    unfold isClosed in Hc. destruct (h_saleDate h) as [d|] eqn:Ed; [|discriminate].
    destruct transactionsQuery as [ts|]; cbn in txs; subst txs; cbn in m; subst m;
      [|destruct Hin].
    exists ts. split; [reflexivity|].
    assert (Hhist : historyOf q (buildHistory ts) = hq).
    { unfold historyOf.
      now rewrite (In_map_get Z.eqb Z.eqb_eq q hq _ (buildHistory_NoDup ts) Hin). }
    rewrite <- Hhist in Hh.
    destruct (buildHistory_provenance ts q h Hh) as [Hb Hs].
    split; [exact Hb | now apply Hs].
Qed.

Lemma cellIndexOfFrom_absent (i : Z) (s : string) (cells : list Cell) :
  cellIndexOfFrom i s cells = -1 -> 0 <= i -> ~ In (CellString s) cells.
Proof.
  revert i. induction cells as [|c cells IH]; intros i H Hi; [tauto|].
  cbn [cellIndexOfFrom] in H. destruct (isCellString s c) eqn:E; [lia|].
  intros [->|Hin].
  - cbn in E. now rewrite String.eqb_refl in E.
  - apply (IH (i + 1)); [exact H | lia | exact Hin].
Qed.

Lemma cellIndexOfFrom_present (i : Z) (s : string) (cells : list Cell) :
  In (CellString s) cells -> 0 <= i ->
  let k := cellIndexOfFrom i s cells in
  i <= k /\ nth_error cells (Z.to_nat (k - i)) = Some (CellString s)
  /\ forall n, (n < Z.to_nat (k - i))%nat -> nth_error cells n <> Some (CellString s).
Proof.
  revert i. induction cells as [|c cells IH]; intros i Hin Hi; [destruct Hin|].
  cbn [cellIndexOfFrom]. destruct (isCellString s c) eqn:E.
  - destruct c; try discriminate. cbn in E. apply String.eqb_eq in E. subst.
    cbv zeta. rewrite Z.sub_diag. cbn. split; [lia|]. split; [reflexivity|].
    intros n Hn. lia.
  - destruct Hin as [->|Hin]; [cbn in E; now rewrite String.eqb_refl in E|].
    destruct (IH (i + 1) Hin ltac:(lia)) as (Hk & Hnth & Hfirst).
    cbv zeta. set (k := cellIndexOfFrom (i + 1) s cells) in *.
    split; [lia|].
    replace (Z.to_nat (k - i)) with (S (Z.to_nat (k - (i + 1)))) by lia.
    split; [exact Hnth|].
    intros [|n] Hn; cbn.
    + intros [= ->]. cbn in E. now rewrite String.eqb_refl in E.
    + apply Hfirst. lia.
Qed.

Lemma cellIndexOfFrom_none (i : Z) (s : string) (cells : list Cell) :
  ~ In (CellString s) cells -> cellIndexOfFrom i s cells = -1.
Proof.
  revert i. induction cells as [|c cells IH]; intros i H; [reflexivity|].
  cbn [cellIndexOfFrom]. destruct (isCellString s c) eqn:E.
  - destruct c; try discriminate. cbn in E. apply String.eqb_eq in E. subst.
    exfalso. apply H. now left.
  - apply IH. intros Hin. apply H. now right.
Qed.

(** X13.  The fetcher returns the empty log whenever it has no usable answer:
    a rejected request, a status outside 200-299, a body that is not JSON,
    no result set, or a first result set that lacks the GAME_DATE or the
    PTS column. *)
Theorem getPlayerAllGameLogs_is_empty_without_a_usable_answer
    (dateParse : string -> JSDate) :
  getPlayerAllGameLogs dateParse None = []
  /\ (forall response,
        responseOk response = false
        \/ resp_json response = None
        \/ resp_json response = Some None
        \/ resp_json response = Some (Some []) ->
        getPlayerAllGameLogs dateParse (Some response) = [])
  /\ (forall status headers rowSet rest,
        ~ In (CellString "GAME_DATE") headers \/ ~ In (CellString "PTS") headers ->
        getPlayerAllGameLogs dateParse
          (Some (mkNbaResponse status
                   (Some (Some (mkResultSet (Some headers) rowSet :: rest))))) = [])
  /\ (forall status rowSet rest,
        getPlayerAllGameLogs dateParse
          (Some (mkNbaResponse status
                   (Some (Some (mkResultSet None rowSet :: rest))))) = []).
Proof.
  split; [reflexivity|]. split; [|split].
  - intros response H. unfold getPlayerAllGameLogs.
    destruct (responseOk response); [|reflexivity]. cbn [negb].
    destruct H as [H|[H|[H|H]]]; [discriminate | | |]; now rewrite H.
  - intros status headers rowSet rest H. unfold getPlayerAllGameLogs.
    destruct (negb _); [reflexivity|]. cbn [resp_json rs_headers].
    unfold cellIndexOf.
    destruct H as [H|H]; rewrite (cellIndexOfFrom_none _ _ _ H); cbn [Z.eqb];
      [reflexivity | now rewrite orb_true_r].
  - intros status rowSet rest. unfold getPlayerAllGameLogs.
    destruct (negb _); reflexivity.
Qed.

(** X14.  On a usable answer the fetcher returns one game per row of the first
    result set: its date is the cell under the first GAME_DATE header, its
    points are the integer that [parseInt] reads from the text of the cell
    under the first PTS header (0 when it reads none), and when every date
    is valid the games are oldest first. *)
Theorem getPlayerAllGameLogs_returns_one_game_per_row
    (dateParse : string -> JSDate) (status : Z) (headers : list Cell)
    (rowSet : option (list (list Cell))) (rest : list ResultSet) :
  200 <= status <= 299 ->
  In (CellString "GAME_DATE") headers ->
  In (CellString "PTS") headers ->
  let rows := match rowSet with Some r => r | None => [] end in
  let games :=
    getPlayerAllGameLogs dateParse
      (Some (mkNbaResponse status
               (Some (Some (mkResultSet (Some headers) rowSet :: rest))))) in
  exists i j,
    nth_error headers i = Some (CellString "GAME_DATE")
    /\ (forall n, (n < i)%nat -> nth_error headers n <> Some (CellString "GAME_DATE"))
    /\ nth_error headers j = Some (CellString "PTS")
    /\ (forall n, (n < j)%nat -> nth_error headers n <> Some (CellString "PTS"))
    /\ Permutation games
         (map (fun row => mkFetchedGame (nth i row CellUndefined)
                            (pointsOfCell (nth j row CellUndefined))) rows)
    /\ List.length games = List.length rows
    /\ ((forall g, In g games -> dateOfCell dateParse (fg_date g) <> None) ->
        Sorted (notLaterThan dateParse) games).
Proof.
  intros Hstatus Hdate Hpts rows games.
  destruct (cellIndexOfFrom_present 0 "GAME_DATE" headers Hdate ltac:(lia))
    as (Hi & Hnthi & Hfirsti).
  destruct (cellIndexOfFrom_present 0 "PTS" headers Hpts ltac:(lia))
    as (Hj & Hnthj & Hfirstj).
  fold (cellIndexOf "GAME_DATE" headers) in *.
  fold (cellIndexOf "PTS" headers) in *.
  set (gi := cellIndexOf "GAME_DATE" headers) in *.
  set (pj := cellIndexOf "PTS" headers) in *.
  rewrite Z.sub_0_r in *.
  assert (Hgames : games = jsSort (compareGamesAscending dateParse)
                             (gamesOfRows gi pj rows)).
  { unfold games, getPlayerAllGameLogs, responseOk. cbn [resp_status resp_json].
    replace ((200 <=? status) && (status <=? 299)) with true
      by (symmetry; apply andb_true_iff; rewrite !Z.leb_le; lia).
    cbn [negb rs_headers rs_rowSet]. fold gi pj.
    replace (gi =? -1) with false by (symmetry; apply Z.eqb_neq; lia).
    replace (pj =? -1) with false by (symmetry; apply Z.eqb_neq; lia).
    reflexivity. }
  exists (Z.to_nat gi), (Z.to_nat pj).
  split; [exact Hnthi|]. split; [exact Hfirsti|].
  split; [exact Hnthj|]. split; [exact Hfirstj|].
  assert (Hperm : Permutation games (gamesOfRows gi pj rows)).
  { rewrite Hgames. apply jsSort_perm. }
  split; [exact Hperm|]. split.
  - rewrite (Permutation_length Hperm). unfold gamesOfRows. apply length_map.
  - intros _. rewrite Hgames. apply jsSort_Sorted.
    + intros x y. unfold goesAfter, compareGamesAscending, num_sub, getTime, notLaterThan.
      destruct (dateOfCell dateParse (fg_date x)),
               (dateOfCell dateParse (fg_date y)); try discriminate.
      intros H%Z.ltb_lt ta tb [= <-] [= <-]. lia.
    + intros x y. unfold goesAfter, compareGamesAscending, num_sub, getTime, notLaterThan.
      intros H ta tb Ha Hb. rewrite Ha, Hb in H. apply Z.ltb_ge in H. lia.
Qed.

Lemma getPlayerAllGameLogs_returns_one_game_per_row_witness :
  exists i j,
    nth_error [CellString "Game_ID"; CellString "GAME_DATE"; CellString "PTS"] i
    = Some (CellString "GAME_DATE")
    /\ (forall n, (n < i)%nat ->
          nth_error [CellString "Game_ID"; CellString "GAME_DATE"; CellString "PTS"] n
          <> Some (CellString "GAME_DATE"))
    /\ nth_error [CellString "Game_ID"; CellString "GAME_DATE"; CellString "PTS"] j
       = Some (CellString "PTS")
    /\ (forall n, (n < j)%nat ->
          nth_error [CellString "Game_ID"; CellString "GAME_DATE"; CellString "PTS"] n
          <> Some (CellString "PTS"))
    /\ Permutation (getPlayerAllGameLogs isoDateParse (Some answerOfTwoGames))
         (map (fun row => mkFetchedGame (nth i row CellUndefined)
                            (pointsOfCell (nth j row CellUndefined)))
              [ [CellString "0022400101"; CellString "2024-10-25"; CellNumber 31];
                [CellString "0022400061"; CellString "2024-10-23"; CellString "24"] ])
    /\ List.length (getPlayerAllGameLogs isoDateParse (Some answerOfTwoGames))
       = List.length
           [ [CellString "0022400101"; CellString "2024-10-25"; CellNumber 31];
             [CellString "0022400061"; CellString "2024-10-23"; CellString "24"] ]
    /\ ((forall g, In g (getPlayerAllGameLogs isoDateParse (Some answerOfTwoGames)) ->
                   dateOfCell isoDateParse (fg_date g) <> None) ->
        Sorted (notLaterThan isoDateParse)
          (getPlayerAllGameLogs isoDateParse (Some answerOfTwoGames))).
Proof.
  assert (H1 : 200 <= 200 <= 299) by lia.
  assert (H2 : In (CellString "GAME_DATE")
                  [CellString "Game_ID"; CellString "GAME_DATE"; CellString "PTS"])
    by (right; left; reflexivity).
  assert (H3 : In (CellString "PTS")
                  [CellString "Game_ID"; CellString "GAME_DATE"; CellString "PTS"])
    by (right; right; left; reflexivity).
  exact (getPlayerAllGameLogs_returns_one_game_per_row isoDateParse 200
           [CellString "Game_ID"; CellString "GAME_DATE"; CellString "PTS"]
           (Some [ [CellString "0022400101"; CellString "2024-10-25"; CellNumber 31];
                   [CellString "0022400061"; CellString "2024-10-23";
                    CellString "24"] ])
           [] H1 H2 H3).
Defined.

(** The points of a number cell, of a numeric text, and of the number
    10^21, whose text is in the exponent form. *)
Lemma pointsOfCell_examples :
  pointsOfCell (CellNumber 31) = 31
  /\ pointsOfCell (CellString "24") = 24
  /\ pointsOfCell (CellOther "1e+21" None) = 1
  /\ pointsOfCell (CellOther "12.5" (Some 12)) = 12
  /\ pointsOfCell CellNull = 0.
Proof. vm_compute. repeat split. Qed.

(** The answer of two games, run: the rows come back oldest first, the
    points read from a number and from a numeric text alike. *)
Lemma getPlayerAllGameLogs_example :
  getPlayerAllGameLogs isoDateParse (Some answerOfTwoGames)
  = [ mkFetchedGame (CellString "2024-10-23") 24;
      mkFetchedGame (CellString "2024-10-25") 31 ].
Proof. vm_compute. reflexivity. Qed.

Lemma lastIndexOfUser_none (u : string) (l : list TeamRanking) (i : nat) :
  lastIndexOfUser u l i = None
  <-> existsb (fun r => String.eqb (r_userId r) u) l = false.
Proof.
  revert i. induction l as [|r l IH]; intros i; cbn [lastIndexOfUser existsb];
    [tauto|].
  destruct (lastIndexOfUser u l (S i)) eqn:E.
  - split; [discriminate|]. intros H. apply orb_false_iff in H.
    destruct H as [_ H]. apply (IH (S i)) in H. congruence.
  - apply (IH (S i)) in E. rewrite E, orb_false_r.
    destruct (String.eqb (r_userId r) u); split; congruence.
Qed.

Lemma renameIfGeneric_userId (dn : string) (r : TeamRanking) :
  r_userId (renameIfGeneric dn r) = r_userId r.
Proof. unfold renameIfGeneric. now destruct (isGenericTeamName _). Qed.

(** With one ranking per user, changing the object that the map holds for
    a user changes the ranking of that user and no other. *)
Lemma updateAt_lastIndexOfUser (u : string) (f : TeamRanking -> TeamRanking)
    (computed current : list TeamRanking) (i k : nat) :
  NoDup (map r_userId computed) ->
  map r_userId current = map r_userId computed ->
  lastIndexOfUser u computed i = Some k ->
  (i <= k)%nat
  /\ updateAt (k - i) f current
     = map (fun r => if String.eqb (r_userId r) u then f r else r) current.
Proof.
  revert current i. induction computed as [|c computed IH]; intros current i Hnd Hids H;
    [discriminate|].
  destruct current as [|r current]; [discriminate|].
  cbn [map] in Hids. injection Hids as Hr Hids.
  inversion Hnd as [|? ? Hc Hnd']; subst.
  cbn [lastIndexOfUser] in H.
  destruct (lastIndexOfUser u computed (S i)) as [k'|] eqn:E.
  - injection H as ->.
    destruct (IH current (S i) Hnd' Hids E) as [Hle Hup].
    split; [lia|].
    replace (k - i)%nat with (S (k - S i)) by lia.
    cbn [updateAt map]. rewrite Hup.
    assert (Hne : String.eqb (r_userId r) u = false).
    { apply String.eqb_neq. intros Heq. apply Hc. rewrite <- Hr, Heq.
      assert (Hex : existsb (fun r0 => String.eqb (r_userId r0) u) computed = true).
      { destruct (existsb _ computed) eqn:Ex; [reflexivity|].
        apply (lastIndexOfUser_none u computed (S i)) in Ex. congruence. }
      apply existsb_exists in Hex. destruct Hex as (x & Hx & Hxu).
      apply String.eqb_eq in Hxu. rewrite <- Hxu. now apply in_map. }
    now rewrite Hne.
  - destruct (String.eqb (r_userId c) u) eqn:Ec; [|discriminate].
    injection H as <-. split; [lia|].
    rewrite Nat.sub_diag. cbn [updateAt map]. rewrite Hr, Ec. f_equal.
    apply (lastIndexOfUser_none u computed (S i)) in E.
    clear -E Hids. revert computed E Hids.
    induction current as [|x current IHc]; intros computed E Hids; [reflexivity|].
    destruct computed as [|y computed]; [discriminate|].
    cbn [map] in Hids. injection Hids as Hx Hids.
    cbn [existsb] in E. apply orb_false_iff in E. destruct E as [Ey E].
    cbn [map]. rewrite Hx, Ey. f_equal. now apply (IHc computed).
Qed.

(** The loop over the users listed, as a whole: every ranking computed stays
    in its place, renamed by the users that own it, and the users without a
    ranking are appended in the order listed. *)
Lemma addUser_fold (computed : list TeamRanking) (users : list ListedUser) :
  NoDup (map r_userId computed) ->
  fold_left (addUser computed) users computed
  = map (renamedFor users) computed
    ++ map rankingOfUser (unrankedUsers computed users).
Proof.
  intros Hnd.
  assert (H : forall (users : list ListedUser) (current added : list TeamRanking),
    map r_userId current = map r_userId computed ->
    fold_left (addUser computed) users (current ++ added)
    = map (renamedFor users) current
      ++ added ++ map rankingOfUser (unrankedUsers computed users)).
  { clear users. induction users as [|u users IH]; intros current added Hids.
    - cbn. now rewrite map_id, app_nil_r.
    - cbn [fold_left]. unfold addUser at 2.
      destruct (lastIndexOfUser (lu_id u) computed 0) as [k|] eqn:E.
      + assert (Hun : unrankedUsers computed (u :: users)
                      = unrankedUsers computed users).
        { unfold unrankedUsers. cbn [filter].
          destruct (existsb _ computed) eqn:Ex; [reflexivity|].
          apply (lastIndexOfUser_none (lu_id u) computed 0) in Ex. congruence. }
        rewrite Hun.
        destruct (updateAt_lastIndexOfUser (lu_id u)
                    (match truthy (Some (lu_displayName u)) with
                     | Some dn => renameIfGeneric dn
                     | None => fun r => r
                     end) computed current 0 k Hnd Hids E) as [_ Hup].
        rewrite Nat.sub_0_r in Hup.
        assert (Hlen : (k < List.length current)%nat).
        { assert (Hl : List.length current = List.length computed)
            by (rewrite <- (length_map r_userId current), Hids; apply length_map).
          rewrite Hl.
          assert (G : forall l (i k0 : nat),
                    lastIndexOfUser (lu_id u) l i = Some k0 ->
                    (k0 < i + List.length l)%nat).
          { induction l as [|r l IHl]; intros i k0 H; [discriminate|].
            cbn [lastIndexOfUser] in H.
            destruct (lastIndexOfUser (lu_id u) l (S i)) eqn:E'.
            - injection H as ->. apply IHl in E'. cbn [List.length]. lia.
            - destruct (String.eqb _ _); [|discriminate]. injection H as <-.
              cbn [List.length]. lia. }
          pose proof (G computed 0%nat k E). lia. }
        assert (Happ : forall (f : TeamRanking -> TeamRanking),
                  updateAt k f (current ++ added) = updateAt k f current ++ added).
        { intros f. clear -Hlen. revert k Hlen.
          induction current as [|x current IHc]; intros k Hlen;
            [cbn in Hlen; lia|].
          destruct k as [|k]; cbn [updateAt app]; [reflexivity|].
          f_equal. apply IHc. cbn in Hlen. lia. }
        set (g := fun r => if String.eqb (r_userId r) (lu_id u)
                           then match truthy (Some (lu_displayName u)) with
                                | Some dn => renameIfGeneric dn r
                                | None => r
                                end
                           else r).
        assert (Hstep : match truthy (Some (lu_displayName u)) with
                        | Some displayName =>
                            updateAt k (renameIfGeneric displayName) (current ++ added)
                        | None => current ++ added
                        end = map g current ++ added).
        { unfold g. destruct (truthy (Some (lu_displayName u))) as [dn|].
          - rewrite Happ, Hup. reflexivity.
          - f_equal. symmetry. rewrite <- (map_id current) at 2.
            apply map_ext. intros r. now destruct (String.eqb _ _). }
        rewrite Hstep, IH.
        * rewrite map_map. reflexivity.
        * rewrite map_map, <- Hids. apply map_ext. intros r. unfold g.
          destruct (String.eqb _ _); [|reflexivity].
          destruct (truthy _); [apply renameIfGeneric_userId | reflexivity].
      + assert (Hun : unrankedUsers computed (u :: users)
                      = u :: unrankedUsers computed users).
        { unfold unrankedUsers. cbn [filter].
          apply (lastIndexOfUser_none (lu_id u) computed 0) in E. now rewrite E. }
        rewrite Hun, <- app_assoc, IH by exact Hids.
        cbn [map app]. rewrite <- app_assoc. cbn [app].
        f_equal.
        apply map_ext_in. intros r Hr. unfold renamedFor. cbn [fold_left].
        replace (String.eqb (r_userId r) (lu_id u)) with false; [reflexivity|].
        symmetry. apply String.eqb_neq. intros Heq.
        apply (lastIndexOfUser_none (lu_id u) computed 0) in E.
        assert (Hex : existsb (fun r0 => String.eqb (r_userId r0) (lu_id u)) computed
                      = true).
        { assert (Hin : In (r_userId r) (map r_userId computed))
            by (rewrite <- Hids; now apply in_map).
          apply in_map_iff in Hin. destruct Hin as (c & Hc & Hcin).
          apply existsb_exists. exists c. split; [exact Hcin|].
          apply String.eqb_eq. congruence. }
        congruence. }
  specialize (H users computed [] eq_refl).
  rewrite app_nil_r in H. exact H.
Qed.

Lemma truthy_nonempty (o : option string) (s : string) :
  truthy o = Some s -> isEmpty s = false.
Proof.
  unfold truthy. destruct o as [x|]; [|discriminate].
  destruct (isEmpty x) eqn:E; [discriminate|]. now intros [= <-].
Qed.

Lemma truthy_of_nonempty (s : string) : isEmpty s = false -> truthy (Some s) = Some s.
Proof. intros H. unfold truthy. now rewrite H. Qed.

(** A user listed always has a display name. *)
Lemma displayNameOf_nonempty (user : AuthUser) : isEmpty (displayNameOf user) = false.
Proof.
  unfold displayNameOf.
  destruct (truthy (au_full_name user)) eqn:E1; [now apply truthy_nonempty in E1|].
  destruct (truthy (au_name user)) eqn:E2; [now apply truthy_nonempty in E2|].
  destruct (truthy (au_display_name user)) eqn:E3; [now apply truthy_nonempty in E3|].
  destruct (truthy (option_map emailLocalPart (au_email user))) eqn:E4;
    [now apply truthy_nonempty in E4 | reflexivity].
Qed.

Lemma teamNameOfUser_listed (user : AuthUser) :
  teamNameOfUser (listedUserOf user) = displayNameOf user.
Proof.
  unfold teamNameOfUser, listedUserOf. cbn [lu_displayName].
  now rewrite (truthy_of_nonempty _ (displayNameOf_nonempty user)).
Qed.

Lemma renamedFor_fields (users : list ListedUser) (r : TeamRanking) :
  r_userId (renamedFor users r) = r_userId r
  /\ r_teamId (renamedFor users r) = r_teamId r
  /\ totalPoints (renamedFor users r) = totalPoints r
  /\ weeklyBreakdown (renamedFor users r) = weeklyBreakdown r.
Proof.
  unfold renamedFor. revert r. induction users as [|u users IH]; intros r;
    [repeat split|].
  cbn [fold_left].
  set (r' := if String.eqb (r_userId r) (lu_id u) then _ else r).
  assert (H : r_userId r' = r_userId r /\ r_teamId r' = r_teamId r
              /\ totalPoints r' = totalPoints r
              /\ weeklyBreakdown r' = weeklyBreakdown r).
  { unfold r'. destruct (String.eqb _ _); [|repeat split].
    destruct (truthy _); [|repeat split].
    unfold renameIfGeneric. destruct (isGenericTeamName _); repeat split. }
  destruct (IH r') as (H1 & H2 & H3 & H4). destruct H as (G1 & G2 & G3 & G4).
  repeat split; congruence.
Qed.

Lemma renamedFor_not_listed (users : list ListedUser) (r : TeamRanking) :
  (forall u, In u users -> lu_id u <> r_userId r) -> renamedFor users r = r.
Proof.
  unfold renamedFor. induction users as [|u users IH]; intros H; [reflexivity|].
  cbn [fold_left].
  replace (String.eqb (r_userId r) (lu_id u)) with false.
  - apply IH. intros u' Hu'. apply H. now right.
  - symmetry. apply String.eqb_neq. intros Heq. apply (H u (or_introl eq_refl)).
    now symmetry.
Qed.

Lemma renamedFor_listed_once (users : list ListedUser) (r : TeamRanking)
    (u : ListedUser) :
  NoDup (map lu_id users) -> In u users -> lu_id u = r_userId r ->
  isEmpty (lu_displayName u) = false ->
  renamedFor users r = renameIfGeneric (lu_displayName u) r.
Proof.
  unfold renamedFor. revert r. induction users as [|x users IH];
    intros r Hnd Hin Hid Hdn; [destruct Hin|].
  inversion Hnd as [|? ? Hx Hnd']; subst. cbn [fold_left].
  destruct Hin as [->|Hin].
  - rewrite Hid, String.eqb_refl, (truthy_of_nonempty _ Hdn).
    apply renamedFor_not_listed. intros u' Hu' Heq.
    rewrite renameIfGeneric_userId in Heq. apply Hx. rewrite Hid, <- Heq.
    now apply in_map.
  - replace (String.eqb (r_userId r) (lu_id x)) with false; [now apply IH|].
    symmetry. apply String.eqb_neq. intros Heq. apply Hx.
    rewrite <- Heq, <- Hid. now apply in_map.
Qed.

Lemma jsSort_compareRankings_Sorted (localeCompare : string -> string -> Z)
    (l : list TeamRanking) :
  (forall a b, 0 < localeCompare a b -> localeCompare b a <= 0) ->
  Sorted (rankedBefore localeCompare) (jsSort (compareRankings localeCompare) l).
Proof.
  intros Hanti. apply jsSort_Sorted.
  - intros x y. unfold goesAfter, compareRankings, rankedBefore.
    destruct (totalPoints y =? totalPoints x) eqn:E; cbn [negb].
    + apply Z.eqb_eq in E. rewrite Z.ltb_lt. intros H. right.
      split; [exact E | now apply Hanti].
    + apply Z.eqb_neq in E. rewrite Z.ltb_lt. intros H. left. lia.
  - intros x y. unfold goesAfter, compareRankings, rankedBefore.
    destruct (totalPoints y =? totalPoints x) eqn:E; cbn [negb].
    + apply Z.eqb_eq in E. rewrite Z.ltb_ge. intros H. right.
      split; [now symmetry | exact H].
    + apply Z.eqb_neq in E. rewrite Z.ltb_ge. intros H. left. lia.
Qed.

Section LeaderboardFacts.

Variable tz : Zone.
Variable dateParse : string -> JSDate.
Variable localeCompare : string -> string -> Z.
Variable gameLogs : Z -> list PlayerGameLog.
Variable fetchOrder : list Z -> list Z.
Variable serviceRoleKey : option string.
Variable listUsers : QueryResult AuthUser.
Variable db : StoreSnapshot.

#[local] Abbreviation computed :=
  (calculateRankings tz dateParse localeCompare gameLogs fetchOrder
     (teamsQuery db) (playersQuery db) (transactionsQuery db)).
#[local] Abbreviation users := (listAllUsers serviceRoleKey listUsers).
#[local] Abbreviation answer :=
  (GET_ranking tz dateParse localeCompare gameLogs fetchOrder serviceRoleKey
     listUsers db).

Lemma GET_ranking_shape :
  rr_rankings answer
  = map entryOfRanking
      (jsSort (compareRankings localeCompare)
         (map (renamedFor users) computed
          ++ map rankingOfUser (unrankedUsers computed users)))
  /\ rr_totalUsers answer = Z.of_nat (List.length (rr_rankings answer))
  /\ rr_status answer = 200.
Proof.
  unfold GET_ranking. cbn [rr_rankings rr_totalUsers rr_status].
  rewrite addUser_fold by apply calculateRankings_users_distinct.
  split; [reflexivity|]. split; [|reflexivity]. now rewrite length_map.
Qed.

(** X15.  For users whose names are texts, the answer of the endpoint holds
    one entry per ranking computed, which keeps its user, team, total and
    weekly points, and one entry per listed user that has no ranking, with
    zero points, no week, the team id [user-<id>] and the user's display
    name; [totalUsers] counts both.  Without a service role key, or when the
    listing fails, the answer holds the computed rankings only. *)
Theorem leaderboard_lists_every_ranking_and_every_user :
  rr_totalUsers answer
  = Z.of_nat (List.length computed + List.length (unrankedUsers computed users))
  /\ (forall r, In r computed ->
        exists e, In e (rr_rankings answer)
          /\ e_userId e = r_userId r /\ e_teamId e = r_teamId r
          /\ e_totalPoints e = totalPoints r
          /\ e_weeklyBreakdown e = objectFromEntries (weeklyBreakdown r))
  /\ (forall account all,
        truthy serviceRoleKey <> None -> listUsers = QueryOk all ->
        In account all ->
        (forall r, In r computed -> r_userId r <> au_id account) ->
        In (mkRankingEntry (au_id account) ("user-" ++ au_id account)
                           (displayNameOf account) 0 [])
           (rr_rankings answer))
  /\ (truthy serviceRoleKey = None \/ listUsers = QueryError ->
      rr_rankings answer
      = map entryOfRanking (jsSort (compareRankings localeCompare) computed)).
Proof.
  destruct GET_ranking_shape as (Hshape & Htotal & Hstatus).
  split; [|split; [|split]].
  - rewrite Htotal, Hshape, length_map.
    rewrite (Permutation_length (jsSort_perm _ _)).
    now rewrite length_app, !length_map.
  - intros r Hr. exists (entryOfRanking (renamedFor users r)). split.
    + rewrite Hshape. apply in_map.
      apply (Permutation_in _ (Permutation_sym (jsSort_perm _ _))).
      apply in_or_app. left. now apply in_map.
    + destruct (renamedFor_fields users r) as (H1 & H2 & H3 & H4).
      unfold entryOfRanking. cbn. rewrite H1, H2, H3, H4. repeat split.
  - intros account all Hkey Hlist Hin Hnone.
    replace (mkRankingEntry (au_id account) ("user-" ++ au_id account)
               (displayNameOf account) 0 [])
      with (entryOfRanking (rankingOfUser (listedUserOf account)))
      by (unfold entryOfRanking, rankingOfUser; cbn;
          now rewrite teamNameOfUser_listed).
    rewrite Hshape. apply in_map.
    apply (Permutation_in _ (Permutation_sym (jsSort_perm _ _))).
    apply in_or_app. right. apply in_map. unfold unrankedUsers.
    apply filter_In. split.
    + unfold listAllUsers. rewrite Hlist.
      destruct (truthy serviceRoleKey); [now apply in_map | contradiction].
    + apply negb_true_iff. destruct (existsb _ _) eqn:E; [|reflexivity].
      apply existsb_exists in E. destruct E as (r & Hr & Heq).
      apply String.eqb_eq in Heq. exfalso. now apply (Hnone r Hr).
  - intros H. rewrite Hshape.
    assert (Hnil : users = []).
    { unfold listAllUsers. destruct H as [->| ->]; [reflexivity|].
      now destruct (truthy serviceRoleKey). }
    rewrite Hnil. cbn [unrankedUsers filter map]. rewrite app_nil_r.
    do 2 f_equal. rewrite <- (map_id computed) at 2. now apply map_ext.
Qed.

(** X16.  A ranking whose team name is generic (it starts with "Equipo de " or is
    "Usuario") is shown under the display name of its user when that user is
    listed; every other ranking keeps its team name. *)
Theorem leaderboard_shows_display_names_for_generic_team_names
    (all : list AuthUser) :
  truthy serviceRoleKey <> None -> listUsers = QueryOk all ->
  NoDup (map au_id all) ->
  forall r, In r computed ->
    exists e, In e (rr_rankings answer)
      /\ e_userId e = r_userId r /\ e_teamId e = r_teamId r
      /\ (forall account,
            In account all -> au_id account = r_userId r ->
            e_teamName e = if isGenericTeamName (r_teamName r)
                           then displayNameOf account
                           else r_teamName r)
      /\ ((forall account, In account all -> au_id account <> r_userId r) ->
          e_teamName e = r_teamName r).
Proof.
  intros Hkey Hlist Hnd r Hr.
  destruct GET_ranking_shape as (Hshape & _ & _).
  assert (Husers : users = map listedUserOf all).
  { unfold listAllUsers. rewrite Hlist.
    destruct (truthy serviceRoleKey); [reflexivity | contradiction]. }
  exists (entryOfRanking (renamedFor users r)). split.
  - rewrite Hshape. apply in_map.
    apply (Permutation_in _ (Permutation_sym (jsSort_perm _ _))).
    apply in_or_app. left. now apply in_map.
  - destruct (renamedFor_fields users r) as (H1 & H2 & _ & _).
    unfold entryOfRanking. cbn [e_userId e_teamId e_teamName].
    split; [exact H1|]. split; [exact H2|]. split.
    + intros account Hin Hid. rewrite Husers.
      rewrite (renamedFor_listed_once (map listedUserOf all) r (listedUserOf account)).
      * unfold renameIfGeneric. cbn [lu_displayName listedUserOf].
        now destruct (isGenericTeamName (r_teamName r)).
      * rewrite map_map. exact Hnd.
      * now apply in_map.
      * exact Hid.
      * apply displayNameOf_nonempty.
    + intros Hnone. rewrite renamedFor_not_listed; [reflexivity|].
      intros u Hu. rewrite Husers in Hu. apply in_map_iff in Hu.
      destruct Hu as (account & <- & Hin). now apply Hnone.
Qed.

(** X17.  For a host whose collation is a consistent comparison the entries of the
    answer are in the order of the leaderboard: points descending, equal
    points by team name ascending under that collation. *)
Theorem leaderboard_is_sorted :
  (forall a b, 0 < localeCompare a b -> localeCompare b a <= 0) ->
  (forall a b c, localeCompare a b <= 0 -> localeCompare b c <= 0 ->
                 localeCompare a c <= 0) ->
  StronglySorted (entryBefore localeCompare) (rr_rankings answer).
Proof.
  intros Hanti Htrans.
  destruct GET_ranking_shape as (Hshape & _ & _). rewrite Hshape.
  apply Sorted_StronglySorted.
  - intros a b c [H1|[H1 L1]] [H2|[H2 L2]]; unfold entryBefore.
    + left. lia.
    + left. lia.
    + left. lia.
    + right. split; [lia|]. eapply Htrans; eassumption.
  - apply Sorted_map.
    pose proof (jsSort_compareRankings_Sorted localeCompare
                  (map (renamedFor users) computed
                   ++ map rankingOfUser (unrankedUsers computed users)) Hanti) as Hs.
    exact Hs.
Qed.

End LeaderboardFacts.

(** The answer for the store of two teams and three users: the first team is
    shown under the display name of its user, the second keeps its name, and
    the user without a team closes the list. *)
Lemma leaderboard_example :
  (GET_ranking 0 isoDateParse codeUnitCompare logsOfPlayer1 (fun l => l)
     (Some "key") (QueryOk threeUsers) snapshotWithGenericName
   = mkRankingResponse 200 3
       [ mkRankingEntry "u1" "T1" "Ann" 20 [(Some 2, 20)];
         mkRankingEntry "u2" "T2" "Beta" 0 [];
         mkRankingEntry "u3" "user-u3" "cy" 0 [] ])%string.
Proof. vm_compute. reflexivity. Qed.

Lemma leaderboard_shows_display_names_witness :
  (exists e,
     In e (rr_rankings
             (GET_ranking 0 isoDateParse codeUnitCompare logsOfPlayer1 (fun l => l)
                (Some "key") (QueryOk threeUsers) snapshotWithGenericName))
     /\ e_userId e = "u1" /\ e_teamId e = "T1"
     /\ (forall account,
           In account threeUsers -> au_id account = "u1" ->
           e_teamName e = displayNameOf account)
     /\ ((forall account, In account threeUsers -> au_id account <> "u1") ->
         e_teamName e = "Equipo de u1"))%string.
Proof.
  assert (H1 : truthy (Some "key"%string) <> None) by discriminate.
  assert (H2 : NoDup (map au_id threeUsers)).
  { repeat constructor; cbn; intuition discriminate. }
  assert (H3 : In (mkRanking "u1" "T1" "Equipo de u1" 20 [(Some 2, 20)])%string
                  (rankedTeams 0 isoDateParse codeUnitCompare logsOfPlayer1
                     (fun l => l) (teamsQuery snapshotWithGenericName)
                     (playersQuery snapshotWithGenericName)
                     (transactionsQuery snapshotWithGenericName))).
  { vm_compute. left. reflexivity. }
  exact (leaderboard_shows_display_names_for_generic_team_names 0 isoDateParse
           codeUnitCompare logsOfPlayer1 (fun l => l) (Some "key"%string)
           (QueryOk threeUsers) snapshotWithGenericName threeUsers H1 eq_refl H2
           (mkRanking "u1" "T1" "Equipo de u1" 20 [(Some 2, 20)])%string H3).
Defined.

Lemma leaderboard_is_sorted_witness :
  StronglySorted (entryBefore codeUnitCompare)
    (rr_rankings
       (GET_ranking 0 isoDateParse codeUnitCompare logsOfPlayer1 (fun l => l)
          (Some "key"%string) (QueryOk threeUsers) snapshotWithGenericName)).
Proof.
  exact (leaderboard_is_sorted 0 isoDateParse codeUnitCompare logsOfPlayer1
           (fun l => l) (Some "key"%string) (QueryOk threeUsers)
           snapshotWithGenericName codeUnitCompare_antisym codeUnitCompare_trans).
Defined.

(* ================================================================== *)
(** * In-memory cache of provider answers *)

Lemma map_get_delete_same {V : Type} (k : string) (m : JSMap string V) :
  distinctKeys m -> map_get String.eqb k (map_delete String.eqb k m) = None.
Proof.
  unfold distinctKeys, map_keys. induction m as [|[k' v] m IH]; intros Hnd;
    [reflexivity|].
  inversion Hnd as [|? ? Hk Hnd']; subst. cbn [map_delete].
  destruct (String.eqb k' k) eqn:E.
  - apply String.eqb_eq in E. subst k'.
    apply (map_get_keys_none String.eqb String.eqb_eq). exact Hk.
  - cbn [map_get]. rewrite E. now apply IH.
Qed.

Lemma map_get_delete_other {V : Type} (k k' : string) (m : JSMap string V) :
  k' <> k -> map_get String.eqb k (map_delete String.eqb k' m)
             = map_get String.eqb k m.
Proof.
  intros Hne. induction m as [|[k0 v] m IH]; [reflexivity|].
  cbn [map_delete map_get]. destruct (String.eqb k0 k') eqn:E.
  - apply String.eqb_eq in E. subst k0.
    now rewrite (proj2 (String.eqb_neq k' k) Hne).
  - cbn [map_get]. destruct (String.eqb k0 k); [reflexivity | exact IH].
Qed.

Lemma map_delete_distinct {V : Type} (k : string) (m : JSMap string V) :
  distinctKeys m -> distinctKeys (map_delete String.eqb k m).
Proof.
  unfold distinctKeys, map_keys. induction m as [|[k' v] m IH]; intros Hnd;
    [constructor|].
  inversion Hnd as [|? ? Hk Hnd']; subst. cbn [map_delete].
  destruct (String.eqb k' k); [exact Hnd'|].
  cbn [map]. constructor; [|now apply IH].
  intros Hin. apply Hk. clear -Hin. induction m as [|[k0 v0] m IHm]; [destruct Hin|].
  cbn [map_delete] in Hin. destruct (String.eqb k0 k).
  - now right.
  - cbn [map] in *. destruct Hin as [H|H]; [now left | right; now apply IHm].
Qed.

(** X18.  A value stored is served until its time to live has passed: it is
    returned while [now - timestamp <= ttl] (one hour when no [ttl] was
    given), and the first [get] after that returns [null] and removes the
    entry, so that no later [get] returns it, whatever the clock reads. *)
Theorem cache_serves_a_value_until_it_expires
    (T : Type) (cache : SimpleCache.State T) (key : string) (value : T)
    (ttl : option Z) (stored now later : Z) :
  distinctKeys cache ->
  let life := match ttl with Some t => t | None => 3600000 end in
  let cache1 := SimpleCache.set stored key value ttl cache in
  (now - stored <= life ->
     SimpleCache.get now key cache1 = (Some value, cache1))
  /\ (life < now - stored ->
      fst (SimpleCache.get now key cache1) = None
      /\ fst (SimpleCache.get later key (snd (SimpleCache.get now key cache1)))
         = None).
Proof.
  intros Hnd life cache1.
  assert (Hget : map_get String.eqb key cache1
                 = Some (SimpleCache.mkCacheEntry T value stored life)).
  { unfold cache1, SimpleCache.set. apply (map_get_set_same String.eqb String.eqb_eq). }
  assert (Hnd1 : distinctKeys cache1).
  { unfold cache1, SimpleCache.set. now apply (map_set_NoDup String.eqb String.eqb_eq). }
  split.
  - intros Hlive. unfold SimpleCache.get. rewrite Hget. cbn.
    replace (life <? now - stored) with false; [reflexivity|].
    symmetry. apply Z.ltb_ge. lia.
  - intros Hdead. unfold SimpleCache.get at 1 3. rewrite Hget. cbn.
    replace (life <? now - stored) with true by (symmetry; apply Z.ltb_lt; lia).
    cbn. split; [reflexivity|].
    unfold SimpleCache.get. now rewrite map_get_delete_same.
Qed.

Lemma cache_serves_a_value_until_it_expires_witness :
  ((1500 - 1000 <= 3600000 ->
     SimpleCache.get 1500 "players"
       (SimpleCache.set 1000 "players" 7 None SimpleCache.empty)
     = (Some 7, SimpleCache.set 1000 "players" 7 None SimpleCache.empty))
  /\ (3600000 < 1500 - 1000 ->
      fst (SimpleCache.get 1500 "players"
             (SimpleCache.set 1000 "players" 7 None SimpleCache.empty)) = None
      /\ fst (SimpleCache.get 0 "players"
                (snd (SimpleCache.get 1500 "players"
                        (SimpleCache.set 1000 "players" 7 None SimpleCache.empty))))
         = None))%string.
Proof.
  assert (H : distinctKeys (@SimpleCache.empty Z)) by constructor.
  exact (cache_serves_a_value_until_it_expires Z SimpleCache.empty "players"%string 7 None
           1000 1500 0 H).
Defined.

(** X19.  The operations on one key leave the other keys alone: storing,
    deleting or reading (even when the reading removes an expired entry)
    under [key] does not change what the cache holds under another key;
    after [delete(key)] or [clear()] a [get] returns [null]; and the keys
    stay distinct. *)
Theorem cache_operations_touch_one_key
    (T : Type) (cache : SimpleCache.State T) (key other : string) (value : T)
    (ttl : option Z) (now t : Z) :
  distinctKeys cache ->
  (key <> other ->
     map_get String.eqb other (SimpleCache.set now key value ttl cache)
     = map_get String.eqb other cache
     /\ map_get String.eqb other (SimpleCache.delete key cache)
        = map_get String.eqb other cache
     /\ map_get String.eqb other (snd (SimpleCache.get now key cache))
        = map_get String.eqb other cache)
  /\ fst (SimpleCache.get t key (SimpleCache.delete key cache)) = None
  /\ fst (SimpleCache.get t key (SimpleCache.clear cache)) = None
  /\ distinctKeys (SimpleCache.set now key value ttl cache)
  /\ distinctKeys (SimpleCache.delete key cache)
  /\ distinctKeys (snd (SimpleCache.get now key cache)).
Proof.
  intros Hnd. split; [|split; [|split; [|split; [|split]]]].
  - intros Hne. split; [|split].
    + unfold SimpleCache.set. now apply (map_get_set_other String.eqb String.eqb_eq).
    + unfold SimpleCache.delete. now apply map_get_delete_other.
    + unfold SimpleCache.get. destruct (map_get String.eqb key cache) as [e|];
        [|reflexivity].
      cbv zeta. destruct (SimpleCache.ttl e <? now - SimpleCache.timestamp e);
        [|reflexivity].
      cbn [snd]. now apply map_get_delete_other.
  - unfold SimpleCache.get, SimpleCache.delete. now rewrite map_get_delete_same.
  - reflexivity.
  - unfold SimpleCache.set. now apply (map_set_NoDup String.eqb String.eqb_eq).
  - unfold SimpleCache.delete. now apply map_delete_distinct.
  - unfold SimpleCache.get. destruct (map_get String.eqb key cache) as [e|];
      [|exact Hnd].
    cbv zeta. destruct (SimpleCache.ttl e <? now - SimpleCache.timestamp e);
      [|exact Hnd].
    cbn [snd]. now apply map_delete_distinct.
Qed.

Lemma cache_operations_touch_one_key_witness :
  (("players" <> "scores" ->
     map_get String.eqb "scores"
       (SimpleCache.set 1000 "players" 7 None (@SimpleCache.empty Z))
     = map_get String.eqb "scores" (@SimpleCache.empty Z)
     /\ map_get String.eqb "scores" (SimpleCache.delete "players" (@SimpleCache.empty Z))
        = map_get String.eqb "scores" (@SimpleCache.empty Z)
     /\ map_get String.eqb "scores"
          (snd (SimpleCache.get 1000 "players" (@SimpleCache.empty Z)))
        = map_get String.eqb "scores" (@SimpleCache.empty Z))
  /\ fst (SimpleCache.get 5 "players"
            (SimpleCache.delete "players" (@SimpleCache.empty Z))) = None
  /\ fst (SimpleCache.get 5 "players" (SimpleCache.clear (@SimpleCache.empty Z))) = None
  /\ distinctKeys (SimpleCache.set 1000 "players" 7 None (@SimpleCache.empty Z))
  /\ distinctKeys (SimpleCache.delete "players" (@SimpleCache.empty Z))
  /\ distinctKeys (snd (SimpleCache.get 1000 "players" (@SimpleCache.empty Z))))%string.
Proof.
  assert (H : distinctKeys (@SimpleCache.empty Z)) by constructor.
  exact (cache_operations_touch_one_key Z SimpleCache.empty "players"%string "scores"%string 7 None
           1000 5 H).
Defined.

(* ================================================================== *)
(** * Player game log endpoint *)

(** [d.setDate(d.getDate() - k)] keeps the local time of day and moves the
    local calendar day back by [k]. *)
Lemma setDate_sub_days (tz : Zone) (t k : Z) :
  setDate tz (Some t) (num_sub (getDate tz (Some t)) (Some k))
  = TimeClip (UTC tz (LocalTime tz t - k * msPerDay)).
Proof.
  unfold setDate, getDate, option_map, num_sub.
  replace (DateFromTime (LocalTime tz t) - k)
    with (DateFromTime (LocalTime tz t) + - k) by lia.
  rewrite MakeDay_add_days, MakeDay_of_fields. do 2 f_equal.
  unfold MakeDate, Day, TimeWithinDay, msPerDay. Z.div_mod_to_equations. lia.
Qed.

(** Where the offset in force now is the one the host applies to the local
    time seven days earlier, as on a host that keeps one offset, the cutoff
    lies seven times 24 hours back. *)
Lemma sevenDaysBefore_same_offset (tz : Zone) (now : Z) :
  localOffset tz now = utcOffset tz (LocalTime tz now - 7 * msPerDay) ->
  sevenDaysBefore tz now = now - 7 * msPerDay.
Proof. unfold sevenDaysBefore, UTC, LocalTime. lia. Qed.

Lemma sum_fold_left (f : FetchedGame -> Z) (l : list FetchedGame) (acc : Z) :
  fold_left (fun sum game => sum + f game) l acc = acc + sumZ (map f l).
Proof.
  revert acc. induction l as [|g l IH]; intros acc; cbn [fold_left map].
  - unfold sumZ. cbn. lia.
  - rewrite IH. unfold sumZ. cbn [fold_right]. lia.
Qed.

(** X20.  A request without a numeric [playerId] is answered 400 whatever the
    provider would say: the answer does not depend on what a fetch yields
    nor on the time. *)
Theorem player_logs_rejects_a_bad_player_id_without_fetching
    (tz : Zone) (dateParse : string -> JSDate) (playerIdParam : option string)
    (fetched fetched' : Z -> option NbaResponse) (now now' : Z) :
  match truthy playerIdParam with
  | None => True
  | Some text => parseInt10 text = None
  end ->
  pl_status (GET_playerGameLogs tz dateParse playerIdParam fetched now) = 400
  /\ GET_playerGameLogs tz dateParse playerIdParam fetched now
     = GET_playerGameLogs tz dateParse playerIdParam fetched' now'.
Proof.
  intros H. unfold GET_playerGameLogs.
  destruct (truthy playerIdParam) as [text|]; [|split; reflexivity].
  rewrite H. split; reflexivity.
Qed.

Lemma player_logs_rejects_a_bad_player_id_witness :
  (pl_status (GET_playerGameLogs 0 isoDateParse (Some "abc")
                (fun _ => Some answerOfTwoGames) 1730000000000) = 400
   /\ GET_playerGameLogs 0 isoDateParse (Some "abc")
        (fun _ => Some answerOfTwoGames) 1730000000000
      = GET_playerGameLogs 0 isoDateParse (Some "abc") (fun _ => None) 0)%string.
Proof.
  exact (player_logs_rejects_a_bad_player_id_without_fetching 0 isoDateParse
           (Some "abc"%string) (fun _ => Some answerOfTwoGames) (fun _ => None)
           1730000000000 0 eq_refl).
Defined.

(** X21.  On a usable answer the endpoint answers 200 with the number of rows as
    [totalGames], the sum of the points of the games dated at or after the
    cutoff as [weeklyPoints] (a game without a valid date never counts), and
    as [lastGameDate] and [dailyPoints] the date and the points of one of
    the games, a most recent one when every date is valid; with no row these
    are [null] and 0.  The cutoff is the instant that the host assigns to
    the local time of the request seven calendar days earlier: seven times
    24 hours before the request on a host that keeps one offset. *)
Theorem player_logs_answers_the_recent_points
    (tz : Zone) (dateParse : string -> JSDate) (playerIdParam : option string)
    (text : string) (playerId : Z) (fetched : Z -> option NbaResponse) (now : Z)
    (status : Z) (headers : list Cell) (rowSet : option (list (list Cell)))
    (rest : list ResultSet) :
  truthy playerIdParam = Some text ->
  parseInt10 text = Some playerId ->
  fetched playerId
  = Some (mkNbaResponse status
            (Some (Some (mkResultSet (Some headers) rowSet :: rest)))) ->
  200 <= status <= 299 ->
  In (CellString "GAME_DATE") headers ->
  In (CellString "PTS") headers ->
  Z.abs (sevenDaysBefore tz now) <= maxTimeValue ->
  let rows := match rowSet with Some r => r | None => [] end in
  let games :=
    gamesOfRows (cellIndexOf "GAME_DATE" headers) (cellIndexOf "PTS" headers) rows in
  exists dailyPoints weeklyPoints lastGameDate,
    GET_playerGameLogs tz dateParse playerIdParam fetched now
    = mkPlayerLogsResponse 200
        (PlayerStats dailyPoints weeklyPoints lastGameDate
                     (Z.of_nat (List.length rows)))
    /\ weeklyPoints
       = sumZ (map fg_points (filter (inLastSevenDays tz dateParse now) games))
    /\ (localOffset tz now = utcOffset tz (LocalTime tz now - 7 * msPerDay) ->
        sevenDaysBefore tz now = now - 7 * msPerDay)
    /\ match lastGameDate with
       | None => rows = [] /\ dailyPoints = 0
       | Some date =>
           exists g, In g games /\ fg_date g = date /\ fg_points g = dailyPoints
             /\ ((forall g', In g' games ->
                    dateOfCell dateParse (fg_date g') <> None) ->
                 forall g' t t',
                   In g' games ->
                   dateOfCell dateParse (fg_date g) = Some t ->
                   dateOfCell dateParse (fg_date g') = Some t' -> t' <= t)
       end.
Proof.
  intros Hparam Hid Hfetch Hstatus Hdate Hpts Hrange rows games.
  destruct (cellIndexOfFrom_present 0 "GAME_DATE" headers Hdate ltac:(lia))
    as (Hi & _ & _).
  destruct (cellIndexOfFrom_present 0 "PTS" headers Hpts ltac:(lia))
    as (Hj & _ & _).
  fold (cellIndexOf "GAME_DATE" headers) in Hi.
  fold (cellIndexOf "PTS" headers) in Hj.
  set (sorted := jsSort (compareGamesDescending dateParse) games).
  assert (Hperm : Permutation sorted games) by apply jsSort_perm.
  exists (match sorted with g :: _ => fg_points g | [] => 0 end),
         (fold_left (fun sum game => sum + fg_points game)
            (filter (fun game => date_ge (dateOfCell dateParse (fg_date game))
                                         (Some (sevenDaysBefore tz now))) sorted) 0),
         (match sorted with g :: _ => Some (fg_date g) | [] => None end).
  split; [|split; [|split; [apply sevenDaysBefore_same_offset|]]].
  - unfold GET_playerGameLogs. rewrite Hparam, Hid, Hfetch.
    unfold responseOk. cbn [resp_status resp_json].
    replace ((200 <=? status) && (status <=? 299)) with true
      by (symmetry; apply andb_true_iff; rewrite !Z.leb_le; lia).
    cbn [negb rs_headers rs_rowSet].
    replace (cellIndexOf "GAME_DATE" headers =? -1) with false
      by (symmetry; apply Z.eqb_neq; lia).
    replace (cellIndexOf "PTS" headers =? -1) with false
      by (symmetry; apply Z.eqb_neq; lia).
    cbn [orb]. rewrite setDate_sub_days. fold (sevenDaysBefore tz now).
    rewrite (TimeClip_in_range _ Hrange).
    fold rows. fold games. fold sorted.
    do 3 f_equal. rewrite (Permutation_length Hperm).
    unfold games, gamesOfRows. now rewrite length_map.
  - rewrite sum_fold_left, Z.add_0_l.
    rewrite (filter_ext _ (inLastSevenDays tz dateParse now)).
    + apply sumZ_perm. apply Permutation_map. now apply filter_perm.
    + intros g. unfold date_ge, num_ge, inLastSevenDays.
      now destruct (dateOfCell dateParse (fg_date g)).
  - destruct sorted as [|g l] eqn:Es.
    + apply Permutation_nil in Hperm. split; [|reflexivity].
      unfold games, gamesOfRows in Hperm. now destruct rows.
    + exists g. split; [apply (Permutation_in _ Hperm); now left|].
      split; [reflexivity|]. split; [reflexivity|].
      intros Hvalid g' t t' Hg' Ht Ht'.
      assert (Hs : Sorted (fun a b => forall ta tb,
                     dateOfCell dateParse (fg_date a) = Some ta ->
                     dateOfCell dateParse (fg_date b) = Some tb -> tb <= ta)
                   (g :: l)).
      { rewrite <- Es. unfold sorted. apply jsSort_Sorted.
        - intros x y. unfold goesAfter, compareGamesDescending, num_sub, getTime.
          destruct (dateOfCell dateParse (fg_date x)),
                   (dateOfCell dateParse (fg_date y)); try discriminate.
          intros H%Z.ltb_lt ta tb [= <-] [= <-]. lia.
        - intros x y. unfold goesAfter, compareGamesDescending, num_sub, getTime.
          intros H ta tb Ha Hb. rewrite Ha, Hb in H. apply Z.ltb_ge in H. lia. }
      assert (Hall : forall x, In x (g :: l) ->
                exists tx, dateOfCell dateParse (fg_date x) = Some tx).
      { intros x Hx. apply (Permutation_in _ Hperm) in Hx.
        specialize (Hvalid x Hx).
        destruct (dateOfCell dateParse (fg_date x)) as [tx|]; [now exists tx|].
        contradiction. }
      apply (Permutation_in _ (Permutation_sym Hperm)) in Hg'.
      clear -Hs Hall Hg' Ht Ht'.
      revert g t Hs Hall Hg' Ht. induction l as [|x l IH]; intros g t Hs Hall Hg' Ht.
      * destruct Hg' as [<-|[]]. rewrite Ht in Ht'. injection Ht' as <-. lia.
      * destruct Hg' as [<-|Hg'].
        -- rewrite Ht in Ht'. injection Ht' as <-. lia.
        -- inversion Hs as [|? ? Hs' Hhd]; subst. inversion Hhd as [|? ? Hrel]; subst.
           destruct (Hall x (or_intror (or_introl eq_refl))) as (tx & Hx).
           specialize (Hrel t tx Ht Hx).
           assert (t' <= tx).
           { apply (IH x tx Hs'); [|exact Hg' | exact Hx].
             intros y Hy. apply Hall. now right. }
           lia.
Qed.

(** On a host two hours east of UTC that set its clock back less than seven
    days before the request, the cutoff lies seven days and one hour
    back. *)
Lemma player_logs_answers_the_recent_points_witness :
  exists dailyPoints weeklyPoints lastGameDate,
    GET_playerGameLogs zoneWithClockSetBack isoDateParse (Some "12"%string)
      (fun _ => Some answerOfTwoGames) 1730000000000
    = mkPlayerLogsResponse 200
        (PlayerStats dailyPoints weeklyPoints lastGameDate 2)
    /\ weeklyPoints = 31 + (24 + 0)
    /\ sevenDaysBefore zoneWithClockSetBack 1730000000000
       = 1730000000000 - 7 * msPerDay - 3600000.
Proof.
  assert (H1 : truthy (Some "12"%string) = Some "12"%string) by reflexivity.
  assert (H2 : parseInt10 "12" = Some 12) by reflexivity.
  assert (H3 : 200 <= 200 <= 299) by lia.
  assert (H4 : In (CellString "GAME_DATE")
                  [CellString "Game_ID"; CellString "GAME_DATE"; CellString "PTS"])
    by (right; left; reflexivity).
  assert (H5 : In (CellString "PTS")
                  [CellString "Game_ID"; CellString "GAME_DATE"; CellString "PTS"])
    by (right; right; left; reflexivity).
  assert (H6 : Z.abs (sevenDaysBefore zoneWithClockSetBack 1730000000000)
               <= maxTimeValue)
    by (vm_compute; discriminate).
  destruct (player_logs_answers_the_recent_points zoneWithClockSetBack isoDateParse
              (Some "12"%string) "12" 12 (fun _ => Some answerOfTwoGames)
              1730000000000 200
              [CellString "Game_ID"; CellString "GAME_DATE"; CellString "PTS"]
              (Some [ [CellString "0022400101"; CellString "2024-10-25"; CellNumber 31];
                      [CellString "0022400061"; CellString "2024-10-23";
                       CellString "24"] ])
              [] H1 H2 eq_refl H3 H4 H5 H6)
    as (d & w & l & Hget & Hw & _).
  exists d, w, l. split; [exact Hget|]. split; [exact Hw | reflexivity].
Defined.

(** The endpoint on the answer of two games, read three days after the
    later game. *)
Lemma player_logs_example :
  GET_playerGameLogs 0 isoDateParse (Some "12"%string)
    (fun _ => Some answerOfTwoGames) 1730000000000
  = mkPlayerLogsResponse 200
      (PlayerStats 31 55 (Some (CellString "2024-10-25")) 2).
Proof. vm_compute. reflexivity. Qed.

(* ================================================================== *)
(** * Team helpers and market endpoints *)

Ltac market_reject :=
  cbn [fst snd api_status api_body];
  rewrite ?filter_app;
  repeat match goal with
         | H : filter isMarketWrite _ = [] |- _ => rewrite H
         end;
  cbn [app filter isMarketWrite];
  repeat split; try discriminate; try (intros; reflexivity);
  try (let H := fresh in intros [H|[H|H]]; discriminate H).

Lemma getOrCreateUserTeam_writes (userId : string) (existing inserted : option UserTeam) :
  filter isMarketWrite (snd (getOrCreateUserTeam userId existing inserted)) = [].
Proof. unfold getOrCreateUserTeam. now destruct existing. Qed.

(** X22.  A player that may be sold at some time may be sold at any later time;
    a player without a purchase date or with the flag set may always be
    sold, and a bought player with the flag off may be sold exactly from
    seven days (604800000 ms) after the purchase on, never when the
    purchase date cannot be read. *)
Theorem canPlayerBeSold_only_turns_true
    (dateParse : string -> JSDate) (player : PlayerOnTeam) (now later : Z) :
  (now <= later ->
   canPlayerBeSold dateParse now player = true ->
   canPlayerBeSold dateParse later player = true)
  /\ (truthy (p_purchased_at player) = None \/ p_can_be_sold player = true ->
      canPlayerBeSold dateParse now player = true)
  /\ (forall text,
        truthy (p_purchased_at player) = Some text ->
        p_can_be_sold player = false ->
        canPlayerBeSold dateParse now player = true
        <-> exists purchaseDate,
              dateParse text = Some purchaseDate
              /\ purchaseDate + 604800000 <= now).
Proof.
  unfold canPlayerBeSold. split; [|split].
  - intros Hle. destruct (truthy (p_purchased_at player)); [|reflexivity].
    destruct (p_can_be_sold player); [reflexivity|].
    destruct (dateParse s); [|discriminate].
    rewrite !Z.leb_le. lia.
  - intros [-> | H]; [reflexivity|].
    destruct (truthy (p_purchased_at player)); [|reflexivity]. now rewrite H.
  - intros text -> ->. destruct (dateParse text) as [d|].
    + rewrite Z.leb_le. split.
      * intros H. exists d. split; [reflexivity | lia].
      * intros (d' & [= <-] & H). lia.
    + split; [discriminate|]. intros (d' & H & _). discriminate.
Qed.

Lemma sessionUser_errors (accessToken refreshToken session : option string)
    (e : MarketError) :
  sessionUser accessToken refreshToken session = inl e ->
  e = NotAuthenticated \/ e = InvalidSession.
Proof.
  unfold sessionUser.
  destruct (truthy accessToken), (truthy refreshToken), session;
    intros [= <-]; auto.
Qed.

Lemma count_with_id (id : string) (roster : list PlayerOnTeam) :
  NoDup (map p_id roster) ->
  (List.length (filter (fun p => String.eqb (p_id p) id) roster) <= 1)%nat.
Proof.
  induction roster as [|p roster IH]; intros Hnd; cbn [filter]; [cbn; lia|].
  inversion Hnd as [|? ? Hp Hnd']; subst.
  destruct (String.eqb (p_id p) id) eqn:E; [|now apply IH].
  apply String.eqb_eq in E. cbn [List.length].
  assert (Hnone : filter (fun q => String.eqb (p_id q) id) roster = []).
  { clear IH Hnd Hnd'. induction roster as [|q roster IHr]; [reflexivity|].
    cbn [filter]. destruct (String.eqb (p_id q) id) eqn:Eq.
    - apply String.eqb_eq in Eq. exfalso. apply Hp. left. congruence.
    - apply IHr. intros Hin. apply Hp. now right. }
  rewrite Hnone. cbn. lia.
Qed.

Lemma row_of_id (roster : list PlayerOnTeam) (p q : PlayerOnTeam) :
  NoDup (map p_id roster) -> In p roster -> In q roster -> p_id p = p_id q ->
  p = q.
Proof.
  induction roster as [|r roster IH]; intros Hnd Hp Hq Hid; [destruct Hp|].
  inversion Hnd as [|? ? Hr Hnd']; subst.
  destruct Hp as [-> | Hp], Hq as [-> | Hq].
  - reflexivity.
  - exfalso. apply Hr. rewrite Hid. now apply in_map.
  - exfalso. apply Hr. rewrite <- Hid. now apply in_map.
  - now apply IH.
Qed.

Lemma withStarter_count (id team : string) (flag : bool)
    (keep : PlayerOnTeam -> bool) (player : PlayerOnTeam)
    (roster : list PlayerOnTeam) :
  NoDup (map p_id roster) -> In player roster -> p_id player = id ->
  p_team_id player = team ->
  (forall p, p_is_starter p = flag -> keep p = true) ->
  (forall p, p_is_starter p = negb flag -> keep p = false) ->
  List.length (filter keep (withStarter id team flag roster))
  = (List.length (filter (fun p => keep p && negb (String.eqb (p_id p) id)) roster)
     + List.length (filter (fun p => String.eqb (p_id p) id) roster))%nat.
Proof.
  intros Hnd Hin Hid Hteam Hyes Hno. unfold withStarter.
  assert (Hrows : forall p, In p roster -> String.eqb (p_id p) id = true ->
                            String.eqb (p_team_id p) team = true).
  { intros p Hp E. apply String.eqb_eq in E.
    rewrite (row_of_id roster p player Hnd Hp Hin) by congruence.
    now apply String.eqb_eq. }
  clear Hnd Hin Hid Hteam.
  induction roster as [|p roster IH]; [reflexivity|].
  cbn [map filter]. destruct (String.eqb (p_id p) id) eqn:E.
  - rewrite (Hrows p (or_introl eq_refl) E). cbn [andb].
    rewrite Hyes by reflexivity. rewrite andb_false_r. cbn [List.length].
    rewrite IH by (intros q Hq; apply Hrows; now right). lia.
  - cbn [andb]. rewrite andb_true_r.
    destruct (keep p); cbn [List.length];
      rewrite IH by (intros q Hq; apply Hrows; now right); lia.
Qed.

(** X26.  A move answered 200 either finds the player already in place and sends
    no market write (no write but, possibly, the creation of the caller's
    team), or sends the one market write that changes the flag of a player
    of the caller's own team; once that write is applied to a roster whose row
    ids are distinct, a player moved to the starters leaves at most five
    starters and a player moved to the bench at most four on the bench.  A
    request answered 400, 401 or 404 sends no market write. *)
Theorem move_player_keeps_the_limits
    (accessToken refreshToken session playerId : option string)
    (isStarter : option bool) (db : MovePlayerStore) :
  NoDup (map p_id (getTeamPlayers (mp_roster db))) ->
  let out :=
    POST_movePlayer accessToken refreshToken session playerId isStarter db in
  let writes := filter isMarketWrite (snd out) in
  let roster := getTeamPlayers (mp_roster db) in
  (api_status (fst out) = 200 ->
     exists id flag player,
       truthy playerId = Some id /\ isStarter = Some flag
       /\ In player roster /\ p_id player = id
       /\ ((api_body (fst out) = AlreadyInPlace /\ writes = []
            /\ p_is_starter player = flag)
           \/ (exists team,
                 api_body (fst out) = PlayerMoved
                 /\ writes = [UpdateStarter id (ut_id team) flag]
                 /\ p_team_id player = ut_id team
                 /\ p_is_starter player = negb flag
                 /\ (flag = true ->
                     (List.length (startersOf (withStarter id (ut_id team) flag roster)) <= 5)%nat)
                 /\ (flag = false ->
                     (List.length (benchOf (withStarter id (ut_id team) flag roster)) <= 4)%nat))))
  /\ (api_status (fst out) = 400 \/ api_status (fst out) = 401
      \/ api_status (fst out) = 404 -> writes = []).
Proof.
  intros Hnd out writes roster. unfold writes, out, POST_movePlayer.
  pose proof (sessionUser_errors accessToken refreshToken session) as Hsession.
  destruct (sessionUser accessToken refreshToken session) as [e|userId] eqn:Es.
  { destruct (Hsession e eq_refl) as [-> | ->]; market_reject. }
  clear Hsession.
  destruct (truthy playerId) as [id|]; [|market_reject].
  destruct isStarter as [flag|]; [|market_reject].
  pose proof (getOrCreateUserTeam_writes userId (mp_existingTeam db)
                (mp_insertedTeam db)) as Hw0.
  destruct (getOrCreateUserTeam userId (mp_existingTeam db) (mp_insertedTeam db))
    as [[team|] w0]; cbn [snd] in Hw0; [|market_reject].
  fold roster.
  destruct (find (fun p => String.eqb (p_id p) id) roster) as [player|] eqn:Efind;
    [|market_reject].
  apply find_some in Efind. destruct Efind as [Hin Hid]. apply String.eqb_eq in Hid.
  destruct (Bool.eqb (p_is_starter player) flag) eqn:Esame.
  { apply Bool.eqb_prop in Esame.
    cbn [fst snd api_status api_body]. rewrite Hw0.
    split; [|intros [H|[H|H]]; discriminate H].
    intros _. exists id, flag, player. repeat split; try assumption.
    left. repeat split. exact Esame. }
  assert (Hflip : p_is_starter player = negb flag).
  { destruct (p_is_starter player), flag; try reflexivity; discriminate. }
  set (startersCount := List.length (filter (fun p => p_is_starter p
                          && negb (String.eqb (p_id p) id)) roster)).
  set (benchCount := List.length (filter (fun p => negb (p_is_starter p)
                        && negb (String.eqb (p_id p) id)) roster)).
  destruct (flag && negb (p_is_starter player) && (5 <=? Z.of_nat startersCount))
    eqn:Efull; [market_reject|].
  destruct (negb flag && p_is_starter player && (4 <=? Z.of_nat benchCount))
    eqn:Ebench; [market_reject|].
  destruct (String.eqb (p_team_id player) (ut_id team)) eqn:Eteam; cbn [negb];
    [|market_reject].
  apply String.eqb_eq in Eteam.
  destruct (mp_updateFails db); [market_reject|].
  cbn [fst snd api_status api_body]. rewrite filter_app, Hw0.
  cbn [app filter isMarketWrite].
  split; [|intros [H|[H|H]]; discriminate H].
  intros _. exists id, flag, player. repeat split; try assumption.
  right. exists team. repeat split; try assumption.
  - intros ->. unfold startersOf.
    rewrite (withStarter_count id (ut_id team) true p_is_starter player roster)
      by (try assumption; intros p Hp; cbn in *; congruence).
    fold startersCount.
    pose proof (count_with_id id roster Hnd) as Hone.
    rewrite Hflip in Efull. cbn in Efull. apply Z.leb_gt in Efull. lia.
  - intros ->. unfold benchOf.
    rewrite (withStarter_count id (ut_id team) false
               (fun p => negb (p_is_starter p)) player roster)
      by (try assumption; intros p Hp; cbn in *; now rewrite Hp).
    fold benchCount.
    pose proof (count_with_id id roster Hnd) as Hone.
    rewrite Hflip in Ebench. cbn in Ebench. apply Z.leb_gt in Ebench. lia.
Qed.

Lemma move_player_keeps_the_limits_witness :
  NoDup (map p_id (getTeamPlayers (QueryOk rosterOfSix)))
  /\ filter isMarketWrite
       (snd (POST_movePlayer (Some "a"%string) (Some "r"%string) (Some "u1"%string)
               (Some "r6"%string) (Some true)
               (mkMovePlayerStore (Some teamOfU1) None (QueryOk rosterOfSix) false)))
     = [].
Proof.
  assert (H : NoDup (map p_id (getTeamPlayers (QueryOk rosterOfSix)))).
  { repeat constructor; cbn; intuition discriminate. }
  split; [exact H|].
  apply (move_player_keeps_the_limits (Some "a"%string) (Some "r"%string)
           (Some "u1"%string) (Some "r6"%string) (Some true)
           (mkMovePlayerStore (Some teamOfU1) None (QueryOk rosterOfSix) false) H).
  left. reflexivity.
Defined.

(** The bench player of a team with five starters is refused as a sixth
    starter, and a starter of that team is moved to the bench. *)
Lemma move_player_examples :
  (POST_movePlayer (Some "a") (Some "r") (Some "u1") (Some "r6") (Some true)
     (mkMovePlayerStore (Some teamOfU1) None (QueryOk rosterOfSix) false)
   = (mkApiResponse 400 (Failure StartersFull), [])
   /\ POST_movePlayer (Some "a") (Some "r") (Some "u1") (Some "r1") (Some false)
        (mkMovePlayerStore (Some teamOfU1) None (QueryOk rosterOfSix) false)
      = (mkApiResponse 200 PlayerMoved, [UpdateStarter "r1" "T1" false]))%string.
Proof. vm_compute. split; reflexivity. Qed.

Lemma withStarter_ids (id team : string) (flag : bool) (roster : list PlayerOnTeam) :
  map p_id (withStarter id team flag roster) = map p_id roster.
Proof.
  unfold withStarter. rewrite map_map. apply map_ext. intros p.
  now destruct (String.eqb (p_id p) id && String.eqb (p_team_id p) team).
Qed.

Lemma withStarter_absent (id team : string) (flag : bool)
    (roster : list PlayerOnTeam) :
  ~ In id (map p_id roster) -> withStarter id team flag roster = roster.
Proof.
  unfold withStarter. induction roster as [|p roster IH]; intros Hno; [reflexivity|].
  cbn [map]. rewrite IH by (intros H; apply Hno; now right).
  destruct (String.eqb (p_id p) id) eqn:E; [|reflexivity].
  apply String.eqb_eq in E. exfalso. apply Hno. now left.
Qed.

Lemma withStarter_other (id team : string) (flag : bool) (p : PlayerOnTeam)
    (roster : list PlayerOnTeam) :
  In p roster -> p_id p <> id -> In p (withStarter id team flag roster).
Proof.
  intros Hin Hne. unfold withStarter. apply in_map_iff. exists p. split; [|exact Hin].
  now rewrite (proj2 (String.eqb_neq (p_id p) id) Hne).
Qed.

(** Changing the flag of the one row with a given id changes the number of
    starters and of bench players by that row alone. *)
Lemma withStarter_lengths (id team : string) (flag : bool) (player : PlayerOnTeam)
    (roster : list PlayerOnTeam) :
  NoDup (map p_id roster) -> In player roster -> p_id player = id ->
  p_team_id player = team ->
  Z.of_nat (List.length (startersOf (withStarter id team flag roster)))
  = Z.of_nat (List.length (startersOf roster)) + Z.b2z flag
    - Z.b2z (p_is_starter player)
  /\ Z.of_nat (List.length (benchOf (withStarter id team flag roster)))
     = Z.of_nat (List.length (benchOf roster)) + Z.b2z (negb flag)
       - Z.b2z (negb (p_is_starter player)).
Proof.
  intros Hnd Hin Hid Hteam.
  induction roster as [|r roster IH]; [destruct Hin|].
  inversion Hnd as [|? ? Hr Hnd']; subst.
  destruct Hin as [-> | Hin].
  - change (withStarter (p_id player) (p_team_id player) flag (player :: roster))
      with ((if String.eqb (p_id player) (p_id player)
                && String.eqb (p_team_id player) (p_team_id player)
             then mkPlayerOnTeamRow (p_id player) (p_team_id player)
                    (p_player_id player) (p_player_name player) flag
                    (p_purchase_price player) (p_release_clause player)
                    (p_purchased_at player) (p_can_be_sold player)
                    (p_owner_user_id player)
             else player)
            :: withStarter (p_id player) (p_team_id player) flag roster).
    rewrite !String.eqb_refl, withStarter_absent by exact Hr.
    unfold startersOf, benchOf. cbn [andb filter p_is_starter].
    destruct flag, (p_is_starter player); cbn [negb List.length Z.b2z]; lia.
  - assert (Hne : String.eqb (p_id r) (p_id player) = false).
    { apply String.eqb_neq. intros E. apply Hr. rewrite E. now apply in_map. }
    change (withStarter (p_id player) (p_team_id player) flag (r :: roster))
      with ((if String.eqb (p_id r) (p_id player)
                && String.eqb (p_team_id r) (p_team_id player)
             then mkPlayerOnTeamRow (p_id r) (p_team_id r) (p_player_id r)
                    (p_player_name r) flag (p_purchase_price r)
                    (p_release_clause r) (p_purchased_at r) (p_can_be_sold r)
                    (p_owner_user_id r)
             else r)
            :: withStarter (p_id player) (p_team_id player) flag roster).
    rewrite Hne. cbn [andb].
    destruct (IH Hnd' Hin) as [IHs IHb].
    unfold startersOf, benchOf in *. cbn [filter].
    destruct (p_is_starter r); cbn [negb List.length]; lia.
Qed.

(** X27.  A swap answered 200 exchanged a starter and a bench player of the
    caller's own team: its market writes are the call of the remote
    procedure alone, or that call followed by two more writes, the bench
    player to the starters first and the starter to the bench second; on a
    roster whose row ids are distinct these two writes leave the number of
    starters and the number of bench players as they were.  A request
    answered 401 or 404 sends no market write, and when the second write
    fails a third one puts the first player back on the bench. *)
Theorem swap_players_keeps_the_numbers_of_starters_and_bench
    (accessToken refreshToken session player1Id player2Id : option string)
    (db : SwapPlayersStore) :
  NoDup (map p_id (getTeamPlayers (sw_roster db))) ->
  let out :=
    POST_swapPlayers accessToken refreshToken session player1Id player2Id db in
  let writes := filter isMarketWrite (snd out) in
  let roster := getTeamPlayers (sw_roster db) in
  (api_status (fst out) = 200 ->
     exists id1 id2 team starter bench,
       truthy player1Id = Some id1 /\ truthy player2Id = Some id2
       /\ In starter roster /\ In bench roster
       /\ p_is_starter starter = true /\ p_is_starter bench = false
       /\ p_team_id starter = ut_id team /\ p_team_id bench = ut_id team
       /\ ((p_id starter = id1 /\ p_id bench = id2)
           \/ (p_id starter = id2 /\ p_id bench = id1))
       /\ api_body (fst out) = PlayersSwapped
       /\ (writes = [CallSwapPlayers id1 id2 (ut_id team)]
           \/ (writes = [ CallSwapPlayers id1 id2 (ut_id team);
                          UpdateStarter (p_id bench) (ut_id team) true;
                          UpdateStarter (p_id starter) (ut_id team) false ]
               /\ let roster' :=
                    withStarter (p_id starter) (ut_id team) false
                      (withStarter (p_id bench) (ut_id team) true roster) in
                  List.length (startersOf roster') = List.length (startersOf roster)
                  /\ List.length (benchOf roster') = List.length (benchOf roster))))
  /\ (api_status (fst out) = 401 \/ api_status (fst out) = 404 -> writes = [])
  /\ (api_body (fst out) = Failure SecondUpdateFailed ->
      exists call first second team,
        writes = [ call; UpdateStarter first team true;
                   UpdateStarter second team false;
                   UpdateStarter first team false ]).
Proof.
  intros Hnd out writes roster. unfold writes, out, POST_swapPlayers.
  pose proof (sessionUser_errors accessToken refreshToken session) as Hsession.
  destruct (sessionUser accessToken refreshToken session) as [e|userId] eqn:Es.
  { destruct (Hsession e eq_refl) as [-> | ->];
      cbn [fst snd api_status api_body filter];
      (split; [discriminate | split; [reflexivity | discriminate]]). }
  clear Hsession.
  destruct (truthy player1Id) as [id1|];
    [|cbn [fst snd api_status api_body filter];
      split; [discriminate | split; [reflexivity | discriminate]]].
  destruct (truthy player2Id) as [id2|];
    [|cbn [fst snd api_status api_body filter];
      split; [discriminate | split; [reflexivity | discriminate]]].
  pose proof (getOrCreateUserTeam_writes userId (sw_existingTeam db)
                (sw_insertedTeam db)) as Hw0.
  destruct (getOrCreateUserTeam userId (sw_existingTeam db) (sw_insertedTeam db))
    as [[team|] w0]; cbn [snd] in Hw0;
    [|cbn [fst snd api_status api_body]; rewrite Hw0;
      split; [discriminate | split; [intros [H|H]; discriminate H | discriminate]]].
  fold roster in Hnd |- *.
  destruct (find (fun p => String.eqb (p_id p) id1) roster) as [player1|] eqn:E1;
    [|cbn [fst snd api_status api_body]; rewrite Hw0;
      split; [discriminate | split; [reflexivity | discriminate]]].
  destruct (find (fun p => String.eqb (p_id p) id2) roster) as [player2|] eqn:E2;
    [|cbn [fst snd api_status api_body]; rewrite Hw0;
      split; [discriminate | split; [reflexivity | discriminate]]].
  apply find_some in E1. destruct E1 as [Hin1 Hid1]. apply String.eqb_eq in Hid1.
  apply find_some in E2. destruct E2 as [Hin2 Hid2]. apply String.eqb_eq in Hid2.
  destruct (negb (String.eqb (p_team_id player1) (ut_id team))
            || negb (String.eqb (p_team_id player2) (ut_id team))) eqn:Eteam;
    [cbn [fst snd api_status api_body]; rewrite Hw0;
     split; [discriminate | split; [reflexivity | discriminate]]|].
  apply orb_false_iff in Eteam. destruct Eteam as [Et1 Et2].
  apply negb_false_iff, String.eqb_eq in Et1.
  apply negb_false_iff, String.eqb_eq in Et2.
  destruct (Bool.eqb (p_is_starter player1) (p_is_starter player2)) eqn:Esame;
    [cbn [fst snd api_status api_body]; rewrite Hw0;
     split; [discriminate | split; [intros [H|H]; discriminate H | discriminate]]|].
  (* the two rows, as the starter and the bench player *)
  assert (Hroles : exists starter bench,
            In starter roster /\ In bench roster
            /\ p_is_starter starter = true /\ p_is_starter bench = false
            /\ p_team_id starter = ut_id team /\ p_team_id bench = ut_id team
            /\ ((p_id starter = id1 /\ p_id bench = id2)
                \/ (p_id starter = id2 /\ p_id bench = id1))
            /\ (if p_is_starter player1 && negb (p_is_starter player2)
                then (id2, id1) else (id1, id2)) = (p_id bench, p_id starter)).
  { destruct (p_is_starter player1) eqn:F1, (p_is_starter player2) eqn:F2;
      try discriminate; cbn [andb negb].
    - exists player1, player2. repeat split; try assumption; [now left | congruence].
    - exists player2, player1. repeat split; try assumption; [now right | congruence]. }
  destruct Hroles as (starter & bench & Hs & Hb & Fs & Fb & Ts & Tb & Hids & Horder).
  rewrite Horder.
  assert (Hkeep :
    let roster' :=
      withStarter (p_id starter) (ut_id team) false
        (withStarter (p_id bench) (ut_id team) true roster) in
    List.length (startersOf roster') = List.length (startersOf roster)
    /\ List.length (benchOf roster') = List.length (benchOf roster)).
  { cbv zeta.
    assert (Hne : p_id starter <> p_id bench).
    { intros E. rewrite (row_of_id roster starter bench Hnd Hs Hb E) in Fs.
      congruence. }
    destruct (withStarter_lengths (p_id bench) (ut_id team) true bench roster
                Hnd Hb eq_refl Tb) as [A1 B1].
    assert (Hnd1 : NoDup (map p_id (withStarter (p_id bench) (ut_id team) true roster)))
      by now rewrite withStarter_ids.
    destruct (withStarter_lengths (p_id starter) (ut_id team) false starter
                (withStarter (p_id bench) (ut_id team) true roster)
                Hnd1 (withStarter_other _ _ _ _ _ Hs Hne) eq_refl Ts) as [A2 B2].
    rewrite Fs, Fb in *. cbn [negb Z.b2z] in *. lia. }
  destruct (sw_rpc db) as [| |[| |[|] error|]];
    repeat match goal with
           | |- context [if ?b then _ else _] => destruct b
           end;
    cbn [fst snd api_status api_body]; rewrite !filter_app, Hw0;
    cbn [app filter isMarketWrite];
    (split; [|split; [intros [H|H]; discriminate H|]]);
    try discriminate;
    try (intros _; now eexists _, _, _, _);
    intros _; exists id1, id2, team, starter, bench;
    repeat split; try assumption;
    first [now left | right; split; [reflexivity | exact Hkeep]].
Qed.

Lemma swap_players_keeps_the_numbers_witness :
  NoDup (map p_id (getTeamPlayers (QueryOk rosterOfSix)))
  /\ (api_status
        (fst (POST_swapPlayers (Some "a"%string) (Some "r"%string) (Some "u1"%string)
                (Some "r1"%string) (Some "r9"%string)
                (mkSwapPlayersStore (Some teamOfU1) None (QueryOk rosterOfSix)
                                    RpcFailed false false))) = 401
      \/ api_status
           (fst (POST_swapPlayers (Some "a"%string) (Some "r"%string)
                   (Some "u1"%string) (Some "r1"%string) (Some "r9"%string)
                   (mkSwapPlayersStore (Some teamOfU1) None (QueryOk rosterOfSix)
                                       RpcFailed false false))) = 404)
  /\ filter isMarketWrite
       (snd (POST_swapPlayers (Some "a"%string) (Some "r"%string) (Some "u1"%string)
               (Some "r1"%string) (Some "r9"%string)
               (mkSwapPlayersStore (Some teamOfU1) None (QueryOk rosterOfSix)
                                   RpcFailed false false)))
     = [].
Proof.
  assert (H : NoDup (map p_id (getTeamPlayers (QueryOk rosterOfSix)))).
  { repeat constructor; cbn; intuition discriminate. }
  assert (H404 : api_status
           (fst (POST_swapPlayers (Some "a"%string) (Some "r"%string)
                   (Some "u1"%string) (Some "r1"%string) (Some "r9"%string)
                   (mkSwapPlayersStore (Some teamOfU1) None (QueryOk rosterOfSix)
                                       RpcFailed false false))) = 404)
    by reflexivity.
  split; [exact H|]. split; [right; exact H404|].
  apply (swap_players_keeps_the_numbers_of_starters_and_bench
           (Some "a"%string) (Some "r"%string) (Some "u1"%string)
           (Some "r1"%string) (Some "r9"%string)
           (mkSwapPlayersStore (Some teamOfU1) None (QueryOk rosterOfSix)
                               RpcFailed false false) H).
  right. exact H404.
Defined.

(** A starter and the bench player of a team are swapped by the two writes
    when the remote procedure fails, and by the procedure alone when it
    reports success. *)
Lemma swap_players_examples :
  (POST_swapPlayers (Some "a") (Some "r") (Some "u1") (Some "r1") (Some "r6")
     (mkSwapPlayersStore (Some teamOfU1) None (QueryOk rosterOfSix)
                         RpcFailed false false)
   = (mkApiResponse 200 PlayersSwapped,
      [ CallSwapPlayers "r1" "r6" "T1"; UpdateStarter "r6" "T1" true;
        UpdateStarter "r1" "T1" false ])
   /\ POST_swapPlayers (Some "a") (Some "r") (Some "u1") (Some "r1") (Some "r6")
        (mkSwapPlayersStore (Some teamOfU1) None (QueryOk rosterOfSix)
                            (RpcData (RvOutcome true None)) false false)
      = (mkApiResponse 200 PlayersSwapped, [CallSwapPlayers "r1" "r6" "T1"]))%string.
Proof. vm_compute. split; reflexivity. Qed.
